(* ===== verification/_CoqProject ===== *)
-Q . S2P
Prelude.v
GoNet.v
Endian.v
Dhcp4.v
Dhcp4Server.v
BridgeServices.v
DhcpRoutine.v
OS.v
Config.v
NetUtil.v
Iptables.v
Hostapd.v
Controller.v
ControllerSpec.v
SimOS.v
Killswitch.v
Machine.v
Startup.v
Server.v
Utf8.v
HclStrconv.v
HclToken.v
HclAst.v
StateM.v
HclScanner.v
HclScannerSpec.v
HclLex.v
HclParser.v
HclParserSpec.v
HclPrint.v
HclRoundTrip.v
HclJson.v
HclJsonSpec.v
HclDecoder.v
HclDecoderSpec.v
HclConfig.v
HclConfigSpec.v
Daemon.v
IptablesList.v
Netlink.v
NetlinkSpec.v
NetlinkBounds.v
NetlinkRoute.v
NetlinkRouteSpec.v
NetlinkRouteTrip.v
NetlinkRouteRead.v
NetlinkAddr.v
NetlinkExchange.v
NetlinkDefects.v
GoEncoding.v
DnsRR.v
Dns.v
DnsName.v
DnsNameSpec.v
DnsField.v
DnsZmsg.v
DnsMsg.v
DnsSafety.v
DnsCodec.v
DnsBitmap.v
DnsRecord.v
DnsRoundTrip.v
DnsPackSafety.v
DnsServer.v
DnsTcp.v
DnsMux.v
DnsWorkers.v
DnsDefects.v
