(* ===== verification/Prelude.v ===== *)
(** * Verification of the Research Net Daemon (rnd)

    rnd turns a Linux machine into an access point whose clients reach the
    internet through a VPN only.  It creates a bridge, runs hostapd, serves DHCP
    and DNS on the bridge, starts openvpn and switches IPv4 forwarding on only
    while the route to the internet goes through the VPN; a circuit breaker
    switches it off when the route leaves the VPN.  The sources are in Go under
    src/: the daemon's own (main.go, src/config, src/netctrl) and the libraries it
    is built with (src/github.com).

    ** Files

    Foundations.
    - [Prelude]: bytes and machine integers, Go's outcomes (a value, an error or a
      panic), slices with bounds checks.
    - [GoNet], [Utf8]: what the sources use of Go's standard library, in the
      behaviour of the release the README names: addresses, numbers, strings,
      UTF-8.  [Endian]: unsigned integers as bytes, in network order and in the
      order of the machine, which is a parameter.
    - [OS]: the operating system as a class of operations on a world about which
      nothing is assumed; [GM], the monad of the daemon's methods, threads the
      controller, the world and the trace of calls.  [StateM]: the monad of the
      scanners and parsers with its rules for total correctness.

    The DHCP service.
    - [Dhcp4], [Dhcp4Server]: github.com/krolaw/dhcp4 (packet.go, helpers.go,
      server.go).  The two Go interfaces of server.go are classes.
    - [BridgeServices], [Dns]: netctrl/bridgeServices.go, the DHCP handler and the
      DNS forwarder.  [DhcpRoutine]: netctrl/dhcpconn.go and the serving loop.

    The controller.
    - [NetUtil], [Iptables], [Hostapd]: netctrl/netutil.go, go-iptables, and
      netctrl/hostapd.  [IptablesList]: the functions of go-iptables that take
      apart what the program prints.
    - [Controller], [ControllerSpec]: netctrl/main.go and state.go, one definition
      per method, and the lemmas about them.  [Killswitch], [Startup]: what
      SetVPN, the breaker, NewController, the firewall, Close and GetState do.
    - [Machine]: the routines, the HTTP handlers, main and the environment as one
      step relation; invariants by induction on its runs.
    - [Server]: the HTTP handlers and main with its signal loop.
    - [SimOS]: a concrete world that satisfies every law that is assumed of the
      system; the witnesses run the model on it.

    The netlink library, github.com/vishvananda/netlink.
    - [Netlink]: the low level (nl/nl_linux.go, nl/addr_linux.go,
      nl/route_linux.go).  Headers, attributes with padding and children, requests,
      and Execute, which sends one and collects the answer, over a class of socket
      calls about which nothing is assumed.  Slices keep the bytes up to their
      capacity, which some reads reach.
    - [NetlinkRoute], [NetlinkAddr]: route.go, route_linux.go, addr_linux.go and
      nl/mpls_linux.go, nl/seg6_linux.go: routes with next hops, metrics, labels and
      segment routing, and addresses, as requests and as answers.
    - [NetlinkSpec], [NetlinkBounds], [NetlinkRouteSpec], [NetlinkRouteTrip],
      [NetlinkExchange], [NetlinkDefects]: theorems about them.  [NetlinkRouteRead]:
      the messages of the kernel on routes, as rtnetlink documents them, and what is
      read of them.

    The configuration.
    - [Config]: config.go, over any parser and decoder.
    - [HclToken], [HclAst], [HclStrconv], [HclScanner], [HclParser], [HclJson],
      [HclDecoder]: github.com/hashicorp/hcl, one file per package, one definition
      per function.  [HclConfig]: config.go over that library.
    - [HclScannerSpec], [HclLex], [HclParserSpec], [HclPrint], [HclRoundTrip],
      [HclJsonSpec], [HclDecoderSpec], [HclConfigSpec]: theorems about them.
    - [Daemon]: main on the bytes of its configuration file.

    The DNS library, github.com/miekg/dns.
    - [GoEncoding]: the hexadecimal, base32 and base64 encodings of Go's library.
    - [DnsRR]: types.go, ztypes.go, edns.go, dns.go and defaults.go as far as they
      declare data: the message, the header of a record, one constructor of [rdata]
      per record type, the options of the OPT record.
    - [DnsName], [DnsField], [DnsZmsg], [DnsMsg]: the wire format.  Names with
      escapes and compression (msg.go), the kinds of fields (msg_helpers.go and the
      options of edns.go), packing, unpacking and length of the 70 record types
      (zmsg.go, ztypes.go), headers, questions, sections and messages (msg.go,
      rawmsg.go).  A function returns a value and the next offset, an error with
      its offset, a panic, or [Hang] for a loop that does not end.
    - [DnsNameSpec], [DnsSafety], [DnsCodec], [DnsBitmap], [DnsRecord],
      [DnsRoundTrip], [DnsPackSafety]: theorems about it.
    - [DnsServer], [DnsWorkers]: the UDP loop of server.go, what is done with a
      datagram, composed with the forwarder of [Dns], and the pool of workers as a
      step relation.  [DnsTcp]: readTCP, serve and Write for TCP connections.
      [DnsMux]: labels.go and the ServeMux of server.go.  [DnsDefects]: return
      codes that are lost, and runs on messages that are handled wrongly.

    ** What the theorems show

    - The kill switch ([Killswitch], [Machine]): for every behaviour of the system,
      SetVPN leaves forwarding on exactly when it succeeds or an attempt to switch it
      off failed, which the code only logs, and switches it on only right after a
      route through the VPN's interface; in every interleaving forwarding is on only
      while a VPN is held, or as long as it could not be, or was not yet, switched
      off; SetVPN always answers, and shutting down completes, except where the
      breaker's check or Close panics.  Where the code falls short: the breaker that
      stays tripped, and its unlocked guard.
    - DHCP and DNS ([Dhcp4], [BridgeServices], [DhcpRoutine], [Dns]): packets and
      options round trip; the handler refines an abstract allocator, leases are
      unique, the handshake completes, every Discover and Request on the wire of a
      client without an address is answered, at the address of the /24 that ends in
      255; when the handler panics; what the forwarder answers.
    - The DNS wire format.  Unpacking any bytes ends without a panic, with every
      field in its range ([DnsSafety]); unpacking inverts packing for every
      well-formed message without compression ([DnsRoundTrip]); packing ends
      within the length computed beforehand, and panics exactly on a mistyped OPT
      record that an extended return code needs ([DnsPackSafety]); extended return
      codes below 256 are never sent ([DnsDefects]).
    - The DNS server ([DnsServer], [DnsWorkers]): from the bytes of a query to the
      bytes of the reply; malformed datagrams get a format error; serving never
      panics; every datagram that is long enough is handed over and served exactly
      once, the pool's counter is right and the pool drains.  A TCP connection is
      answered message by message as datagrams are, however the stream is cut, lengths
      aside ([DnsTcp]); the functions on labels take names apart as they were made,
      and the multiplexer chooses the closest zone for the first question
      ([DnsMux]).  [DnsDefects] shows messages that panic, are changed or get no reply.
    - Netlink.  Serializing never writes out of range, and parsing the attributes
      gives them back ([NetlinkSpec]); on any buffer of whole words parsing stays in
      the buffer ([NetlinkBounds]); routes ([NetlinkRouteTrip]) come back from the
      request as they were sent, and so do addresses ([NetlinkAddr]), flags of eight
      bits and the prefix of a peer aside; a message that describes a route, its
      attributes in any order and unknown ones among them, reads as that route
      ([NetlinkRouteRead]); whatever way the kernel spreads its answer over
      datagrams, RouteGet and RouteListFiltered return the routes it describes,
      RouteAdd the kernel's verdict, and the socket is closed ([NetlinkExchange]).
      [NetlinkDefects] shows what is lost and what panics.
    - The environment ([Startup], [Hostapd], [Server]): the firewall rules and
      their order, the state a new controller starts in and what failed starts
      leave behind, hostapd's configuration file and status, the answers of
      /setVPN.
    - Configuration files.  The scanner returns a token from every state it can be
      in and loses no byte of the text ([HclScannerSpec]); both parsers end for
      every text and the HCL parser never panics ([HclConfigSpec]); parsing
      inverts a reference printer ([HclRoundTrip]) and so does unquoting
      ([HclStrconv]); decoding the tree of a printed value gives the value back
      ([HclDecoderSpec]); flattening JSON trees with a work list equals flattening by recursion
      ([HclJsonSpec]); loading inverts printing a configuration, the sample files
      load to what they say, and the mistakes that crash the daemon or go
      unreported are exhibited ([HclConfigSpec]); from the file to the running VPN
      ([Daemon]).

    ** Bounds

    Waiting loops of the controller take a number of turns; [None] is a routine
    that is still waiting.  [Killswitch.SetVPN_ends] gives the number that is
    enough when the timers fire.  Loops of the scanners take as many turns as there
    are bytes left, the methods of the parsers as many calls as four times the
    bytes and two (eight for JSON) allow: every token takes at least one byte, and
    the theorems that they end are part of the development.  Reading a name takes at
    most eleven passes over the message, one more than the pointers that are
    followed, so eleven times its length and two turns are enough; the other loops
    of the wire format take one turn per byte ([DnsSafety.Unpack_total] shows that
    none of them runs out).  The loops over labels take one turn per byte, and the
    loop of a TCP connection one per byte that arrives, as every message takes some
    ([DnsMux.match_settled], [DnsTcp.serve_connection]).  Loops over netlink attributes, messages and next hops
    take as many turns as there are bytes, each taking at least four; the loop of
    Execute takes a number of turns, of which one per datagram of the answer is
    enough ([NetlinkExchange]).  An int has 64 bits in the decoder;
    where the width matters elsewhere it is a parameter.

    ** Assumptions

    Laws of the kernel, the timers and iptables are classes ([Forwarding],
    [Timers], [RuleTable], [Calls]) with [SimOS] as an instance.  [Forwarding] says
    what reading and writing ip_forward mean when they succeed; both may fail, and a
    failed write changes nothing.  [Calls], which only shutting down needs, says that
    the calls of the routines and of Close return instead of panicking and that a
    route lookup gives a route or an error.  The Unicode tables and the
    conversion of decimal fractions are classes ([Unicode], [Floats]) without laws,
    except that [FoldsAscii] says what strings.EqualFold does on ASCII texts.  What
    the kernel answers on a netlink socket is a hypothesis of the theorems about
    exchanges ([exchange], [describes]), which a kernel with its answers ready
    satisfies.

    ** Not modelled

    golang.org/x, encoding/json and net/http are only called: their calls are
    operations of the world or arguments.  So are netlink's calls in the model of the
    controller, where links have names; of netlink, links, rules, filters, IPsec,
    subscriptions, timeouts, handles with sockets of their own and network
    namespaces are not modelled, nor are nil next hops, empty slices that are not nil
    and the String and Equal methods of routes.
    The file server for static files and the web pages are left out.  Of miekg/dns,
    what the daemon does not use: the client, listeners and their shutdown, TLS,
    TSIG and DNSSEC, transfers and updates, zone files and printing; handlers of a
    TCP connection reply and neither close it nor take it over, and writes to it
    succeed.  The round trip
    of messages is stated without compression, whose encoding is modelled; that
    packing confuses some compressed names is shown in [DnsDefects].  Goroutines
    of the DNS server interleave in [DnsWorkers] by messages, not by bytes of the
    socket.  Of the HCL decoder,
    interfaces and embedded structures, which the configuration does not have; of
    the HCL library, the printer and the formatter, which the daemon does not call.
    Logging and tracing are left out everywhere. *)

From Stdlib Require Import ZArith Lia NArith Ascii Strings.Byte.
From stdpp Require Import base numbers gmap strings list fin_maps.

(** ** Bytes as machine integers *)

Open Scope Z_scope.

(** A Go [byte] read as an integer, and the conversion [byte(x)], which keeps
    the low eight bits. *)
Definition u8 (b : byte) : Z := Z.of_N (Byte.to_N b).

Definition byte_of_Z (z : Z) : byte :=
  match Byte.of_N (Z.to_N (z mod 256)) with
  | Some b => b
  | None => Byte.x00
  end.

(** Go's conversions to [uint32] and to an [int] of [w] bits. *)
Definition u32 (z : Z) : Z := z mod 2 ^ 32.
Definition sint (w z : Z) : Z := (z + 2 ^ (w - 1)) mod 2 ^ w - 2 ^ (w - 1).

(** A character literal as a rune or as a byte: [ch "a"]. *)
Definition ch (b : byte) : Z := u8 b.
Arguments ch b%_byte_scope.

#[export] Instance byte_eq_dec : EqDecision byte.
Proof. exact Byte.byte_eq_dec. Defined.

#[export] Program Instance byte_countable : Countable byte :=
  inj_countable Byte.to_N Byte.of_N _.
Next Obligation. intros x. apply Byte.of_to_N. Qed.

Lemma u8_range b : 0 <= u8 b < 256.
Proof. unfold u8. pose proof (Byte.to_N_bounded b). lia. Qed.

Lemma u8_byte_of_Z z : u8 (byte_of_Z z) = z mod 256.
Proof.
  unfold u8, byte_of_Z. pose proof (Z.mod_pos_bound z 256 ltac:(lia)) as Hb.
  destruct (Byte.of_N (Z.to_N (z mod 256))) as [b|] eqn:E.
  - apply Byte.to_of_N in E. rewrite E. lia.
  - apply Byte.of_N_None_iff in E. lia.
Qed.

Lemma ch_spec b c : u8 c = ch b <-> c = b.
Proof.
  unfold ch, u8. split; [|by intros ->]. intros H%N2Z.inj.
  pose proof (Byte.of_to_N b). pose proof (Byte.of_to_N c). congruence.
Qed.

Lemma u8_byte_of_Z_small z : 0 <= z < 256 -> u8 (byte_of_Z z) = z.
Proof. intros. rewrite u8_byte_of_Z. by apply Z.mod_small. Qed.

#[export] Instance u8_inj : Inj (=) (=) u8.
Proof.
  intros a b H. unfold u8 in H. apply N2Z.inj in H.
  pose proof (Byte.of_to_N a). pose proof (Byte.of_to_N b). congruence.
Qed.

Lemma byte_of_Z_u8 b : byte_of_Z (u8 b) = b.
Proof. apply (inj u8). apply u8_byte_of_Z_small, u8_range. Qed.

Lemma byte_of_Z_mod z z' : z mod 256 = z' mod 256 -> byte_of_Z z = byte_of_Z z'.
Proof. intros H. unfold byte_of_Z. by rewrite H. Qed.

Lemma u32_range z : 0 <= u32 z < 2 ^ 32.
Proof. apply Z.mod_pos_bound. lia. Qed.

(** ** Strings

    A Go string holds bytes: a [string] where it is only compared and printed, a
    list of bytes where it is taken apart. *)

Definition bytes (s : string) : list byte := String.list_byte_of_string s.
Definition text (l : list byte) : string := String.string_of_list_byte l.
Arguments bytes s%_string_scope.

Lemma bytes_text l : bytes (text l) = l.
Proof. apply String.list_byte_of_string_of_list_byte. Qed.

Lemma text_bytes s : text (bytes s) = s.
Proof. apply String.string_of_list_byte_of_string. Qed.

(** ** Go values that fail *)

(** Run-time panics.  An operation that panics in Go is a [Panic] here, so a
    theorem that an operation returns [Ret] says in particular that it cannot
    bring the goroutine down. *)
Inductive panic :=
| IndexOutOfRange
| SliceOutOfRange
| NilDereference
| FailedTypeAssertion
| CloseOfClosedChannel
| PanicValue (msg : string).

(** Errors the sources tell apart: [errors.New]/[fmt.Errorf] values, the
    [*net.OpError] the DHCP loop inspects, the [*iptables.Error] with its exit
    status, any other error of the operating system, and the [*strconv.NumError]
    of a text that is not a number. *)
Inductive error :=
| ErrorString (msg : string)
| OpError (temporary : bool) (msg : string)
| ExitError (status : Z) (msg : string)
| SysError (msg : string)
| NumError (num msg : string).

(** The outcome of a call: a value, a non-nil [error] as the last result, or a
    panic. *)
Inductive outcome (A : Type) :=
| Ret (a : A)
| Err (e : error)
| Panic (p : panic).
Arguments Ret {A} a.
Arguments Err {A} e.
Arguments Panic {A} p.

#[export] Instance panic_eq_dec : EqDecision panic.
Proof. solve_decision. Defined.
#[export] Instance error_eq_dec : EqDecision error.
Proof. solve_decision. Defined.

#[export] Instance outcome_ret : MRet outcome := fun A a => Ret a.
#[export] Instance outcome_bind : MBind outcome := fun A B f m =>
  match m with
  | Ret a => f a
  | Err e => Err e
  | Panic p => Panic p
  end.

#[export] Instance outcome_fmap : FMap outcome := fun A B f m =>
  match m with
  | Ret a => Ret (f a)
  | Err e => Err e
  | Panic p => Panic p
  end.

(** The call returned normally. *)
Definition returns {A} (m : outcome A) : Prop := exists a, m = Ret a.

Definition panics {A} (m : outcome A) : Prop := exists p, m = Panic p.

#[export] Instance Ret_inj {A} : Inj (=) (=) (@Ret A).
Proof. by intros ?? [= ->]. Qed.

Lemma bind_ret {A B} (a : A) (f : A -> outcome B) : (Ret a ≫= f) = f a.
Proof. done. Qed.

Lemma bind_Ret_inv {A B} (m : outcome A) (f : A -> outcome B) b :
  (m ≫= f) = Ret b -> exists a, m = Ret a /\ f a = Ret b.
Proof. destruct m; simpl; naive_solver. Qed.

(** ** Slices *)

(** [l[i:j]] and [l[i]] with the bounds checks of Go. *)
Definition slice {A} (l : list A) (i j : nat) : outcome (list A) :=
  if decide (i <= j /\ j <= length l)%nat then Ret (take (j - i) (drop i l))
  else Panic SliceOutOfRange.

Definition index {A} (l : list A) (i : nat) : outcome A :=
  match l !! i with
  | Some x => Ret x
  | None => Panic IndexOutOfRange
  end.

(** [l[i] = x]. *)
Definition store {A} (l : list A) (i : nat) (x : A) : outcome (list A) :=
  if decide (i < length l)%nat then Ret (<[i := x]> l)
  else Panic IndexOutOfRange.

(** [copy(dst, src)]: the contents of [dst] afterwards. *)
Definition copy {A} (dst src : list A) : list A :=
  take (length dst) src ++ drop (length src) dst.

(** [copy(l[i:j], src)], which writes through the slice into [l]. *)
Definition copy_into {A} (l : list A) (i j : nat) (src : list A) : outcome (list A) :=
  w ← slice l i j;
  Ret (take i l ++ copy w src ++ drop j l).

Lemma length_copy {A} (dst src : list A) : length (copy dst src) = length dst.
Proof. unfold copy. rewrite length_app, length_take, length_drop. lia. Qed.

Lemma copy_exact {A} (dst src : list A) : length src = length dst -> copy dst src = src.
Proof.
  intros H. unfold copy. rewrite <- H, firstn_all, drop_ge by lia. apply app_nil_r.
Qed.

Lemma slice_Ret {A} (l : list A) i j :
  (i <= j <= length l)%nat -> slice l i j = Ret (take (j - i) (drop i l)).
Proof. intros. unfold slice. by rewrite decide_True. Qed.

Lemma slice_length {A} (l : list A) i j w : slice l i j = Ret w -> length w = (j - i)%nat.
Proof.
  unfold slice. case_decide; [|done]. intros [= <-].
  rewrite length_take, length_drop. lia.
Qed.

Lemma slice_prefix {A} (l : list A) i j j' w :
  slice l i j = Ret w -> (i <= j' <= j)%nat -> slice l i j' = Ret (take (j' - i) w).
Proof.
  unfold slice. intros H Hj. destruct (decide (i <= j /\ j <= length l)%nat); [|done].
  injection H as <-. rewrite decide_True by lia. rewrite take_take.
  do 2 f_equal. lia.
Qed.

Lemma index_Ret {A} (l : list A) i x : l !! i = Some x -> index l i = Ret x.
Proof. intros H. unfold index. by rewrite H. Qed.

Lemma store_Ret {A} (l : list A) i x : (i < length l)%nat -> store l i x = Ret (<[i := x]> l).
Proof. intros. unfold store. by rewrite decide_True. Qed.

Lemma copy_into_Ret {A} (l : list A) i j src :
  (i <= j <= length l)%nat ->
  copy_into l i j src = Ret (take i l ++ copy (take (j - i) (drop i l)) src ++ drop j l).
Proof. intros. unfold copy_into. by rewrite slice_Ret. Qed.
