(* ===== verification/GoNet.v ===== *)
(** * The parts of Go's standard library the daemon computes with

    [encoding/binary] big-endian words, [net.IP], [net.HardwareAddr],
    [net.ParseIP]/[ParseCIDR], [net.UDPAddr] and the [strings]/[strconv]
    functions the sources call, in the behaviour of Go 1.10 (the release the
    README asks for).  A nil [net.IP] is the empty list: the sources never build
    an empty non-nil one that reaches a nil test. *)

From Stdlib Require Import ZArith Lia NArith Ascii Strings.Byte.
From stdpp Require Import base numbers gmap strings list fin_maps pretty.
From S2P Require Import Prelude.

Open Scope Z_scope.

(** ** encoding/binary *)

Module binary.

(** [binary.BigEndian.Uint32]: reads four bytes, panics on a shorter slice. *)
Definition Uint32 (b : list byte) : outcome Z :=
  b3 ← index b 3; b2 ← index b 2; b1 ← index b 1; b0 ← index b 0;
  Ret (Z.lor (u8 b3) (Z.lor (Z.shiftl (u8 b2) 8)
        (Z.lor (Z.shiftl (u8 b1) 16) (Z.shiftl (u8 b0) 24)))).

(** The four bytes [binary.BigEndian.PutUint32] stores. *)
Definition be32 (v : Z) : list byte :=
  [byte_of_Z (Z.shiftr v 24); byte_of_Z (Z.shiftr v 16);
   byte_of_Z (Z.shiftr v 8); byte_of_Z v].

Definition PutUint32 (b : list byte) (v : Z) : outcome (list byte) :=
  copy_into b 0 4 (be32 v).

Lemma land_shiftl_0 a b k :
  0 <= k -> 0 <= a < 2 ^ k -> Z.land a (Z.shiftl b k) = 0.
Proof.
  intros Hk Ha. apply Z.bits_inj'. intros n Hn.
  rewrite Z.land_spec, Z.bits_0, Z.shiftl_spec by lia.
  destruct (Z_lt_ge_dec n k) as [|Hge].
  - rewrite (Z.testbit_neg_r b) by lia. apply andb_false_r.
  - rewrite <- (Z.mod_small a (2 ^ k)) by lia.
    rewrite Z.mod_pow2_bits_high by lia. done.
Qed.

Lemma lor_shiftl_add a b k :
  0 <= k -> 0 <= a < 2 ^ k -> Z.lor a (Z.shiftl b k) = a + b * 2 ^ k.
Proof.
  intros Hk Ha. rewrite <- Z.shiftl_mul_pow2 by lia.
  rewrite Z.add_nocarry_lxor, Z.lxor_lor; auto using land_shiftl_0.
Qed.

(** The word as a sum of its bytes. *)
Lemma Uint32_sum b0 b1 b2 b3 rest :
  Uint32 (b0 :: b1 :: b2 :: b3 :: rest) =
    Ret (u8 b3 + u8 b2 * 2 ^ 8 + u8 b1 * 2 ^ 16 + u8 b0 * 2 ^ 24).
Proof.
  unfold Uint32. cbn -[Z.lor Z.shiftl Z.pow]. f_equal.
  pose proof (u8_range b0); pose proof (u8_range b1).
  pose proof (u8_range b2); pose proof (u8_range b3).
  rewrite !Z.lor_assoc, (lor_shiftl_add (u8 b3)) by lia.
  rewrite (lor_shiftl_add (u8 b3 + _)) by lia.
  rewrite lor_shiftl_add by lia. done.
Qed.

Lemma Uint32_short b : (length b < 4)%nat -> Uint32 b = Panic IndexOutOfRange.
Proof.
  intros H. unfold Uint32, index. by rewrite (lookup_ge_None_2 b 3) by lia.
Qed.

Lemma length_be32 v : length (be32 v) = 4%nat.
Proof. done. Qed.

Lemma byte_of_Z_shiftr_add v k a :
  0 <= k -> 0 <= a < 2 ^ k -> byte_of_Z (Z.shiftr (a + v * 2 ^ k) k) = byte_of_Z v.
Proof.
  intros. rewrite Z.shiftr_div_pow2, Z.div_add, Z.div_small by lia. done.
Qed.

Lemma byte_of_Z_low b x : byte_of_Z (u8 b + x * 256) = b.
Proof.
  apply (inj u8). pose proof (u8_range b).
  rewrite u8_byte_of_Z, Z.mod_add by lia. by apply Z.mod_small.
Qed.

(** Decoding what was stored gives the value modulo the word size... *)
Lemma Uint32_be32 v rest : Uint32 (be32 v ++ rest) = Ret (u32 v).
Proof.
  unfold be32. cbn [app]. rewrite Uint32_sum. f_equal.
  rewrite !u8_byte_of_Z, !Z.shiftr_div_pow2 by lia. unfold u32.
  change (2 ^ 32) with (256 * (256 * (256 * 256))).
  rewrite !Z.rem_mul_r by lia.
  rewrite !Z.div_div by lia. change (2 ^ 8) with 256.
  change (2 ^ 16) with (256 * 256). change (2 ^ 24) with (256 * (256 * 256)).
  rewrite ?Z.div_div by lia. rewrite <- ?Z.mul_assoc. lia.
Qed.

(** ... and storing what was decoded gives the bytes back. *)
Lemma be32_Uint32 b v : length b = 4%nat -> Uint32 b = Ret v -> be32 v = b.
Proof.
  destruct b as [|b0 [|b1 [|b2 [|b3 [|]]]]]; try done. intros _.
  rewrite Uint32_sum. intros [= <-]. unfold be32.
  pose proof (u8_range b0); pose proof (u8_range b1).
  pose proof (u8_range b2); pose proof (u8_range b3).
  f_equal; [|f_equal; [|f_equal; [|f_equal]]].
  - rewrite byte_of_Z_shiftr_add by lia. apply byte_of_Z_u8.
  - rewrite <- (byte_of_Z_low b1 (u8 b0)) at 2.
    rewrite <- (byte_of_Z_shiftr_add (u8 b1 + u8 b0 * 256) 16 (u8 b3 + u8 b2 * 2 ^ 8)) by lia.
    apply (f_equal byte_of_Z), (f_equal (fun x => Z.shiftr x _)). lia.
  - rewrite <- (byte_of_Z_low b2 (u8 b1 + u8 b0 * 256)) at 2.
    rewrite <- (byte_of_Z_shiftr_add (u8 b2 + (u8 b1 + u8 b0 * 256) * 256) 8 (u8 b3)) by lia.
    apply (f_equal byte_of_Z), (f_equal (fun x => Z.shiftr x _)). lia.
  - rewrite <- (byte_of_Z_low b3 (u8 b2 + (u8 b1 + u8 b0 * 256) * 256)) at 2.
    apply (f_equal byte_of_Z). lia.
Qed.

Lemma Uint32_range b v : Uint32 b = Ret v -> 0 <= v < 2 ^ 32.
Proof.
  destruct b as [|b0 [|b1 [|b2 [|b3 rest]]]]; try done.
  rewrite Uint32_sum. intros [= <-].
  pose proof (u8_range b0); pose proof (u8_range b1).
  pose proof (u8_range b2); pose proof (u8_range b3). lia.
Qed.

Lemma PutUint32_Ret b v :
  length b = 4%nat -> PutUint32 b v = Ret (be32 v).
Proof.
  intros H. unfold PutUint32. rewrite copy_into_Ret by lia. f_equal.
  rewrite take_0, drop_0, (drop_ge b 4) by lia. simpl Nat.sub.
  rewrite (take_ge b) by lia. rewrite copy_exact by done. apply app_nil_r.
Qed.
End binary.

(** ** strings and strconv *)

Module strings.

Definition code (c : ascii) : Z := Z.of_N (N_of_ascii c).

(** [strings.Index(s, c)] for a one-byte [c]; [None] is Go's -1. *)
Fixpoint IndexByte (c : ascii) (s : string) : option nat :=
  match s with
  | EmptyString => None
  | String x r => if decide (x = c) then Some 0%nat else S <$> IndexByte c r
  end.

(** [s[:i]] and [s[i:]]. *)
Fixpoint prefix_to (i : nat) (s : string) : string :=
  match i, s with
  | S i, String x r => String x (prefix_to i r)
  | _, _ => EmptyString
  end.
Fixpoint suffix_from (i : nat) (s : string) : string :=
  match i, s with
  | S i, String x r => suffix_from i r
  | _, _ => s
  end.

(** [strings.Split(s, c)] for a one-byte separator: never empty. *)
Fixpoint Split (c : ascii) (s : string) : list string :=
  match s with
  | EmptyString => [EmptyString]
  | String x r =>
      if decide (x = c) then EmptyString :: Split c r
      else match Split c r with
           | w :: ws => String x w :: ws
           | [] => [String x EmptyString]
           end
  end.

(** [strings.Join]. *)
Fixpoint Join (sep : string) (l : list string) : string :=
  match l with
  | [] => EmptyString
  | [w] => w
  | w :: ws => w +:+ sep +:+ Join sep ws
  end.

Fixpoint HasPrefix (s pre : string) : bool :=
  match pre, s with
  | EmptyString, _ => true
  | String a pre, String b s => bool_decide (a = b) && HasPrefix s pre
  | _, _ => false
  end.

(** [strings.Contains(s, sub)]. *)
Fixpoint Contains (s sub : string) : bool :=
  HasPrefix s sub || match s with
                     | EmptyString => false
                     | String _ r => Contains r sub
                     end.

(** Every character of [s] satisfies [P]. *)
Fixpoint all_chars (P : ascii -> bool) (s : string) : bool :=
  match s with
  | EmptyString => true
  | String c r => P c && all_chars P r
  end.

Lemma all_chars_app P s t : all_chars P (s +:+ t) = all_chars P s && all_chars P t.
Proof. induction s as [|c s IH]; [done|]. simpl. by rewrite IH, andb_assoc. Qed.

Lemma length_app s t : String.length (s +:+ t) = (String.length s + String.length t)%nat.
Proof. induction s as [|c s IH]; [done|]. simpl. by rewrite IH. Qed.

Lemma all_chars_impl (P Q : ascii -> bool) s :
  (forall c, P c = true -> Q c = true) -> all_chars P s = true -> all_chars Q s = true.
Proof.
  intros H. induction s as [|c s IH]; [done|]. simpl.
  rewrite !andb_true_iff. intros [? ?]; split; auto.
Qed.

Lemma IndexByte_None c s :
  all_chars (fun x => bool_decide (x <> c)) s = true -> IndexByte c s = None.
Proof.
  induction s as [|x s IH]; [done|]. simpl. rewrite andb_true_iff, bool_decide_eq_true.
  intros [Hx Hs]. rewrite decide_False, IH by done. done.
Qed.

Lemma IndexByte_app c s t :
  all_chars (fun x => bool_decide (x <> c)) s = true ->
  IndexByte c (s +:+ String c t) = Some (String.length s).
Proof.
  induction s as [|x s IH]; simpl; [by rewrite decide_True|].
  rewrite andb_true_iff, bool_decide_eq_true. intros [Hx Hs].
  rewrite decide_False, IH by done. done.
Qed.

Lemma prefix_to_app s t : prefix_to (String.length s) (s +:+ t) = s.
Proof. induction s as [|x s IH]; simpl; [by destruct t|]. by rewrite IH. Qed.

Lemma suffix_from_app s t : suffix_from (String.length s) (s +:+ t) = t.
Proof. by induction s as [|x s IH]; simpl; [destruct t|]. Qed.

Lemma suffix_from_0 s : suffix_from 0 s = s.
Proof. done. Qed.

Lemma suffix_from_sep s c t : suffix_from (S (String.length s)) (s +:+ String c t) = t.
Proof. induction s as [|x s IH]; [by destruct t|]. exact IH. Qed.

Lemma Split_nonempty c s : Split c s <> [].
Proof. destruct s as [|x r]; simpl; [done|]. case_decide; [done|]. by destruct (Split c r). Qed.

Lemma Join_Split c s : Join (String c EmptyString) (Split c s) = s.
Proof.
  induction s as [|x r IH]; [done|]. cbn [Split].
  pose proof (Split_nonempty c r) as Hne.
  case_decide as Hx; destruct (Split c r) as [|w ws]; try done.
  - subst x. cbn in *. by rewrite IH.
  - destruct ws; simpl in *; rewrite <- IH; done.
Qed.
End strings.

Module strconv.
Import strings.

Definition Itoa (z : Z) : string := pretty z.

Definition digit (c : ascii) : option Z :=
  let v := code c - 48 in
  if decide (0 <= v <= 9) then Some v else None.

(** The decimal value of a non-empty string of digits. *)
Fixpoint digits (s : string) (n : Z) : option Z :=
  match s with
  | EmptyString => Some n
  | String c r => v ← digit c; digits r (n * 10 + v)
  end.

(** [strconv.Atoi] on a platform whose [int] has [w] bits: the value, and
    whether the error is nil.  A syntax error yields 0; an out-of-range number
    yields the nearest bound together with an error. *)
Definition Atoi (w : Z) (s : string) : Z * bool :=
  let '(neg, body) :=
    match s with
    | String "-" r => (true, r)
    | String "+" r => (false, r)
    | _ => (false, s)
    end in
  match body with
  | EmptyString => (0, false)
  | _ =>
      match digits body 0 with
      | None => (0, false)
      | Some n =>
          let v := if (neg : bool) then - n else n in
          if decide (2 ^ (w - 1) <= v) then (2 ^ (w - 1) - 1, false)
          else if decide (v < - 2 ^ (w - 1)) then (- 2 ^ (w - 1), false)
          else (v, true)
      end
  end.

Definition is_digit (c : ascii) : bool := bool_decide (is_Some (digit c)).

Lemma digit_pretty x : (x < 10)%N -> digit (pretty_N_char x) = Some (Z.of_N x).
Proof.
  intros H.
  assert (x = 0 \/ x = 1 \/ x = 2 \/ x = 3 \/ x = 4 \/ x = 5 \/ x = 6 \/ x = 7 \/
          x = 8 \/ x = 9)%N as Hx by lia.
  repeat (destruct Hx as [->|Hx]; [done|]). by subst.
Qed.

Lemma pretty_go_digits x s : digits (pretty_N_go x s) 0 = digits s (Z.of_N x).
Proof.
  revert s. induction (N.lt_wf_0 x) as [x _ IH]; intros s.
  destruct (decide (x = 0)%N) as [->|Hx]; [done|].
  rewrite pretty_N_go_step, IH by (lia || (apply N.div_lt; lia)). simpl.
  rewrite digit_pretty by (apply N.mod_lt; lia). simpl. f_equal.
  rewrite N2Z.inj_div, N2Z.inj_mod. Z.div_mod_to_equations. lia.
Qed.

Lemma pretty_go_is_digits x s :
  all_chars is_digit s = true -> all_chars is_digit (pretty_N_go x s) = true.
Proof.
  revert s. induction (N.lt_wf_0 x) as [x _ IH]; intros s Hs.
  destruct (decide (x = 0)%N) as [->|Hx]; [done|].
  rewrite pretty_N_go_step by lia. apply IH; [apply N.div_lt; lia|]. simpl.
  rewrite Hs, andb_true_r. apply bool_decide_eq_true.
  rewrite digit_pretty by (apply N.mod_lt; lia). done.
Qed.

Lemma Itoa_digits z : 0 <= z -> all_chars is_digit (Itoa z) = true.
Proof.
  intros Hz. destruct z as [|p|p]; [done| |lia].
  unfold Itoa, pretty, pretty_Z, pretty, pretty_positive, pretty, pretty_N.
  case_decide; [done|]. by apply pretty_go_is_digits.
Qed.

(** Printing a number and reading it back. *)
Lemma digits_Itoa z : 0 <= z -> digits (Itoa z) 0 = Some z.
Proof.
  intros Hz. destruct z as [|p|p]; [done| |lia].
  unfold Itoa, pretty, pretty_Z, pretty, pretty_positive, pretty, pretty_N.
  case_decide; [done|]. by rewrite pretty_go_digits.
Qed.

Lemma is_digit_not c d :
  is_digit c = true -> digit d = None -> c <> d.
Proof. unfold is_digit. rewrite bool_decide_eq_true. intros [? H] Hd ->. congruence. Qed.

Lemma Itoa_free d z :
  0 <= z -> digit d = None -> all_chars (fun x => bool_decide (x <> d)) (Itoa z) = true.
Proof.
  intros Hz Hd. eapply all_chars_impl; [|by apply Itoa_digits]. intros c Hc.
  apply bool_decide_eq_true. by eapply is_digit_not.
Qed.

Lemma Atoi_Itoa w z : 0 <= z < 2 ^ (w - 1) -> Atoi w (Itoa z) = (z, true).
Proof.
  intros Hz. pose proof (Itoa_digits z ltac:(lia)) as Hd.
  pose proof (digits_Itoa z ltac:(lia)) as Hv. unfold Atoi.
  destruct (Itoa z) as [|c r] eqn:E.
  { exfalso. destruct z as [|p|p]; [done| |lia].
    unfold Itoa, pretty, pretty_Z, pretty, pretty_positive, pretty, pretty_N in E.
    case_decide; [done|]. pose proof (pretty_go_digits (Npos p) "") as Hp.
    rewrite E in Hp. simpl in Hp. lia || congruence. }
  simpl in Hd. apply andb_true_iff in Hd as [Hc _].
  assert (c <> "-"%char /\ c <> "+"%char) as [Hm Hp].
  { split; by eapply is_digit_not. }
  assert ((match String c r with
           | String "-" r => (true, r) | String "+" r => (false, r)
           | _ => (false, String c r) end) = (false, String c r)) as ->.
  { destruct c as [[] [] [] [] [] [] [] []]; done. }
  rewrite Hv. rewrite !decide_False by lia. done.
Qed.
End strconv.

(** ** net *)

Module net.
Import strings strconv.

Definition ff : byte := Byte.xff.
Definition v4InV6Prefix : list byte := replicate 10 Byte.x00 ++ [ff; ff].

(** [net.IPv4]: the sixteen-byte form of an IPv4 address. *)
Definition IPv4 (a b c d : byte) : list byte := v4InV6Prefix ++ [a; b; c; d].
Definition IPv4zero : list byte := IPv4 Byte.x00 Byte.x00 Byte.x00 Byte.x00.
Definition IPv4bcast : list byte := IPv4 ff ff ff ff.

(** [IP.To4]: nil when the address is not an IPv4 address. *)
Definition To4 (ip : list byte) : list byte :=
  if decide (length ip = 4%nat) then ip
  else if decide (length ip = 16%nat /\ take 12 ip = v4InV6Prefix) then drop 12 ip
  else [].

(** [IP.Equal]: an IPv4 address equals its IPv4-in-IPv6 form. *)
Definition Equal (ip x : list byte) : bool :=
  if decide (length ip = length x) then bool_decide (ip = x)
  else if decide (length ip = 4%nat /\ length x = 16%nat) then
    bool_decide (take 12 x = v4InV6Prefix /\ ip = drop 12 x)
  else if decide (length ip = 16%nat /\ length x = 4%nat) then
    bool_decide (take 12 ip = v4InV6Prefix /\ drop 12 ip = x)
  else false.

(** [ip == nil] *)
Definition is_nil (ip : list byte) : bool :=
  match ip with [] => true | _ => false end.

Definition hexDigit (n : Z) : ascii :=
  ascii_of_N (Z.to_N (if decide (n < 10) then 48 + n else 87 + n)).

(** [HardwareAddr.String]: colon-separated pairs of hex digits. *)
Fixpoint HardwareAddr_String (a : list byte) : string :=
  match a with
  | [] => EmptyString
  | b :: r =>
      String (hexDigit (Z.shiftr (u8 b) 4))
        (String (hexDigit (Z.land (u8 b) 15))
          (match r with
           | [] => EmptyString
           | _ => String ":" (HardwareAddr_String r)
           end))
  end.

(** [dtoi]: the longest decimal prefix, its length, and success. *)
Definition big : Z := 16777215.

Fixpoint dtoi_loop (s : string) (n : Z) (i : nat) : Z * nat * bool :=
  match s with
  | String c r =>
      match digit c with
      | Some v => if decide (big <= n * 10 + v) then (big, i, false)
                  else dtoi_loop r (n * 10 + v) (S i)
      | None => (n, i, negb (i =? 0)%nat)
      end
  | EmptyString => (n, i, negb (i =? 0)%nat)
  end.
Definition dtoi (s : string) : Z * nat * bool := dtoi_loop s 0 0.

(** [xtoi]: the same for a hexadecimal prefix. *)
Definition hexval (c : ascii) : option Z :=
  let v := code c in
  if decide (48 <= v <= 57) then Some (v - 48)
  else if decide (97 <= v <= 102) then Some (v - 87)
  else if decide (65 <= v <= 70) then Some (v - 55)
  else None.

Fixpoint xtoi_loop (s : string) (n : Z) (i : nat) : Z * nat * bool :=
  match s with
  | String c r =>
      match hexval c with
      | Some v => if decide (big <= n * 16 + v) then (0, i, false)
                  else xtoi_loop r (n * 16 + v) (S i)
      | None => (n, i, negb (i =? 0)%nat)
      end
  | EmptyString => (n, i, negb (i =? 0)%nat)
  end.
Definition xtoi (s : string) : Z * nat * bool := xtoi_loop s 0 0.

(** [parseIPv4]: four octets separated by dots, nothing after them. *)
Fixpoint parse_octets (k : nat) (first : bool) (s : string) : option (list byte * string) :=
  match k with
  | O => Some ([], s)
  | S k =>
      s ← (if first then Some s
           else match s with String "." r => Some r | _ => None end);
      let '(n, c, ok) := dtoi s in
      if negb ok || bool_decide (255 < n) then None
      else '(rest, s') ← parse_octets k false (suffix_from c s);
           Some (byte_of_Z n :: rest, s')
  end.

Definition parseIPv4 (s : string) : list byte :=
  match parse_octets 4 true s with
  | Some ([a; b; c; d], EmptyString) => IPv4 a b c d
  | _ => []
  end.

(** [parseIPv6] without a zone.  [acc] holds the bytes of [ip] written so far
    (its length is the source's [i]) and [ell] the position of the ellipsis; the
    loop writes at least two bytes a turn, so eight turns reach its bound. *)
Fixpoint parseIPv6_loop (k : nat) (s : string) (acc : list byte) (ell : option nat)
  : option (string * list byte * option nat) :=
  match k with
  | O => Some (s, acc, ell)
  | S k =>
      if decide (16 <= length acc)%nat then Some (s, acc, ell)
      else
      let '(n, c, ok) := xtoi s in
      if negb ok || bool_decide (65535 < n) then None
      else match suffix_from c s with
      | String "." _ =>
          if bool_decide (ell = None /\ length acc <> 12%nat) then None
          else if decide (16 < length acc + 4)%nat then None
          else match parseIPv4 s with
               | [] => None
               | ip4 => Some (EmptyString, acc ++ drop 12 ip4, ell)
               end
      | s' =>
          let acc := acc ++ [byte_of_Z (Z.shiftr n 8); byte_of_Z n] in
          match s' with
          | EmptyString => Some (EmptyString, acc, ell)
          | String ":" (String c2 r2) =>
              if decide (c2 = ":"%char) then
                match ell with
                | Some _ => None
                | None =>
                    match r2 with
                    | EmptyString => Some (EmptyString, acc, Some (length acc))
                    | _ => parseIPv6_loop k r2 acc (Some (length acc))
                    end
                end
              else parseIPv6_loop k (String c2 r2) acc ell
          | _ => None
          end
      end
  end.

Definition parseIPv6 (s : string) : list byte :=
  let '(s, ell) :=
    match s with
    | String ":" (String ":" r) => (r, Some 0%nat)
    | _ => (s, None)
    end in
  if bool_decide (ell = Some 0%nat /\ s = EmptyString) then replicate 16 Byte.x00
  else match parseIPv6_loop 8 s [] ell with
  | Some (EmptyString, ip, ell) =>
      if decide (length ip < 16)%nat then
        match ell with
        | None => []
        | Some e => take e ip ++ replicate (16 - length ip) Byte.x00 ++ drop e ip
        end
      else match ell with Some _ => [] | None => ip end
  | _ => []
  end.

(** [ParseIP]: the first separator decides the syntax. *)
Fixpoint ParseIP_scan (s full : string) : list byte :=
  match s with
  | EmptyString => []
  | String "." _ => parseIPv4 full
  | String ":" _ => parseIPv6 full
  | String _ r => ParseIP_scan r full
  end.
Definition ParseIP (s : string) : list byte := ParseIP_scan s s.

(** [IP.String] of an IPv6 address: the longest run of zero groups (the first
    of equal length, at least two groups) is written as a double colon. *)
Fixpoint groups (ip : list byte) : list Z :=
  match ip with
  | a :: b :: r => Z.lor (Z.shiftl (u8 a) 8) (u8 b) :: groups r
  | _ => []
  end.

Fixpoint zero_run (g : list Z) : nat :=
  match g with
  | 0 :: r => S (zero_run r)
  | _ => O
  end.

(** The best run [(start, length)] at or after group [i]. *)
Fixpoint longest_run (g : list Z) (i : nat) (skip : nat) (best : nat * nat) : nat * nat :=
  match g with
  | [] => best
  | _ :: r =>
      match skip with
      | S k => longest_run r (S i) k best
      | O =>
          let z := zero_run g in
          if decide (snd best < z)%nat then longest_run r (S i) z (i, z)
          else longest_run r (S i) 0 best
      end
  end.

Fixpoint hex_loop (fuel : nat) (n : Z) (acc : string) : string :=
  match fuel with
  | O => acc
  | S f => let acc := String (hexDigit (Z.land n 15)) acc in
           if decide (n < 16) then acc else hex_loop f (Z.shiftr n 4) acc
  end.
(** [appendHex] *)
Definition hex (n : Z) : string := hex_loop 8 n EmptyString.

Fixpoint hexString (a : list byte) : string :=
  match a with
  | [] => EmptyString
  | b :: r => String (hexDigit (Z.shiftr (u8 b) 4))
                (String (hexDigit (Z.land (u8 b) 15)) (hexString r))
  end.

Definition ipv6_string (ip : list byte) : string :=
  let g := groups ip in
  let '(e, n) := longest_run g 0 0 (0%nat, 0%nat) in
  if decide (n <= 1)%nat then Join ":" (hex <$> g)
  else Join ":" (hex <$> take e g) +:+ "::" +:+ Join ":" (hex <$> drop (e + n) g).

(** Dotted decimal. *)
Definition dotted (p4 : list byte) : string := Join "." ((fun b => Itoa (u8 b)) <$> p4).

Definition IP_String (ip : list byte) : string :=
  match ip with
  | [] => "<nil>"
  | _ =>
      match To4 ip with
      | [] => if decide (length ip = 16%nat) then ipv6_string ip
              else "?" +:+ hexString ip
      | p4 => dotted p4
      end
  end.

(** [net.IPNet] *)
Record IPNet := { IPNet_IP : list byte; IPNet_Mask : list byte }.

(** [CIDRMask(ones, 8*l)] for [0 <= ones <= 8*l]. *)
Fixpoint CIDRMask (ones : Z) (l : nat) : list byte :=
  match l with
  | O => []
  | S l => if decide (8 <= ones) then ff :: CIDRMask (ones - 8) l
           else byte_of_Z (255 - Z.shiftr 255 ones) :: CIDRMask 0 l
  end.

(** [IP.Mask] *)
Definition Mask (ip mask : list byte) : list byte :=
  let mask := if bool_decide (length mask = 16%nat /\ length ip = 4%nat /\
                              take 12 mask = replicate 12 ff)
              then drop 12 mask else mask in
  let ip := if bool_decide (length mask = 4%nat /\ length ip = 16%nat /\
                            take 12 ip = v4InV6Prefix)
            then drop 12 ip else ip in
  if decide (length ip = length mask)
  then zip_with (fun a b => byte_of_Z (Z.land (u8 a) (u8 b))) ip mask
  else [].

Definition ParseError (what text : string) : error :=
  ErrorString ("invalid " +:+ what +:+ ": " +:+ text).

(** [ParseCIDR]: the address and the network it lies in. *)
Definition ParseCIDR (s : string) : outcome (list byte * IPNet) :=
  let bad := Err (ParseError "CIDR address" s) in
  match IndexByte "/" s with
  | None => bad
  | Some i =>
      let addr := prefix_to i s in
      let mask := suffix_from (S i) s in
      let '(iplen, ip) :=
        match parseIPv4 addr with
        | [] => (16%nat, parseIPv6 addr)
        | ip => (4%nat, ip)
        end in
      let '(n, c, ok) := dtoi mask in
      if is_nil ip || negb ok || bool_decide (c <> String.length mask)
         || bool_decide (8 * Z.of_nat iplen < n)
      then bad
      else let m := CIDRMask n iplen in
           Ret (ip, {| IPNet_IP := Mask ip m; IPNet_Mask := m |})
  end.

(** [simpleMaskLength]: -1 (here [None]) unless the mask is ones then zeros. *)
Fixpoint leading_ones (k : nat) (v : Z) : Z * Z :=
  match k with
  | O => (0, v)
  | S k => if Z.testbit v 7
           then let '(n, v) := leading_ones k (Z.land (Z.shiftl v 1) 255) in (n + 1, v)
           else (0, v)
  end.
Fixpoint simpleMaskLength (mask : list byte) : option Z :=
  match mask with
  | [] => Some 0
  | b :: r =>
      if decide (b = ff) then (fun n => n + 8) <$> simpleMaskLength r
      else let '(n, v) := leading_ones 8 (u8 b) in
           if bool_decide (v = 0) && forallb (fun x => bool_decide (x = Byte.x00)) r
           then Some n else None
  end.

(** [networkNumberAndMask] and [IPNet.String]. *)
Definition networkNumberAndMask (n : IPNet) : option (list byte * list byte) :=
  let ip := match To4 (IPNet_IP n) with [] => IPNet_IP n | p4 => p4 end in
  if bool_decide (length ip <> 4%nat /\ length ip <> 16%nat) then None
  else let m := IPNet_Mask n in
       if decide (length m = 4%nat) then
         if decide (length ip = 4%nat) then Some (ip, m) else None
       else if decide (length m = 16%nat) then
         Some (ip, if decide (length ip = 4%nat) then drop 12 m else m)
       else None.

Definition IPNet_String (n : IPNet) : string :=
  match networkNumberAndMask n with
  | None => "<nil>"
  | Some (nn, m) =>
      match simpleMaskLength m with
      | None => IP_String nn +:+ "/" +:+ hexString m
      | Some l => IP_String nn +:+ "/" +:+ Itoa l
      end
  end.

(** [net.UDPAddr] *)
Record UDPAddr := { UDP_IP : list byte; UDP_Port : Z; UDP_Zone : string }.

(** [net.Interface], as far as the daemon reads it. *)
Record Interface := { Intf_Index : Z; Intf_Name : string }.

(** *** Lemmas *)

Lemma To4_of_4 ip : length ip = 4%nat -> To4 ip = ip.
Proof. intros H. unfold To4. by rewrite decide_True. Qed.

Lemma To4_length ip : To4 ip = [] \/ length (To4 ip) = 4%nat.
Proof.
  unfold To4. repeat case_decide; [by right| |by left].
  right. rewrite length_drop. lia.
Qed.

Lemma To4_IPv4 a b c d : To4 (IPv4 a b c d) = [a; b; c; d].
Proof. done. Qed.

Lemma Equal_refl ip : Equal ip ip = true.
Proof. unfold Equal. rewrite decide_True by done. by apply bool_decide_eq_true. Qed.

Lemma Equal_same_length ip x :
  length ip = length x -> Equal ip x = true <-> ip = x.
Proof. intros H. unfold Equal. rewrite decide_True by done. apply bool_decide_eq_true. Qed.

(** For two IPv4 addresses in either form, [Equal] compares the four bytes. *)
Lemma Equal_v4 ip a b c d :
  length ip = 4%nat -> Equal ip (IPv4 a b c d) = bool_decide (ip = [a; b; c; d]).
Proof.
  intros H. unfold Equal. rewrite decide_False by (rewrite H; done).
  rewrite decide_True by done. apply bool_decide_ext. split; [intros [_ ?]|]; done.
Qed.

Lemma hexDigit_inj x y : 0 <= x < 16 -> 0 <= y < 16 -> hexDigit x = hexDigit y -> x = y.
Proof.
  intros Hx Hy H. unfold hexDigit in H. apply (f_equal N_of_ascii) in H.
  destruct (decide (x < 10)), (decide (y < 10));
    rewrite !N_ascii_embedding in H by lia; lia.
Qed.

Lemma hexpair_inj a b :
  hexDigit (Z.shiftr (u8 a) 4) = hexDigit (Z.shiftr (u8 b) 4) ->
  hexDigit (Z.land (u8 a) 15) = hexDigit (Z.land (u8 b) 15) -> a = b.
Proof.
  pose proof (u8_range a); pose proof (u8_range b).
  change 15 with (Z.ones 4). rewrite !Z.land_ones, !Z.shiftr_div_pow2 by lia.
  change (2 ^ 4) with 16. intros H1%hexDigit_inj H2%hexDigit_inj;
    [apply (inj u8)|..]; Z.div_mod_to_equations; lia.
Qed.

(** Two hardware addresses with the same text are the same address, so the
    lease table indexed by the text distinguishes the clients. *)
#[export] Instance HardwareAddr_String_inj : Inj (=) (=) HardwareAddr_String.
Proof.
  intros a. induction a as [|x a IH]; intros [|y b]; try done.
  cbn [HardwareAddr_String]. intros [= H1 H2 H3].
  rewrite (hexpair_inj x y) by done. f_equal.
  destruct a, b; try done. apply IH. exact (f_equal (suffix_from 1) H3).
Qed.

(** *** Host and port *)

Definition JoinHostPort (host port : string) : string :=
  match IndexByte ":" host with
  | Some _ => "[" +:+ host +:+ "]:" +:+ port
  | None => host +:+ ":" +:+ port
  end.

(** [UDPAddr.String] *)
Definition UDPAddr_String (a : UDPAddr) : string :=
  let ip := if is_nil (UDP_IP a) then EmptyString else IP_String (UDP_IP a) in
  match UDP_Zone a with
  | EmptyString => JoinHostPort ip (Itoa (UDP_Port a))
  | zone => JoinHostPort (ip +:+ "%" +:+ zone) (Itoa (UDP_Port a))
  end.

(** The position of the last occurrence. *)
Fixpoint LastIndexByte (c : ascii) (s : string) : option nat :=
  match s with
  | EmptyString => None
  | String x r =>
      match LastIndexByte c r with
      | Some i => Some (S i)
      | None => if decide (x = c) then Some 0%nat else None
      end
  end.

Definition AddrError (why addr : string) : error := ErrorString ("address " +:+ addr +:+ ": " +:+ why).

Definition SplitHostPort (hostport : string) : outcome (string * string) :=
  match LastIndexByte ":" hostport with
  | None => Err (AddrError "missing port in address" hostport)
  | Some i =>
      r ← (if HasPrefix hostport "[" then
             match IndexByte "]" hostport with
             | None => Err (AddrError "missing ']' in address" hostport)
             | Some e =>
                 if decide (S e = String.length hostport)
                 then Err (AddrError "missing port in address" hostport)
                 else if decide (S e = i)
                 then Ret (prefix_to (e - 1) (suffix_from 1 hostport), 1%nat, S e)
                 else if HasPrefix (suffix_from (S e) hostport) ":"
                 then Err (AddrError "too many colons in address" hostport)
                 else Err (AddrError "missing port in address" hostport)
             end
           else
             let host := prefix_to i hostport in
             match IndexByte ":" host with
             | Some _ => Err (AddrError "too many colons in address" hostport)
             | None => Ret (host, 0%nat, 0%nat)
             end);
      let '(host, j, k) := r in
      match IndexByte "[" (suffix_from j hostport), IndexByte "]" (suffix_from k hostport) with
      | Some _, _ => Err (AddrError "unexpected '[' in address" hostport)
      | _, Some _ => Err (AddrError "unexpected ']' in address" hostport)
      | None, None => Ret (host, suffix_from (S i) hostport)
      end
  end.

(** *** Printing and parsing IPv4 addresses *)

Lemma dtoi_Itoa b rest :
  match rest with EmptyString => True | String c _ => c = "."%char end ->
  dtoi (Itoa (u8 b) +:+ rest) = (u8 b, String.length (Itoa (u8 b)), true).
Proof. intros H. destruct b, rest; simpl in H; subst; reflexivity. Qed.

Lemma parse_octets_last b :
  parse_octets 1 false (String "." (Itoa (u8 b))) = Some ([b], EmptyString).
Proof. destruct b; reflexivity. Qed.

Lemma parse_octets_step k b s :
  parse_octets (S k) true (Itoa (u8 b) +:+ String "." s) =
    ('(rest, s') ← parse_octets k false (String "." s); Some (b :: rest, s')).
Proof.
  cbn [parse_octets]. simpl mbind. rewrite dtoi_Itoa by done. cbn [negb orb].
  pose proof (u8_range b). rewrite bool_decide_eq_false_2 by lia.
  by rewrite suffix_from_app, byte_of_Z_u8.
Qed.

Lemma parse_octets_dot k s :
  parse_octets (S k) false (String "." s) = parse_octets (S k) true s.
Proof. done. Qed.

Lemma parseIPv4_dotted a b c d : parseIPv4 (dotted [a; b; c; d]) = IPv4 a b c d.
Proof.
  unfold parseIPv4, dotted. cbn [fmap list_fmap Join].
  change (".":string) with (String "." EmptyString).
  assert (forall s t, s +:+ String "." "" +:+ t = s +:+ String "." t) as Hdot by done.
  rewrite !Hdot, parse_octets_step, parse_octets_dot, parse_octets_step, parse_octets_dot.
  rewrite parse_octets_step, parse_octets_last. done.
Qed.

Lemma ParseIP_scan_digits s t full :
  all_chars is_digit s = true -> ParseIP_scan (s +:+ String "." t) full = parseIPv4 full.
Proof.
  induction s as [|x s IH]; [done|]. simpl. rewrite andb_true_iff. intros [Hx Hs].
  etransitivity; [|exact (IH Hs)].
  assert (x <> "."%char /\ x <> ":"%char) as [? ?] by (split; by eapply is_digit_not).
  destruct x as [[] [] [] [] [] [] [] []]; done.
Qed.

Lemma dotted_eq a b c d :
  dotted [a; b; c; d] =
    Itoa (u8 a) +:+ String "." (Itoa (u8 b) +:+ String "." (Itoa (u8 c) +:+ String "." (Itoa (u8 d)))).
Proof. done. Qed.

Lemma ParseIP_dotted a b c d : ParseIP (dotted [a; b; c; d]) = IPv4 a b c d.
Proof.
  unfold ParseIP. rewrite dotted_eq at 1. rewrite ParseIP_scan_digits.
  - apply parseIPv4_dotted.
  - apply Itoa_digits. pose proof (u8_range a). lia.
Qed.

(** Reading back the text of an IPv4 address gives its sixteen-byte form. *)
Lemma ParseIP_String ip :
  length (To4 ip) = 4%nat -> ParseIP (IP_String ip) = v4InV6Prefix ++ To4 ip.
Proof.
  intros H. unfold IP_String. destruct ip as [|x ip]; [done|].
  destruct (To4 (x :: ip)) as [|a [|b [|c [|d [|]]]]] eqn:E; try done.
  apply ParseIP_dotted.
Qed.

Lemma LastIndexByte_app c s t :
  all_chars (fun x => bool_decide (x <> c)) t = true ->
  LastIndexByte c (s +:+ String c t) = Some (String.length s).
Proof.
  intros Ht. assert (LastIndexByte c t = None) as Hn.
  { clear s. induction t as [|x t IH]; [done|]. simpl in *.
    apply andb_true_iff in Ht as [Hx%bool_decide_eq_true Ht].
    rewrite IH by done. by rewrite decide_False. }
  induction s as [|x s IH]; simpl; [by rewrite Hn, decide_True|]. by rewrite IH.
Qed.

Definition host_char (c : ascii) : bool :=
  bool_decide (c <> ":"%char /\ c <> "["%char /\ c <> "]"%char).

Lemma host_char_neq c s :
  c = ":"%char \/ c = "["%char \/ c = "]"%char ->
  all_chars host_char s = true -> all_chars (fun x => bool_decide (x <> c)) s = true.
Proof.
  intros Hc. apply all_chars_impl. intros x. unfold host_char.
  rewrite !bool_decide_eq_true. intros (?&?&?). destruct Hc as [->|[->| ->]]; done.
Qed.

Lemma digit_host_char s : all_chars is_digit s = true -> all_chars host_char s = true.
Proof.
  apply all_chars_impl. intros c Hc. apply bool_decide_eq_true.
  repeat split; by eapply is_digit_not.
Qed.

(** A host without colons or brackets and a decimal port are split again. *)
Lemma SplitHostPort_Join host port :
  all_chars host_char host = true -> 0 <= port ->
  SplitHostPort (JoinHostPort host (Itoa port)) = Ret (host, Itoa port).
Proof.
  intros Hh Hp.
  assert (Hport : all_chars host_char (Itoa port) = true)
    by (by apply digit_host_char, Itoa_digits).
  unfold JoinHostPort. rewrite (IndexByte_None ":" host) by (apply host_char_neq; auto).
  change (host +:+ ":" +:+ Itoa port) with (host +:+ String ":" (Itoa port)).
  unfold SplitHostPort. rewrite LastIndexByte_app by (apply host_char_neq; auto).
  assert (HasPrefix (host +:+ String ":" (Itoa port)) "[" = false) as ->.
  { destruct host as [|c h]; [done|]. simpl in *. apply andb_true_iff in Hh as [Hc _].
    unfold host_char in Hc. apply bool_decide_eq_true in Hc as (?&?&?).
    by rewrite bool_decide_eq_false_2 by done. }
  rewrite prefix_to_app, (IndexByte_None ":" host) by (apply host_char_neq; auto).
  rewrite bind_ret. cbv beta iota zeta. rewrite suffix_from_0.
  assert (forall c, c = "["%char \/ c = "]"%char ->
    IndexByte c (host +:+ String ":" (Itoa port)) = None) as Hn.
  { intros c Hc. apply IndexByte_None. rewrite all_chars_app. simpl.
    rewrite !(host_char_neq c) by tauto. destruct Hc as [-> | ->]; done. }
  rewrite !Hn by auto. by rewrite suffix_from_sep.
Qed.

Lemma dotted_host_char a b c d : all_chars host_char (dotted [a; b; c; d]) = true.
Proof.
  rewrite dotted_eq. pose proof (u8_range a); pose proof (u8_range b).
  pose proof (u8_range c); pose proof (u8_range d).
  repeat first [rewrite all_chars_app | rewrite (digit_host_char (Itoa _)) by (apply Itoa_digits; lia)
               | simpl]; done.
Qed.

(** The address a datagram came from, as the DHCP server recovers it. *)
Lemma UDPAddr_split a :
  length (To4 (UDP_IP a)) = 4%nat -> UDP_Zone a = EmptyString -> 0 <= UDP_Port a ->
  exists host, SplitHostPort (UDPAddr_String a) = Ret (host, Itoa (UDP_Port a)) /\
    ParseIP host = v4InV6Prefix ++ To4 (UDP_IP a).
Proof.
  intros H4 Hz Hp. exists (IP_String (UDP_IP a)). split; [|by apply ParseIP_String].
  unfold UDPAddr_String. rewrite Hz. unfold IP_String.
  destruct (UDP_IP a) as [|x ip] eqn:E; [done|]. cbn [is_nil].
  destruct (To4 (x :: ip)) as [|p [|q [|r [|t [|]]]]]; try done.
  apply SplitHostPort_Join; [apply dotted_host_char|done].
Qed.
End net.
