(* ===== verification/Endian.v ===== *)
(** * Integers as bytes

    Unsigned integers of [n] bytes in big-endian order, as on the network, and in
    the order of the machine. *)

From Stdlib Require Import ZArith Lia NArith Strings.Byte.
From stdpp Require Import base numbers list.
From S2P Require Import Prelude.

Open Scope Z_scope.

(** ** Big-endian order *)

Definition bigEndian (w : list byte) : Z := fold_left (fun v b => v * 256 + u8 b) w 0.

Fixpoint be (n : nat) (v : Z) : list byte :=
  match n with
  | O => []
  | S n => byte_of_Z (Z.shiftr v (8 * Z.of_nat n)) :: be n v
  end.

Definition in_width (n : nat) (v : Z) : Prop := 0 <= v < 256 ^ Z.of_nat n.

Lemma bigEndian_app l b : bigEndian (l ++ [b]) = bigEndian l * 256 + u8 b.
Proof. unfold bigEndian. by rewrite fold_left_app. Qed.

Lemma bigEndian_range l : 0 <= bigEndian l < 256 ^ Z.of_nat (length l).
Proof.
  induction l as [|b l IH] using rev_ind; [done|]. rewrite bigEndian_app, length_app, Nat2Z.inj_add.
  pose proof (u8_range b). rewrite Z.pow_add_r by lia. simpl (256 ^ Z.of_nat (length [b])). lia.
Qed.

Lemma length_be n v : length (be n v) = n.
Proof. induction n; simpl; auto. Qed.

Lemma bigEndian_cons b w : bigEndian (b :: w) = u8 b * 256 ^ Z.of_nat (length w) + bigEndian w.
Proof.
  induction w as [|c w IH] using rev_ind; [unfold bigEndian; simpl; lia|].
  rewrite app_comm_cons, !bigEndian_app, IH, length_app, Nat2Z.inj_add, Z.pow_add_r by lia.
  simpl (256 ^ Z.of_nat (length [c])). lia.
Qed.

Lemma bigEndian_be n v : bigEndian (be n v) = v mod 256 ^ Z.of_nat n.
Proof.
  induction n as [|n IH]; [by rewrite Z.mod_1_r|]. simpl be.
  rewrite bigEndian_cons, IH, length_be, u8_byte_of_Z, Z.shiftr_div_pow2 by lia.
  replace (2 ^ (8 * Z.of_nat n)) with (256 ^ Z.of_nat n) by (rewrite Z.pow_mul_r by lia; done).
  rewrite Nat2Z.inj_succ, Z.pow_succ_r by lia.
  rewrite (Z.mul_comm 256), Z.rem_mul_r by lia. lia.
Qed.

Lemma bigEndian_be_id n v : in_width n v -> bigEndian (be n v) = v.
Proof. intros Hv. rewrite bigEndian_be. by apply Z.mod_small. Qed.

Lemma in_width_mod n v : in_width n (v mod 256 ^ Z.of_nat n).
Proof. apply Z.mod_pos_bound. lia. Qed.

Lemma be_app n m v : be (n + m) v = be n (Z.shiftr v (8 * Z.of_nat m)) ++ be m v.
Proof.
  induction n as [|n IH]; [done|]. simpl. rewrite IH, Z.shiftr_shiftr by lia. do 3 f_equal. lia.
Qed.

(** ** The order of the machine *)

Inductive ByteOrder := BigEndian | LittleEndian.

(** [NativeEndian()] *)
Class NativeEndian := native : ByteOrder.

Section native.
Context `{NativeEndian}.

(** [native.PutUint16] and the like, [native.Uint16] and the like, and the bytes
    of a struct's field in memory. *)
Definition toBytes (n : nat) (v : Z) : list byte :=
  match native with BigEndian => be n v | LittleEndian => reverse (be n v) end.

Definition ofBytes (w : list byte) : Z :=
  match native with BigEndian => bigEndian w | LittleEndian => bigEndian (reverse w) end.

Lemma length_toBytes n v : length (toBytes n v) = n.
Proof. unfold toBytes. destruct native; by rewrite ?length_reverse, length_be. Qed.

Lemma ofBytes_toBytes n v : ofBytes (toBytes n v) = v mod 256 ^ Z.of_nat n.
Proof. unfold ofBytes, toBytes. destruct native; by rewrite ?reverse_involutive, bigEndian_be. Qed.

Lemma ofBytes_toBytes_id n v : in_width n v -> ofBytes (toBytes n v) = v.
Proof. intros Hv. rewrite ofBytes_toBytes. by apply Z.mod_small. Qed.

Lemma ofBytes_range w : in_width (length w) (ofBytes w).
Proof.
  unfold ofBytes, in_width. destruct native; [apply bigEndian_range|].
  rewrite <- length_reverse. apply bigEndian_range.
Qed.
End native.
