(* ===== verification/Dhcp4.v ===== *)
(** * github.com/krolaw/dhcp4: packets and options

    [packet.go] and [helpers.go].  A [Packet] is its bytes; the accessors and
    setters index and slice with Go's bounds checks, so they live in [outcome].
    A packet's capacity is its length: the packets of this program are the
    241-byte array of [NewPacket] and what the server read into its buffer, and
    no accessor reaches past the length the callers check. *)

From Stdlib Require Import ZArith Lia NArith Ascii Strings.Byte.
From stdpp Require Import base numbers gmap strings list fin_maps.
From S2P Require Import Prelude GoNet.

Open Scope Z_scope.

Abbreviation Packet := (list byte).

(** ** Constants *)

Definition BootRequest : byte := Byte.x01.
Definition BootReply : byte := Byte.x02.

(** [MessageType], option 53. *)
Definition Discover : byte := Byte.x01.
Definition Offer : byte := Byte.x02.
Definition Request : byte := Byte.x03.
Definition Decline : byte := Byte.x04.
Definition ACK : byte := Byte.x05.
Definition NAK : byte := Byte.x06.
Definition Release : byte := Byte.x07.
Definition Inform : byte := Byte.x08.

(** [OptionCode] *)
Definition End : byte := Byte.xff.
Definition Pad : byte := Byte.x00.
Definition OptionSubnetMask : byte := Byte.x01.
Definition OptionTimeOffset : byte := Byte.x02.
Definition OptionRouter : byte := Byte.x03.
Definition OptionTimeServer : byte := Byte.x04.
Definition OptionNameServer : byte := Byte.x05.
Definition OptionDomainNameServer : byte := Byte.x06.
Definition OptionLogServer : byte := Byte.x07.
Definition OptionCookieServer : byte := Byte.x08.
Definition OptionLPRServer : byte := Byte.x09.
Definition OptionImpressServer : byte := Byte.x0a.
Definition OptionResourceLocationServer : byte := Byte.x0b.
Definition OptionHostName : byte := Byte.x0c.
Definition OptionBootFileSize : byte := Byte.x0d.
Definition OptionMeritDumpFile : byte := Byte.x0e.
Definition OptionDomainName : byte := Byte.x0f.
Definition OptionSwapServer : byte := Byte.x10.
Definition OptionRootPath : byte := Byte.x11.
Definition OptionExtensionsPath : byte := Byte.x12.
Definition OptionIPForwardingEnableDisable : byte := Byte.x13.
Definition OptionNonLocalSourceRoutingEnableDisable : byte := Byte.x14.
Definition OptionPolicyFilter : byte := Byte.x15.
Definition OptionMaximumDatagramReassemblySize : byte := Byte.x16.
Definition OptionDefaultIPTimeToLive : byte := Byte.x17.
Definition OptionPathMTUAgingTimeout : byte := Byte.x18.
Definition OptionPathMTUPlateauTable : byte := Byte.x19.
Definition OptionInterfaceMTU : byte := Byte.x1a.
Definition OptionAllSubnetsAreLocal : byte := Byte.x1b.
Definition OptionBroadcastAddress : byte := Byte.x1c.
Definition OptionPerformMaskDiscovery : byte := Byte.x1d.
Definition OptionMaskSupplier : byte := Byte.x1e.
Definition OptionPerformRouterDiscovery : byte := Byte.x1f.
Definition OptionRouterSolicitationAddress : byte := Byte.x20.
Definition OptionStaticRoute : byte := Byte.x21.
Definition OptionTrailerEncapsulation : byte := Byte.x22.
Definition OptionARPCacheTimeout : byte := Byte.x23.
Definition OptionEthernetEncapsulation : byte := Byte.x24.
Definition OptionTCPDefaultTTL : byte := Byte.x25.
Definition OptionTCPKeepaliveInterval : byte := Byte.x26.
Definition OptionTCPKeepaliveGarbage : byte := Byte.x27.
Definition OptionNetworkInformationServiceDomain : byte := Byte.x28.
Definition OptionNetworkInformationServers : byte := Byte.x29.
Definition OptionNetworkTimeProtocolServers : byte := Byte.x2a.
Definition OptionVendorSpecificInformation : byte := Byte.x2b.
Definition OptionNetBIOSOverTCPIPNameServer : byte := Byte.x2c.
Definition OptionNetBIOSOverTCPIPDatagramDistributionServer : byte := Byte.x2d.
Definition OptionNetBIOSOverTCPIPNodeType : byte := Byte.x2e.
Definition OptionNetBIOSOverTCPIPScope : byte := Byte.x2f.
Definition OptionXWindowSystemFontServer : byte := Byte.x30.
Definition OptionXWindowSystemDisplayManager : byte := Byte.x31.
Definition OptionNetworkInformationServicePlusDomain : byte := Byte.x40.
Definition OptionNetworkInformationServicePlusServers : byte := Byte.x41.
Definition OptionMobileIPHomeAgent : byte := Byte.x44.
Definition OptionSimpleMailTransportProtocol : byte := Byte.x45.
Definition OptionPostOfficeProtocolServer : byte := Byte.x46.
Definition OptionNetworkNewsTransportProtocol : byte := Byte.x47.
Definition OptionDefaultWorldWideWebServer : byte := Byte.x48.
Definition OptionDefaultFingerServer : byte := Byte.x49.
Definition OptionDefaultInternetRelayChatServer : byte := Byte.x4a.
Definition OptionStreetTalkServer : byte := Byte.x4b.
Definition OptionStreetTalkDirectoryAssistance : byte := Byte.x4c.
Definition OptionRelayAgentInformation : byte := Byte.x52.
Definition OptionRequestedIPAddress : byte := Byte.x32.
Definition OptionIPAddressLeaseTime : byte := Byte.x33.
Definition OptionOverload : byte := Byte.x34.
Definition OptionDHCPMessageType : byte := Byte.x35.
Definition OptionServerIdentifier : byte := Byte.x36.
Definition OptionParameterRequestList : byte := Byte.x37.
Definition OptionMessage : byte := Byte.x38.
Definition OptionMaximumDHCPMessageSize : byte := Byte.x39.
Definition OptionRenewalTimeValue : byte := Byte.x3a.
Definition OptionRebindingTimeValue : byte := Byte.x3b.
Definition OptionVendorClassIdentifier : byte := Byte.x3c.
Definition OptionClientIdentifier : byte := Byte.x3d.
Definition OptionTFTPServerName : byte := Byte.x42.
Definition OptionBootFileName : byte := Byte.x43.
Definition OptionUserClass : byte := Byte.x4d.
Definition OptionClientArchitecture : byte := Byte.x5d.
Definition OptionTZPOSIXString : byte := Byte.x64.
Definition OptionTZDatabaseString : byte := Byte.x65.
Definition OptionDomainSearch : byte := Byte.x77.
Definition OptionClasslessRouteFormat : byte := Byte.x79.

Definition OptionCodes : list byte :=
  [End;
   Pad;
   OptionSubnetMask;
   OptionTimeOffset;
   OptionRouter;
   OptionTimeServer;
   OptionNameServer;
   OptionDomainNameServer;
   OptionLogServer;
   OptionCookieServer;
   OptionLPRServer;
   OptionImpressServer;
   OptionResourceLocationServer;
   OptionHostName;
   OptionBootFileSize;
   OptionMeritDumpFile;
   OptionDomainName;
   OptionSwapServer;
   OptionRootPath;
   OptionExtensionsPath;
   OptionIPForwardingEnableDisable;
   OptionNonLocalSourceRoutingEnableDisable;
   OptionPolicyFilter;
   OptionMaximumDatagramReassemblySize;
   OptionDefaultIPTimeToLive;
   OptionPathMTUAgingTimeout;
   OptionPathMTUPlateauTable;
   OptionInterfaceMTU;
   OptionAllSubnetsAreLocal;
   OptionBroadcastAddress;
   OptionPerformMaskDiscovery;
   OptionMaskSupplier;
   OptionPerformRouterDiscovery;
   OptionRouterSolicitationAddress;
   OptionStaticRoute;
   OptionTrailerEncapsulation;
   OptionARPCacheTimeout;
   OptionEthernetEncapsulation;
   OptionTCPDefaultTTL;
   OptionTCPKeepaliveInterval;
   OptionTCPKeepaliveGarbage;
   OptionNetworkInformationServiceDomain;
   OptionNetworkInformationServers;
   OptionNetworkTimeProtocolServers;
   OptionVendorSpecificInformation;
   OptionNetBIOSOverTCPIPNameServer;
   OptionNetBIOSOverTCPIPDatagramDistributionServer;
   OptionNetBIOSOverTCPIPNodeType;
   OptionNetBIOSOverTCPIPScope;
   OptionXWindowSystemFontServer;
   OptionXWindowSystemDisplayManager;
   OptionNetworkInformationServicePlusDomain;
   OptionNetworkInformationServicePlusServers;
   OptionMobileIPHomeAgent;
   OptionSimpleMailTransportProtocol;
   OptionPostOfficeProtocolServer;
   OptionNetworkNewsTransportProtocol;
   OptionDefaultWorldWideWebServer;
   OptionDefaultFingerServer;
   OptionDefaultInternetRelayChatServer;
   OptionStreetTalkServer;
   OptionStreetTalkDirectoryAssistance;
   OptionRelayAgentInformation;
   OptionRequestedIPAddress;
   OptionIPAddressLeaseTime;
   OptionOverload;
   OptionDHCPMessageType;
   OptionServerIdentifier;
   OptionParameterRequestList;
   OptionMessage;
   OptionMaximumDHCPMessageSize;
   OptionRenewalTimeValue;
   OptionRebindingTimeValue;
   OptionVendorClassIdentifier;
   OptionClientIdentifier;
   OptionTFTPServerName;
   OptionBootFileName;
   OptionUserClass;
   OptionClientArchitecture;
   OptionTZPOSIXString;
   OptionTZDatabaseString;
   OptionDomainSearch;
   OptionClasslessRouteFormat].

(** ** Packet accessors *)

Definition OpCode (p : Packet) : outcome byte := index p 0.
Definition HType (p : Packet) : outcome byte := index p 1.
Definition HLen (p : Packet) : outcome byte := index p 2.
Definition Hops (p : Packet) : outcome byte := index p 3.
Definition XId (p : Packet) : outcome (list byte) := slice p 4 8.
Definition Secs (p : Packet) : outcome (list byte) := slice p 8 10.
Definition Flags (p : Packet) : outcome (list byte) := slice p 10 12.
Definition CIAddr (p : Packet) : outcome (list byte) := slice p 12 16.
Definition YIAddr (p : Packet) : outcome (list byte) := slice p 16 20.
Definition SIAddr (p : Packet) : outcome (list byte) := slice p 20 24.
Definition GIAddr (p : Packet) : outcome (list byte) := slice p 24 28.

(** The hardware address; its length byte is capped at 16. *)
Definition CHAddr (p : Packet) : outcome (list byte) :=
  hLen ← HLen p;
  let n := if decide (16 < u8 hLen) then 16%nat else Z.to_nat (u8 hLen) in
  slice p 28 (28 + n).

(** [d] up to its first zero byte. *)
Fixpoint trimNull (d : list byte) : list byte :=
  match d with
  | [] => []
  | v :: r => if decide (v = Byte.x00) then [] else v :: trimNull r
  end.

Definition SName (p : Packet) : outcome (list byte) := trimNull <$> slice p 44 108.
Definition File (p : Packet) : outcome (list byte) := trimNull <$> slice p 108 236.
Definition Cookie (p : Packet) : outcome (list byte) := slice p 236 240.

(** The bytes after the fixed header. *)
Definition Options (p : Packet) : list byte :=
  if decide (240 < length p)%nat then drop 240 p else [].

Definition Broadcast (p : Packet) : outcome bool :=
  flags ← Flags p; f ← index flags 0; Ret (bool_decide (127 < u8 f)).

(** ** Packet setters *)

Definition SetBroadcast (p : Packet) (broadcast : bool) : outcome Packet :=
  b ← Broadcast p;
  if decide (b <> broadcast)
  then f ← index p 10; store p 10 (byte_of_Z (Z.lxor (u8 f) 128))
  else Ret p.

Definition SetOpCode (p : Packet) (c : byte) : outcome Packet := store p 0 c.

Definition SetCHAddr (p : Packet) (a : list byte) : outcome Packet :=
  p ← copy_into p 28 44 a;
  store p 2 (byte_of_Z (Z.of_nat (length a))).

Definition SetHType (p : Packet) (hType : byte) : outcome Packet := store p 1 hType.
Definition SetCookie (p : Packet) (cookie : list byte) : outcome Packet :=
  copy_into p 236 240 cookie.
Definition SetHops (p : Packet) (hops : byte) : outcome Packet := store p 3 hops.
Definition SetXId (p : Packet) (xId : list byte) : outcome Packet := copy_into p 4 8 xId.
Definition SetSecs (p : Packet) (secs : list byte) : outcome Packet := copy_into p 8 10 secs.
Definition SetFlags (p : Packet) (flags : list byte) : outcome Packet := copy_into p 10 12 flags.
Definition SetCIAddr (p : Packet) (ip : list byte) : outcome Packet :=
  copy_into p 12 16 (net.To4 ip).
Definition SetYIAddr (p : Packet) (ip : list byte) : outcome Packet :=
  copy_into p 16 20 (net.To4 ip).
Definition SetSIAddr (p : Packet) (ip : list byte) : outcome Packet :=
  copy_into p 20 24 (net.To4 ip).
Definition SetGIAddr (p : Packet) (ip : list byte) : outcome Packet :=
  copy_into p 24 28 (net.To4 ip).

Definition SetSName (p : Packet) (sName : list byte) : outcome Packet :=
  p ← copy_into p 44 108 sName;
  if decide (length sName < 64)%nat then store p (44 + length sName) Byte.x00 else Ret p.

Definition SetFile (p : Packet) (file : list byte) : outcome Packet :=
  p ← copy_into p 108 236 file;
  if decide (length file < 128)%nat then store p (108 + length file) Byte.x00 else Ret p.

(** ** Options *)

(** [Packet.ParseOptions].  Every turn of the loop consumes at least one byte,
    so the number of option bytes bounds the number of turns. *)
Fixpoint ParseOptions_loop (fuel : nat) (opts : list byte) (options : gmap byte (list byte))
  : gmap byte (list byte) :=
  match fuel, opts with
  | S fuel, c :: sz :: data =>
      if decide (c = End) then options
      else if decide (c = Pad) then ParseOptions_loop fuel (sz :: data) options
      else
        let size := Z.to_nat (u8 sz) in
        if decide (length data < size)%nat then options
        else ParseOptions_loop fuel (drop size data) (<[c := take size data]> options)
  | _, _ => options
  end.

Definition ParseOptions (p : Packet) : gmap byte (list byte) :=
  ParseOptions_loop (length (Options p)) (Options p) ∅.

Definition NewPacket (opCode : byte) : outcome Packet :=
  p ← SetOpCode (replicate 241 Byte.x00) opCode;
  p ← SetHType p Byte.x01;
  p ← SetCookie p [Byte.x63; Byte.x82; Byte.x53; Byte.x63];
  store p 240 End.

(** [AddOption]: strips the End byte, appends code, length byte and value, and
    an End byte again. *)
Definition AddOption (p : Packet) (o : byte) (value : list byte) : outcome Packet :=
  match length p with
  | O => Panic SliceOutOfRange
  | S n => Ret (take n p ++ [o; byte_of_Z (Z.of_nat (length value))] ++ value ++ [End])
  end.

Definition StripOptions (p : Packet) : outcome Packet :=
  h ← slice p 0 240; Ret (h ++ [End]).

Definition PadToMinSize (p : Packet) : Packet :=
  if decide (length p < 272)%nat then p ++ replicate (272 - length p) Byte.x00 else p.

(** The [for _, o := range options] loops over [AddOption]. *)
Fixpoint AddOptions (p : Packet) (options : list (byte * list byte)) : outcome Packet :=
  match options with
  | [] => Ret p
  | (code, value) :: r => p ← AddOption p code value; AddOptions p r
  end.

(** [time.Duration] in nanoseconds. *)
Definition Second : Z := 1000000000.
Definition Hour : Z := 3600 * Second.

(** [OptionsLeaseTime]: whole seconds as a big-endian word. *)
Definition OptionsLeaseTime (d : Z) : list byte := binary.be32 (u32 (Z.quot d Second)).

Definition RequestPacket (mt : byte) (chAddr cIAddr xId : list byte) (broadcast : bool)
    (options : list (byte * list byte)) : outcome Packet :=
  p ← NewPacket BootRequest;
  p ← SetCHAddr p chAddr;
  p ← SetXId p xId;
  p ← (if net.is_nil cIAddr then Ret p else SetCIAddr p cIAddr);
  p ← SetBroadcast p broadcast;
  p ← AddOption p OptionDHCPMessageType [mt];
  p ← AddOptions p options;
  Ret (PadToMinSize p).

Definition ReplyPacket (req : Packet) (mt : byte) (serverId yIAddr : list byte)
    (leaseDuration : Z) (options : list (byte * list byte)) : outcome Packet :=
  p ← NewPacket BootReply;
  xid ← XId req; p ← SetXId p xid;
  flags ← Flags req; p ← SetFlags p flags;
  p ← SetYIAddr p yIAddr;
  gi ← GIAddr req; p ← SetGIAddr p gi;
  ch ← CHAddr req; p ← SetCHAddr p ch;
  p ← AddOption p OptionDHCPMessageType [mt];
  p ← AddOption p OptionServerIdentifier serverId;
  p ← (if decide (0 < leaseDuration)
       then AddOption p OptionIPAddressLeaseTime (OptionsLeaseTime leaseDuration)
       else Ret p);
  p ← AddOptions p options;
  Ret (PadToMinSize p).

(** ** helpers.go *)

(** [SelectOrder]: the options the order list names, in that order. *)
Definition SelectOrder (o : gmap byte (list byte)) (order : list byte) : list (byte * list byte) :=
  omap (fun v => pair v <$> o !! v) order.

(** Go ranges over a map in an unspecified order, which may change from one
    loop to the next: an enumeration is any function that lists the bindings. *)
Class MapRange := {
  map_range : gmap byte (list byte) -> list (byte * list byte);
  map_range_perm m : map_range m ≡ₚ map_to_list m
}.

#[export] Program Instance map_to_list_range : MapRange :=
  {| map_range := map_to_list |}.
Next Obligation. done. Qed.

(** [SelectOrderOrAll]: without an order list (nil), every option. *)
Definition SelectOrderOrAll `{MapRange} (o : gmap byte (list byte)) (order : option (list byte))
  : list (byte * list byte) :=
  match order with
  | None => map_range o
  | Some order => SelectOrder o order
  end.

(** [IPRange]: how many addresses from [start] to [stop], computed in an [int]
    of [w] bits. *)
Definition IPRange (w : Z) (start stop : list byte) : outcome Z :=
  b ← binary.Uint32 (net.To4 stop);
  a ← binary.Uint32 (net.To4 start);
  Ret (sint w (sint w b - sint w a + 1)).

(** [IPAdd]: addition modulo 2^32 on an IPv4 address; panics on any other. *)
Definition IPAdd (start : list byte) (add : Z) : outcome (list byte) :=
  v ← binary.Uint32 (net.To4 start);
  binary.PutUint32 (replicate 4 Byte.x00) (u32 (v + u32 add)).

Fixpoint IPLess_loop (a b : list byte) : outcome bool :=
  match a with
  | [] => Ret false
  | ai :: a =>
      bi ← index b 0;
      if decide (ai <> bi) then Ret (bool_decide (u8 ai < u8 bi))
      else IPLess_loop a (drop 1 b)
  end.

(** [IPLess]: the bytes compared from the most significant one. *)
Definition IPLess (a b : list byte) : outcome bool := IPLess_loop (net.To4 a) (net.To4 b).

Definition IPInRange (start stop ip : list byte) : outcome bool :=
  lo ← IPLess ip start;
  if (lo : bool) then Ret false
  else hi ← IPLess stop ip; Ret (negb hi).

Definition JoinIPs (ips : list (list byte)) : list byte := concat (net.To4 <$> ips).

(** ** The layout of a packet

    The fixed header is fifteen fields of known widths; a packet is the
    concatenation of its fields followed by the options.  Accessors and setters
    act on one field of this view. *)

Definition shape : list nat := [1; 1; 1; 1; 4; 2; 2; 4; 4; 4; 4; 16; 64; 128; 4]%nat.

(** The fields of a header. *)
Definition fits (fs : list (list byte)) : Prop := length <$> fs = shape.

Definition offset (k : nat) : nat := sum_list (take k shape).

Lemma length_concat {A} (fs : list (list A)) : length (concat fs) = sum_list (length <$> fs).
Proof. induction fs as [|f fs IH]; [done|]. simpl. by rewrite length_app, IH. Qed.

Lemma concat_split {A} (fs : list (list A)) k w :
  fs !! k = Some w -> concat fs = concat (take k fs) ++ w ++ concat (drop (S k) fs).
Proof.
  intros H. rewrite <- (take_drop_middle fs k w H) at 1.
  by rewrite concat_app.
Qed.

Lemma concat_insert {A} (fs : list (list A)) k w :
  (k < length fs)%nat ->
  concat (<[k := w]> fs) = concat (take k fs) ++ w ++ concat (drop (S k) fs).
Proof.
  intros H. by rewrite insert_take_drop, concat_app by done.
Qed.

Section fields.
Context (fs : list (list byte)) (rest : list byte) (Hfits : fits fs).

Lemma fits_lookup k w : fs !! k = Some w -> shape !! k = Some (length w).
Proof. intros H. rewrite <- Hfits, list_lookup_fmap, H. done. Qed.

Lemma fits_offset k : length (concat (take k fs)) = offset k.
Proof. rewrite length_concat, fmap_take, Hfits. done. Qed.

Lemma fits_length : length (concat fs) = 240%nat.
Proof. rewrite length_concat, Hfits. done. Qed.

Lemma slice_field k w :
  fs !! k = Some w ->
  slice (concat fs ++ rest) (offset k) (offset k + length w) = Ret w.
Proof.
  intros H. rewrite (concat_split fs k w H), <- !app_assoc.
  rewrite <- fits_offset. rewrite slice_Ret by (rewrite !length_app; lia).
  rewrite drop_app_length.
  replace (_ + length w - _)%nat with (length w) by lia.
  by rewrite take_app_length.
Qed.

Lemma copy_field k w src :
  fs !! k = Some w ->
  copy_into (concat fs ++ rest) (offset k) (offset k + length w) src =
    Ret (concat (<[k := copy w src]> fs) ++ rest).
Proof.
  intros H. unfold copy_into. rewrite (slice_field k w H). simpl.
  pose proof (lookup_lt_Some _ _ _ H) as Hlt.
  rewrite (concat_insert fs k _ Hlt), (concat_split fs k w H), <- !app_assoc.
  rewrite <- fits_offset, take_app_length. do 3 f_equal.
  rewrite (app_assoc (concat _) w), <- length_app. apply drop_app_length.
Qed.

Lemma fits_copy k w src : fs !! k = Some w -> fits (<[k := copy w src]> fs).
Proof.
  intros H. unfold fits. rewrite list_fmap_insert, length_copy, Hfits.
  apply list_insert_id. by apply fits_lookup.
Qed.

Lemma index_field k b :
  fs !! k = Some [b] -> index (concat fs ++ rest) (offset k) = Ret b.
Proof.
  intros H. apply index_Ret. rewrite (concat_split fs k _ H), <- !app_assoc.
  rewrite lookup_app_r by (rewrite fits_offset; lia).
  rewrite fits_offset, Nat.sub_diag. done.
Qed.

Lemma store_field k b b' :
  fs !! k = Some [b] ->
  store (concat fs ++ rest) (offset k) b' = Ret (concat (<[k := [b']]> fs) ++ rest).
Proof.
  intros H. pose proof (lookup_lt_Some _ _ _ H) as Hlt.
  pose proof (fits_offset k) as Ho.
  rewrite (concat_insert fs k _ Hlt), (concat_split fs k _ H), <- !app_assoc.
  rewrite store_Ret by (rewrite length_app; simpl; lia).
  rewrite insert_app_r_alt by lia. rewrite Ho, Nat.sub_diag. done.
Qed.
End fields.

(** Cutting a packet into the fields of its header. *)
Fixpoint cut {A} (ns : list nat) (l : list A) : list (list A) :=
  match ns with
  | [] => []
  | n :: ns => take n l :: cut ns (drop n l)
  end.

Lemma cut_lengths {A} ns (l : list A) :
  (sum_list ns <= length l)%nat -> length <$> cut ns l = ns.
Proof.
  revert l. induction ns as [|n ns IH]; intros l; [done|]. simpl. intros H.
  rewrite IH by (rewrite length_drop; lia). f_equal. rewrite length_take. lia.
Qed.

Lemma cut_concat {A} ns (l : list A) : concat (cut ns l) ++ drop (sum_list ns) l = l.
Proof.
  revert l. induction ns as [|n ns IH]; intros l; [done|]. simpl.
  rewrite <- drop_drop, <- app_assoc, IH. apply take_drop.
Qed.

Lemma packet_fields (p : Packet) :
  (240 <= length p)%nat -> exists fs, fits fs /\ p = concat fs ++ drop 240 p.
Proof.
  intros H. exists (cut shape p). split; [by apply cut_lengths|].
  symmetry. apply (cut_concat shape).
Qed.

(** ** Encoding of options *)

Definition encode_option (o : byte * list byte) : list byte :=
  fst o :: byte_of_Z (Z.of_nat (length (snd o))) :: snd o.

Definition encode_options (opts : list (byte * list byte)) : list byte :=
  concat (encode_option <$> opts).

(** What a client reads back: later options override earlier ones. *)
Definition options_map (opts : list (byte * list byte)) : gmap byte (list byte) :=
  foldl (fun m o => <[fst o := snd o]> m) ∅ opts.

(** An option the wire format can carry: neither Pad nor End, and a value whose
    length fits the length byte. *)
Definition valid_option (o : byte * list byte) : Prop :=
  fst o <> Pad /\ fst o <> End /\ (length (snd o) <= 255)%nat.

Lemma encode_options_app o1 o2 :
  encode_options (o1 ++ o2) = encode_options o1 ++ encode_options o2.
Proof. unfold encode_options. by rewrite fmap_app, concat_app. Qed.

Lemma AddOption_app (l : list byte) c v :
  AddOption (l ++ [End]) c v = Ret (l ++ encode_option (c, v) ++ [End]).
Proof.
  unfold AddOption. rewrite length_app. simpl length. rewrite Nat.add_1_r.
  rewrite take_app_length. unfold encode_option. simpl. done.
Qed.

Lemma AddOptions_app (l : list byte) opts :
  AddOptions (l ++ [End]) opts = Ret (l ++ encode_options opts ++ [End]).
Proof.
  revert l. induction opts as [|[c v] opts IH]; intros l; [done|].
  cbn [AddOptions]. rewrite AddOption_app, bind_ret, app_assoc, IH.
  change (encode_options ((c, v) :: opts)) with (encode_option (c, v) ++ encode_options opts).
  by rewrite <- !app_assoc.
Qed.

Lemma ParseOptions_loop_encode fuel opts rest m :
  Forall valid_option opts -> (length (encode_options opts ++ rest) <= fuel)%nat ->
  ParseOptions_loop fuel (encode_options opts ++ rest) m =
    ParseOptions_loop (fuel - length opts) rest (foldl (fun m o => <[fst o := snd o]> m) m opts).
Proof.
  intros Hv. revert fuel m. induction Hv as [|[c v] opts (Hpad & Hend & Hlen) Hv IH];
    intros fuel m Hf; [by rewrite Nat.sub_0_r|].
  simpl in Hpad, Hend, Hlen.
  change (encode_options ((c, v) :: opts)) with (encode_option (c, v) ++ encode_options opts) in *.
  rewrite <- !app_assoc in *. unfold encode_option in *. simpl in Hf |- *.
  destruct fuel as [|fuel]; [lia|]. cbn [ParseOptions_loop].
  rewrite !decide_False by done.
  rewrite u8_byte_of_Z_small, Nat2Z.id by lia.
  rewrite length_app in Hf.
  rewrite decide_False by (rewrite length_app; lia).
  rewrite take_app_length, drop_app_length. apply IH. lia.
Qed.

Lemma ParseOptions_loop_stop fuel pad m : ParseOptions_loop fuel (End :: pad) m = m.
Proof. destruct fuel, pad; try done. Qed.

(** Reading the options of a packet that carries them gives them back. *)
Lemma ParseOptions_encode (h : list byte) opts pad :
  length h = 240%nat -> Forall valid_option opts ->
  ParseOptions (h ++ encode_options opts ++ End :: pad) = options_map opts.
Proof.
  intros Hh Hv. unfold ParseOptions, Options.
  rewrite decide_True by (rewrite !length_app; simpl; lia).
  rewrite <- Hh, drop_app_length.
  rewrite ParseOptions_loop_encode by done. apply ParseOptions_loop_stop.
Qed.

(** ** Reply packets *)

Abbreviation zeros n := (replicate n Byte.x00).

Definition magic : list byte := [Byte.x63; Byte.x82; Byte.x53; Byte.x63].

(** The header of a packet [NewPacket] builds, after the setters ran. *)
Definition header (op hlen : byte) (xid flags ci yi gi ch : list byte) : list (list byte) :=
  [[op]; [Byte.x01]; [hlen]; [Byte.x00]; xid; zeros 2; flags; ci; yi; zeros 4; gi; ch;
   zeros 64; zeros 128; magic].

Lemma NewPacket_header op :
  NewPacket op =
    Ret (concat (header op Byte.x00 (zeros 4) (zeros 2) (zeros 4) (zeros 4) (zeros 4) (zeros 16))
         ++ [End]).
Proof. reflexivity. Qed.

(** The fields [ReplyPacket] copies from the request have the widths the reply
    expects. *)
Definition header_ok (xid flags ci yi gi ch : list byte) : Prop :=
  length xid = 4%nat /\ length flags = 2%nat /\ length ci = 4%nat /\
  length yi = 4%nat /\ length gi = 4%nat /\ length ch = 16%nat.

Lemma header_fits op hlen xid flags ci yi gi ch :
  header_ok xid flags ci yi gi ch -> fits (header op hlen xid flags ci yi gi ch).
Proof. intros (?&?&?&?&?&?). unfold fits, header, shape. simpl. congruence. Qed.

Lemma header_length op hlen xid flags ci yi gi ch :
  header_ok xid flags ci yi gi ch ->
  length (concat (header op hlen xid flags ci yi gi ch)) = 240%nat.
Proof. intros. by apply fits_length, header_fits. Qed.

Lemma get_field fs rest k w i j :
  fits fs -> fs !! k = Some w -> i = offset k -> Some (j - i)%nat = shape !! k -> (i <= j)%nat ->
  slice (concat fs ++ rest) i j = Ret w.
Proof.
  intros Hf Hk -> Hj Hle. rewrite (fits_lookup fs Hf k w Hk) in Hj. injection Hj as Hj.
  replace j with (offset k + length w)%nat by lia. by apply slice_field.
Qed.

Lemma set_field fs rest k w i j src :
  fits fs -> fs !! k = Some w -> i = offset k -> Some (j - i)%nat = shape !! k -> (i <= j)%nat ->
  copy_into (concat fs ++ rest) i j src = Ret (concat (<[k := copy w src]> fs) ++ rest).
Proof.
  intros Hf Hk -> Hj Hle. rewrite (fits_lookup fs Hf k w Hk) in Hj. injection Hj as Hj.
  replace j with (offset k + length w)%nat by lia. by apply copy_field.
Qed.

(** Rewrites an access to a header field by its position in the layout. *)
Ltac field_at lem k :=
  erewrite (lem _ _ k); [| by eauto using header_fits | done | done | done | lia].

Lemma CHAddr_length p ch : CHAddr p = Ret ch -> (length ch <= 16)%nat.
Proof.
  unfold CHAddr. intros (hl & _ & H)%bind_Ret_inv. apply slice_length in H.
  rewrite H. case_decide; lia.
Qed.

Lemma zeros_header_ok : header_ok (zeros 4) (zeros 2) (zeros 4) (zeros 4) (zeros 4) (zeros 16).
Proof. done. Qed.

Section header_setters.
Context (op hlen : byte) (xid flags ci yi gi ch rest : list byte).
Context (Hok : header_ok xid flags ci yi gi ch).

Lemma SetXId_header x :
  length x = 4%nat ->
  SetXId (concat (header op hlen xid flags ci yi gi ch) ++ rest) x =
    Ret (concat (header op hlen x flags ci yi gi ch) ++ rest).
Proof.
  intros H. unfold SetXId. field_at set_field 4%nat. cbn [insert list_insert header].
  rewrite copy_exact; [done|]. destruct Hok. congruence.
Qed.

Lemma SetFlags_header x :
  length x = 2%nat ->
  SetFlags (concat (header op hlen xid flags ci yi gi ch) ++ rest) x =
    Ret (concat (header op hlen xid x ci yi gi ch) ++ rest).
Proof.
  intros H. unfold SetFlags. field_at set_field 6%nat. cbn [insert list_insert header].
  rewrite copy_exact; [done|]. destruct Hok as (_&?&_). congruence.
Qed.

Lemma SetCIAddr_header x :
  SetCIAddr (concat (header op hlen xid flags ci yi gi ch) ++ rest) x =
    Ret (concat (header op hlen xid flags (copy ci (net.To4 x)) yi gi ch) ++ rest).
Proof. unfold SetCIAddr. by field_at set_field 7%nat. Qed.

Lemma SetYIAddr_header x :
  SetYIAddr (concat (header op hlen xid flags ci yi gi ch) ++ rest) x =
    Ret (concat (header op hlen xid flags ci (copy yi (net.To4 x)) gi ch) ++ rest).
Proof. unfold SetYIAddr. by field_at set_field 8%nat. Qed.

Lemma SetGIAddr_header x :
  length x = 4%nat ->
  SetGIAddr (concat (header op hlen xid flags ci yi gi ch) ++ rest) x =
    Ret (concat (header op hlen xid flags ci yi x ch) ++ rest).
Proof.
  intros H. unfold SetGIAddr. rewrite net.To4_of_4 by done.
  field_at set_field 10%nat. cbn [insert list_insert header].
  rewrite copy_exact; [done|]. destruct Hok as (_&_&_&_&?&_). congruence.
Qed.

Lemma SetCHAddr_header x :
  SetCHAddr (concat (header op hlen xid flags ci yi gi ch) ++ rest) x =
    Ret (concat (header op (byte_of_Z (Z.of_nat (length x))) xid flags ci yi gi (copy ch x))
         ++ rest).
Proof.
  unfold SetCHAddr. field_at set_field 11%nat. cbn [insert list_insert header].
  rewrite bind_ret. change 2%nat with (offset 2).
  assert (header_ok xid flags ci yi gi (copy ch x)).
  { destruct Hok as (?&?&?&?&?&?). repeat split; try done. by rewrite length_copy. }
  erewrite (store_field (header op hlen xid flags ci yi gi (copy ch x)));
    [done | by apply header_fits | done].
Qed.
End header_setters.

(** What [ReplyPacket] builds, byte for byte. *)
Lemma ReplyPacket_eq req mt serverId yi d opts xid flags gi ch :
  XId req = Ret xid -> Flags req = Ret flags -> GIAddr req = Ret gi -> CHAddr req = Ret ch ->
  ReplyPacket req mt serverId yi d opts =
    Ret (PadToMinSize
      (concat (header BootReply (byte_of_Z (Z.of_nat (length ch))) xid flags (zeros 4)
                 (copy (zeros 4) (net.To4 yi)) gi (copy (zeros 16) ch))
       ++ encode_options ((OptionDHCPMessageType, [mt]) :: (OptionServerIdentifier, serverId) ::
            (if decide (0 < d) then [(OptionIPAddressLeaseTime, OptionsLeaseTime d)] else [])
            ++ opts)
       ++ [End])).
Proof.
  intros Hx Hfl Hgi Hch.
  pose proof (slice_length _ _ _ _ Hx) as Lx. pose proof (slice_length _ _ _ _ Hfl) as Lf.
  pose proof (slice_length _ _ _ _ Hgi) as Lg. simpl in Lx, Lf, Lg.
  unfold ReplyPacket. rewrite NewPacket_header, bind_ret, Hx, bind_ret.
  rewrite SetXId_header, bind_ret, Hfl, bind_ret by done.
  rewrite SetFlags_header, bind_ret, SetYIAddr_header, bind_ret, Hgi, bind_ret by done.
  rewrite SetGIAddr_header, bind_ret, Hch, bind_ret by (repeat split; by rewrite ?length_copy).
  rewrite SetCHAddr_header, bind_ret by (repeat split; by rewrite ?length_copy).
  set (h := concat _). rewrite AddOption_app, bind_ret.
  rewrite app_assoc, AddOption_app, bind_ret.
  case_decide.
  - rewrite app_assoc, AddOption_app, bind_ret.
    rewrite app_assoc, AddOptions_app. simpl.
    unfold encode_options. simpl. by rewrite <- !app_assoc.
  - rewrite bind_ret, app_assoc, AddOptions_app. simpl.
    unfold encode_options. simpl. by rewrite <- !app_assoc.
Qed.

Lemma PadToMinSize_app p : PadToMinSize p = p ++ zeros (272 - length p).
Proof.
  unfold PadToMinSize. case_decide; [done|].
  replace (272 - length p)%nat with 0%nat by lia. by rewrite app_nil_r.
Qed.

Lemma copy_zeros_prefix n (l : list byte) :
  (length l <= n)%nat -> copy (zeros n) l = l ++ zeros (n - length l).
Proof.
  intros H. unfold copy. rewrite length_replicate, take_ge, drop_replicate by lia. done.
Qed.

Section header_getters.
Context (op hlen : byte) (xid flags ci yi gi ch rest : list byte).
Context (Hok : header_ok xid flags ci yi gi ch).
Let p := concat (header op hlen xid flags ci yi gi ch) ++ rest.

Lemma OpCode_header : OpCode p = Ret op.
Proof. exact (index_field _ rest (header_fits _ _ _ _ _ _ _ _ Hok) 0 op eq_refl). Qed.

Lemma HLen_header : HLen p = Ret hlen.
Proof. exact (index_field _ rest (header_fits _ _ _ _ _ _ _ _ Hok) 2 hlen eq_refl). Qed.

Lemma XId_header : XId p = Ret xid.
Proof. unfold XId, p. by field_at get_field 4%nat. Qed.

Lemma Flags_header : Flags p = Ret flags.
Proof. unfold Flags, p. by field_at get_field 6%nat. Qed.

Lemma CIAddr_header : CIAddr p = Ret ci.
Proof. unfold CIAddr, p. by field_at get_field 7%nat. Qed.

Lemma YIAddr_header : YIAddr p = Ret yi.
Proof. unfold YIAddr, p. by field_at get_field 8%nat. Qed.

Lemma GIAddr_header : GIAddr p = Ret gi.
Proof. unfold GIAddr, p. by field_at get_field 10%nat. Qed.

Lemma Cookie_header : Cookie p = Ret magic.
Proof. unfold Cookie, p. by field_at get_field 14%nat. Qed.

Lemma CHAddr_header n :
  u8 hlen = Z.of_nat n -> (n <= 16)%nat -> CHAddr p = Ret (take n ch).
Proof.
  intros Hn Hle. unfold CHAddr. rewrite HLen_header, bind_ret, Hn, Nat2Z.id.
  rewrite decide_False by lia.
  rewrite (slice_prefix p 28 44 _ ch); [| unfold p; by field_at get_field 11%nat | lia].
  do 2 f_equal. lia.
Qed.
End header_getters.

(** ** Requests the server can read *)

Lemma header_fields_Ret req :
  (240 <= length req)%nat ->
  exists xid flags gi ch,
    XId req = Ret xid /\ Flags req = Ret flags /\ GIAddr req = Ret gi /\ CHAddr req = Ret ch /\
    length xid = 4%nat /\ length flags = 2%nat /\ length gi = 4%nat /\ (length ch <= 16)%nat.
Proof.
  intros H. unfold XId, Flags, GIAddr. rewrite !slice_Ret by lia.
  assert (exists ch, CHAddr req = Ret ch) as [ch Hch].
  { unfold CHAddr, HLen. destruct (lookup_lt_is_Some_2 req 2) as [hl Hhl]; [lia|].
    rewrite (index_Ret _ _ _ Hhl), bind_ret. pose proof (u8_range hl).
    case_decide; eexists; apply slice_Ret; lia. }
  eexists _, _, _, ch. repeat split; try done.
  all: rewrite ?length_take, ?length_drop; try lia. by eapply CHAddr_length.
Qed.

Lemma reply_header_ok xid flags gi ch yi :
  length xid = 4%nat -> length flags = 2%nat -> length gi = 4%nat ->
  header_ok xid flags (zeros 4) (copy (zeros 4) yi) gi (copy (zeros 16) ch).
Proof. intros. repeat split; by rewrite ?length_copy. Qed.

(** The fields of a reply. *)
Lemma ReplyPacket_fields req mt serverId yi d opts :
  (240 <= length req)%nat ->
  exists p, ReplyPacket req mt serverId yi d opts = Ret p /\
    OpCode p = Ret BootReply /\ XId p = XId req /\ Flags p = Flags req /\
    GIAddr p = GIAddr req /\ CHAddr p = CHAddr req /\
    YIAddr p = Ret (if net.is_nil (net.To4 yi) then zeros 4 else net.To4 yi) /\
    Cookie p = Ret magic /\ (272 <= length p)%nat.
Proof.
  intros Hreq. destruct (header_fields_Ret req Hreq)
    as (xid & flags & gi & ch & Hx & Hf & Hg & Hc & Lx & Lf & Lg & Lc).
  pose proof (reply_header_ok xid flags gi ch (net.To4 yi) Lx Lf Lg) as Hok.
  eexists. split; [by apply ReplyPacket_eq|].
  rewrite PadToMinSize_app, Hx, Hf, Hg, Hc, <- !(app_assoc (concat _)).
  rewrite OpCode_header, XId_header, Flags_header, GIAddr_header, YIAddr_header,
    Cookie_header by done.
  repeat split.
  - rewrite (CHAddr_header _ _ _ _ _ _ _ _ _ Hok (length ch)); [|by rewrite u8_byte_of_Z_small; lia|done].
    by rewrite copy_zeros_prefix, take_app_length by done.
  - destruct (net.To4_length yi) as [->|H]; [done|].
    rewrite copy_exact by done. by destruct (net.To4 yi).
  - rewrite !length_app, length_replicate. lia.
Qed.

(** The options of a reply, in the order they were added. *)
Definition reply_options (mt : byte) (serverId : list byte) (d : Z)
    (opts : list (byte * list byte)) : list (byte * list byte) :=
  (OptionDHCPMessageType, [mt]) :: (OptionServerIdentifier, serverId) ::
    (if decide (0 < d) then [(OptionIPAddressLeaseTime, OptionsLeaseTime d)] else []) ++ opts.

Lemma reply_options_valid mt serverId d opts :
  (length serverId <= 255)%nat -> Forall valid_option opts ->
  Forall valid_option (reply_options mt serverId d opts).
Proof.
  intros. unfold reply_options. repeat apply Forall_cons_2.
  1, 2: repeat split; simpl; done || lia.
  apply Forall_app; split; [|done]. case_decide; [|done].
  apply Forall_singleton. repeat split; simpl; done || lia.
Qed.

Lemma ReplyPacket_ParseOptions req mt serverId yi d opts p :
  (240 <= length req)%nat -> (length serverId <= 255)%nat -> Forall valid_option opts ->
  ReplyPacket req mt serverId yi d opts = Ret p ->
  ParseOptions p = options_map (reply_options mt serverId d opts).
Proof.
  intros Hreq Hs Hv. destruct (header_fields_Ret req Hreq)
    as (xid & flags & gi & ch & Hx & Hf & Hg & Hc & Lx & Lf & Lg & Lc).
  rewrite (ReplyPacket_eq _ _ _ _ _ _ _ _ _ _ Hx Hf Hg Hc). intros <-%(inj Ret).
  rewrite PadToMinSize_app, <- !app_assoc.
  apply (ParseOptions_encode _ (reply_options mt serverId d opts));
    [|by apply reply_options_valid].
  by apply header_length, reply_header_ok.
Qed.

(** What a client reads from a reply: the identifying fields of its own request,
    the address it was given, and every option the server added. *)
Theorem ReplyPacket_correct req mt serverId yi d opts :
  (240 <= length req)%nat -> (length serverId <= 255)%nat -> Forall valid_option opts ->
  exists p, ReplyPacket req mt serverId yi d opts = Ret p /\
    OpCode p = Ret BootReply /\ XId p = XId req /\ Flags p = Flags req /\
    GIAddr p = GIAddr req /\ CHAddr p = CHAddr req /\
    YIAddr p = Ret (if net.is_nil (net.To4 yi) then zeros 4 else net.To4 yi) /\
    Cookie p = Ret magic /\ (272 <= length p)%nat /\
    ParseOptions p = options_map (reply_options mt serverId d opts).
Proof.
  intros Hreq Hs Hv.
  destruct (ReplyPacket_fields req mt serverId yi d opts Hreq)
    as (p & Hp & ? & ? & ? & ? & ? & ? & ? & ?).
  pose proof (ReplyPacket_ParseOptions req mt serverId yi d opts p Hreq Hs Hv Hp).
  exists p. repeat (split; [assumption|]). assumption.
Qed.

Lemma ReplyPacket_correct_witness :
  exists p, ReplyPacket (zeros 240) Offer [Byte.x0a; Byte.x00; Byte.x00; Byte.x01]
              [Byte.x0a; Byte.x00; Byte.x00; Byte.x02] (Hour * 24)
              [(OptionRouter, [Byte.x0a; Byte.x00; Byte.x00; Byte.x01])] = Ret p /\
    YIAddr p = Ret [Byte.x0a; Byte.x00; Byte.x00; Byte.x02].
Proof.
  destruct (ReplyPacket_correct (zeros 240) Offer [Byte.x0a; Byte.x00; Byte.x00; Byte.x01]
              [Byte.x0a; Byte.x00; Byte.x00; Byte.x02] (Hour * 24)
              [(OptionRouter, [Byte.x0a; Byte.x00; Byte.x00; Byte.x01])])
    as (p & Hp & _ & _ & _ & _ & _ & Hy & _).
  - apply Nat.leb_le. reflexivity.
  - simpl. lia.
  - apply Forall_singleton. repeat split; simpl; done || lia.
  - exists p. exact (conj Hp Hy).
Defined.

(** Options written to a fresh packet are read back, and stripping them gives
    the fresh packet again. *)
Theorem options_roundtrip op opts :
  Forall valid_option opts ->
  exists p, (NewPacket op ≫= fun p => AddOptions p opts) = Ret p /\
    ParseOptions p = options_map opts /\ StripOptions p = NewPacket op.
Proof.
  intros Hv. rewrite NewPacket_header, bind_ret, AddOptions_app.
  eexists. split; [done|]. split; [by apply ParseOptions_encode|].
  unfold StripOptions. rewrite slice_Ret by (rewrite length_app, header_length by done; lia).
  reflexivity.
Qed.

Lemma options_roundtrip_witness :
  exists p, (NewPacket BootReply ≫= fun p =>
              AddOptions p [(OptionRouter, [Byte.x0a; Byte.x00; Byte.x00; Byte.x01]);
                            (OptionPerformRouterDiscovery, [Byte.x00])]) = Ret p /\
    StripOptions p = NewPacket BootReply.
Proof.
  destruct (options_roundtrip BootReply
              [(OptionRouter, [Byte.x0a; Byte.x00; Byte.x00; Byte.x01]);
               (OptionPerformRouterDiscovery, [Byte.x00])]) as (p & Hp & _ & Hs).
  - repeat apply Forall_cons_2; [..|apply Forall_nil_2]; repeat split; simpl; done || lia.
  - exists p. exact (conj Hp Hs).
Defined.

(** ** Address arithmetic *)

(** The number an IPv4 address stands for. *)
Definition addr_value (ip : list byte) : Z :=
  match binary.Uint32 ip with Ret v => v | _ => 0 end.

Lemma Uint32_addr_value ip : length ip = 4%nat -> binary.Uint32 ip = Ret (addr_value ip).
Proof.
  intros H. unfold addr_value. destruct ip as [|a [|b [|c [|d [|]]]]]; try done.
Qed.

Lemma addr_value_range ip : 0 <= addr_value ip < 2 ^ 32.
Proof.
  unfold addr_value. destruct (binary.Uint32 ip) eqn:E; [|lia..].
  by apply binary.Uint32_range in E.
Qed.

Lemma addr_value_be32 v : addr_value (binary.be32 v) = u32 v.
Proof. unfold addr_value. rewrite <- (app_nil_r (binary.be32 v)). by rewrite binary.Uint32_be32. Qed.

Lemma be32_addr_value ip : length ip = 4%nat -> binary.be32 (addr_value ip) = ip.
Proof. intros H. apply binary.be32_Uint32; [done|]. by apply Uint32_addr_value. Qed.

Lemma addr_value_inj a b :
  length a = 4%nat -> length b = 4%nat -> addr_value a = addr_value b -> a = b.
Proof. intros Ha Hb H. rewrite <- (be32_addr_value a), <- (be32_addr_value b) by done. by rewrite H. Qed.

Lemma IPAdd_eq ip n :
  length (net.To4 ip) = 4%nat ->
  IPAdd ip n = Ret (binary.be32 (u32 (addr_value (net.To4 ip) + u32 n))).
Proof.
  intros H. unfold IPAdd. rewrite Uint32_addr_value, bind_ret by done.
  by apply binary.PutUint32_Ret.
Qed.

Lemma IPAdd_panics ip n : net.To4 ip = [] -> IPAdd ip n = Panic IndexOutOfRange.
Proof. intros H. unfold IPAdd. rewrite H. done. Qed.

Lemma u32_idem z : u32 (u32 z) = u32 z.
Proof. unfold u32. by rewrite Z.mod_mod by lia. Qed.

Lemma u32_small z : 0 <= z < 2 ^ 32 -> u32 z = z.
Proof. intros. by apply Z.mod_small. Qed.

Lemma u32_add_l a b : u32 (u32 a + b) = u32 (a + b).
Proof. unfold u32. by rewrite Z.add_mod_idemp_l by lia. Qed.

Lemma u32_add_r a b : u32 (a + u32 b) = u32 (a + b).
Proof. unfold u32. by rewrite Z.add_mod_idemp_r by lia. Qed.

Lemma IPAdd_value ip n :
  length ip = 4%nat ->
  exists r, IPAdd ip n = Ret r /\ length r = 4%nat /\ addr_value r = u32 (addr_value ip + n).
Proof.
  intros H. eexists. rewrite IPAdd_eq by (by rewrite net.To4_of_4).
  split; [done|]. split; [done|].
  by rewrite addr_value_be32, u32_idem, u32_add_r, net.To4_of_4.
Qed.

(** Adding zero copies the address; this is how the handler copies addresses
    out of the receive buffer. *)
Lemma IPAdd_0 ip : length (net.To4 ip) = 4%nat -> IPAdd ip 0 = Ret (net.To4 ip).
Proof.
  intros H. rewrite IPAdd_eq by done. f_equal.
  rewrite Z.add_0_r, u32_small by apply addr_value_range. by apply be32_addr_value.
Qed.

Lemma addr_value_bytes a b c d :
  addr_value [a; b; c; d] = u8 d + u8 c * 2 ^ 8 + u8 b * 2 ^ 16 + u8 a * 2 ^ 24.
Proof. unfold addr_value. by rewrite binary.Uint32_sum. Qed.

Lemma u8_neq a b : a <> b -> u8 a <> u8 b.
Proof. intros H ?. by apply H, (inj u8). Qed.

(** The byte-wise comparison is the comparison of the numbers. *)
Lemma IPLess_value a b :
  length a = 4%nat -> length b = 4%nat ->
  IPLess a b = Ret (bool_decide (addr_value a < addr_value b)).
Proof.
  intros Ha Hb. unfold IPLess. rewrite !net.To4_of_4 by done.
  destruct a as [|a0 [|a1 [|a2 [|a3 [|]]]]]; try done.
  destruct b as [|b0 [|b1 [|b2 [|b3 [|]]]]]; try done.
  rewrite !addr_value_bytes. cbn [IPLess_loop index lookup list_lookup drop].
  pose proof (u8_range a0); pose proof (u8_range a1).
  pose proof (u8_range a2); pose proof (u8_range a3).
  pose proof (u8_range b0); pose proof (u8_range b1).
  pose proof (u8_range b2); pose proof (u8_range b3).
  unfold index. cbn [lookup list_lookup drop]. rewrite !bind_ret.
  repeat (case_decide as Hne;
    [ apply u8_neq in Hne; f_equal; apply bool_decide_ext; lia
    | subst; rewrite ?bind_ret ]).
  f_equal. symmetry. apply bool_decide_eq_false. lia.
Qed.

(** [IPInRange] tests membership of the numeric interval. *)
Theorem IPInRange_interval start stop ip :
  length start = 4%nat -> length stop = 4%nat -> length ip = 4%nat ->
  IPInRange start stop ip =
    Ret (bool_decide (addr_value start <= addr_value ip <= addr_value stop)).
Proof.
  intros. unfold IPInRange. rewrite !IPLess_value, !bind_ret by done.
  repeat case_bool_decide; done || lia.
Qed.

Lemma IPInRange_interval_witness :
  IPInRange [Byte.x0a; Byte.x00; Byte.x00; Byte.x01] [Byte.x0a; Byte.x00; Byte.x01; Byte.x00]
            [Byte.x0a; Byte.x00; Byte.x00; Byte.xff] = Ret true.
Proof. rewrite IPInRange_interval by reflexivity. reflexivity. Defined.

(** No two option codes of the constant table coincide, so the options map never
    conflates two different options. *)
Lemma OptionCodes_NoDup : NoDup OptionCodes.
Proof. apply (bool_decide_unpack _). vm_compute. done. Qed.

(** ** Looking options up in a reply *)

Lemma foldl_insert_notin (l : list (byte * list byte)) (m : gmap byte (list byte)) k :
  k ∉ l.*1 -> foldl (fun m o => <[fst o := snd o]> m) m l !! k = m !! k.
Proof.
  revert m. induction l as [|[c v] l IH]; intros m Hk; [done|].
  rewrite fmap_cons, not_elem_of_cons in Hk. destruct Hk as [Hne Hk]. simpl.
  rewrite IH by done. by apply lookup_insert_ne.
Qed.

(** The value of an option all of whose occurrences agree. *)
Lemma options_map_lookup (l : list (byte * list byte)) k v :
  (k, v) ∈ l -> (forall v', (k, v') ∈ l -> v' = v) -> options_map l !! k = Some v.
Proof.
  unfold options_map. generalize (∅ : gmap byte (list byte)).
  induction l as [|[c x] l IH]; intros m Hin Hall; [by apply not_elem_of_nil in Hin|].
  simpl. destruct (decide (k ∈ l.*1)) as [Hk|Hk].
  - apply list_elem_of_fmap in Hk as ([k' v'] & -> & Hk). simpl in *.
    apply IH; [|intros; apply Hall; by right].
    rewrite <- (Hall v'); [done|by right].
  - rewrite foldl_insert_notin by done.
    apply elem_of_cons in Hin as [[= <- <-]|Hin]; [apply lookup_insert_eq|].
    destruct Hk. apply list_elem_of_fmap. by exists (k, v).
Qed.

(** Options a server may add to its replies: they fit the wire format and leave
    the options [ReplyPacket] writes itself alone. *)
Definition server_option (o : byte * list byte) : Prop :=
  valid_option o /\ fst o <> OptionDHCPMessageType /\ fst o <> OptionServerIdentifier /\
  fst o <> OptionIPAddressLeaseTime.

Definition server_options (o : gmap byte (list byte)) : Prop :=
  map_Forall (fun c v => server_option (c, v)) o.

Lemma SelectOrderOrAll_elem `{MapRange} o order c v :
  (c, v) ∈ SelectOrderOrAll o order -> o !! c = Some v.
Proof.
  destruct order as [order|]; simpl.
  - unfold SelectOrder. rewrite list_elem_of_omap. intros (x & Hx & Hf).
    destruct (o !! x) eqn:E; simplify_eq/=. done.
  - rewrite map_range_perm. by rewrite elem_of_map_to_list.
Qed.

(** Every configured option the client lists (all of them without a list) is
    selected. *)
Lemma SelectOrderOrAll_complete `{MapRange} o order c v :
  o !! c = Some v -> (forall l, order = Some l -> c ∈ l) ->
  (c, v) ∈ SelectOrderOrAll o order.
Proof.
  intros Hc Ho. destruct order as [order|]; simpl.
  - unfold SelectOrder. apply list_elem_of_omap. exists c. rewrite Hc. auto.
  - rewrite map_range_perm. by apply elem_of_map_to_list.
Qed.

Lemma SelectOrderOrAll_server `{MapRange} o order :
  server_options o -> Forall server_option (SelectOrderOrAll o order).
Proof.
  intros Ho. apply Forall_forall. intros [c v] Hin%SelectOrderOrAll_elem. by apply Ho.
Qed.

Section reply_lookup.
Context (mt : byte) (serverId : list byte) (d : Z) (opts : list (byte * list byte)).
Context (Hopts : Forall server_option opts).

Lemma server_option_notin c :
  c = OptionDHCPMessageType \/ c = OptionServerIdentifier \/ c = OptionIPAddressLeaseTime ->
  c ∉ opts.*1.
Proof.
  intros Hc Hin. apply list_elem_of_fmap in Hin as ([c' v] & -> & Hin).
  rewrite Forall_forall in Hopts. specialize (Hopts _ Hin).
  destruct Hopts as (_ & ? & ? & ?). simpl in *. destruct Hc as [?|[?|?]]; done.
Qed.

Lemma reply_message_type :
  options_map (reply_options mt serverId d opts) !! OptionDHCPMessageType = Some [mt].
Proof.
  unfold options_map, reply_options. simpl. rewrite foldl_app.
  rewrite foldl_insert_notin by (apply server_option_notin; auto).
  case_decide; simpl; by rewrite !lookup_insert_ne, lookup_insert_eq by done.
Qed.

Lemma reply_server_id :
  options_map (reply_options mt serverId d opts) !! OptionServerIdentifier = Some serverId.
Proof.
  unfold options_map, reply_options. simpl. rewrite foldl_app.
  rewrite foldl_insert_notin by (apply server_option_notin; auto).
  case_decide; simpl; rewrite ?(lookup_insert_ne _ OptionIPAddressLeaseTime) by done;
    apply lookup_insert_eq.
Qed.

Lemma reply_option c v :
  (c, v) ∈ opts -> (forall v', (c, v') ∈ opts -> v' = v) ->
  options_map (reply_options mt serverId d opts) !! c = Some v.
Proof.
  intros Hin Hall. assert (Hs : server_option (c, v)).
  { rewrite Forall_forall in Hopts. by apply Hopts. }
  destruct Hs as (_ & Hn1 & Hn2 & Hn3). simpl in *.
  apply options_map_lookup; unfold reply_options.
  - apply elem_of_cons; right. apply elem_of_cons; right. apply elem_of_app. by right.
  - intros v'. rewrite !elem_of_cons, elem_of_app. intros [?|[?|[Hl|?]]]; [by simplify_eq..| |auto].
    case_decide; [apply list_elem_of_singleton in Hl; by simplify_eq|].
    by apply not_elem_of_nil in Hl.
Qed.
End reply_lookup.

Lemma server_options_valid opts : Forall server_option opts -> Forall valid_option opts.
Proof. intros H. eapply Forall_impl; [exact H|]. by intros o [? _]. Qed.

(** The reply of a handler whose options are configured sensibly. *)
Lemma ReplyPacket_answer req mt serverId yi d opts :
  (240 <= length req)%nat -> (length serverId <= 255)%nat -> Forall server_option opts ->
  exists p, ReplyPacket req mt serverId yi d opts = Ret p /\
    XId p = XId req /\ CHAddr p = CHAddr req /\
    YIAddr p = Ret (if net.is_nil (net.To4 yi) then zeros 4 else net.To4 yi) /\
    ParseOptions p !! OptionDHCPMessageType = Some [mt] /\
    ParseOptions p !! OptionServerIdentifier = Some serverId /\
    (forall c v, (c, v) ∈ opts -> (forall v', (c, v') ∈ opts -> v' = v) ->
       ParseOptions p !! c = Some v).
Proof.
  intros Hreq Hs Ho.
  destruct (ReplyPacket_fields req mt serverId yi d opts Hreq)
    as (p & Hp & _ & Hx & _ & _ & Hc & Hy & _ & _).
  exists p. split; [done|]. split; [done|]. split; [done|]. split; [done|].
  rewrite (ReplyPacket_ParseOptions req mt serverId yi d opts p) by auto using server_options_valid.
  split; [by apply reply_message_type|]. split; [by apply reply_server_id|].
  intros c v. by apply reply_option.
Qed.
