(* ===== verification/Dhcp4Server.v ===== *)
(** * github.com/krolaw/dhcp4: the server loop

    [server.go].  The two Go interfaces are classes: a [Handler] answers
    requests, a [ServeConn] reads and writes datagrams.  [Serve] is the loop, one
    [Serve_turn] per datagram; it runs until the connection fails, so [Serve]
    takes the number of turns to run and says whether the loop is still going. *)

From Stdlib Require Import ZArith Lia NArith Ascii Strings.Byte.
From stdpp Require Import base numbers gmap strings list fin_maps.
From S2P Require Import Prelude GoNet Dhcp4.

Open Scope Z_scope.

(** [type Handler interface]: the reply (nil or a packet) and the handler's new
    state. *)
Class Handler (H : Type) :=
  ServeDHCP : H -> Packet -> byte -> gmap byte (list byte) -> outcome (option Packet * H).

(** [type ServeConn interface]. *)
Class ServeConn (C : Type) := {
  ReadFrom : C -> outcome (list byte * net.UDPAddr) * C;
  WriteTo : C -> list byte -> net.UDPAddr -> outcome unit * C
}.

(** How a turn of the loop ends: the loop goes on, [Serve] returns an error, or
    the goroutine panics. *)
Inductive turn (S : Type) :=
| Next (s : S)
| Stop (e : error) (s : S)
| Crash (p : panic).
Arguments Next {S} s.
Arguments Stop {S} e s.
Arguments Crash {S} p.

(** The size of [Serve]'s receive buffer. *)
Definition bufferSize : nat := 1500.

Section serve.
(** [w] is the width of the platform's [int]. *)
Context {H C : Type} `{Handler H} `{ServeConn C} (w : Z).

(** What the loop checks before it calls the handler: the message type and the
    options of a well-formed request, [None] for a datagram it drops. *)
Definition accept (req : Packet) : outcome (option (byte * gmap byte (list byte))) :=
  if decide (length req < 240)%nat then Ret None
  else
    hl ← HLen req;
    if decide (16 < u8 hl) then Ret None
    else
      let options := ParseOptions req in
      match options !! OptionDHCPMessageType with
      | Some [t] =>
          if decide (u8 t < u8 Discover \/ u8 Inform < u8 t) then Ret None
          else Ret (Some (t, options))
      | _ => Ret None
      end.

(** Where the reply goes: to the sender, or to the broadcast address when the
    sender has none yet or asks for it. *)
Definition reply_addr (req : Packet) (addr : net.UDPAddr) : outcome net.UDPAddr :=
  hp ← net.SplitHostPort (net.UDPAddr_String addr);
  let '(ipStr, portStr) := hp in
  bc ← (if net.Equal (net.ParseIP ipStr) net.IPv4zero then Ret true else Broadcast req);
  if (bc : bool)
  then Ret {| net.UDP_IP := net.IPv4bcast; net.UDP_Port := fst (strconv.Atoi w portStr);
              net.UDP_Zone := "" |}
  else Ret addr.

(** The body of [Serve]'s loop. *)
Definition Serve_turn (c : C) (h : H) : turn (C * H) :=
  match ReadFrom c with
  | (Err e, c) => Stop e (c, h)
  | (Panic p, c) => Crash p
  | (Ret (data, addr), c) =>
      let req := take bufferSize data in
      match accept req with
      | Err e => Stop e (c, h)
      | Panic p => Crash p
      | Ret None => Next (c, h)
      | Ret (Some (reqType, options)) =>
          match ServeDHCP h req reqType options with
          | Err e => Stop e (c, h)
          | Panic p => Crash p
          | Ret (None, h) => Next (c, h)
          | Ret (Some res, h) =>
              match reply_addr req addr with
              | Err e => Stop e (c, h)
              | Panic p => Crash p
              | Ret addr =>
                  match WriteTo c res addr with
                  | (Err e, c) => Stop e (c, h)
                  | (Panic p, c) => Crash p
                  | (Ret _, c) => Next (c, h)
                  end
              end
          end
      end
  end.

(** [Serve] for at most [n] datagrams. *)
Fixpoint Serve (n : nat) (c : C) (h : H) : turn (C * H) :=
  match n with
  | O => Next (c, h)
  | S n => match Serve_turn c h with
           | Next (c, h) => Serve n c h
           | t => t
           end
  end.
End serve.

(** A connection that plays a list of datagrams and records what is sent. *)
Record ScriptConn := {
  inbox : list (list byte * net.UDPAddr);
  outbox : list (list byte * net.UDPAddr)
}.

#[export] Instance ScriptConn_conn : ServeConn ScriptConn := {|
  ReadFrom c :=
    match inbox c with
    | d :: r => (Ret d, {| inbox := r; outbox := outbox c |})
    | [] => (Err (OpError false "use of closed network connection"), c)
    end;
  WriteTo c b a := (Ret tt, {| inbox := inbox c; outbox := outbox c ++ [(b, a)] |})
|}.

(** ** Properties of the loop *)

Lemma HLen_Ret req : (240 <= length req)%nat -> exists hl, HLen req = Ret hl.
Proof.
  intros Hr. destruct (lookup_lt_is_Some_2 req 2) as [hl Hhl]; [lia|].
  exists hl. by apply index_Ret.
Qed.

(** Checking a datagram never panics and never fails: whatever arrives is either
    handed to the handler or dropped. *)
Lemma accept_total req : returns (accept req).
Proof.
  unfold accept, returns. case_decide as Hlen; [by eexists|].
  destruct (HLen_Ret req) as [hl ->]; [lia|]. rewrite bind_ret.
  case_decide; [by eexists|].
  destruct (ParseOptions req !! OptionDHCPMessageType) as [[|t [|]]|];
    try (by eexists). case_decide; by eexists.
Qed.

Lemma accept_Some req t options :
  accept req = Ret (Some (t, options)) ->
  (240 <= length req)%nat /\ options = ParseOptions req /\
  options !! OptionDHCPMessageType = Some [t] /\ u8 Discover <= u8 t <= u8 Inform /\
  exists hl, HLen req = Ret hl /\ u8 hl <= 16.
Proof.
  unfold accept. case_decide as Hlen; [done|].
  destruct (HLen_Ret req) as [hl Hhl]; [lia|]. rewrite Hhl, bind_ret.
  case_decide as Hh; [done|].
  destruct (ParseOptions req !! OptionDHCPMessageType) as [[|t' [|]]|] eqn:E; try done.
  case_decide as Ht; [done|]. intros [= <- <-].
  split; [lia|]. split; [done|]. split; [done|]. split; [lia|]. exists hl. split; [done|lia].
Qed.

Lemma Broadcast_Ret req : (240 <= length req)%nat -> exists b, Broadcast req = Ret b.
Proof.
  intros Hr. unfold Broadcast, Flags. rewrite slice_Ret, bind_ret by lia.
  destruct (lookup_lt_is_Some_2 (take (12 - 10) (drop 10 req)) 0) as [f Hf].
  { rewrite length_take, length_drop. lia. }
  rewrite (index_Ret _ _ _ Hf), bind_ret. by eexists.
Qed.

Lemma reply_addr_eq w req addr b :
  Broadcast req = Ret b ->
  length (net.To4 (net.UDP_IP addr)) = 4%nat -> net.UDP_Zone addr = EmptyString ->
  0 <= net.UDP_Port addr < 2 ^ (w - 1) ->
  reply_addr w req addr =
    Ret (if decide (net.To4 (net.UDP_IP addr) = replicate 4 Byte.x00 \/ b = true)
         then {| net.UDP_IP := net.IPv4bcast; net.UDP_Port := net.UDP_Port addr;
                 net.UDP_Zone := "" |}
         else addr).
Proof.
  intros Hb H4 Hz Hp. unfold reply_addr.
  destruct (net.UDPAddr_split addr H4 Hz) as (host & -> & Hip); [lia|].
  rewrite bind_ret, Hip. cbv beta iota.
  assert (net.Equal (net.v4InV6Prefix ++ net.To4 (net.UDP_IP addr)) net.IPv4zero =
          bool_decide (net.To4 (net.UDP_IP addr) = replicate 4 Byte.x00)) as ->.
  { unfold net.Equal. rewrite decide_True by (rewrite length_app, H4; done).
    apply bool_decide_ext. split; [by intros ?%app_inv_head|intros ->; done]. }
  rewrite strconv.Atoi_Itoa by done. case_bool_decide.
  - rewrite bind_ret, decide_True by auto. done.
  - rewrite Hb, bind_ret. destruct b.
    + by rewrite decide_True by auto.
    + rewrite decide_False; [done|]. intros [?|?]; done.
Qed.

(** For a request from an IPv4 address the loop answers the sender, and
    broadcasts (to the sender's port) exactly when the sender's address is
    0.0.0.0 or the broadcast flag is set. *)
Theorem reply_addr_spec w req addr b :
  Broadcast req = Ret b ->
  length (net.To4 (net.UDP_IP addr)) = 4%nat -> net.UDP_Zone addr = EmptyString ->
  0 <= net.UDP_Port addr < 2 ^ (w - 1) ->
  reply_addr w req addr =
    Ret (if decide (net.To4 (net.UDP_IP addr) = replicate 4 Byte.x00 \/ b = true)
         then {| net.UDP_IP := net.IPv4bcast; net.UDP_Port := net.UDP_Port addr;
                 net.UDP_Zone := "" |}
         else addr).
Proof. apply reply_addr_eq. Qed.

Lemma reply_addr_spec_witness :
  reply_addr 32 (replicate 272 Byte.x00)
    {| net.UDP_IP := [Byte.xc0; Byte.xa8; Byte.x01; Byte.x07]; net.UDP_Port := 68;
       net.UDP_Zone := "" |} =
  Ret {| net.UDP_IP := [Byte.xc0; Byte.xa8; Byte.x01; Byte.x07]; net.UDP_Port := 68;
         net.UDP_Zone := "" |}.
Proof.
  rewrite (reply_addr_spec 32 (replicate 272 Byte.x00)
    {| net.UDP_IP := [Byte.xc0; Byte.xa8; Byte.x01; Byte.x07]; net.UDP_Port := 68;
       net.UDP_Zone := "" |} false); [reflexivity | reflexivity | reflexivity | reflexivity |].
  vm_compute. split; [discriminate | reflexivity].
Defined.

Section loop.
Context {H C : Type} `{Handler H} `{ServeConn C} (w : Z).

(** A datagram the loop does not accept changes neither the handler nor what was
    sent: the loop just reads the next one. *)
Lemma Serve_turn_drop c c' h data addr :
  ReadFrom c = (Ret (data, addr), c') -> accept (take bufferSize data) = Ret None ->
  Serve_turn w c h = Next (c', h).
Proof. intros Hr Ha. unfold Serve_turn. by rewrite Hr, Ha. Qed.

(** The loop ends only when the connection fails or the handler does. *)
Lemma Serve_app n m c h c' h' :
  Serve w n c h = Next (c', h') -> Serve w (n + m) c h = Serve w m c' h'.
Proof.
  revert c h. induction n as [|n IH]; intros c h; simpl; [by intros [= -> ->]|].
  destruct (Serve_turn w c h) as [[c1 h1]| |]; try done. apply IH.
Qed.
End loop.
