(* ===== verification/BridgeServices.v ===== *)
(** * netctrl/bridgeServices.go: the DHCP handler and its lease table

    [bridgeServices] hands out the address [next] to any client that asks for it
    and remembers it under the client's hardware address.  [Pool] is the abstract
    allocator it implements (a counter and a map from clients to counter values);
    [ServeDHCP_refines] is the simulation, and the invariants of the allocator
    carry over to the lease table. *)

From Stdlib Require Import ZArith Lia NArith Ascii Strings.Byte.
From stdpp Require Import base numbers gmap strings list fin_maps.
From S2P Require Import Prelude GoNet Dhcp4 Dhcp4Server.

Open Scope Z_scope.

Record bridgeServices := {
  name : string;
  debug : bool;
  baseIP : list byte;
  next : list byte;
  leases : gmap string (list byte);
  options : gmap byte (list byte)
}.

Definition set_next (h : bridgeServices) (ip : list byte) : bridgeServices :=
  {| name := name h; debug := debug h; baseIP := baseIP h; next := ip;
     leases := leases h; options := options h |}.

Definition set_lease (h : bridgeServices) (client : string) (ip : list byte) : bridgeServices :=
  {| name := name h; debug := debug h; baseIP := baseIP h; next := next h;
     leases := <[client := ip]> (leases h); options := options h |}.

Section handler.
Context `{MapRange}.

(** The [case dhcp.Discover] branch: offers the client's lease, or the next free
    address. *)
Definition ServeDHCP_Discover (h : bridgeServices) (p : Packet) (opts : list (byte * list byte))
  : outcome (option Packet * bridgeServices) :=
  ch ← CHAddr p;
  match leases h !! net.HardwareAddr_String ch with
  | Some ip => r ← ReplyPacket p Offer (baseIP h) ip (Hour * 24) opts; Ret (Some r, h)
  | None => r ← ReplyPacket p Offer (baseIP h) (next h) (Hour * 24) opts; Ret (Some r, h)
  end.

(** The [case dhcp.Request] branch. *)
Definition ServeDHCP_Request (h : bridgeServices) (p : Packet)
    (opt : gmap byte (list byte)) (opts : list (byte * list byte))
  : outcome (option Packet * bridgeServices) :=
  let other_server :=
    match opt !! OptionServerIdentifier with
    | Some server => negb (net.Equal server (baseIP h))
    | None => false
    end in
  if other_server then Ret (None, h)
  else
    reqIP ← IPAdd (default [] (opt !! OptionRequestedIPAddress)) 0;
    reqIP ← (if net.is_nil reqIP then ci ← CIAddr p; IPAdd ci 0 else Ret reqIP);
    if bool_decide (length reqIP = 4%nat) && negb (net.Equal reqIP net.IPv4zero)
       && net.Equal reqIP (next h)
    then
      next' ← IPAdd (next h) 1;
      ch ← CHAddr p;
      let h := set_lease (set_next h next') (net.HardwareAddr_String ch) reqIP in
      r ← ReplyPacket p ACK (baseIP h) reqIP (Hour * 24) opts;
      Ret (Some r, h)
    else
      ch ← CHAddr p;
      match leases h !! net.HardwareAddr_String ch with
      | Some ip =>
          if net.Equal ip reqIP
          then r ← ReplyPacket p ACK (baseIP h) reqIP (Hour * 24) opts; Ret (Some r, h)
          else r ← ReplyPacket p NAK (baseIP h) [] 0 []; Ret (Some r, h)
      | None => r ← ReplyPacket p NAK (baseIP h) [] 0 []; Ret (Some r, h)
      end.

(** [ServeDHCP]: the server's own options override those of the request, then
    the message type selects the branch; every other type gets no reply. *)
Definition bridgeServices_ServeDHCP (h : bridgeServices) (p : Packet) (msgType : byte)
    (opt : gmap byte (list byte)) : outcome (option Packet * bridgeServices) :=
  let opt := options h ∪ opt in
  let opts := SelectOrderOrAll (options h) (opt !! OptionParameterRequestList) in
  if decide (msgType = Discover) then ServeDHCP_Discover h p opts
  else if decide (msgType = Request) then ServeDHCP_Request h p opt opts
  else Ret (None, h).

#[export] Instance bridgeServices_handler : Handler bridgeServices := bridgeServices_ServeDHCP.
End handler.

(** ** The allocator the lease table implements *)

Module Pool.

(** Addresses are numbered from the one after the server's own: [count] have
    been handed out, and [bindings] says which client holds which. *)
Record pool := { count : Z; bindings : gmap string Z }.

Inductive msg :=
| MDiscover
| MRequest (ip : Z).

Inductive reply :=
| ROffer (ip : Z)
| RAck (ip : Z)
| RNak.

Section pool.
Context (base : Z).

Definition addr (i : Z) : Z := u32 (base + 1 + i).

Definition init : pool := {| count := 0; bindings := ∅ |}.

Definition step (s : pool) (client : string) (m : msg) : reply * pool :=
  match m with
  | MDiscover => (ROffer (addr (default (count s) (bindings s !! client))), s)
  | MRequest ip =>
      if decide (ip <> 0 /\ ip = addr (count s))
      then (RAck ip, {| count := count s + 1; bindings := <[client := count s]> (bindings s) |})
      else match bindings s !! client with
           | Some i => if decide (addr i = ip) then (RAck ip, s) else (RNak, s)
           | None => (RNak, s)
           end
  end.

(** Every lease was handed out, and no two clients hold the same one. *)
Definition wf (s : pool) : Prop :=
  0 <= count s /\
  (forall c i, bindings s !! c = Some i -> 0 <= i < count s) /\
  (forall c1 c2 i, bindings s !! c1 = Some i -> bindings s !! c2 = Some i -> c1 = c2).

Lemma init_wf : wf init.
Proof. split; [done|]. split; intros *; unfold init; simpl; by rewrite lookup_empty. Qed.

Lemma step_wf s client m : wf s -> wf (snd (step s client m)).
Proof.
  intros (Hc & Hb & Hi). destruct m as [|ip]; [done|]. cbn [step].
  case_decide; [|repeat case_match; done]. split; simpl; [lia|]. split.
  - intros c i. rewrite lookup_insert. case_decide; [intros [= <-]; lia|].
    intros ?%Hb. lia.
  - intros c1 c2 i. rewrite !lookup_insert. repeat case_decide; subst; try done.
    + by intros [= <-] ?%Hb; lia.
    + by intros ?%Hb [= <-]; lia.
    + by apply Hi.
Qed.

Lemma step_count s client m :
  count s <= count (snd (step s client m)) <= count s + 1.
Proof. destruct m; simpl; repeat case_match; simpl; lia. Qed.

(** Other clients keep their leases. *)
Lemma step_other s client m c :
  c <> client -> bindings (snd (step s client m)) !! c = bindings s !! c.
Proof.
  intros Hc. destruct m; simpl; [done|]. repeat case_match; simpl; try done.
  by rewrite lookup_insert_ne.
Qed.

Lemma addr_inj i j :
  0 <= i -> 0 <= j -> i < 2 ^ 32 -> j < 2 ^ 32 -> addr i = addr j -> i = j.
Proof.
  intros ???? H. unfold addr, u32 in H.
  pose proof (Z.div_mod (base + 1 + i) (2 ^ 32) ltac:(lia)).
  pose proof (Z.div_mod (base + 1 + j) (2 ^ 32) ltac:(lia)).
  nia.
Qed.

(** The address the allocator offers is the one it acknowledges. *)
Lemma request_offered s c :
  wf s -> count s < 2 ^ 32 ->
  let i := default (count s) (bindings s !! c) in
  addr i <> 0 ->
  exists s', step s c (MRequest (addr i)) = (RAck (addr i), s') /\ bindings s' !! c = Some i.
Proof.
  intros (Hc0 & Hb & _) Hcnt i Hnz. cbn [step]. unfold i in *.
  destruct (bindings s !! c) as [j|] eqn:Ej; cbn [default from_option id] in *.
  - pose proof (Hb _ _ Ej). rewrite decide_False, decide_True.
    + eauto.
    + done.
    + intros [_ Heq]. apply addr_inj in Heq; lia.
  - rewrite decide_True by done. eexists. split; [done|]. apply lookup_insert_eq.
Qed.
End pool.
End Pool.

(** ** The handler implements the allocator *)

(** The address with number [i]. *)
Definition lease_addr (base i : Z) : list byte := binary.be32 (Pool.addr base i).

(** The lease table and the next address are those of the pool. *)
Definition implements (h : bridgeServices) (s : Pool.pool) : Prop :=
  let base := addr_value (baseIP h) in
  length (baseIP h) = 4%nat /\ server_options (options h) /\
  next h = lease_addr base (Pool.count s) /\
  leases h = lease_addr base <$> Pool.bindings s.

(** The allocator's view of a request: the option map the handler works with,
    whether the request is addressed to this server, and the address asked for. *)
Definition for_us (h : bridgeServices) (opt : gmap byte (list byte)) : bool :=
  match (options h ∪ opt) !! OptionServerIdentifier with
  | Some server => net.Equal server (baseIP h)
  | None => true
  end.

Definition request_msg (h : bridgeServices) (t : byte) (opt : gmap byte (list byte))
  : option Pool.msg :=
  if decide (t = Discover) then Some Pool.MDiscover
  else if bool_decide (t = Request) && for_us h opt then
    match (options h ∪ opt) !! OptionRequestedIPAddress with
    | Some ip => if decide (length (net.To4 ip) = 4%nat)
                 then Some (Pool.MRequest (addr_value (net.To4 ip))) else None
    | None => None
    end
  else None.

(** The reply carries the allocator's answer: message type, address, and the
    server's identity. *)
Definition answers (h : bridgeServices) (req res : Packet) (r : Pool.reply) : Prop :=
  XId res = XId req /\ CHAddr res = CHAddr req /\
  ParseOptions res !! OptionServerIdentifier = Some (baseIP h) /\
  match r with
  | Pool.ROffer ip =>
      ParseOptions res !! OptionDHCPMessageType = Some [Offer] /\
      YIAddr res = Ret (binary.be32 ip)
  | Pool.RAck ip =>
      ParseOptions res !! OptionDHCPMessageType = Some [ACK] /\
      YIAddr res = Ret (binary.be32 ip)
  | Pool.RNak =>
      ParseOptions res !! OptionDHCPMessageType = Some [NAK] /\ YIAddr res = Ret (zeros 4)
  end.

Lemma addr_value_lease base i : addr_value (lease_addr base i) = Pool.addr base i.
Proof. unfold lease_addr, Pool.addr. by rewrite addr_value_be32, u32_idem. Qed.

Lemma lease_addr_length base i : length (lease_addr base i) = 4%nat.
Proof. done. Qed.

Lemma lease_addr_succ base i : IPAdd (lease_addr base i) 1 = Ret (lease_addr base (i + 1)).
Proof.
  destruct (IPAdd_value (lease_addr base i) 1) as (r & -> & Hr & Hv); [done|]. f_equal.
  apply addr_value_inj; [done..|]. rewrite Hv, !addr_value_lease. unfold Pool.addr.
  rewrite u32_add_l. f_equal. lia.
Qed.

Lemma Equal_lease base i ip :
  length ip = 4%nat ->
  net.Equal ip (lease_addr base i) = bool_decide (addr_value ip = Pool.addr base i).
Proof.
  intros H. unfold net.Equal. rewrite decide_True by done. apply bool_decide_ext.
  rewrite <- addr_value_lease. split; [by intros ->|by apply addr_value_inj].
Qed.

Lemma lease_Equal base i ip :
  length ip = 4%nat ->
  net.Equal (lease_addr base i) ip = bool_decide (Pool.addr base i = addr_value ip).
Proof.
  intros H. unfold net.Equal. rewrite decide_True by done. apply bool_decide_ext.
  rewrite <- addr_value_lease. split; [by intros ->|by apply addr_value_inj].
Qed.

Lemma Equal_zero ip :
  length ip = 4%nat -> net.Equal ip net.IPv4zero = bool_decide (addr_value ip = 0).
Proof.
  intros H. unfold net.IPv4zero. rewrite net.Equal_v4 by done. apply bool_decide_ext.
  split; [by intros ->|]. intros Hv. by apply addr_value_inj.
Qed.

#[local] Opaque ReplyPacket ParseOptions XId YIAddr CHAddr.

Section refinement.
Context `{MapRange}.

(** Replying leaves the state alone and delivers what was asked. *)
Lemma reply_ok h p mt yi d opts :
  (240 <= length p)%nat -> length (baseIP h) = 4%nat -> Forall server_option opts ->
  exists res, ReplyPacket p mt (baseIP h) yi d opts = Ret res /\
    XId res = XId p /\ CHAddr res = CHAddr p /\
    ParseOptions res !! OptionServerIdentifier = Some (baseIP h) /\
    ParseOptions res !! OptionDHCPMessageType = Some [mt] /\
    YIAddr res = Ret (if net.is_nil (net.To4 yi) then zeros 4 else net.To4 yi).
Proof.
  intros Hp Hb Ho.
  destruct (ReplyPacket_answer p mt (baseIP h) yi d opts) as (res & ? & ? & ? & ? & ? & ? & ?);
    [done|lia|done|]. exists res. auto 10.
Qed.

(** The replies to each answer of the allocator. *)
Lemma reply_offer h p base i opts :
  (240 <= length p)%nat -> length (baseIP h) = 4%nat -> Forall server_option opts ->
  exists res, ReplyPacket p Offer (baseIP h) (lease_addr base i) (Hour * 24) opts = Ret res /\
    answers h p res (Pool.ROffer (Pool.addr base i)).
Proof.
  intros Hp Hb Ho.
  destruct (reply_ok h p Offer (lease_addr base i) (Hour * 24) opts Hp Hb Ho)
    as (res & Hr & H1 & H2 & H3 & H4 & H5).
  exists res. unfold answers. auto 10.
Qed.

Lemma reply_ack h p ip opts :
  (240 <= length p)%nat -> length (baseIP h) = 4%nat -> Forall server_option opts ->
  length ip = 4%nat ->
  exists res, ReplyPacket p ACK (baseIP h) ip (Hour * 24) opts = Ret res /\
    answers h p res (Pool.RAck (addr_value ip)).
Proof.
  intros Hp Hb Ho Hip.
  destruct (reply_ok h p ACK ip (Hour * 24) opts Hp Hb Ho)
    as (res & Hr & H1 & H2 & H3 & H4 & H5).
  rewrite net.To4_of_4 in H5 by exact Hip.
  assert (net.is_nil ip = false) as Hnil by (destruct ip; [discriminate Hip|reflexivity]).
  rewrite Hnil in H5. exists res. unfold answers. rewrite be32_addr_value by exact Hip. auto 10.
Qed.

Lemma reply_nak h p :
  (240 <= length p)%nat -> length (baseIP h) = 4%nat ->
  exists res, ReplyPacket p NAK (baseIP h) [] 0 [] = Ret res /\ answers h p res Pool.RNak.
Proof.
  intros Hp Hb. destruct (reply_ok h p NAK [] 0 [] Hp Hb (Forall_nil_2 _))
    as (res & Hr & H1 & H2 & H3 & H4 & H5).
  exists res. unfold answers. auto 10.
Qed.

Section one_request.
Context (h : bridgeServices) (s : Pool.pool) (p : Packet) (ch : list byte).
Context (opts : list (byte * list byte)).
Context (Himpl : implements h s) (Hp : (240 <= length p)%nat).
Context (Hch : CHAddr p = Ret ch) (Hopts : Forall server_option opts).
Let base := addr_value (baseIP h).
Let client := net.HardwareAddr_String ch.

Lemma implements_lookup c :
  leases h !! c = lease_addr base <$> Pool.bindings s !! c.
Proof. destruct Himpl as (_ & _ & _ & ->). apply lookup_fmap. Qed.

Lemma implements_grant ip :
  addr_value ip = Pool.addr base (Pool.count s) -> length ip = 4%nat ->
  implements (set_lease (set_next h (lease_addr base (Pool.count s + 1))) client ip)
    {| Pool.count := Pool.count s + 1;
       Pool.bindings := <[client := Pool.count s]> (Pool.bindings s) |}.
Proof.
  intros Hv Hlen. destruct Himpl as (Hb & Ho & Hn & Hl).
  split; [exact Hb|]. split; [exact Ho|]. split; [reflexivity|].
  unfold set_lease, set_next. cbn [leases Pool.bindings baseIP]. rewrite fmap_insert, Hl.
  f_equal. apply addr_value_inj; [done..|]. rewrite addr_value_lease. exact Hv.
Qed.

Lemma ServeDHCP_Discover_refines :
  let '(r, s') := Pool.step base s client Pool.MDiscover in
  exists res h', ServeDHCP_Discover h p opts = Ret (Some res, h') /\
    implements h' s' /\ baseIP h' = baseIP h /\ answers h p res r.
Proof.
  unfold ServeDHCP_Discover. rewrite Hch, bind_ret. cbn [Pool.step].
  fold client. rewrite implements_lookup. pose proof Himpl as (Hb & Ho & Hn & Hl).
  destruct (Pool.bindings s !! client) as [i|]; cbn [fmap option_fmap option_map default from_option id].
  - destruct (reply_offer h p base i opts Hp Hb Hopts) as (res & -> & Hr).
    exists res, h. auto.
  - rewrite Hn. fold base. destruct (reply_offer h p base (Pool.count s) opts Hp Hb Hopts) as (res & -> & Hr).
    exists res, h. auto.
Qed.

(** A client that does not ask for the next address: it keeps its lease or is
    refused. *)
Lemma ServeDHCP_Request_renew ip :
  length ip = 4%nat ->
  let '(r, s') := match Pool.bindings s !! client with
                  | Some i => if decide (Pool.addr base i = addr_value ip)
                              then (Pool.RAck (addr_value ip), s) else (Pool.RNak, s)
                  | None => (Pool.RNak, s)
                  end in
  exists res h',
    (ch ← CHAddr p;
     match leases h !! net.HardwareAddr_String ch with
     | Some ip' =>
         if net.Equal ip' ip
         then r ← ReplyPacket p ACK (baseIP h) ip (Hour * 24) opts; Ret (Some r, h)
         else r ← ReplyPacket p NAK (baseIP h) [] 0 []; Ret (Some r, h)
     | None => r ← ReplyPacket p NAK (baseIP h) [] 0 []; Ret (Some r, h)
     end) = Ret (Some res, h') /\
    implements h' s' /\ baseIP h' = baseIP h /\ answers h p res r.
Proof.
  intros Hlen. rewrite Hch, bind_ret. fold client. rewrite implements_lookup.
  pose proof Himpl as (Hb & _). destruct (reply_nak h p Hp Hb) as (nak & -> & Hnak).
  destruct (reply_ack h p ip opts Hp Hb Hopts Hlen) as (ack & -> & Hack).
  destruct (Pool.bindings s !! client) as [i|]; cbn [fmap option_fmap option_map].
  - rewrite lease_Equal by exact Hlen. case_bool_decide as E.
    + rewrite decide_True by exact E. exists ack, h. auto.
    + rewrite decide_False by exact E. exists nak, h. auto.
  - exists nak, h. auto.
Qed.

Lemma ServeDHCP_Request_refines opt ip :
  match opt !! OptionServerIdentifier with
  | Some server => net.Equal server (baseIP h) = true
  | None => True
  end ->
  opt !! OptionRequestedIPAddress = Some ip -> length (net.To4 ip) = 4%nat ->
  let '(r, s') := Pool.step base s client (Pool.MRequest (addr_value (net.To4 ip))) in
  exists res h', ServeDHCP_Request h p opt opts = Ret (Some res, h') /\
    implements h' s' /\ baseIP h' = baseIP h /\ answers h p res r.
Proof.
  intros Hserver Hip Hlen. pose proof Himpl as (Hb & Ho & Hn & Hl).
  unfold ServeDHCP_Request.
  replace (match opt !! OptionServerIdentifier with
           | Some server => negb (net.Equal server (baseIP h)) | None => false end) with false
    by (destruct (opt !! OptionServerIdentifier); [by rewrite Hserver|done]).
  rewrite Hip. cbn [default from_option id]. rewrite IPAdd_0, bind_ret by exact Hlen.
  clear Hip. revert Hlen. generalize (net.To4 ip). clear ip. intros ip Hlen.
  assert (net.is_nil ip = false) as -> by (destruct ip; [discriminate Hlen|reflexivity]).
  rewrite bind_ret, (bool_decide_eq_true_2 (length ip = 4%nat)) by exact Hlen.
  rewrite Equal_zero, Hn, Equal_lease, lease_addr_succ, bind_ret by exact Hlen.
  fold base. cbn [Pool.step].
  destruct (decide (addr_value ip <> 0 /\ addr_value ip = Pool.addr base (Pool.count s)))
    as [[Hz Heq]|Hno].
  - rewrite (bool_decide_eq_false_2 (addr_value ip = 0)) by exact Hz.
    rewrite bool_decide_eq_true_2 by exact Heq. cbn [andb negb]. rewrite Hch, bind_ret.
    destruct (reply_ack h p ip opts Hp Hb Hopts Hlen) as (ack & Hr & Hack).
    cbv zeta. change (baseIP (set_lease _ _ _)) with (baseIP h). rewrite Hr, bind_ret.
    eexists _, _. split; [reflexivity|]. split; [by apply implements_grant|]. auto.
  - replace (_ && _ && _) with false
      by (symmetry; repeat case_bool_decide; cbn; tauto || reflexivity).
    by apply ServeDHCP_Request_renew.
Qed.
End one_request.

(** The whole handler, on every request the allocator understands. *)
Lemma handler_refines h s p ch t opt m :
  implements h s -> (240 <= length p)%nat -> CHAddr p = Ret ch -> request_msg h t opt = Some m ->
  let '(r, s') := Pool.step (addr_value (baseIP h)) s (net.HardwareAddr_String ch) m in
  exists res h', bridgeServices_ServeDHCP h p t opt = Ret (Some res, h') /\
    implements h' s' /\ baseIP h' = baseIP h /\ answers h p res r.
Proof.
  intros Himpl Hp Hch Hm. pose proof Himpl as (_ & Ho & _).
  unfold request_msg in Hm. unfold bridgeServices_ServeDHCP. cbv zeta.
  set (opts := SelectOrderOrAll _ _).
  assert (Hopts : Forall server_option opts) by (by apply SelectOrderOrAll_server).
  clearbody opts. case_decide as Ht.
  - injection Hm as <-. by apply ServeDHCP_Discover_refines.
  - destruct (bool_decide_reflect (t = Request)) as [Ht'|]; [|done]. cbn [andb] in Hm.
    rewrite decide_True by exact Ht'.
    destruct (for_us h opt) eqn:Hus; [|done].
    destruct ((options h ∪ opt) !! OptionRequestedIPAddress) as [ip|] eqn:Hip; [|done].
    case_decide as Hlen; [|done]. injection Hm as <-.
    apply (ServeDHCP_Request_refines h s p ch opts Himpl Hp Hch Hopts _ ip); [|done..].
    unfold for_us in Hus. by destruct (_ !! OptionServerIdentifier).
Qed.

(** Requests addressed to another server, and all other message types, are
    ignored. *)
Lemma handler_ignores h p t opt :
  t <> Discover -> (t = Request -> for_us h opt = false) ->
  bridgeServices_ServeDHCP h p t opt = Ret (None, h).
Proof.
  intros Hd Hr. unfold bridgeServices_ServeDHCP. cbv zeta. rewrite decide_False by exact Hd.
  case_decide as Ht; [|done]. unfold ServeDHCP_Request. specialize (Hr Ht).
  unfold for_us in Hr. destruct (_ !! OptionServerIdentifier) as [srv|]; [|done].
  by rewrite Hr.
Qed.

(** A request for this server that carries no usable requested-address option. *)
Lemma handler_panics h p opt :
  for_us h opt = true ->
  net.To4 (default [] ((options h ∪ opt) !! OptionRequestedIPAddress)) = [] ->
  bridgeServices_ServeDHCP h p Request opt = Panic IndexOutOfRange.
Proof.
  intros Hus Hip. unfold bridgeServices_ServeDHCP. cbv zeta.
  rewrite decide_False, decide_True by done. unfold ServeDHCP_Request.
  unfold for_us in Hus.
  replace (match (options h ∪ opt) !! OptionServerIdentifier with
           | Some server => negb (net.Equal server (baseIP h)) | None => false end) with false
    by (destruct (_ !! OptionServerIdentifier); [by rewrite Hus|done]).
  rewrite (IPAdd_panics _ _ Hip). reflexivity.
Qed.

(** Every request is one of the three. *)
Lemma request_cases h t opt :
  (exists m, request_msg h t opt = Some m) \/
  (t <> Discover /\ (t = Request -> for_us h opt = false)) \/
  (t = Request /\ for_us h opt = true /\
   net.To4 (default [] ((options h ∪ opt) !! OptionRequestedIPAddress)) = []).
Proof.
  unfold request_msg. case_decide as Hd; [left; by eexists|].
  destruct (bool_decide_reflect (t = Request)) as [Ht|Ht]; [|right; left; by split].
  destruct (for_us h opt) eqn:Hus; [|right; left; by split]. cbn [andb].
  destruct (_ !! OptionRequestedIPAddress) as [ip|]; [|right; right; done].
  destruct (net.To4_length ip) as [Hn|Hl].
  - right; right. done.
  - left. rewrite decide_True by done. by eexists.
Qed.

(** ** Runs of the server *)

(** The loop's treatment of one datagram, as far as the handler's state goes. *)
Definition handle (h : bridgeServices) (p : Packet) : outcome bridgeServices :=
  a ← accept p;
  match a with
  | None => Ret h
  | Some (t, opt) => snd <$> bridgeServices_ServeDHCP h p t opt
  end.

Fixpoint handle_all (h : bridgeServices) (ps : list Packet) : outcome bridgeServices :=
  match ps with
  | [] => Ret h
  | p :: ps => h ← handle h p; handle_all h ps
  end.

Lemma CHAddr_Ret p : (240 <= length p)%nat -> exists ch, CHAddr p = Ret ch.
Proof.
  intros Hp. destruct (header_fields_Ret p Hp) as (?&?&?&ch&?&?&?&?&_). by exists ch.
Qed.

Lemma handle_implements h s p h' :
  implements h s -> Pool.wf s -> handle h p = Ret h' ->
  exists s', implements h' s' /\ Pool.wf s' /\ baseIP h' = baseIP h /\
    Pool.count s' <= Pool.count s + 1.
Proof.
  intros Himpl Hwf. unfold handle. destruct (accept_total p) as [[[t opt]|] Ha];
    rewrite Ha, bind_ret.
  - apply accept_Some in Ha as (Hp & _). destruct (CHAddr_Ret p Hp) as [ch Hch].
    destruct (request_cases h t opt) as [[m Hm]|[[Hd Hr]|(-> & Hus & Hip)]].
    + pose proof (handler_refines h s p ch t opt m Himpl Hp Hch Hm) as Href.
      pose proof (Pool.step_wf (addr_value (baseIP h)) s (net.HardwareAddr_String ch) m Hwf) as Hwf'.
      pose proof (Pool.step_count (addr_value (baseIP h)) s (net.HardwareAddr_String ch) m) as Hcnt.
      destruct (Pool.step _ _ _ _) as [r s'].
      destruct Href as (res & h1 & -> & Himpl' & Hb & _). intros [= <-].
      cbn [snd] in *. exists s'. split; [exact Himpl'|]. split; [exact Hwf'|].
      split; [exact Hb|lia].
    + rewrite handler_ignores by done. intros [= <-]. exists s.
      split; [exact Himpl|]. split; [exact Hwf|]. split; [done|lia].
    + by rewrite handler_panics.
  - intros [= <-]. exists s. split; [exact Himpl|]. split; [exact Hwf|]. split; [done|lia].
Qed.

Lemma handle_all_implements h s ps h' :
  implements h s -> Pool.wf s -> handle_all h ps = Ret h' ->
  exists s', implements h' s' /\ Pool.wf s' /\ baseIP h' = baseIP h /\
    Pool.count s' <= Pool.count s + Z.of_nat (length ps).
Proof.
  revert h s. induction ps as [|p ps IH]; intros h s Himpl Hwf; simpl.
  - intros [= <-]. exists s. rewrite Z.add_0_r. done.
  - intros (h1 & H1 & H2)%bind_Ret_inv.
    destruct (handle_implements h s p h1 Himpl Hwf H1) as (s1 & Hi1 & Hw1 & Hb1 & Hc1).
    destruct (IH h1 s1 Hi1 Hw1 H2) as (s' & Hi' & Hw' & Hb' & Hc').
    exists s'. split; [done|]. split; [done|]. split; [congruence|]. lia.
Qed.
End refinement.

(** ** Setting the services up *)

(** What [dhcpDNSRoutine] (netctrl/main.go) builds before it serves: the options,
    the handler and the broadcast address. *)
Definition dhcp_options (bridgeAddr : list byte) : gmap byte (list byte) :=
  let domainServers := net.To4 bridgeAddr ++ [Byte.x08; Byte.x08; Byte.x08; Byte.x08] in
  <[OptionSubnetMask := [Byte.xff; Byte.xff; Byte.xff; Byte.x00]]>
  (<[OptionRouter := net.To4 bridgeAddr]>
  (<[OptionPerformRouterDiscovery := [Byte.x00]]>
  (<[OptionDomainNameServer := domainServers]> ∅))).

Definition dhcp_setup (nm : string) (dbg : bool) (wlanAddr bridgeAddr : list byte)
  : outcome (bridgeServices * list byte) :=
  nxt ← IPAdd wlanAddr 1;
  let handler := {| name := nm; debug := dbg; baseIP := wlanAddr; next := nxt;
                    leases := ∅; options := dhcp_options bridgeAddr |} in
  bcast ← IPAdd nxt 0;
  bcast ← store bcast (length bcast - 1) Byte.xff;
  Ret (handler, bcast).

Lemma dhcp_options_server bridgeAddr : server_options (dhcp_options bridgeAddr).
Proof.
  assert (Hlen : (length (net.To4 bridgeAddr) <= 4)%nat).
  { destruct (net.To4_length bridgeAddr) as [->| ->]; simpl; lia. }
  unfold server_options, dhcp_options.
  repeat apply map_Forall_insert_2; try apply map_Forall_empty;
    repeat split; simpl; rewrite ?length_app; simpl; done || lia.
Qed.

Lemma dhcp_setup_implements nm dbg wlan bridge h bcast :
  length wlan = 4%nat -> dhcp_setup nm dbg wlan bridge = Ret (h, bcast) ->
  implements h Pool.init /\ baseIP h = wlan.
Proof.
  intros Hw. unfold dhcp_setup.
  rewrite IPAdd_eq, bind_ret, IPAdd_0, bind_ret by (by rewrite ?net.To4_of_4).
  intros (b & _ & [= <- _])%bind_Ret_inv. split; [|done].
  split; [done|]. split; [apply dhcp_options_server|]. simpl. split.
  - unfold lease_addr, Pool.addr. rewrite net.To4_of_4 by done.
    by rewrite u32_add_r, Z.add_0_r.
  - by rewrite fmap_empty.
Qed.

(** ** Theorems *)

Section theorems.
Context `{MapRange}.

(** C4: The handler simulates the allocator: on a Discover, or a Request for this
    server that names an address, it answers exactly what the allocator answers
    (offer, acknowledgement or refusal, with the right address, transaction and
    client), and its lease table and next address stay those of the allocator. *)
Theorem ServeDHCP_refines h s p ch t opt m :
  implements h s -> (240 <= length p)%nat -> CHAddr p = Ret ch -> request_msg h t opt = Some m ->
  let '(r, s') := Pool.step (addr_value (baseIP h)) s (net.HardwareAddr_String ch) m in
  exists res h', bridgeServices_ServeDHCP h p t opt = Ret (Some res, h') /\
    implements h' s' /\ baseIP h' = baseIP h /\ answers h p res r.
Proof. apply handler_refines. Qed.

(** C6: No two clients ever hold the same address, and no client holds the server's
    own, however many datagrams arrive short of exhausting the address space. *)
Theorem leases_unique nm dbg wlan bridge h0 bcast ps h c1 c2 ip :
  length wlan = 4%nat -> dhcp_setup nm dbg wlan bridge = Ret (h0, bcast) ->
  handle_all h0 ps = Ret h -> Z.of_nat (length ps) < 2 ^ 32 - 1 ->
  leases h !! c1 = Some ip ->
  ip <> wlan /\ (leases h !! c2 = Some ip -> c1 = c2).
Proof.
  intros Hw Hsetup Hrun Hn H1.
  destruct (dhcp_setup_implements _ _ _ _ _ _ Hw Hsetup) as [Hi0 Hb0].
  destruct (handle_all_implements _ _ _ _ Hi0 Pool.init_wf Hrun) as (s & Hi & Hwf & Hb & Hc).
  destruct Hwf as (Hcnt & Hbind & Hinj). simpl in Hc.
  rewrite (implements_lookup h s Hi) in H1.
  destruct (Pool.bindings s !! c1) as [i|] eqn:Ei; [|done]. injection H1 as H1.
  pose proof (Hbind _ _ Ei) as Hbi.
  assert (Hip : addr_value ip = Pool.addr (addr_value (baseIP h)) i)
    by (rewrite <- H1; apply addr_value_lease).
  split.
  - intros ->. rewrite Hb, Hb0 in Hip. pose proof (addr_value_range wlan).
    unfold Pool.addr, u32 in Hip.
    pose proof (Z.div_mod (addr_value wlan + 1 + i) (2 ^ 32) ltac:(lia)). nia.
  - rewrite (implements_lookup h s Hi).
    destruct (Pool.bindings s !! c2) as [j|] eqn:Ej; [|done]. intros [= H2].
    pose proof (Hbind _ _ Ej) as Hbj. apply (Hinj c1 c2 i Ei). rewrite Ej. f_equal.
    apply (Pool.addr_inj (addr_value (baseIP h))); try lia.
    rewrite <- !addr_value_lease. congruence.
Qed.

(** C38: The exact condition under which the handler brings the daemon down: a
    Request for this server whose requested-address option is missing or is not
    an IPv4 address.  The test for a nil address that follows [IPAdd] (and would
    fall back to the client's current address) is never reached. *)
Theorem ServeDHCP_panics_iff h s p t opt :
  implements h s -> (240 <= length p)%nat ->
  panics (bridgeServices_ServeDHCP h p t opt) <->
  t = Request /\ for_us h opt = true /\
  net.To4 (default [] ((options h ∪ opt) !! OptionRequestedIPAddress)) = [].
Proof.
  intros Himpl Hp. split.
  - intros [e Hpanic]. destruct (CHAddr_Ret p Hp) as [ch Hch].
    destruct (request_cases h t opt) as [[m Hm]|[[Hd Hr]|Hbad]]; [exfalso|exfalso|exact Hbad].
    + pose proof (handler_refines h s p ch t opt m Himpl Hp Hch Hm) as Href.
      destruct (Pool.step _ _ _ _) as [r s']. destruct Href as (res & h' & Hok & _).
      rewrite Hok in Hpanic. discriminate.
    + rewrite handler_ignores in Hpanic by done. discriminate.
  - intros (-> & Hus & Hip). exists IndexOutOfRange. by apply handler_panics.
Qed.

(** A client that is offered an address and asks for it, with no other request
    in between, is acknowledged that very address and recorded as its holder. *)
Theorem handshake h s p1 p2 ch opt1 opt2 ip off h1 :
  implements h s -> Pool.wf s -> Pool.count s < 2 ^ 32 ->
  (240 <= length p1)%nat -> (240 <= length p2)%nat -> CHAddr p1 = Ret ch -> CHAddr p2 = Ret ch ->
  bridgeServices_ServeDHCP h p1 Discover opt1 = Ret (Some off, h1) -> YIAddr off = Ret ip ->
  addr_value ip <> 0 -> request_msg h1 Request opt2 = Some (Pool.MRequest (addr_value ip)) ->
  exists ack h2, bridgeServices_ServeDHCP h1 p2 Request opt2 = Ret (Some ack, h2) /\
    ParseOptions ack !! OptionDHCPMessageType = Some [ACK] /\ YIAddr ack = Ret ip /\
    leases h2 !! net.HardwareAddr_String ch = Some ip.
Proof.
  intros Himpl Hwf Hcnt Hp1 Hp2 Hch1 Hch2 Hoff Hyi Hnz Hreq.
  pose proof (handler_refines h s p1 ch Discover opt1 Pool.MDiscover Himpl Hp1 Hch1 eq_refl) as H1.
  cbn [Pool.step] in H1. destruct H1 as (res & h1' & Heq & Himpl1 & Hb1 & _ & _ & _ & _ & Hoffer).
  rewrite Hoff in Heq. injection Heq as <- <-. rewrite Hyi in Hoffer. apply (inj Ret) in Hoffer.
  destruct (Pool.request_offered (addr_value (baseIP h)) s (net.HardwareAddr_String ch) Hwf Hcnt)
    as (s' & Hstep & Hbind).
  { rewrite <- addr_value_lease. unfold lease_addr. by rewrite <- Hoffer. }
  pose proof (handler_refines h1 s p2 ch Request opt2 _ Himpl1 Hp2 Hch2 Hreq) as H2.
  assert (Hip : addr_value ip = Pool.addr (addr_value (baseIP h))
                  (default (Pool.count s) (Pool.bindings s !! net.HardwareAddr_String ch)))
    by (rewrite <- addr_value_lease; unfold lease_addr; by rewrite <- Hoffer).
  rewrite Hb1, Hip, Hstep in H2.
  destruct H2 as (ack & h2 & Hs & Hi2 & Hb2 & _ & _ & _ & Hty & Hy).
  exists ack, h2. rewrite Hs, Hty, Hy, (implements_lookup h2 s' Hi2), Hbind, Hb2, <- Hoffer.
  repeat split. cbn [fmap option_fmap option_map]. unfold lease_addr. by rewrite <- Hoffer.
Qed.
End theorems.

(** ** Concrete runs *)

Module Example.

Definition wlan : list byte := [Byte.xc0; Byte.xa8; Byte.x30; Byte.x02].
Definition bridge : list byte := [Byte.xc0; Byte.xa8; Byte.x30; Byte.x01].

(** The handler for the subnet 192.168.48.1/24 of the sample config.hcl. *)
Definition handler0 : bridgeServices :=
  {| name := "rnd"; debug := false; baseIP := wlan;
     next := [Byte.xc0; Byte.xa8; Byte.x30; Byte.x03]; leases := ∅;
     options := dhcp_options bridge |}.

(** A Request from the client with hardware address 02:00:00:00:00:k. *)
Definition request (k : Z) (opts : list (byte * list byte)) : Packet :=
  match RequestPacket Request [Byte.x02; Byte.x00; Byte.x00; Byte.x00; Byte.x00; byte_of_Z k]
          [] [Byte.x01; Byte.x02; Byte.x03; Byte.x04] false opts with
  | Ret p => p
  | _ => []
  end.

Definition ip (d : Z) : list byte := [Byte.xc0; Byte.xa8; Byte.x30; byte_of_Z d].

(** A renewal: the client's address is in the header, option 50 is absent. *)
Definition renewal : Packet :=
  match RequestPacket Request [Byte.x02; Byte.x00; Byte.x00; Byte.x00; Byte.x00; Byte.x07]
          (ip 3) [Byte.x01; Byte.x02; Byte.x03; Byte.x04] false [] with
  | Ret p => p
  | _ => []
  end.

Definition client_addr : net.UDPAddr :=
  {| net.UDP_IP := ip 3; net.UDP_Port := 68; net.UDP_Zone := "" |}.

(** The reply of [handler0] to a Discover. *)
Definition offer : Packet :=
  match bridgeServices_ServeDHCP handler0 (request 7 []) Discover ∅ with
  | Ret (Some res, _) => res
  | _ => []
  end.

(** 253 clients, each asking for the address that is free when its turn comes. *)
Definition crowd : list Packet :=
  (fun k => request (Z.of_nat k) [(OptionRequestedIPAddress, ip (3 + Z.of_nat k))]) <$> seq 0 253.

Lemma setup : dhcp_setup "rnd" false wlan bridge = Ret (handler0, ip 255).
Proof. vm_compute. reflexivity. Qed.
End Example.

Lemma ServeDHCP_refines_witness :
  exists res h', bridgeServices_ServeDHCP Example.handler0 (zeros 240) Discover ∅ = Ret (Some res, h') /\
    YIAddr res = Ret (Example.ip 3).
Proof.
  pose proof (ServeDHCP_refines Example.handler0 Pool.init (zeros 240) [] Discover ∅ Pool.MDiscover) as Hr.
  cbn [Pool.step] in Hr.
  destruct Hr as (res & h' & Hs & _ & _ & _ & _ & _ & _ & Hy).
  - split; [reflexivity|]. split; [apply dhcp_options_server|]. split; reflexivity.
  - apply Nat.leb_le. reflexivity.
  - reflexivity.
  - reflexivity.
  - exists res, h'. split; [exact Hs|exact Hy].
Defined.

Lemma leases_unique_witness :
  exists h, handle_all Example.handler0 [Example.request 7 [(OptionRequestedIPAddress, Example.ip 3)]] = Ret h /\
    leases h !! "02:00:00:00:00:07" = Some (Example.ip 3) /\ Example.ip 3 <> Example.wlan.
Proof.
  eexists. split; [vm_compute; reflexivity|]. split; [vm_compute; reflexivity|].
  eapply (leases_unique "rnd" false Example.wlan Example.bridge Example.handler0 (Example.ip 255)
    [Example.request 7 [(OptionRequestedIPAddress, Example.ip 3)]] _ "02:00:00:00:00:07"
    "02:00:00:00:00:07" (Example.ip 3));
    [reflexivity | vm_compute; reflexivity | vm_compute; reflexivity | vm_compute; reflexivity
    | vm_compute; reflexivity].
Defined.

(** The server never checks that [next] is still inside the configured subnet:
    when 253 clients have asked, the last of them holds 192.168.48.255, the
    broadcast address of the /24 the clients are told they are on (and the very
    address [dhcpDNSRoutine] sends broadcasts to). *)
Theorem lease_reaches_broadcast :
  exists ps h, dhcp_setup "rnd" false Example.wlan Example.bridge = Ret (Example.handler0, Example.ip 255) /\
    handle_all Example.handler0 ps = Ret h /\
    leases h !! "02:00:00:00:00:fc" = Some (Example.ip 255).
Proof.
  exists Example.crowd.
  assert (match handle_all Example.handler0 Example.crowd with
          | Ret h => bool_decide (leases h !! "02:00:00:00:00:fc" = Some (Example.ip 255))
          | _ => false
          end = true) as Hrun by (vm_compute; reflexivity).
  destruct (handle_all Example.handler0 Example.crowd) as [h| |]; [|discriminate..].
  exists h. split; [apply Example.setup|]. split; [reflexivity|].
  by apply bool_decide_eq_true in Hrun.
Qed.

(** A client renewing its lease the way DHCP prescribes (its address in the
    header, no requested-address option) crashes the handler, and the server loop
    with it. *)
Lemma ServeDHCP_panics_iff_witness :
  panics (bridgeServices_ServeDHCP Example.handler0 Example.renewal Request ∅) /\
  Serve_turn 32 {| inbox := [(Example.renewal, Example.client_addr)]; outbox := [] |}
    Example.handler0 = Crash IndexOutOfRange.
Proof.
  split; [|vm_compute; reflexivity].
  apply (ServeDHCP_panics_iff Example.handler0 Pool.init Example.renewal Request ∅).
  - split; [reflexivity|]. split; [apply dhcp_options_server|]. split; reflexivity.
  - apply Nat.leb_le. vm_compute. reflexivity.
  - split; [reflexivity|]. split; vm_compute; reflexivity.
Defined.

Lemma handshake_witness :
  exists ack h2,
    bridgeServices_ServeDHCP Example.handler0
      (Example.request 7 [(OptionRequestedIPAddress, Example.ip 3)]) Request
      {[OptionRequestedIPAddress := Example.ip 3]} = Ret (Some ack, h2) /\
    YIAddr ack = Ret (Example.ip 3) /\ leases h2 !! "02:00:00:00:00:07" = Some (Example.ip 3).
Proof.
  destruct (handshake Example.handler0 Pool.init (Example.request 7 [])
    (Example.request 7 [(OptionRequestedIPAddress, Example.ip 3)])
    [Byte.x02; Byte.x00; Byte.x00; Byte.x00; Byte.x00; Byte.x07] ∅
    {[OptionRequestedIPAddress := Example.ip 3]} (Example.ip 3) Example.offer Example.handler0)
    as (ack & h2 & H1 & _ & H2 & H3).
  - split; [reflexivity|]. split; [apply dhcp_options_server|]. split; reflexivity.
  - apply Pool.init_wf.
  - reflexivity.
  - apply Nat.leb_le. vm_compute. reflexivity.
  - apply Nat.leb_le. vm_compute. reflexivity.
  - vm_compute. reflexivity.
  - vm_compute. reflexivity.
  - vm_compute. reflexivity.
  - vm_compute. reflexivity.
  - vm_compute. discriminate.
  - vm_compute. reflexivity.
  - exists ack, h2. exact (conj H1 (conj H2 H3)).
Defined.
