(* ===== verification/DhcpRoutine.v ===== *)
(** * The DHCP goroutine

    [src/netctrl/dhcpconn.go] and the serving loop of [dhcpDNSRoutine]
    ([src/netctrl/main.go]): the connection that sends limited broadcasts to the
    subnet's broadcast address, and the loop that restarts [dhcp4.Serve] until
    the socket is gone. *)

From Stdlib Require Import ZArith Lia NArith Ascii Strings.Byte.
From stdpp Require Import base numbers gmap strings list fin_maps.
From S2P Require Import Prelude GoNet Dhcp4 Dhcp4Server BridgeServices.

Open Scope Z_scope.

Record dhcpLimitedBroadcastListener (C : Type) := { conn : C; bcastAddr : list byte }.
Arguments conn {C} _.
Arguments bcastAddr {C} _.

(** The address [WriteTo] really sends to. *)
Definition target_addr (bcast : list byte) (addr : net.UDPAddr) : net.UDPAddr :=
  if decide (net.IP_String (net.UDP_IP addr) = net.IP_String net.IPv4bcast)
  then {| net.UDP_IP := bcast; net.UDP_Port := net.UDP_Port addr; net.UDP_Zone := net.UDP_Zone addr |}
  else addr.

#[export] Instance listener_conn {C} `{ServeConn C} : ServeConn (dhcpLimitedBroadcastListener C) := {|
  ReadFrom s :=
    let '(r, c) := ReadFrom (conn s) in (r, {| conn := c; bcastAddr := bcastAddr s |});
  WriteTo s b addr :=
    let '(r, c) := WriteTo (conn s) b (target_addr (bcastAddr s) addr) in
    (r, {| conn := c; bcastAddr := bcastAddr s |})
|}.

(** [if err, ok := err.( *net.OpError); ok && !err.Temporary()] *)
Definition fatal (e : error) : bool :=
  match e with OpError temporary _ => negb temporary | _ => false end.

Section routine.
Context {C : Type} `{ServeConn C} `{MapRange} (w : Z).

(** The [for] loop: at most [restarts] calls of [Serve], of at most [turns]
    datagrams each. *)
Fixpoint dhcpServeLoop (restarts turns : nat) (l : dhcpLimitedBroadcastListener C)
    (h : bridgeServices) : turn (dhcpLimitedBroadcastListener C * bridgeServices) :=
  match restarts with
  | O => Next (l, h)
  | S restarts =>
      match Serve w turns l h with
      | Stop e (l, h) => if fatal e then Stop e (l, h) else dhcpServeLoop restarts turns l h
      | t => t
      end
  end.
End routine.

(** ** Lemmas *)

Lemma target_addr_bcast bcast port zone :
  target_addr bcast {| net.UDP_IP := net.IPv4bcast; net.UDP_Port := port; net.UDP_Zone := zone |} =
  {| net.UDP_IP := bcast; net.UDP_Port := port; net.UDP_Zone := zone |}.
Proof. unfold target_addr. by rewrite decide_True. Qed.

(** A client that has no address yet. *)
Definition unconfigured (port : Z) : net.UDPAddr :=
  {| net.UDP_IP := net.IPv4zero; net.UDP_Port := port; net.UDP_Zone := EmptyString |}.

Section turns.
Context {C : Type} `{ServeConn C} `{MapRange} (w : Z).

(** A turn that answers: what the handler returns is sent to the target of the
    address the loop chooses. *)
Lemma turn_answers (l : dhcpLimitedBroadcastListener C) c1 h h' data addr addr' t opt res :
  ReadFrom (conn l) = (Ret (data, addr), c1) ->
  accept (take bufferSize data) = Ret (Some (t, opt)) ->
  bridgeServices_ServeDHCP h (take bufferSize data) t opt = Ret (Some res, h') ->
  reply_addr w (take bufferSize data) addr = Ret addr' ->
  Serve_turn w l h =
    match WriteTo c1 res (target_addr (bcastAddr l) addr') with
    | (Ret _, c2) => Next ({| conn := c2; bcastAddr := bcastAddr l |}, h')
    | (Err e, c2) => Stop e ({| conn := c2; bcastAddr := bcastAddr l |}, h')
    | (Panic p, _) => Crash p
    end.
Proof.
  intros Hr Ha Hs Hd. unfold Serve_turn. simpl. rewrite Hr, Ha.
  change (ServeDHCP h (take bufferSize data) t opt) with
    (bridgeServices_ServeDHCP h (take bufferSize data) t opt).
  rewrite Hs, Hd. simpl. by destruct (WriteTo c1 res _) as [[] ?].
Qed.

(** A DHCP message: a header of 240 bytes with a hardware address of at most 16, the
    options, among them the type of the message, their end and padding. *)
Record message (data : list byte) (t : byte) (opts : list (byte * list byte)) : Prop := {
  me_wire : exists hdr pad hl, data = hdr ++ encode_options opts ++ End :: pad /\ length hdr = 240%nat /\
    hdr !! 2%nat = Some hl /\ u8 hl <= 16;
  me_options : Forall valid_option opts;
  me_type : options_map opts !! OptionDHCPMessageType = Some [t];
  me_size : (length data <= bufferSize)%nat
}.

(** The loop takes every message of a known type. *)
Lemma accept_message data t opts :
  message data t opts -> u8 Discover <= u8 t <= u8 Inform -> accept data = Ret (Some (t, options_map opts)).
Proof.
  intros [(hdr & pad & hl & -> & Hh & H2 & Hl) Ho Ht _] Hk. unfold accept.
  rewrite decide_False by (rewrite length_app; lia).
  assert (HLen (hdr ++ encode_options opts ++ End :: pad) = Ret hl) as ->.
  { unfold HLen. apply index_Ret. rewrite lookup_app_l by lia. done. }
  rewrite bind_ret, decide_False by lia. rewrite ParseOptions_encode by done. rewrite Ht.
  by rewrite decide_False by lia.
Qed.

Lemma request_msg_type h t opt m : request_msg h t opt = Some m -> u8 Discover <= u8 t <= u8 Inform.
Proof.
  unfold request_msg. case_decide as Hd; [subst; vm_compute; split; discriminate|].
  case_bool_decide as Hr; [subst; vm_compute; split; discriminate|done].
Qed.

(** The broadcast address that is set up: the last of the 256 addresses around the
    first one that is leased. *)
Definition subnet_bcast (wlan : list byte) : list byte := take 3 (lease_addr (addr_value wlan) 0) ++ [Byte.xff].

Lemma dhcp_setup_bcast nm dbg wlan bridge h bcast :
  length wlan = 4%nat -> dhcp_setup nm dbg wlan bridge = Ret (h, bcast) -> bcast = subnet_bcast wlan.
Proof.
  intros Hw. unfold dhcp_setup. rewrite IPAdd_eq, bind_ret, IPAdd_0, bind_ret by (by rewrite ?net.To4_of_4).
  rewrite !net.To4_of_4 by done. unfold subnet_bcast, lease_addr, Pool.addr. rewrite u32_add_r, Z.add_0_r.
  generalize (binary.be32 (u32 (addr_value wlan + 1))) (eq_refl : length (binary.be32 (u32 (addr_value wlan + 1))) = 4%nat).
  intros l Hl. destruct l as [|x0 [|x1 [|x2 [|x3 [|]]]]]; try discriminate Hl. by intros [= _ <-].
Qed.

(** C10: From the wire to the wire: after any datagrams the server has handled since it
    was set up, a Discover, or a Request for this server that names an address, from
    a client that has no address yet is accepted, answered as the allocator answers,
    and the one datagram sent goes to the client's port at the last of the 256
    addresses around the first lease, the broadcast address of the subnet when the
    subnet has 24 bits. *)
Theorem client_is_answered nm dbg wlan bridge h0 bcast ps h c c1 data port t opts m :
  length wlan = 4%nat -> dhcp_setup nm dbg wlan bridge = Ret (h0, bcast) -> handle_all h0 ps = Ret h ->
  message data t opts -> request_msg h t (options_map opts) = Some m ->
  0 <= port < 2 ^ (w - 1) -> ReadFrom c = (Ret (data, unconfigured port), c1) ->
  exists s ch, implements h s /\ CHAddr data = Ret ch /\
  let '(r, s') := Pool.step (addr_value wlan) s (net.HardwareAddr_String ch) m in
  exists res h', implements h' s' /\ answers h data res r /\
    Serve_turn w {| conn := c; bcastAddr := bcast |} h =
      match WriteTo c1 res {| net.UDP_IP := subnet_bcast wlan; net.UDP_Port := port;
                              net.UDP_Zone := EmptyString |} with
      | (Ret _, c2) => Next ({| conn := c2; bcastAddr := bcast |}, h')
      | (Err e, c2) => Stop e ({| conn := c2; bcastAddr := bcast |}, h')
      | (Panic p, _) => Crash p
      end.
Proof.
  intros Hw Hset Hall Hmsg Hm Hp Hr. destruct (dhcp_setup_implements _ _ _ _ _ _ Hw Hset) as [Hi0 Hb0].
  destruct (handle_all_implements _ _ _ _ Hi0 Pool.init_wf Hall) as (s & Hi & _ & Hb & _).
  pose proof (accept_message _ _ _ Hmsg (request_msg_type _ _ _ _ Hm)) as Ha.
  pose proof (accept_Some _ _ _ Ha) as (Hlen & _). destruct (CHAddr_Ret _ Hlen) as [ch Hch].
  exists s, ch. split; [exact Hi|]. split; [exact Hch|].
  pose proof (handler_refines h s _ ch t _ m Hi Hlen Hch Hm) as Hh. rewrite Hb, Hb0 in Hh.
  destruct (Pool.step _ _ _ _) as [r s']. destruct Hh as (res & h' & Hs & Hi' & _ & Hans).
  exists res, h'. split; [exact Hi'|]. split; [exact Hans|]. destruct (Broadcast_Ret _ Hlen) as [b Hbc].
  assert (take bufferSize data = data) as Htake by (apply take_ge, (me_size _ _ _ Hmsg)).
  assert (Hd : reply_addr w data (unconfigured port) =
    Ret {| net.UDP_IP := net.IPv4bcast; net.UDP_Port := port; net.UDP_Zone := EmptyString |}).
  { rewrite (reply_addr_eq w _ (unconfigured port) b Hbc); [|reflexivity|reflexivity|exact Hp].
    rewrite decide_True by (by left). reflexivity. }
  rewrite (turn_answers {| conn := c; bcastAddr := bcast |} c1 h h' data (unconfigured port)
    {| net.UDP_IP := net.IPv4bcast; net.UDP_Port := port; net.UDP_Zone := EmptyString |} t (options_map opts) res);
    rewrite ?Htake; [|done..].
  rewrite target_addr_bcast, (dhcp_setup_bcast _ _ _ _ _ _ Hw Hset). reflexivity.
Qed.
End turns.

(** ** An example on the wire *)

Module RoutineExample.
Definition discover : Packet :=
  match RequestPacket Discover [Byte.x02; Byte.x00; Byte.x00; Byte.x00; Byte.x00; Byte.x07]
          [] [Byte.x01; Byte.x02; Byte.x03; Byte.x04] false [] with
  | Ret p => p
  | _ => []
  end.

Definition socket : ScriptConn := {| inbox := [(discover, unconfigured 68)]; outbox := [] |}.
Definition listener : dhcpLimitedBroadcastListener ScriptConn :=
  {| conn := socket; bcastAddr := Example.ip 255 |}.
Definition bcast68 : net.UDPAddr :=
  {| net.UDP_IP := Example.ip 255; net.UDP_Port := 68; net.UDP_Zone := EmptyString |}.
End RoutineExample.

Lemma discover_message : message RoutineExample.discover Discover [(OptionDHCPMessageType, [Discover])].
Proof.
  split.
  - exists (take 240 RoutineExample.discover), (drop 244 RoutineExample.discover), Byte.x06.
    split; [vm_compute; reflexivity|]. split; [vm_compute; reflexivity|]. split; [vm_compute; reflexivity|].
    vm_compute. discriminate.
  - apply Forall_singleton. split; [discriminate|]. split; [discriminate|]. simpl. lia.
  - reflexivity.
  - vm_compute. lia.
Qed.

(** A first client is offered the first address. *)
Lemma client_is_answered_witness :
  exists res h', Serve_turn 64 RoutineExample.listener Example.handler0 =
    Next ({| conn := {| inbox := []; outbox := [(res, RoutineExample.bcast68)] |};
             bcastAddr := Example.ip 255 |}, h') /\
    exists a, YIAddr res = Ret a.
Proof.
  destruct (client_is_answered 64 "rnd" false Example.wlan Example.bridge Example.handler0 (Example.ip 255) []
    Example.handler0 RoutineExample.socket {| inbox := []; outbox := [] |} RoutineExample.discover 68 Discover
    [(OptionDHCPMessageType, [Discover])] Pool.MDiscover) as (s & ch & _ & _ & Hr).
  - reflexivity.
  - exact Example.setup.
  - reflexivity.
  - exact discover_message.
  - reflexivity.
  - vm_compute. split; [discriminate|reflexivity].
  - reflexivity.
  - destruct Hr as (res & h' & _ & (_ & _ & _ & _ & Hy) & Hs). exists res, h'.
    split; [exact Hs|]. by eexists.
Defined.

(** The routine ends only on a permanent error of the socket: after any other
    error it serves on, with the leases it has given out. *)
Theorem dhcp_routine_ends_when_fatal {C} `{ServeConn C} `{MapRange} w restarts turns
    (l : dhcpLimitedBroadcastListener C) h e lh :
  dhcpServeLoop w restarts turns l h = Stop e lh ->
  fatal e = true /\ exists l' h', Serve w turns l' h' = Stop e lh.
Proof.
  revert l h. induction restarts as [|n IH]; intros l h; simpl; [done|].
  destruct (Serve w turns l h) as [s|e' [l' h']|p] eqn:E; [done| |done].
  destruct (fatal e') eqn:Ef; [|apply IH]. intros [= <- <-]. split; [done|]. by exists l, h.
Qed.

Lemma dhcp_routine_ends_when_fatal_witness :
  exists e lh, dhcpServeLoop 64 3 5
    {| conn := {| inbox := []; outbox := [] |}; bcastAddr := Example.ip 255 |} Example.handler0 =
    Stop e lh /\ fatal e = true.
Proof.
  eexists _, _. split; [reflexivity|].
  eapply (dhcp_routine_ends_when_fatal 64 3 5
    {| conn := {| inbox := []; outbox := [] |}; bcastAddr := Example.ip 255 |} Example.handler0).
  reflexivity.
Defined.
