(* ===== verification/OS.v ===== *)
(** * The operating system the daemon runs on

    Everything the daemon asks of the kernel, of other processes and of the
    netlink library is an operation of the class [OS W]: a function of the state
    [W] of the outside world, about which nothing is assumed.  [GM] is the monad
    of Go code: it threads the daemon's own state, the world, and a trace of the
    calls made with what they returned.  Errors and panics are outcomes, and the
    state changes made before them stay. *)

From Stdlib Require Import ZArith Lia NArith Ascii Strings.Byte.
From stdpp Require Import base numbers gmap strings list fin_maps.
From S2P Require Import Prelude GoNet.

Open Scope Z_scope.

(** Which channel a [select] over a timeout ticker and a check ticker takes. *)
Inductive tick := TimeoutTick | CheckTick.

(** The result of [flock] with LOCK_NB. *)
Inductive flock_result := FlockHeld | FlockWouldBlock | FlockFailed (e : error).

(** An address of an interface: a [*net.IPNet], or another implementation of
    [net.Addr]. *)
Inductive ifaddr := IPNetAddr (n : net.IPNet) | OtherAddr.

Class OS (W : Type) := {
  (* files *)
  os_ReadFile : string -> W -> outcome (list byte) * W;
  os_WriteFile : string -> list byte -> W -> outcome unit * W;
  os_TempFile : W -> outcome string * W;
  os_FileWrite : string -> list byte -> W -> outcome unit * W;
  os_FileClose : string -> W -> outcome unit * W;
  os_Remove : string -> W -> outcome unit * W;
  (* processes *)
  os_LookPath : string -> W -> outcome string * W;
  os_Start : list string -> W -> outcome Z * W;
  os_Run : list string -> W -> outcome string * W;
  os_FindProcess : Z -> W -> outcome unit * W;
  os_Signal0 : Z -> W -> outcome unit * W;
  os_Kill : Z -> W -> outcome unit * W;
  (* system calls of the iptables lock *)
  os_Open : string -> W -> outcome Z * W;
  os_Flock : Z -> W -> flock_result * W;
  os_Close : Z -> W -> outcome unit * W;
  (* time *)
  os_Now : W -> Z * W;
  os_Select : W -> tick * W;
  (* network interfaces *)
  os_InterfaceByName : string -> W -> outcome net.Interface * W;
  os_Addrs : net.Interface -> W -> outcome (list ifaddr) * W;
  (* github.com/vishvananda/netlink *)
  nl_LinkAdd : string -> W -> outcome unit * W;
  nl_LinkDel : string -> W -> outcome unit * W;
  nl_LinkSetUp : string -> W -> outcome unit * W;
  nl_LinkByName : string -> W -> outcome string * W;
  nl_LinkIsBridge : string -> W -> bool * W;
  nl_LinkSetMaster : string -> string -> W -> outcome unit * W;
  nl_AddrAdd : string -> net.IPNet -> W -> outcome unit * W;
  nl_RouteAdd : list byte -> net.IPNet -> list byte -> Z -> W -> outcome unit * W;
  nl_RouteGet : list byte -> W -> outcome (list Z) * W;
  (* the hostapd control socket *)
  os_Rand : Z -> W -> Z * W;
  os_DialUnix : string -> string -> W -> outcome unit * W;
  os_ConnWrite : list byte -> W -> outcome unit * W;
  os_ConnRead : nat -> W -> outcome (list byte) * W;
  os_ConnClose : W -> outcome unit * W
}.

(** Calls that change the world or decide what the daemon does next, as they
    appear in the trace. *)
Inductive event :=
| EvReadFile (path : string) (r : outcome (list byte))
| EvWriteFile (path : string) (data : list byte) (r : outcome unit)
| EvStart (args : list string) (r : outcome Z)
| EvRun (args : list string) (r : outcome string)
| EvSignal0 (pid : Z) (r : outcome unit)
| EvKill (pid : Z)
| EvSelect (t : tick)
| EvInterfaceByName (name : string) (r : outcome net.Interface)
| EvLinkAdd (name : string) (r : outcome unit)
| EvLinkDel (name : string) (r : outcome unit)
| EvAddrAdd (name : string) (addr : net.IPNet) (r : outcome unit)
| EvRouteGet (ip : list byte) (r : outcome (list Z))
| EvRemove (name : string)
| EvOther.

(** The state Go code runs in: [ctl] is the daemon's own state. *)
Record sys (W C : Type) := Sys { ctl : C; world : W; trace : list event }.
Arguments Sys {W C} _ _ _.
Arguments ctl {W C} _.
Arguments world {W C} _.
Arguments trace {W C} _.

(** [None] is a computation that is still in a loop when the bound on the turns
    of that loop is reached: neither returned nor panicked. *)
Definition GM (W C A : Type) : Type := sys W C -> option (outcome A * sys W C).

#[export] Instance GM_ret {W C} : MRet (GM W C) := fun A a s => Some (Ret a, s).
#[export] Instance GM_bind {W C} : MBind (GM W C) := fun A B f m s =>
  match m s with
  | Some (Ret a, s) => f a s
  | Some (Err e, s) => Some (Err e, s)
  | Some (Panic p, s) => Some (Panic p, s)
  | None => None
  end.

Section combinators.
Context {W C : Type}.

Definition fail {A} (e : error) : GM W C A := fun s => Some (Err e, s).
Definition throw {A} (p : panic) : GM W C A := fun s => Some (Panic p, s).

(** A pure computation that may fail. *)
Definition pure {A} (o : outcome A) : GM W C A := fun s => Some (o, s).

(** The bound on the turns of a loop is reached. *)
Definition out_of_turns {A} : GM W C A := fun _ => None.

(** [v, err := m]: the error as a value, for code that looks at it. *)
Definition try {A} (m : GM W C A) : GM W C (A + error) := fun s =>
  match m s with
  | Some (Ret a, s) => Some (Ret (inl a), s)
  | Some (Err e, s) => Some (Ret (inr e), s)
  | Some (Panic p, s) => Some (Panic p, s)
  | None => None
  end.

(** [defer cleanup]: runs when [m] returns, with or without an error, and when
    it panics; its own result is dropped. *)
Definition deferred {A} (m : GM W C A) (cleanup : GM W C unit) : GM W C A := fun s =>
  match m s with
  | Some (r, s) =>
      match cleanup s with
      | Some (_, s) => Some (r, s)
      | None => None
      end
  | None => None
  end.

Definition get : GM W C C := fun s => Some (Ret (ctl s), s).
Definition modify (f : C -> C) : GM W C unit := fun s =>
  Some (Ret tt, Sys (f (ctl s)) (world s) (trace s)).

(** A call of an operation of the system that may fail, and of one that does
    not; [ev] is what the trace records. *)
Definition call {A} (op : W -> outcome A * W) (ev : outcome A -> event) : GM W C A := fun s =>
  let '(r, w) := op (world s) in Some (r, Sys (ctl s) w (trace s ++ [ev r])).
Definition ask {A} (op : W -> A * W) (ev : A -> event) : GM W C A := fun s =>
  let '(r, w) := op (world s) in Some (Ret r, Sys (ctl s) w (trace s ++ [ev r])).
End combinators.

(** ** Reasoning about Go code

    [triple P m Q]: from a state in [P], if [m] ends then its outcome and final
    state satisfy [Q].  [ends m s]: it does end. *)
Section logic.
Context {W C : Type}.

Definition triple {A} (P : sys W C -> Prop) (m : GM W C A) (Q : outcome A -> sys W C -> Prop) : Prop :=
  forall s r s', P s -> m s = Some (r, s') -> Q r s'.

Definition ends {A} (m : GM W C A) (s : sys W C) : Prop := is_Some (m s).

Lemma triple_ret {A} (P : sys W C -> Prop) (a : A) (Q : outcome A -> sys W C -> Prop) :
  (forall s, P s -> Q (Ret a) s) -> triple P (mret a) Q.
Proof. intros H s r s' HP [= <- <-]. auto. Qed.

Lemma triple_fail {A} (P : sys W C -> Prop) e (Q : outcome A -> sys W C -> Prop) :
  (forall s, P s -> Q (Err e) s) -> triple P (fail e) Q.
Proof. intros H s r s' HP [= <- <-]. auto. Qed.

Lemma triple_throw {A} (P : sys W C -> Prop) p (Q : outcome A -> sys W C -> Prop) :
  (forall s, P s -> Q (Panic p) s) -> triple P (throw p) Q.
Proof. intros H s r s' HP [= <- <-]. auto. Qed.

Lemma triple_pure {A} (P : sys W C -> Prop) (o : outcome A) (Q : outcome A -> sys W C -> Prop) :
  (forall s, P s -> Q o s) -> triple P (pure o) Q.
Proof. intros H s r s' HP [= <- <-]. auto. Qed.

Lemma triple_turns {A} (P : sys W C -> Prop) (Q : outcome A -> sys W C -> Prop) :
  triple P out_of_turns Q.
Proof. intros s r s' _ [=]. Qed.

Lemma triple_get (P : sys W C -> Prop) (Q : outcome C -> sys W C -> Prop) :
  (forall s, P s -> Q (Ret (ctl s)) s) -> triple P get Q.
Proof. intros H s r s' HP [= <- <-]. auto. Qed.

Lemma triple_modify (P : sys W C -> Prop) f (Q : outcome unit -> sys W C -> Prop) :
  (forall s, P s -> Q (Ret tt) (Sys (f (ctl s)) (world s) (trace s))) -> triple P (modify f) Q.
Proof. intros H s r s' HP [= <- <-]. auto. Qed.

Lemma triple_call {A} (P : sys W C -> Prop) (op : W -> outcome A * W) ev Q :
  (forall s r w, P s -> op (world s) = (r, w) -> Q r (Sys (ctl s) w (trace s ++ [ev r]))) ->
  triple P (call op ev) Q.
Proof.
  intros H s r s' HP. unfold call. destruct (op (world s)) as [r1 w] eqn:E.
  intros [= <- <-]. eauto.
Qed.

Lemma triple_ask {A} (P : sys W C -> Prop) (op : W -> A * W) ev Q :
  (forall s a w, P s -> op (world s) = (a, w) -> Q (Ret a) (Sys (ctl s) w (trace s ++ [ev a]))) ->
  triple P (ask op ev) Q.
Proof.
  intros H s r s' HP. unfold ask. destruct (op (world s)) as [a w] eqn:E.
  intros [= <- <-]. eauto.
Qed.

(** Sequencing: [R] is what holds between the two parts. *)
Lemma triple_bind {A B} P (m : GM W C A) (f : A -> GM W C B) (R : A -> sys W C -> Prop) Q :
  triple P m (fun r s => match r with
                         | Ret a => R a s
                         | Err e => Q (Err e) s
                         | Panic p => Q (Panic p) s
                         end) ->
  (forall a, triple (R a) (f a) Q) -> triple P (m ≫= f) Q.
Proof.
  intros Hm Hf s r s' HP. unfold mbind, GM_bind.
  destruct (m s) as [[[a|e|p] s1]|] eqn:E; [| | |done].
  - intros H. eapply Hf; [|exact H]. exact (Hm _ _ _ HP E).
  - intros [= <- <-]. exact (Hm _ _ _ HP E).
  - intros [= <- <-]. exact (Hm _ _ _ HP E).
Qed.

Lemma triple_try {A} P (m : GM W C A) Q :
  triple P m (fun r s => match r with
                         | Ret a => Q (Ret (inl a)) s
                         | Err e => Q (Ret (inr e)) s
                         | Panic p => Q (Panic p) s
                         end) -> triple P (try m) Q.
Proof.
  intros Hm s r s' HP. unfold try. destruct (m s) as [[[a|e|p] s1]|] eqn:E; [| | |done];
    intros [= <- <-]; exact (Hm _ _ _ HP E).
Qed.

Lemma triple_deferred {A} P (m : GM W C A) cleanup (R : outcome A -> sys W C -> Prop) Q :
  triple P m R -> (forall r, triple (R r) cleanup (fun _ s => Q r s)) ->
  triple P (deferred m cleanup) Q.
Proof.
  intros Hm Hc s r s' HP. unfold deferred. destruct (m s) as [[r1 s1]|] eqn:E; [|done].
  destruct (cleanup s1) as [[r2 s2]|] eqn:E2; [|done]. intros [= <- <-].
  exact (Hc r1 s1 r2 s2 (Hm _ _ _ HP E) E2).
Qed.

(** A sequence that returns went through both parts. *)
Lemma bind_returns {A B} (m : GM W C A) (f : A -> GM W C B) s b s' :
  (m ≫= f) s = Some (Ret b, s') ->
  exists a s1, m s = Some (Ret a, s1) /\ f a s1 = Some (Ret b, s').
Proof.
  unfold mbind, GM_bind. destruct (m s) as [[[a|e|p] s1]|]; [|done..]. eauto.
Qed.

(** A sequence that fails did so in one of its parts. *)
Lemma bind_fails {A B} (m : GM W C A) (f : A -> GM W C B) s e s' :
  (m ≫= f) s = Some (Err e, s') ->
  m s = Some (Err e, s') \/ exists a s1, m s = Some (Ret a, s1) /\ f a s1 = Some (Err e, s').
Proof.
  unfold mbind, GM_bind. destruct (m s) as [[[a|e'|p] s1]|]; [eauto| |done..].
  intros [= <- <-]. by left.
Qed.

Lemma triple_conseq {A} (P P' : sys W C -> Prop) (m : GM W C A) (Q Q' : outcome A -> sys W C -> Prop) :
  triple P' m Q' -> (forall s, P s -> P' s) -> (forall r s, Q' r s -> Q r s) -> triple P m Q.
Proof. intros H HP HQ s r s' Hs E. apply HQ. eapply H; [|exact E]. auto. Qed.
End logic.

(** ** Frames

    [respects R m]: however [m] ends, its final state is related to its initial
    one by [R].  For a preorder [R] this is closed under every combinator, so
    that what a method leaves alone is proved by walking over its code: the
    database [frame] holds the rules, and [frame] is the tactic. *)
Section frames.
Context {W C : Type} (R : sys W C -> sys W C -> Prop).

Definition respects {A} (m : GM W C A) : Prop :=
  forall s r s', m s = Some (r, s') -> R s s'.

Lemma respects_triple {A} (m : GM W C A) (P : sys W C -> Prop) :
  respects m -> (forall s s', P s -> R s s' -> P s') -> triple P m (fun _ s => P s).
Proof. intros Hm HP s r s' Hs E. eapply HP; [exact Hs|]. by eapply Hm. Qed.

Lemma respects_modify f :
  (forall s, R s (Sys (f (ctl s)) (world s) (trace s))) -> respects (modify f).
Proof. intros H s r s' [= <- <-]. apply H. Qed.

Lemma respects_call {A} (op : W -> outcome A * W) ev :
  (forall s, R s (Sys (ctl s) (snd (op (world s))) (trace s ++ [ev (fst (op (world s)))]))) ->
  respects (call op ev).
Proof.
  intros H s r s'. specialize (H s). unfold call. destruct (op (world s)). by intros [= <- <-].
Qed.

Lemma respects_ask {A} (op : W -> A * W) ev :
  (forall s, R s (Sys (ctl s) (snd (op (world s))) (trace s ++ [ev (fst (op (world s)))]))) ->
  respects (ask op ev).
Proof.
  intros H s r s'. specialize (H s). unfold ask. destruct (op (world s)). by intros [= <- <-].
Qed.

Lemma respects_try {A} (m : GM W C A) : respects m -> respects (try m).
Proof.
  intros H s r s'. specialize (H s). unfold try.
  destruct (m s) as [[[a|e|p] s1]|]; intros [= <- <-]; by eapply H.
Qed.

Lemma respects_turns {A} : respects (@out_of_turns W C A).
Proof. intros s r s' [=]. Qed.

Context `{!PreOrder R}.

Lemma respects_ret {A} (a : A) : respects (mret a).
Proof. by intros s r s' [= <- <-]. Qed.
Lemma respects_fail {A} e : respects (@fail W C A e).
Proof. by intros s r s' [= <- <-]. Qed.
Lemma respects_throw {A} p : respects (@throw W C A p).
Proof. by intros s r s' [= <- <-]. Qed.
Lemma respects_pure {A} (o : outcome A) : respects (pure o).
Proof. by intros s r s' [= <- <-]. Qed.
Lemma respects_get : respects get.
Proof. by intros s r s' [= <- <-]. Qed.

Lemma respects_bind {A B} (m : GM W C A) (f : A -> GM W C B) :
  respects m -> (forall a, respects (f a)) -> respects (m ≫= f).
Proof.
  intros Hm Hf s r s'. specialize (Hm s). unfold mbind, GM_bind.
  destruct (m s) as [[[a|e|p] s1]|]; [| | |done].
  - intros E. etrans; [by eapply Hm|by eapply Hf].
  - intros [= <- <-]. by eapply Hm.
  - intros [= <- <-]. by eapply Hm.
Qed.

Lemma respects_deferred {A} (m : GM W C A) cleanup :
  respects m -> respects cleanup -> respects (deferred m cleanup).
Proof.
  intros Hm Hc s r s'. specialize (Hm s). unfold deferred.
  destruct (m s) as [[r1 s1]|]; [|done]. specialize (Hc s1).
  destruct (cleanup s1) as [[r2 s2]|]; [|done]. intros [= <- <-].
  etrans; [by eapply Hm|by eapply Hc].
Qed.
End frames.

Create HintDb frame.
#[export] Hint Resolve respects_try respects_turns respects_ret respects_fail respects_throw
  respects_pure respects_get respects_bind respects_deferred : frame.
#[export] Hint Extern 1 (PreOrder _) => typeclasses eauto : frame.
#[export] Hint Extern 2 (respects _ (modify _)) => apply respects_modify : frame.
#[export] Hint Extern 2 (respects _ (call _ _)) => apply respects_call : frame.
#[export] Hint Extern 2 (respects _ (ask _ _)) => apply respects_ask : frame.

(** Walks over the code of a method; what is left are the atomic steps. *)
Ltac frame :=
  repeat first
    [ progress intros
    | solve [eauto with frame nocore]
    | apply respects_bind | apply respects_deferred | apply respects_try | apply respects_modify
    | apply respects_call | apply respects_ask
    | match goal with |- respects _ (match ?x with _ => _ end) => destruct x end ].

(** ** Computations that end

    [total m]: [m] ends from every state; closed under the combinators. *)
Section total.
Context {W C : Type}.

Definition total {A} (m : GM W C A) : Prop := forall s, ends m s.

Lemma ends_bind {A B} (m : GM W C A) (f : A -> GM W C B) s :
  ends m s -> (forall a s', m s = Some (Ret a, s') -> ends (f a) s') -> ends (m ≫= f) s.
Proof.
  intros [[r s'] E] Hf. unfold ends, mbind, GM_bind in *. rewrite E.
  destruct r; [by apply Hf|by eexists..].
Qed.

Lemma total_ret {A} (a : A) : total (mret a).
Proof. by eexists. Qed.
Lemma total_fail {A} e : total (@fail W C A e).
Proof. by eexists. Qed.
Lemma total_throw {A} p : total (@throw W C A p).
Proof. by eexists. Qed.
Lemma total_pure {A} (o : outcome A) : total (pure o).
Proof. by eexists. Qed.
Lemma total_get : total get.
Proof. by eexists. Qed.
Lemma total_modify f : total (modify f).
Proof. by eexists. Qed.
Lemma total_call {A} (op : W -> outcome A * W) ev : total (call op ev).
Proof. intros s. unfold ends, call. destruct (op (world s)). by eexists. Qed.
Lemma total_ask {A} (op : W -> A * W) ev : total (ask op ev).
Proof. intros s. unfold ends, ask. destruct (op (world s)). by eexists. Qed.
Lemma total_bind {A B} (m : GM W C A) (f : A -> GM W C B) :
  total m -> (forall a, total (f a)) -> total (m ≫= f).
Proof. intros Hm Hf s. apply ends_bind; [apply Hm|]. intros a s' _. apply Hf. Qed.
Lemma total_try {A} (m : GM W C A) : total m -> total (try m).
Proof. intros Hm s. destruct (Hm s) as [[[] s'] E]; unfold ends, try; rewrite E; by eexists. Qed.
Lemma total_deferred {A} (m : GM W C A) cleanup : total m -> total cleanup -> total (deferred m cleanup).
Proof.
  intros Hm Hc s. destruct (Hm s) as [[r s'] E]. destruct (Hc s') as [[r' s''] E'].
  unfold ends, deferred. rewrite E, E'. by eexists.
Qed.
Lemma ends_deferred {A} (m : GM W C A) cleanup s :
  ends m s -> total cleanup -> ends (deferred m cleanup) s.
Proof.
  intros [[r s'] E] Hc. destruct (Hc s') as [[r' s''] E'].
  unfold ends, deferred. rewrite E, E'. by eexists.
Qed.
End total.

Create HintDb total.
#[export] Hint Resolve total_ret total_fail total_throw total_pure total_get total_modify
  total_call total_ask total_bind total_try total_deferred : total.

(** Walks over the code of a computation without waiting loops. *)
Ltac total :=
  repeat first
    [ progress intros
    | solve [eauto with total nocore]
    | apply total_bind | apply total_deferred | apply total_try
    | match goal with |- total (match ?x with _ => _ end) => destruct x end ].

(** ** Computations without panics

    [panicless m]: however [m] ends, it does not panic; closed under the
    combinators. *)
Section panicless.
Context {W C : Type}.

Definition no_panic {A} (r : outcome A) : Prop := match r with Panic _ => False | _ => True end.

Definition panicless {A} (m : GM W C A) : Prop :=
  forall s r s', m s = Some (r, s') -> no_panic r.

Lemma panicless_ret {A} (a : A) : panicless (mret a).
Proof. by intros s r s' [= <- <-]. Qed.
Lemma panicless_turns {A} : panicless (@out_of_turns W C A).
Proof. by intros s r s'. Qed.
Lemma panicless_fail {A} e : panicless (@fail W C A e).
Proof. by intros s r s' [= <- <-]. Qed.
Lemma panicless_pure {A} (o : outcome A) : no_panic o -> panicless (pure o).
Proof. by intros Ho s r s' [= <- <-]. Qed.
Lemma panicless_get : panicless get.
Proof. by intros s r s' [= <- <-]. Qed.
Lemma panicless_modify f : panicless (modify f).
Proof. by intros s r s' [= <- <-]. Qed.
Lemma panicless_call {A} (op : W -> outcome A * W) ev : (forall w, no_panic (fst (op w))) -> panicless (call op ev).
Proof. intros Ho s r s'. specialize (Ho (world s)). unfold call. destruct (op (world s)). by intros [= <- <-]. Qed.
Lemma panicless_ask {A} (op : W -> A * W) ev : panicless (ask op ev).
Proof. intros s r s'. unfold ask. destruct (op (world s)). by intros [= <- <-]. Qed.
Lemma panicless_bind {A B} (m : GM W C A) (f : A -> GM W C B) :
  panicless m -> (forall a, panicless (f a)) -> panicless (m ≫= f).
Proof.
  intros Hm Hf s r s'. specialize (Hm s). unfold mbind, GM_bind. destruct (m s) as [[[a|e|p] s1]|]; [|by intros [= <- <-]| |done].
  - apply Hf.
  - by destruct (Hm _ _ eq_refl).
Qed.
Lemma panicless_try {A} (m : GM W C A) : panicless m -> panicless (try m).
Proof.
  intros Hm s r s'. specialize (Hm s). unfold try. destruct (m s) as [[[a|e|p] s1]|]; [by intros [= <- <-]..| |done].
  by destruct (Hm _ _ eq_refl).
Qed.
Lemma panicless_deferred {A} (m : GM W C A) cleanup : panicless m -> panicless (deferred m cleanup).
Proof.
  intros Hm s r s'. specialize (Hm s). unfold deferred. destruct (m s) as [[r1 s1]|]; [|done].
  destruct (cleanup s1) as [[r2 s2]|]; [|done]. intros [= <- <-]. by eapply Hm.
Qed.
Lemma panicless_ask_bind {A B} (op : W -> A * W) ev (f : A -> GM W C B) :
  (forall w, panicless (f (fst (op w)))) -> panicless (ask op ev ≫= f).
Proof.
  intros Hf s. specialize (Hf (world s)). unfold mbind, GM_bind, ask. destruct (op (world s)) as [a w]. apply Hf.
Qed.
End panicless.

Create HintDb panicless.
#[export] Hint Resolve panicless_ret panicless_turns panicless_fail panicless_get panicless_modify panicless_ask : panicless.

(** Walks over the code of a computation; what is left are the calls of the
    system and the pure steps. *)
Ltac panicless :=
  repeat first
    [ progress intros
    | solve [eauto with panicless nocore]
    | apply panicless_bind | apply panicless_deferred | apply panicless_try | apply panicless_call
    | match goal with |- panicless (match ?x with _ => _ end) => destruct x end ].
