(* ===== verification/Config.v ===== *)
(** * src/config/config.go: the configuration

    The structures, [validate], [loadConfig] and [LoadConfigFile].  The HCL
    parser and decoder ([hcl.ParseBytes], [hcl.DecodeObject]) are arguments of
    [loadConfig]. *)

From Stdlib Require Import ZArith Lia NArith Ascii Strings.Byte.
From stdpp Require Import base numbers gmap strings list fin_maps.
From S2P Require Import Prelude GoNet OS.

Open Scope Z_scope.

Record WirelessConfig := {
  Wireless_Interface : string;
  SSID : string;
  Wireless_Password : string;
  HostapdDriver : string
}.

Record NetworkConfig := {
  InterfaceIdent : string;
  Subnet : string;
  Wireless : WirelessConfig
}.

Record DebugConfig := { Debug_DHCP : bool; Debug_Hostapd : bool }.

Record VPNOpt := {
  VPN_Name : string;
  VPN_Path : string;
  VPN_Icon : string;
  VPN_Username : string;
  VPN_Password : string
}.

Record FirewallConfig := {
  VPNBoxBlockedPorts : list Z;
  BlockedSubnets : list string
}.

Record Config := {
  Config_Name : string;
  Listener : string;
  Network : NetworkConfig;
  Debug : DebugConfig;
  VPNConfigurations : list VPNOpt;
  Firewall : FirewallConfig
}.

Definition validate (c : Config) : outcome unit :=
  if decide (Listener c = EmptyString) then
    Err (ErrorString "listener must be specified")
  else if decide (InterfaceIdent (Network c) = EmptyString) then
    Err (ErrorString "network.interface_ident must be specified")
  else if decide (Subnet (Network c) = EmptyString) then
    Err (ErrorString "network.subnet must be specified")
  else Ret tt.

Definition set_HostapdDriver (c : Config) (driver : string) : Config :=
  {| Config_Name := Config_Name c; Listener := Listener c;
     Network := {| InterfaceIdent := InterfaceIdent (Network c);
                   Subnet := Subnet (Network c);
                   Wireless := {| Wireless_Interface := Wireless_Interface (Wireless (Network c));
                                  SSID := SSID (Wireless (Network c));
                                  Wireless_Password := Wireless_Password (Wireless (Network c));
                                  HostapdDriver := driver |} |};
     Debug := Debug c; VPNConfigurations := VPNConfigurations c; Firewall := Firewall c |}.

Section load.
(** [Node] is the syntax tree of a file; [is_list] tells whether its root is an
    [*ast.ObjectList]. *)
Context {Node : Type} (ParseBytes : list byte -> outcome Node) (is_list : Node -> bool)
        (DecodeObject : Node -> outcome Config).

Definition loadConfig (data : list byte) : outcome Config :=
  astRoot ← ParseBytes data;
  if is_list astRoot then
    c ← DecodeObject astRoot;
    _ ← validate c;
    if decide (HostapdDriver (Wireless (Network c)) = EmptyString)
    then Ret (set_HostapdDriver c "nl80211")
    else Ret c
  else Err (ErrorString "schema malformed").

Definition LoadConfigFile {W C} `{OS W} (fpath : string) : GM W C Config :=
  d ← call (os_ReadFile fpath) (EvReadFile fpath);
  pure (loadConfig d).

(** A configuration the rest of the daemon may rely on. *)
Definition usable (c : Config) : Prop :=
  Listener c <> EmptyString /\ InterfaceIdent (Network c) <> EmptyString /\
  Subnet (Network c) <> EmptyString.

Lemma validate_usable c : validate c = Ret tt <-> usable c.
Proof.
  unfold validate, usable. repeat case_decide; split; try done; tauto.
Qed.

Lemma validate_total c : validate c = Ret tt \/ exists msg, validate c = Err (ErrorString msg).
Proof. unfold validate. repeat case_decide; eauto. Qed.

(** A configuration is loaded exactly when its file parses to an object list that
    decodes to a usable configuration, and then it is that configuration with the
    driver defaulted: nothing else is changed. *)
Theorem loadConfig_spec data c :
  loadConfig data = Ret c <->
  exists root c0, ParseBytes data = Ret root /\ is_list root = true /\
    DecodeObject root = Ret c0 /\ usable c0 /\
    c = (if decide (HostapdDriver (Wireless (Network c0)) = EmptyString)
         then set_HostapdDriver c0 "nl80211" else c0).
Proof.
  unfold loadConfig. split.
  - intros (root & Hp & H)%bind_Ret_inv. destruct (is_list root) eqn:Hl; [|done].
    apply bind_Ret_inv in H as (c0 & Hd & H). apply bind_Ret_inv in H as ([] & Hv & H).
    apply validate_usable in Hv. exists root, c0.
    split; [exact Hp|]. split; [exact Hl|]. split; [exact Hd|]. split; [exact Hv|].
    case_decide; by injection H as <-.
  - intros (root & c0 & -> & Hl & Hd & Hv%validate_usable & ->).
    rewrite bind_ret, Hl, Hd, bind_ret, Hv, bind_ret. by case_decide.
Qed.
End load.

Module ConfigExample.
(** The configuration the sample config.hcl of the repository describes. *)
Definition wireless (driver : string) : WirelessConfig :=
  {| Wireless_Interface := ""; SSID := ""; Wireless_Password := ""; HostapdDriver := driver |}.
Definition sample (driver : string) : Config :=
  {| Config_Name := ""; Listener := ":8080";
     Network := {| InterfaceIdent := "ops"; Subnet := "192.168.48.1/24"; Wireless := wireless driver |};
     Debug := {| Debug_DHCP := false; Debug_Hostapd := false |};
     VPNConfigurations := [];
     Firewall := {| VPNBoxBlockedPorts := []; BlockedSubnets := [] |} |}.
End ConfigExample.
