(* ===== verification/NetUtil.v ===== *)
(** * src/netctrl/netutil.go: bridges, addresses and IPv4 forwarding *)

From Stdlib Require Import ZArith Lia NArith Ascii Strings.Byte.
From stdpp Require Import base numbers gmap strings list fin_maps.
From S2P Require Import Prelude GoNet OS.

Open Scope Z_scope.

Definition ipForwardPath : string := "/proc/sys/net/ipv4/ip_forward".

Definition ErrDeviceExists : error := ErrorString "interface with that name already exists".

Section netutil.
Context {W C : Type} `{OS W}.

(** [net.InterfaceByName] *)
Definition InterfaceByName (name : string) : GM W C net.Interface :=
  call (os_InterfaceByName name) (EvInterfaceByName name).

(** [netlink.AddrAdd] on the link called [name]. *)
Definition AddrAdd (name : string) (addr : net.IPNet) : GM W C unit :=
  call (nl_AddrAdd name addr) (EvAddrAdd name addr).

Definition CreateNetBridge (devName : string) (ip : list byte) (subnet : net.IPNet)
  : GM W C net.Interface :=
  r ← try (InterfaceByName devName);
  match r with
  | inl _ => fail ErrDeviceExists
  | inr _ =>
      _ ← call (nl_LinkAdd devName) (EvLinkAdd devName);
      _ ← AddrAdd devName {| net.IPNet_IP := ip; net.IPNet_Mask := net.IPNet_Mask subnet |};
      _ ← call (nl_LinkSetUp devName) (fun _ => EvOther);
      InterfaceByName devName
  end.

Definition DeleteNetBridge (devName : string) : GM W C unit :=
  call (nl_LinkDel devName) (EvLinkDel devName).

Definition AttachNetBridge (bridge client : net.Interface) : GM W C unit :=
  bridgeLink ← call (nl_LinkByName (net.Intf_Name bridge)) (fun _ => EvOther);
  clientLink ← call (nl_LinkByName (net.Intf_Name client)) (fun _ => EvOther);
  isBridge ← ask (nl_LinkIsBridge bridgeLink) (fun _ => EvOther);
  if (isBridge : bool)
  then call (nl_LinkSetMaster clientLink bridgeLink) (fun _ => EvOther)
  else throw FailedTypeAssertion.

Definition RouteAddViaGatewayFromAddr (destination : net.IPNet) (source gateway : list byte)
  : GM W C unit :=
  call (nl_RouteAdd source destination gateway 1337) (fun _ => EvOther).

Definition SetInterfaceAddr (iName : string) (addr : net.IPNet) : GM W C unit :=
  intf ← call (nl_LinkByName iName) (fun _ => EvOther);
  AddrAdd intf addr.

Definition IPv4ForwardingEnabled : GM W C bool :=
  d ← call (os_ReadFile ipForwardPath) (EvReadFile ipForwardPath);
  if decide (length d <> 2%nat)
  then fail (ErrorString ("expected single byte read, got " +:+ strconv.Itoa (Z.of_nat (length d))))
  else b ← pure (index d 0); mret (bool_decide (b = Byte.x31)).

Definition forward_data (state : bool) : list byte :=
  if state then [Byte.x31] else [Byte.x30].

Definition IPv4EnableForwarding (state : bool) : GM W C unit :=
  call (os_WriteFile ipForwardPath (forward_data state)) (EvWriteFile ipForwardPath (forward_data state)).

(** The [if forwardingEnabled, err := ...] block of [SetVPN] and of the circuit
    breaker: switches forwarding off when it reads as on; read and write errors
    are only logged. *)
Definition DisableForwarding : GM W C unit :=
  r ← try IPv4ForwardingEnabled;
  match r with
  | inl true => _ ← try (IPv4EnableForwarding false); mret tt
  | _ => mret tt
  end.
End netutil.

(** What the kernel promises about [/proc/sys/net/ipv4/ip_forward]: a read that
    succeeds yields the switch as a digit and a newline, a write of a digit that
    succeeds sets it; one that fails leaves it as it was, and so do reads and the
    other operations the daemon performs. *)
Class Forwarding (W : Type) `{OS W} := {
  forwarding : W -> bool;
  read_forward w :
    match fst (os_ReadFile ipForwardPath w) with
    | Ret d => d = [if forwarding w then Byte.x31 else Byte.x30; Byte.x0a]
    | Err _ => True
    | Panic _ => False
    end;
  keep_read_forward w : forwarding (snd (os_ReadFile ipForwardPath w)) = forwarding w;
  write_forward b w :
    match fst (os_WriteFile ipForwardPath (forward_data b) w) with
    | Ret _ => forwarding (snd (os_WriteFile ipForwardPath (forward_data b) w)) = b
    | Err _ => forwarding (snd (os_WriteFile ipForwardPath (forward_data b) w)) = forwarding w
    | Panic _ => False
    end;
  keep_TempFile w : forwarding (snd (os_TempFile w)) = forwarding w;
  keep_FileWrite f d w : forwarding (snd (os_FileWrite f d w)) = forwarding w;
  keep_FileClose f w : forwarding (snd (os_FileClose f w)) = forwarding w;
  keep_Remove f w : forwarding (snd (os_Remove f w)) = forwarding w;
  keep_Start a w : forwarding (snd (os_Start a w)) = forwarding w;
  keep_FindProcess p w : forwarding (snd (os_FindProcess p w)) = forwarding w;
  keep_Signal0 p w : forwarding (snd (os_Signal0 p w)) = forwarding w;
  keep_Kill p w : forwarding (snd (os_Kill p w)) = forwarding w;
  keep_Now w : forwarding (snd (os_Now w)) = forwarding w;
  keep_Select w : forwarding (snd (os_Select w)) = forwarding w;
  keep_InterfaceByName n w : forwarding (snd (os_InterfaceByName n w)) = forwarding w;
  keep_Addrs i w : forwarding (snd (os_Addrs i w)) = forwarding w;
  keep_RouteGet ip w : forwarding (snd (nl_RouteGet ip w)) = forwarding w;
  keep_LinkDel n w : forwarding (snd (nl_LinkDel n w)) = forwarding w;
  keep_Run a w : forwarding (snd (os_Run a w)) = forwarding w;
  keep_Open p w : forwarding (snd (os_Open p w)) = forwarding w;
  keep_Flock p w : forwarding (snd (os_Flock p w)) = forwarding w;
  keep_Close p w : forwarding (snd (os_Close p w)) = forwarding w;
  keep_Rand n w : forwarding (snd (os_Rand n w)) = forwarding w;
  keep_DialUnix l r w : forwarding (snd (os_DialUnix l r w)) = forwarding w;
  keep_ConnWrite d w : forwarding (snd (os_ConnWrite d w)) = forwarding w;
  keep_ConnRead n w : forwarding (snd (os_ConnRead n w)) = forwarding w;
  keep_ConnClose w : forwarding (snd (os_ConnClose w)) = forwarding w;
  keep_LookPath p w : forwarding (snd (os_LookPath p w)) = forwarding w;
  keep_LinkAdd n w : forwarding (snd (nl_LinkAdd n w)) = forwarding w;
  keep_LinkSetUp n w : forwarding (snd (nl_LinkSetUp n w)) = forwarding w;
  keep_LinkByName n w : forwarding (snd (nl_LinkByName n w)) = forwarding w;
  keep_AddrAdd n a w : forwarding (snd (nl_AddrAdd n a w)) = forwarding w
}.
