(* ===== verification/Iptables.v ===== *)
(** * github.com/coreos/go-iptables/iptables

    [iptables.go] and [lock.go]: the wrapper runs the [iptables] binary.  Running
    a command and the calls on the lock file are operations of [OS]; a command
    that exits with a non-zero status is the error [ExitError]. *)

From Stdlib Require Import ZArith Lia NArith Ascii Strings.Byte.
From stdpp Require Import base numbers gmap strings list fin_maps.
From S2P Require Import Prelude GoNet OS.

Open Scope Z_scope.

Inductive Protocol := ProtocolIPv4 | ProtocolIPv6.
#[export] Instance Protocol_eq_dec : EqDecision Protocol.
Proof. solve_decision. Defined.

Record IPTables := {
  path : string;
  proto : Protocol;
  hasCheck : bool;
  hasWait : bool
}.

Definition xtablesLockFilePath : string := "/var/run/xtables.lock".

(** [getIptablesCommand] *)
Definition getIptablesCommand (p : Protocol) : string :=
  if decide (p = ProtocolIPv6) then "ip6tables" else "iptables".

(** The version tests: [-C] came with 1.4.11, [--wait] with 1.4.20. *)
Definition iptablesHasCheckCommand (v1 v2 v3 : Z) : bool :=
  if decide (1 < v1) then true
  else if decide (v1 = 1 /\ 4 < v2) then true
  else if decide (v1 = 1 /\ v2 = 4 /\ 11 <= v3) then true
  else false.

Definition iptablesHasWaitCommand (v1 v2 v3 : Z) : bool :=
  if decide (1 < v1) then true
  else if decide (v1 = 1 /\ 4 < v2) then true
  else if decide (v1 = 1 /\ v2 = 4 /\ 20 <= v3) then true
  else false.

(** The longest run of digits at the start of a string, and what follows it. *)
Fixpoint span_digits (s : string) : string * string :=
  match s with
  | String c r =>
      if strconv.is_digit c then let '(d, t) := span_digits r in (String c d, t)
      else (EmptyString, s)
  | EmptyString => (EmptyString, EmptyString)
  end.

(** The regular expression [v([0-9]+)\.([0-9]+)\.([0-9]+)] anchored here: the
    three groups. *)
Definition match_version (s : string) : option (string * string * string) :=
  match s with
  | String "v" s =>
      match span_digits s with
      | (String _ _ as d1, String "." s) =>
          match span_digits s with
          | (String _ _ as d2, String "." s) =>
              match span_digits s with
              | (String _ _ as d3, _) => Some (d1, d2, d3)
              | _ => None
              end
          | _ => None
          end
      | _ => None
      end
  | _ => None
  end.

(** [FindStringSubmatch]: the leftmost match. *)
Fixpoint find_version (s : string) : option (string * string * string) :=
  match match_version s with
  | Some m => Some m
  | None => match s with
            | EmptyString => None
            | String _ r => find_version r
            end
  end.

Section iptables.
(** [w] is the width of the platform's [int]. *)
Context {W C : Type} `{OS W} (w : Z).

Definition atoi_err (s : string) : outcome Z :=
  match strconv.Atoi w s with
  | (v, true) => Ret v
  | (_, false) => Err (ErrorString ("strconv.Atoi: parsing " +:+ s))
  end.

Definition extractIptablesVersion (str : string) : outcome (Z * Z * Z) :=
  match find_version str with
  | None => Err (ErrorString ("no iptables version found in string: " +:+ str))
  | Some (d1, d2, d3) =>
      v1 ← atoi_err d1; v2 ← atoi_err d2; v3 ← atoi_err d3; Ret (v1, v2, v3)
  end.

Definition run_command (args : list string) : GM W C string := call (os_Run args) (EvRun args).

(** [getIptablesVersionString] *)
Definition getIptablesVersionString (p : string) : GM W C string := run_command [p; "--version"].

Definition getIptablesCommandSupport (p : string) : GM W C (bool * bool) :=
  vstring ← getIptablesVersionString p;
  v ← pure (extractIptablesVersion vstring);
  let '(v1, v2, v3) := v in
  mret (iptablesHasCheckCommand v1 v2 v3, iptablesHasWaitCommand v1 v2 v3).

Definition NewWithProtocol (p : Protocol) : GM W C IPTables :=
  pth ← call (os_LookPath (getIptablesCommand p)) (fun _ => EvOther);
  r ← try (getIptablesCommandSupport pth);
  match r with
  | inr _ => fail (ErrorString "error checking iptables version")
  | inl (chk, wait) => mret {| path := pth; proto := p; hasCheck := chk; hasWait := wait |}
  end.

Definition New : GM W C IPTables := NewWithProtocol ProtocolIPv4.

(** [newXtablesFileLock] *)
Definition newXtablesFileLock : GM W C Z :=
  call (os_Open xtablesLockFilePath) (fun _ => EvOther).

(** [tryLock] followed by the deferred [Unlock]: the descriptor to close when the
    lock is held, [None] for the no-op unlocker of a lock another process holds.
    The mutex of the lock is that of a fresh value, never contended. *)
Definition tryLock (fd : Z) : GM W C (option Z) :=
  r ← ask (os_Flock fd) (fun _ => EvOther);
  match r with
  | FlockHeld => mret (Some fd)
  | FlockWouldBlock => mret None
  | FlockFailed e => fail e
  end.

Definition Unlock (l : option Z) : GM W C unit :=
  match l with
  | Some fd => call (os_Close fd) (fun _ => EvOther)
  | None => mret tt
  end.

(** [runWithOutput]: the standard output of the command. *)
Definition runWithOutput (ipt : IPTables) (args : list string) : GM W C string :=
  let args := path ipt :: args in
  if hasWait ipt then run_command (args ++ ["--wait"])
  else
    fmu ← newXtablesFileLock;
    ul ← tryLock fmu;
    deferred (run_command args) (Unlock ul).

Definition run (ipt : IPTables) (args : list string) : GM W C unit :=
  _ ← runWithOutput ipt args; mret tt.

(** [Exists] for iptables without [-C]: the rule as text in the listing of the
    whole table. *)
Definition existsForOldIptables (ipt : IPTables) (table chain : string) (rulespec : list string)
  : GM W C bool :=
  let rs := strings.Join " " (["-A"; chain] ++ rulespec) in
  out ← runWithOutput ipt ["-t"; table; "-S"];
  mret (strings.Contains out rs).

Definition Exists (ipt : IPTables) (table chain : string) (rulespec : list string) : GM W C bool :=
  if negb (hasCheck ipt) then existsForOldIptables ipt table chain rulespec
  else
    r ← try (run ipt (["-t"; table; "-C"; chain] ++ rulespec));
    match r with
    | inl _ => mret true
    | inr (ExitError status msg) =>
        if decide (status = 1) then mret false else fail (ExitError status msg)
    | inr e => fail e
    end.

Definition Insert (ipt : IPTables) (table chain : string) (pos : Z) (rulespec : list string)
  : GM W C unit :=
  run ipt (["-t"; table; "-I"; chain; strconv.Itoa pos] ++ rulespec).

Definition Append (ipt : IPTables) (table chain : string) (rulespec : list string) : GM W C unit :=
  run ipt (["-t"; table; "-A"; chain] ++ rulespec).

Definition AppendUnique (ipt : IPTables) (table chain : string) (rulespec : list string)
  : GM W C unit :=
  ex ← Exists ipt table chain rulespec;
  if negb ex then Append ipt table chain rulespec else mret tt.

Definition Delete (ipt : IPTables) (table chain : string) (rulespec : list string) : GM W C unit :=
  run ipt (["-t"; table; "-D"; chain] ++ rulespec).

(** [executeList]: the lines of the output, without the empty one after the last
    newline. *)
Definition drop_last_empty (l : list string) : list string :=
  match last l with
  | Some EmptyString => take (length l - 1) l
  | _ => l
  end.
Definition newline : ascii := "010"%char.

Definition executeList (ipt : IPTables) (args : list string) : GM W C (list string) :=
  out ← runWithOutput ipt args;
  mret (drop_last_empty (strings.Split newline out)).

Definition List (ipt : IPTables) (table chain : string) : GM W C (list string) :=
  executeList ipt ["-t"; table; "-S"; chain].

Definition ListWithCounters (ipt : IPTables) (table chain : string) : GM W C (list string) :=
  executeList ipt ["-t"; table; "-v"; "-S"; chain].

Definition NewChain (ipt : IPTables) (table chain : string) : GM W C unit :=
  run ipt ["-t"; table; "-N"; chain].

Definition ClearChain (ipt : IPTables) (table chain : string) : GM W C unit :=
  r ← try (NewChain ipt table chain);
  match r with
  | inl _ => mret tt
  | inr (ExitError status msg) =>
      if decide (status = 1) then run ipt ["-t"; table; "-F"; chain]
      else fail (ExitError status msg)
  | inr e => fail e
  end.

Definition RenameChain (ipt : IPTables) (table oldChain newChain : string) : GM W C unit :=
  run ipt ["-t"; table; "-E"; oldChain; newChain].

Definition DeleteChain (ipt : IPTables) (table chain : string) : GM W C unit :=
  run ipt ["-t"; table; "-X"; chain].

Definition ChangePolicy (ipt : IPTables) (table chain target : string) : GM W C unit :=
  run ipt ["-t"; table; "-P"; chain; target].
End iptables.

(** ** What the program does to the rules

    The rules of a chain are the specifications they were appended with, in
    order.  [-C] tells whether a rule is there by its exit status, [-A] appends
    and [-D] removes the first match; a command that fails for another reason
    changes nothing. *)

Fixpoint remove_first (r : list string) (l : list (list string)) : list (list string) :=
  match l with
  | [] => []
  | x :: l => if decide (x = r) then l else x :: remove_first r l
  end.

Class RuleTable (W : Type) `{OS W} := {
  rules : W -> string * string -> list (list string);
  run_check p t c r wd :
    let '(res, wd') := os_Run (p :: (["-t"; t; "-C"; c] ++ r) ++ ["--wait"]) wd in
    rules wd' = rules wd /\
    match res with
    | Ret _ => r ∈ rules wd (t, c)
    | Err (ExitError 1 _) => r ∉ rules wd (t, c)
    | Err _ => True
    | Panic _ => False
    end;
  run_append p t c r wd :
    let '(res, wd') := os_Run (p :: (["-t"; t; "-A"; c] ++ r) ++ ["--wait"]) wd in
    match res with
    | Ret _ => rules wd' (t, c) = rules wd (t, c) ++ [r] /\
               forall k, k <> (t, c) -> rules wd' k = rules wd k
    | Err _ => rules wd' = rules wd
    | Panic _ => False
    end;
  run_delete p t c r wd :
    let '(res, wd') := os_Run (p :: (["-t"; t; "-D"; c] ++ r) ++ ["--wait"]) wd in
    match res with
    | Ret _ => rules wd' (t, c) = remove_first r (rules wd (t, c)) /\
               forall k, k <> (t, c) -> rules wd' k = rules wd k
    | Err _ => rules wd' = rules wd
    | Panic _ => False
    end
}.

(** The abstract operation: append a rule unless it is there. *)
Definition add_unique (l : list (list string)) (r : list string) : list (list string) :=
  if decide (r ∈ l) then l else l ++ [r].

(** The rules of one chain become [l], those of the others stay. *)
Definition chain_becomes {W} `{RuleTable W} (wd wd' : W) (k : string * string)
    (l : list (list string)) : Prop :=
  rules wd' k = l /\ forall k', k' <> k -> rules wd' k' = rules wd k'.

Section rules.
Context {W C : Type} `{RuleTable W} (t : IPTables) (Hw : hasWait t = true) (Hc : hasCheck t = true).
Implicit Types s : sys W C.

Lemma run_wait args s :
  run t args s =
  let '(r, wd) := os_Run (path t :: args ++ ["--wait"]) (world s) in
  Some (match r with Ret _ => Ret tt | Err e => Err e | Panic p => Panic p end,
        Sys (ctl s) wd (trace s ++ [EvRun (path t :: args ++ ["--wait"]) r])).
Proof.
  unfold run, runWithOutput, run_command, call, mbind, GM_bind. rewrite Hw. simpl.
  destruct (os_Run _ _) as [[] wd]; reflexivity.
Qed.

Lemma Exists_spec table chain r s :
  exists wd tr res, Exists t table chain r s = Some (res, Sys (ctl s) wd tr) /\
    rules wd = rules (world s) /\
    match res with
    | Ret b => b = bool_decide (r ∈ rules (world s) (table, chain))
    | Err _ => True
    | Panic _ => False
    end.
Proof.
  unfold Exists. rewrite Hc. unfold mbind, GM_bind, try. cbv beta iota delta [negb]. rewrite run_wait.
  pose proof (run_check (path t) table chain r (world s)) as Hr.
  destruct (os_Run _ _) as [[a|e|p] wd]; destruct Hr as [Hk Hr]; [| |done].
  - eexists _, _, _. split; [reflexivity|]. split; [done|]. by rewrite bool_decide_true.
  - destruct e as [m|b m|st m| |]; try (eexists _, _, _; split; [reflexivity|by split]).
    case_decide as Hst.
    + subst. eexists _, _, _. split; [reflexivity|]. split; [done|]. by rewrite bool_decide_false.
    + eexists _, _, _. by split; [reflexivity|].
Qed.

Lemma AppendUnique_lemma table chain r s :
  exists wd tr res, AppendUnique t table chain r s = Some (res, Sys (ctl s) wd tr) /\
    match res with
    | Ret _ => chain_becomes (world s) wd (table, chain)
                 (add_unique (rules (world s) (table, chain)) r)
    | Err _ => rules wd = rules (world s)
    | Panic _ => False
    end.
Proof.
  unfold AppendUnique, mbind, GM_bind.
  destruct (Exists_spec table chain r s) as (wd & tr & res & -> & Hk & Hres).
  destruct res as [b|e|p]; [|by eexists _, _, _|done]. subst b. unfold chain_becomes, add_unique.
  destruct (decide (r ∈ rules (world s) (table, chain))) as [Hin|Hin].
  - rewrite bool_decide_true by done. eexists _, _, _. split; [reflexivity|]. by rewrite Hk.
  - rewrite bool_decide_false by done. cbv beta iota delta [negb Append]. rewrite run_wait.
    simpl world. pose proof (run_append (path t) table chain r wd) as Hr.
    destruct (os_Run _ _) as [[a|e|p] wd']; [| |done].
    + eexists _, _, _. split; [reflexivity|]. by rewrite <- Hk.
    + eexists _, _, _. split; [reflexivity|]. by rewrite Hr.
Qed.

Lemma Delete_lemma table chain r s :
  exists wd tr res, Delete t table chain r s = Some (res, Sys (ctl s) wd tr) /\
    match res with
    | Ret _ => chain_becomes (world s) wd (table, chain)
                 (remove_first r (rules (world s) (table, chain)))
    | Err _ => rules wd = rules (world s)
    | Panic _ => False
    end.
Proof.
  unfold Delete. rewrite run_wait. pose proof (run_delete (path t) table chain r (world s)) as Hr.
  destruct (os_Run _ _) as [[a|e|p] wd']; [| |done]; by eexists _, _, _.
Qed.
End rules.

Lemma remove_first_add_unique l r : r ∉ l -> remove_first r (add_unique l r) = l.
Proof.
  intros Hr. unfold add_unique. rewrite decide_False by done.
  induction l as [|x l IH]; simpl; [by rewrite decide_True|].
  apply not_elem_of_cons in Hr as [Hx Hr]. rewrite decide_False by done. by rewrite IH.
Qed.

(** ** The version of the program *)

(** The text does not go on with a digit. *)
Definition no_digit_first (s : string) : Prop :=
  match s with String c _ => strconv.is_digit c = false | EmptyString => True end.

Lemma span_digits_app d t :
  strings.all_chars strconv.is_digit d = true -> no_digit_first t -> span_digits (d +:+ t) = (d, t).
Proof.
  induction d as [|c d IH]; simpl.
  - intros _. destruct t as [|c t]; simpl; [done|]. by intros ->.
  - intros [Hc Hd]%andb_prop Ht. by rewrite Hc, IH.
Qed.

Lemma span_Itoa n t :
  0 <= n -> no_digit_first t ->
  exists c r, strconv.Itoa n = String c r /\ span_digits (strconv.Itoa n +:+ t) = (String c r, t).
Proof.
  intros Hn Ht. pose proof (span_digits_app _ t (strconv.Itoa_digits n Hn) Ht) as Hs.
  destruct (strconv.Itoa n) as [|c r] eqn:E; [|eauto].
  exfalso. destruct n as [|p|p]; [done| |lia].
  apply (f_equal (strconv.Atoi (Z.log2 (Zpos p) + 2))) in E.
  rewrite strconv.Atoi_Itoa in E; [done|].
  split; [lia|]. replace (Z.log2 (Z.pos p) + 2 - 1) with (Z.succ (Z.log2 (Z.pos p))) by lia.
  apply Z.log2_spec. lia.
Qed.

(** What [iptables --version] prints. *)
Definition version_string (a b c : Z) (rest : string) : string :=
  "iptables v" +:+ (strconv.Itoa a +:+ (String "." (strconv.Itoa b +:+
    (String "." (strconv.Itoa c +:+ rest))))).

Lemma find_version_skip c s :
  match_version (String c s) = None -> find_version (String c s) = find_version s.
Proof. intros H. cbn [find_version]. by rewrite H. Qed.

Lemma find_version_string a b c rest :
  0 <= a -> 0 <= b -> 0 <= c -> no_digit_first rest ->
  find_version (version_string a b c rest) = Some (strconv.Itoa a, strconv.Itoa b, strconv.Itoa c).
Proof.
  intros Ha Hb Hc Hr.
  destruct (span_Itoa c rest Hc Hr) as (c3 & r3 & E3 & S3).
  destruct (span_Itoa b (String "." (strconv.Itoa c +:+ rest)) Hb eq_refl) as (c2 & r2 & E2 & S2).
  destruct (span_Itoa a (String "." (strconv.Itoa b +:+ String "." (strconv.Itoa c +:+ rest))) Ha eq_refl)
    as (c1 & r1 & E1 & S1).
  assert (Hm : match_version (String "v" (strconv.Itoa a +:+ (String "." (strconv.Itoa b +:+
    (String "." (strconv.Itoa c +:+ rest)))))) = Some (strconv.Itoa a, strconv.Itoa b, strconv.Itoa c)).
  { unfold match_version. rewrite S1, S2, S3, E1, E2, E3. reflexivity. }
  revert Hm. unfold version_string. generalize (strconv.Itoa a +:+ (String "." (strconv.Itoa b +:+
    (String "." (strconv.Itoa c +:+ rest))))). intros t Hm.
  change ("iptables v" +:+ t) with (String "i" (String "p" (String "t" (String "a" (String "b"
    (String "l" (String "e" (String "s" (String " " (String "v" t)))))))))).
  do 9 (rewrite find_version_skip by reflexivity). cbn [find_version]. by rewrite Hm.
Qed.

(** Versions in order. *)
Definition version_le (u v : Z * Z * Z) : Prop :=
  let '(a, b, c) := u in let '(a', b', c') := v in
  a < a' \/ (a = a' /\ (b < b' \/ (b = b' /\ c <= c'))).

(** The wrapper reads the version off the banner of [iptables --version], and uses
    [-C] from 1.4.11 and [--wait] from 1.4.20 on. *)
Theorem command_support w a b c rest :
  0 <= a < 2 ^ (w - 1) -> 0 <= b < 2 ^ (w - 1) -> 0 <= c < 2 ^ (w - 1) -> no_digit_first rest ->
  extractIptablesVersion w (version_string a b c rest) = Ret (a, b, c) /\
  (iptablesHasCheckCommand a b c = true <-> version_le (1, 4, 11) (a, b, c)) /\
  (iptablesHasWaitCommand a b c = true <-> version_le (1, 4, 20) (a, b, c)).
Proof.
  intros Ha Hb Hc Hr. split.
  - unfold extractIptablesVersion, atoi_err. rewrite find_version_string by (done || lia).
    by rewrite !strconv.Atoi_Itoa by done.
  - unfold iptablesHasCheckCommand, iptablesHasWaitCommand, version_le.
    split; repeat case_decide; split; intros; (done || lia).
Qed.

Lemma command_support_witness :
  extractIptablesVersion 64 (version_string 1 6 1 " (nf_tables)") = Ret (1, 6, 1).
Proof.
  apply (command_support 64 1 6 1 " (nf_tables)"); try (vm_compute; split; [discriminate|reflexivity]).
  reflexivity.
Defined.
