(* ===== verification/Hostapd.v ===== *)
(** * src/netctrl/hostapd: the access point's configuration and status

    [config.go] renders hostapd's configuration file with [html/template];
    [socket.go] queries the running process over its control socket and parses
    the [key=value] lines of its answer. *)

From Stdlib Require Import ZArith Lia NArith Ascii Strings.Byte.
From stdpp Require Import base numbers gmap strings list fin_maps.
From S2P Require Import Prelude GoNet OS Config.

Open Scope Z_scope.

(** ** html/template *)

(** What the template engine substitutes for a character of a string in text
    context ([htmlReplacementTable]); every other byte is copied. *)
Definition html_replacement (c : ascii) : string :=
  if decide (c = "000"%char) then String "239" (String "191" (String "189" EmptyString))
  else if decide (c = "034"%char) then "&#34;"
  else if decide (c = "&"%char) then "&amp;"
  else if decide (c = "'"%char) then "&#39;"
  else if decide (c = "+"%char) then "&#43;"
  else if decide (c = "<"%char) then "&lt;"
  else if decide (c = ">"%char) then "&gt;"
  else String c EmptyString.

Fixpoint htmlescaper (s : string) : string :=
  match s with
  | EmptyString => EmptyString
  | String c r => html_replacement c +:+ htmlescaper r
  end.

(** ** config.go *)

Definition nl : string := String "010" EmptyString.

(** The lines of [baseConfigTmpl], with the five fields of its data. *)
Definition baseConfigTmpl (wlan driver ssid passphrase bridge : string) : list string :=
  [""; "interface=" +:+ wlan; "driver=" +:+ driver; ""; "ssid=" +:+ ssid; "hw_mode=g";
   "channel=7"; "wmm_enabled=0"; "macaddr_acl=0"; "auth_algs=1"; "ignore_broadcast_ssid=0";
   "wpa=2"; "wpa_passphrase=" +:+ passphrase; "wpa_key_mgmt=WPA-PSK"; "wpa_pairwise=TKIP";
   "rsn_pairwise=CCMP"; ""; "bridge=" +:+ bridge; "ctrl_interface=/var/run/hostapd"].

Definition GenerateConfig (c : Config) : outcome string :=
  let w := Wireless (Network c) in
  Ret (strings.Join nl
    (baseConfigTmpl (htmlescaper (Wireless_Interface w)) (htmlescaper (HostapdDriver w))
       (htmlescaper (SSID w)) (htmlescaper (Wireless_Password w))
       (htmlescaper ("br" +:+ InterfaceIdent (Network c))))).

(** ** socket.go *)

Definition maxResponseSize : nat := 4096.

Record APStatus := {
  State : string;
  Frequency : Z;
  Channel : Z;
  Stations : Z
}.

(** One line of the answer: skipped unless it has an [=] after a non-empty key. *)
Definition parse_line (line : string) : option (string * string) :=
  match strings.IndexByte "=" line with
  | Some (S i) => Some (strings.prefix_to (S i) line, strings.suffix_from (S (S i)) line)
  | _ => None
  end.

(** The [for _, line := range strings.Split(string(raw), "\n")] loop. *)
Definition parse_lines (raw : string) : list (string * string) :=
  omap parse_line (strings.Split "010" raw).

Definition status_set (raw : string) : gmap string string :=
  foldl (fun m kv => <[fst kv := snd kv]> m) ∅ (parse_lines raw).

Section hostapd.
(** [w] is the width of the platform's [int]. *)
Context {W C : Type} `{OS W} (w : Z).

Definition atoiAlways (num : string) : Z := fst (strconv.Atoi w num).

(** The value of a key of a Go map of strings. *)
Definition get_key (m : gmap string string) (k : string) : string := default "" (m !! k).

Definition parse_status (raw : string) : APStatus :=
  let set := status_set raw in
  {| State := get_key set "state"; Frequency := atoiAlways (get_key set "freq");
     Channel := atoiAlways (get_key set "channel");
     Stations := atoiAlways (get_key set "num_sta[0]") |}.

Definition letterRunes : string := "abcdefghijklmnopqrstuvwxyzABCDEFGHIJKLMNOPQRSTUVWXYZ".

Fixpoint rand_letters (n : nat) : GM W C string :=
  match n with
  | O => mret EmptyString
  | S n =>
      k ← ask (os_Rand 52) (fun _ => EvOther);
      c ← pure (match String.get (Z.to_nat k) letterRunes with
                | Some c => Ret c
                | None => Panic IndexOutOfRange
                end);
      r ← rand_letters n;
      mret (String c r)
  end.

Definition randStringFname : GM W C string :=
  b ← rand_letters 12; mret ("/tmp/rnd-s-" +:+ b).

(** [Query]: an error of the write returns the error variable of the dial, which
    is nil, so the caller sees an empty answer. *)
Definition Query (sock command : string) : GM W C (list byte) :=
  lf ← randStringFname;
  deferred
    (_ ← call (os_DialUnix lf sock) (fun _ => EvOther);
     deferred
       (r ← try (call (os_ConnWrite (String.list_byte_of_string command)) (fun _ => EvOther));
        match r with
        | inr _ => mret []
        | inl _ => call (os_ConnRead maxResponseSize) (fun _ => EvOther)
        end)
       (call os_ConnClose (fun _ => EvOther)))
    (call (os_Remove lf) (fun _ => EvRemove lf)).

Definition QueryStatus (sock : string) : GM W C APStatus :=
  raw ← Query sock "STATUS";
  mret (parse_status (String.string_of_list_byte raw)).
End hostapd.

(** ** Lines of text *)

Definition no_newline (s : string) : Prop :=
  strings.all_chars (fun c => bool_decide (c <> "010"%char)) s = true.

Lemma Split_no_newline s : no_newline s -> strings.Split "010" s = [s].
Proof.
  unfold no_newline. induction s as [|c s IH]; [done|]. simpl.
  rewrite andb_true_iff, bool_decide_eq_true. intros [Hc Hs].
  rewrite decide_False by exact Hc. by rewrite IH.
Qed.

Lemma Split_cons s rest :
  no_newline s -> strings.Split "010" (s +:+ String "010" rest) = s :: strings.Split "010" rest.
Proof.
  unfold no_newline. induction s as [|c s IH]; simpl; [done|].
  rewrite andb_true_iff, bool_decide_eq_true. intros [Hc Hs].
  rewrite decide_False by exact Hc. by rewrite IH.
Qed.

(** Joining lines and splitting the text gives the lines back. *)
Lemma Split_Join lines :
  lines <> [] -> Forall no_newline lines -> strings.Split "010" (strings.Join nl lines) = lines.
Proof.
  intros Hne H. induction H as [|l lines Hl Hlines IH]; [done|].
  destruct lines as [|l' lines]; [by apply Split_no_newline|].
  change (strings.Join nl (l :: l' :: lines))
    with (l +:+ String "010" (strings.Join nl (l' :: lines))).
  rewrite Split_cons by exact Hl. by rewrite IH.
Qed.

Definition valid_key (k : string) : Prop :=
  k <> EmptyString /\ strings.all_chars (fun c => bool_decide (c <> "="%char)) k = true.

Lemma parse_line_kv k v : valid_key k -> parse_line (k +:+ String "=" v) = Some (k, v).
Proof.
  intros [Hne Hk]. unfold parse_line. rewrite strings.IndexByte_app by exact Hk.
  destruct k as [|c k]; [done|]. cbn [String.length].
  change (S (String.length k)) with (String.length (String c k)).
  by rewrite strings.prefix_to_app, strings.suffix_from_sep.
Qed.

(** The text of a status: one [key=value] line per entry. *)
Definition render (kvs : list (string * string)) : string :=
  strings.Join nl ((fun kv => fst kv +:+ String "=" (snd kv)) <$> kvs).

Definition valid_entry (kv : string * string) : Prop :=
  valid_key (fst kv) /\ no_newline (fst kv) /\ no_newline (snd kv).

Lemma no_newline_app s t : no_newline s -> no_newline t -> no_newline (s +:+ t).
Proof. unfold no_newline. intros Hs Ht. by rewrite strings.all_chars_app, Hs, Ht. Qed.

Lemma no_newline_kv k v : no_newline k -> no_newline v -> no_newline (k +:+ String "=" v).
Proof. intros Hk Hv. apply no_newline_app; [exact Hk|]. exact Hv. Qed.

Lemma parse_lines_render kvs : kvs <> [] -> Forall valid_entry kvs -> parse_lines (render kvs) = kvs.
Proof.
  intros Hne H. unfold parse_lines, render. rewrite Split_Join.
  - clear Hne. induction H as [|[k v] kvs (Hk & Hn1 & Hn2) Hkvs IH]; [done|].
    rewrite fmap_cons. cbn [omap list_omap fst snd] in *. rewrite parse_line_kv by exact Hk.
    by rewrite IH.
  - by destruct kvs.
  - apply Forall_fmap. eapply Forall_impl; [exact H|]. intros [k v] (_ & Hk & Hv).
    by apply no_newline_kv.
Qed.

(** ** What hostapd is told *)

(** Characters the template engine copies. *)
Definition plain (c : ascii) : bool := bool_decide (html_replacement c = String c EmptyString).

Lemma html_replacement_length c :
  if plain c then String.length (html_replacement c) = 1%nat
  else (1 < String.length (html_replacement c))%nat.
Proof.
  unfold plain. case_bool_decide as E; [by rewrite E|]. revert E. unfold html_replacement.
  repeat case_decide; simpl; try lia; done.
Qed.

Lemma htmlescaper_length s :
  (String.length s <= String.length (htmlescaper s))%nat /\
  (strings.all_chars plain s = false -> (String.length s < String.length (htmlescaper s))%nat).
Proof.
  induction s as [|c s [IH1 IH2]]; [done|]. simpl. rewrite strings.length_app.
  pose proof (html_replacement_length c). destruct (plain c); simpl; split; try lia.
  intros Hs. specialize (IH2 Hs). lia.
Qed.

Lemma htmlescaper_plain s : strings.all_chars plain s = true -> htmlescaper s = s.
Proof.
  induction s as [|c s IH]; [done|]. simpl. rewrite andb_true_iff. intros [Hc Hs].
  unfold plain in Hc. apply bool_decide_eq_true in Hc. rewrite Hc, IH by exact Hs. done.
Qed.

(** A setting reaches hostapd unchanged exactly when it has none of the
    characters HTML escaping rewrites: a passphrase with an ampersand, a quote, a
    plus or an angle bracket is written as a different passphrase. *)
Theorem htmlescaper_id_iff s : htmlescaper s = s <-> strings.all_chars plain s = true.
Proof.
  split; [|apply htmlescaper_plain]. intros H.
  destruct (strings.all_chars plain s) eqn:E; [done|].
  destruct (htmlescaper_length s) as [_ Hlt]. specialize (Hlt E). rewrite H in Hlt. lia.
Qed.

(** A setting that is written to the file as it is and stays on its line. *)
Definition clean (s : string) : Prop := strings.all_chars plain s = true /\ no_newline s.

Lemma clean_app s t : clean s -> clean t -> clean (s +:+ t).
Proof.
  intros [Hs1 Hs2] [Ht1 Ht2]. split; [by rewrite strings.all_chars_app, Hs1, Ht1|].
  by apply no_newline_app.
Qed.

(** The file hostapd is started with, read back line by line, sets exactly the
    interface, driver, network name, passphrase and bridge of the configuration,
    and the fixed WPA2 settings. *)
Theorem GenerateConfig_readback c :
  let w := Wireless (Network c) in
  clean (Wireless_Interface w) -> clean (HostapdDriver w) -> clean (SSID w) ->
  clean (Wireless_Password w) -> clean (InterfaceIdent (Network c)) ->
  exists text, GenerateConfig c = Ret text /\
    parse_lines text =
      [("interface", Wireless_Interface w); ("driver", HostapdDriver w); ("ssid", SSID w);
       ("hw_mode", "g"); ("channel", "7"); ("wmm_enabled", "0"); ("macaddr_acl", "0");
       ("auth_algs", "1"); ("ignore_broadcast_ssid", "0"); ("wpa", "2");
       ("wpa_passphrase", Wireless_Password w); ("wpa_key_mgmt", "WPA-PSK");
       ("wpa_pairwise", "TKIP"); ("rsn_pairwise", "CCMP");
       ("bridge", "br" +:+ InterfaceIdent (Network c));
       ("ctrl_interface", "/var/run/hostapd")].
Proof.
  intros w Hi Hd Hs Hp Hb.
  assert (Hbr : clean ("br" +:+ InterfaceIdent (Network c))) by (by apply clean_app).
  eexists. split; [reflexivity|]. fold w.
  rewrite !htmlescaper_plain by (apply Hi || apply Hd || apply Hs || apply Hp || apply Hbr).
  unfold parse_lines. rewrite Split_Join; [|done|].
  - reflexivity.
  - unfold baseConfigTmpl. repeat apply Forall_cons_2; try apply Forall_nil_2; try reflexivity;
      apply no_newline_app; try reflexivity;
      apply Hi || apply Hd || apply Hs || apply Hp || apply Hbr.
Qed.

Lemma GenerateConfig_readback_witness :
  exists text, GenerateConfig (ConfigExample.sample "nl80211") = Ret text /\
    omap (fun kv => if decide (fst kv = "bridge") then Some (snd kv) else None)
      (parse_lines text) = ["brops"].
Proof.
  destruct (GenerateConfig_readback (ConfigExample.sample "nl80211")) as (text & H1 & H2);
    [split; reflexivity..|].
  exists text. split; [exact H1|]. rewrite H2. reflexivity.
Defined.

(** ** What hostapd answers *)

Lemma status_set_lookup raw kvs k v :
  parse_lines raw = kvs -> NoDup kvs.*1 -> (k, v) ∈ kvs -> status_set raw !! k = Some v.
Proof.
  intros <-. unfold status_set. generalize (parse_lines raw). clear raw. intros kvs.
  generalize (∅ : gmap string string). induction kvs as [|[k' v'] kvs IH]; intros m Hd Hin.
  { by apply not_elem_of_nil in Hin. }
  apply NoDup_cons in Hd as [Hn Hd]. apply elem_of_cons in Hin as [[= -> ->]|Hin]; [|by apply IH].
  simpl. clear IH Hd. assert (Hm : <[k' := v']> m !! k' = Some v') by apply lookup_insert_eq.
  revert Hm. generalize (<[k' := v']> m). induction kvs as [|[k2 v2] kvs IH2]; intros m' Hm; [done|].
  apply not_elem_of_cons in Hn. destruct Hn as [Hne Hn]. simpl.
  apply IH2; [exact Hn|]. by rewrite lookup_insert_ne by done.
Qed.

(** A status whose lines have distinct keys is read back: the state as text and
    the three counters as the numbers that were printed, whatever other lines
    surround them and in whatever order. *)
Theorem parse_status_render w kvs st fr chan n :
  Forall valid_entry kvs -> NoDup kvs.*1 ->
  ("state", st) ∈ kvs -> ("freq", strconv.Itoa fr) ∈ kvs ->
  ("channel", strconv.Itoa chan) ∈ kvs -> ("num_sta[0]", strconv.Itoa n) ∈ kvs ->
  0 <= fr < 2 ^ (w - 1) -> 0 <= chan < 2 ^ (w - 1) -> 0 <= n < 2 ^ (w - 1) ->
  parse_status w (render kvs) =
    {| State := st; Frequency := fr; Channel := chan; Stations := n |}.
Proof.
  intros Hv Hd Hs Hf Hc Hn Lf Lc Ln.
  assert (Hne : kvs <> []) by (intros ->; by apply not_elem_of_nil in Hs).
  pose proof (parse_lines_render kvs Hne Hv) as Hp.
  unfold parse_status, get_key, atoiAlways.
  rewrite (status_set_lookup _ kvs "state" st Hp Hd Hs).
  rewrite (status_set_lookup _ kvs "freq" _ Hp Hd Hf).
  rewrite (status_set_lookup _ kvs "channel" _ Hp Hd Hc).
  rewrite (status_set_lookup _ kvs "num_sta[0]" _ Hp Hd Hn).
  cbn [default from_option id]. by rewrite !strconv.Atoi_Itoa by done.
Qed.

Lemma parse_status_render_witness :
  parse_status 32 (render [("state", "ENABLED"); ("phy", "phy0"); ("freq", "2442");
                           ("num_sta[0]", "3"); ("channel", "7")]) =
    {| State := "ENABLED"; Frequency := 2442; Channel := 7; Stations := 3 |}.
Proof.
  apply (parse_status_render 32 [("state", "ENABLED"); ("phy", "phy0"); ("freq", "2442");
    ("num_sta[0]", "3"); ("channel", "7")]).
  - repeat apply Forall_cons_2; try apply Forall_nil_2;
      (split; [split; [discriminate|reflexivity]|split; reflexivity]).
  - apply (bool_decide_unpack _). vm_compute. exact I.
  - apply (bool_decide_unpack _). vm_compute. exact I.
  - apply (bool_decide_unpack _). vm_compute. exact I.
  - apply (bool_decide_unpack _). vm_compute. exact I.
  - apply (bool_decide_unpack _). vm_compute. exact I.
  - split; reflexivity || discriminate.
  - split; reflexivity || discriminate.
  - split; reflexivity || discriminate.
Defined.
