(* ===== verification/Controller.v ===== *)
(** * src/netctrl/main.go and state.go: the controller

    The [Controller] structure and its methods.  [setupLock] is whether the mutex
    is held, [shutdown] whether the channel is closed, [wg] the counter of the
    wait group.  Each method is a computation of [GM]: the trace of calls it makes
    and every error and panic are part of its result.  Waiting loops take a bound
    on their turns; [None] stands for a goroutine that is still waiting, in such a
    loop, for the mutex or for the wait group. *)

From Stdlib Require Import ZArith Lia NArith Ascii Strings.Byte.
From stdpp Require Import base numbers gmap strings list fin_maps.
From coqutil Require Import Datatypes.RecordSetters.
From S2P Require Import Prelude GoNet Dhcp4 OS Config NetUtil Iptables Hostapd.

Import RecordSetters.TriangleBracketNotations.

Open Scope Z_scope.

(** [exec.Cmd]: [Process] is nil until [Start] succeeds. *)
Record Cmd := { Args : list string; Process : option Z }.

Record Controller := {
  setupLock : bool;
  shutdown : bool;
  wg : Z;
  config : Config;
  bridgeInterface : option net.Interface;
  bridgeAddr : list byte;
  subnet : option net.IPNet;
  areMasquerading : bool;
  ipt : option IPTables;
  wlanAddr : list byte;
  hostapdProc : option Cmd;
  lastAPState : option APStatus;
  vpnProc : option Cmd;
  vpnInterface : option net.Interface;
  vpnAddr : list byte;
  vpnConf : option VPNOpt;
  breakerUpdated : Z;
  breakerTripped : bool
}.


Section controller.
(** [w] is the width of the platform's [int], [turns] the bound on the turns of a
    waiting loop. *)
Context {W : Type} `{OS W} (w : Z) (turns : nat).

#[local] Abbreviation M := (GM W Controller).

(** ** The mutex, the wait group and pointers *)

(** Waiting for something only another goroutine can provide. *)
Definition blocked {A} : M A := out_of_turns.

Definition Lock : M unit :=
  c ← get;
  if setupLock c then blocked else modify (fun c => c <| setupLock := true |>).

Definition Unlock : M unit := modify (fun c => c <| setupLock := false |>).

Definition deref {A} (p : option A) : M A :=
  pure (match p with Some a => Ret a | None => Panic NilDereference end).

(** The first route's link index, [rts[0].LinkIndex]. *)
Definition first_link (rts : list Z) : M Z :=
  pure (match rts with i :: _ => Ret i | [] => Panic IndexOutOfRange end).

(** [netlink.RouteGet(net.IP{8, 8, 8, 8})] *)
Definition googleDNS : list byte := [Byte.x08; Byte.x08; Byte.x08; Byte.x08].
Definition RouteGet : M (list Z) := call (nl_RouteGet googleDNS) (EvRouteGet googleDNS).

(** [os.FindProcess], then [Kill] if the null signal can be sent. *)
Definition findAndKill (pid : Z) : M unit :=
  _ ← call (os_FindProcess pid) (fun _ => EvOther);
  r ← try (call (os_Signal0 pid) (EvSignal0 pid));
  match r with
  | inl _ => _ ← try (call (os_Kill pid) (fun _ => EvKill pid)); mret tt
  | inr _ => mret tt
  end.

(** A temporary file with some text; it is left behind when writing or closing it
    fails. *)
Definition writeTemp (text : string) : M string :=
  pw ← call os_TempFile (fun _ => EvOther);
  _ ← call (os_FileWrite pw (String.list_byte_of_string text)) (fun _ => EvOther);
  _ ← call (os_FileClose pw) (fun _ => EvOther);
  mret pw.

Definition Remove (name : string) : M unit := call (os_Remove name) (fun _ => EvRemove name).

(** ** SetVPN *)

Definition tunName (c : Controller) : string := "tun" +:+ InterfaceIdent (Network (config c)).

Definition select : M tick := ask os_Select EvSelect.

(** Waits for the interface of the old VPN to disappear. *)
Fixpoint waitDown (n : nat) : M unit :=
  match n with
  | O => out_of_turns
  | S n =>
      t ← select;
      match t with
      | TimeoutTick => fail (ErrorString "timeout waiting for VPN to shut down")
      | CheckTick =>
          c ← get;
          r ← try (InterfaceByName (tunName c));
          match r with
          | inr _ => mret tt
          | inl _ => waitDown n
          end
      end
  end.

(** Waits for the interface of the new VPN to appear. *)
Fixpoint waitUp (n : nat) : M unit :=
  match n with
  | O => out_of_turns
  | S n =>
      t ← select;
      match t with
      | TimeoutTick => fail (ErrorString "timeout waiting for VPN to come up")
      | CheckTick =>
          c ← get;
          r ← try (InterfaceByName (tunName c));
          match r with
          | inl _ => mret tt
          | inr _ => waitUp n
          end
      end
  end.

(** Waits for the route to the internet to go through the VPN. *)
Fixpoint waitRoute (n : nat) : M unit :=
  match n with
  | O => out_of_turns
  | S n =>
      t ← select;
      match t with
      | TimeoutTick => fail (ErrorString "timeout waiting for VPN to routes up")
      | CheckTick =>
          r ← try RouteGet;
          match r with
          | inr _ => waitRoute n
          | inl rts =>
              i ← first_link rts;
              c ← get;
              vi ← deref (vpnInterface c);
              if decide (i <> net.Intf_Index vi) then waitRoute n else mret tt
          end
      end
  end.

(** The block that kills an existing VPN process. *)
Definition stopVPN : M unit :=
  c ← get;
  match vpnProc c with
  | None => mret tt
  | Some cmd =>
      pid ← deref (Process cmd);
      _ ← findAndKill pid;
      _ ← modify (fun c => c <| vpnProc := None |>);
      _ ← modify (fun c => c <| vpnInterface := None |>);
      waitDown turns
  end.

Definition openvpnArgs (c : Controller) (vpn : VPNOpt) (pw : string) : list string :=
  ["openvpn"; "--config"; VPN_Path vpn; "--dev"; tunName c; "--auth-user-pass"; pw;
   "--auth-nocache"].

(** [c.vpnProc = exec.Command(...)] and [c.vpnProc.Start()]. *)
Definition startOpenvpn (vpn : VPNOpt) (pw : string) : M unit :=
  c ← get;
  let args := openvpnArgs c vpn pw in
  _ ← modify (fun c => c <| vpnProc := Some {| Args := args; Process := None |} |>);
  pid ← call (os_Start args) (EvStart args);
  modify (fun c => c <| vpnProc := Some {| Args := args; Process := Some pid |} |>).

(** The interface of the VPN and its first address. *)
Definition readVPNInterface : M unit :=
  c ← get;
  r ← try (InterfaceByName (tunName c));
  match r with
  | inr e => _ ← modify (fun c => c <| vpnInterface := None |>); fail e
  | inl intf =>
      _ ← modify (fun c => c <| vpnInterface := Some intf |>);
      addrs ← call (os_Addrs intf) (fun _ => EvOther);
      match addrs with
      | [] => fail (ErrorString "expected at least one address assigned to VPN")
      | IPNetAddr n :: _ => modify (fun c => c <| vpnAddr := net.IPNet_IP n |>)
      | OtherAddr :: _ => throw FailedTypeAssertion
      end
  end.

Definition SetVPN (vpn : VPNOpt) : M unit :=
  _ ← Lock;
  deferred
    (_ ← DisableForwarding;
     _ ← stopVPN;
     _ ← modify (fun c => c <| vpnConf := Some vpn |>);
     pw ← writeTemp (VPN_Username vpn +:+ nl +:+ VPN_Password vpn);
     deferred
       (_ ← startOpenvpn vpn pw;
        _ ← waitUp turns;
        _ ← readVPNInterface;
        _ ← waitRoute turns;
        IPv4EnableForwarding true)
       (Remove pw))
    Unlock.

(** ** The circuit breaker *)

(** The condition of a tick, read without the mutex. *)
Definition breakerArmed (c : Controller) : bool :=
  match vpnInterface c with Some _ => negb (breakerTripped c) | None => false end.

(** The part of a tick under the mutex. *)
Definition breakerCheck : M unit :=
  _ ← Lock;
  r ← try RouteGet;
  match r with
  | inr _ => Unlock
  | inl rts =>
      i ← first_link rts;
      c ← get;
      vi ← deref (vpnInterface c);
      _ ← (if decide (i <> net.Intf_Index vi) then
             _ ← modify (fun c => c <| breakerTripped := true |>);
             now ← ask os_Now (fun _ => EvOther);
             _ ← modify (fun c => c <| breakerUpdated := now |>);
             DisableForwarding
           else mret tt);
      Unlock
  end.

(** The part of a tick when there is nothing to check. *)
Definition breakerIdle : M unit :=
  now ← ask os_Now (fun _ => EvOther);
  modify (fun c => c <| breakerUpdated := now |>).

(** One tick of [circuitBreakerRoutine]. *)
Definition circuitBreakerTick : M unit :=
  c ← get;
  if breakerArmed c then breakerCheck else breakerIdle.

(** ** hostapd *)

Definition hostapdSocket (c : Controller) : string :=
  "/var/run/hostapd/" +:+ Wireless_Interface (Wireless (Network (config c))).

(** Waits for hostapd to answer on its control socket; a failed query is tried
    again. *)
Fixpoint waitHostapd (n : nat) : M unit :=
  match n with
  | O => out_of_turns
  | S n =>
      t ← select;
      match t with
      | TimeoutTick => fail (ErrorString "timeout waiting for hostapd to come up")
      | CheckTick =>
          c ← get;
          cmd ← deref (hostapdProc c);
          pid ← deref (Process cmd);
          _ ← call (os_FindProcess pid) (fun _ => EvOther);
          alive ← try (call (os_Signal0 pid) (EvSignal0 pid));
          match alive with
          | inr _ => fail (ErrorString "hostapd has stopped")
          | inl _ =>
              resp ← try (Query (hostapdSocket c) "STATUS");
              match resp with
              | inr _ => waitHostapd n
              | inl resp =>
                  if strings.Contains (String.string_of_list_byte resp) "state=ENABLED"
                  then mret tt else waitHostapd n
              end
          end
      end
  end.

(** The rule that masquerades what comes in from the access point. *)
Definition masqueradeRule (c : Controller) : list string :=
  ["-m"; "physdev"; "--physdev-in"; Wireless_Interface (Wireless (Network (config c)));
   "-j"; "MASQUERADE"].

Definition startHostapd : M unit :=
  pw ← call os_TempFile (fun _ => EvOther);
  c ← get;
  conf ← pure (GenerateConfig (config c));
  _ ← call (os_FileWrite pw (String.list_byte_of_string conf)) (fun _ => EvOther);
  _ ← call (os_FileClose pw) (fun _ => EvOther);
  deferred
    (let args := ["hostapd"; "-dd"; pw] in
     _ ← modify (fun c => c <| hostapdProc := Some {| Args := args; Process := None |} |>);
     pid ← call (os_Start args) (EvStart args);
     _ ← modify (fun c => c <| hostapdProc := Some {| Args := args; Process := Some pid |} |>);
     _ ← waitHostapd turns;
     c ← get;
     t ← deref (ipt c);
     _ ← AppendUnique t "nat" "POSTROUTING" (masqueradeRule c);
     modify (fun c => c <| areMasquerading := true |>))
    (Remove pw).

(** The part of a tick of [hostapdStatusRoutine] under the mutex, and the tick. *)
Definition hostapdStatusCheck : M unit :=
  _ ← Lock;
  c ← get;
  r ← try (QueryStatus w (hostapdSocket c));
  match r with
  | inr _ => Unlock
  | inl resp => _ ← modify (fun c => c <| lastAPState := Some resp |>); Unlock
  end.

Definition hostapdStatusTick : M unit :=
  c ← get;
  match hostapdProc c with
  | Some _ => hostapdStatusCheck
  | None => mret tt
  end.

(** ** The firewall *)

Definition portRule (sub proto : string) (port : Z) : list string :=
  ["-s"; sub; "-p"; proto; "--destination-port"; strconv.Itoa port; "-j"; "DROP"].

Definition subnetRule (sub dst : string) : list string := ["-s"; sub; "-d"; dst; "-j"; "DROP"].

Fixpoint blockPorts (t : IPTables) (sub : string) (ports : list Z) : M unit :=
  match ports with
  | [] => mret tt
  | port :: ports =>
      _ ← AppendUnique t "filter" "INPUT" (portRule sub "tcp" port);
      _ ← AppendUnique t "filter" "INPUT" (portRule sub "udp" port);
      blockPorts t sub ports
  end.

Fixpoint blockSubnets (t : IPTables) (sub : string) (subnets : list string) : M unit :=
  match subnets with
  | [] => mret tt
  | dst :: subnets =>
      _ ← AppendUnique t "filter" "FORWARD" (subnetRule sub dst);
      blockSubnets t sub subnets
  end.

Definition setupFirewall : M unit :=
  c ← get;
  t ← deref (ipt c);
  _ ← blockPorts t (Subnet (Network (config c))) (VPNBoxBlockedPorts (Firewall (config c)));
  blockSubnets t (Subnet (Network (config c))) (BlockedSubnets (Firewall (config c))).

(** ** Start and shutdown *)

(** The zero [Controller] with the fields [NewController] gives it. *)
Definition freshController (c : Config) (t : IPTables) : Controller :=
  {| setupLock := false; shutdown := false; wg := 0; config := c; bridgeInterface := None;
     bridgeAddr := []; subnet := None; areMasquerading := false; ipt := Some t;
     wlanAddr := []; hostapdProc := None; lastAPState := None; vpnProc := None;
     vpnInterface := None; vpnAddr := []; vpnConf := None; breakerUpdated := 0;
     breakerTripped := false |}.

(** [if err := m; err != nil { DeleteNetBridge(...); return nil, err }] *)
Definition orDeleteBridge (br : net.Interface) (m : M unit) : M unit :=
  r ← try m;
  match r with
  | inl _ => mret tt
  | inr e => _ ← try (DeleteNetBridge (net.Intf_Name br)); fail e
  end.

(** [NewController] once the bridge is there: the wireless interface's address, the
    firewall, hostapd, and the two routines of the wait group. *)
Definition startServices (c : Config) (br : net.Interface) (wl : list byte) (sub : net.IPNet)
  : M unit :=
  _ ← (if decide (Wireless_Interface (Wireless (Network c)) <> EmptyString) then
         orDeleteBridge br
           (SetInterfaceAddr (Wireless_Interface (Wireless (Network c)))
              {| net.IPNet_IP := wl; net.IPNet_Mask := net.IPNet_Mask sub |})
       else mret tt);
  _ ← orDeleteBridge br setupFirewall;
  _ ← orDeleteBridge br startHostapd;
  modify (fun c => c <| wg := wg c + 2 |>).

Definition NewController (c : Config) : M unit :=
  t ← New w;
  _ ← modify (fun _ => freshController c t);
  cidr ← pure (net.ParseCIDR (Subnet (Network c)));
  let '(ip, sub) := cidr in
  _ ← modify (fun c => c <| bridgeAddr := ip |>);
  _ ← modify (fun c => c <| subnet := Some sub |>);
  br ← CreateNetBridge ("br" +:+ InterfaceIdent (Network c)) ip
         {| net.IPNet_IP := []; net.IPNet_Mask := net.IPNet_Mask sub |};
  _ ← modify (fun c => c <| bridgeInterface := Some br |>);
  wl ← pure (IPAdd ip 1);
  _ ← modify (fun c => c <| wlanAddr := wl |>);
  startServices c br wl sub.

(** The end of a routine of the wait group, when it sees the channel closed. *)
Definition routineDone : M unit := modify (fun c => c <| wg := wg c - 1 |>).

(** [Close] up to [c.wg.Wait()], and from there. *)
Definition closeShutdown : M unit :=
  c ← get;
  if shutdown c then throw CloseOfClosedChannel
  else modify (fun c => c <| shutdown := true |>).

Definition killIfSet (proc : Controller -> option Cmd) : M unit :=
  c ← get;
  match proc c with
  | None => mret tt
  | Some cmd => pid ← deref (Process cmd); findAndKill pid
  end.

Definition closeRest : M unit :=
  c ← get;
  if decide (wg c <> 0) then blocked
  else
    _ ← killIfSet vpnProc;
    _ ← killIfSet hostapdProc;
    _ ← (if areMasquerading c then
           t ← deref (ipt c);
           Delete t "nat" "POSTROUTING" (masqueradeRule c)
         else mret tt);
    br ← deref (bridgeInterface c);
    DeleteNetBridge (net.Intf_Name br).

Definition Close : M unit := _ ← closeShutdown; closeRest.
End controller.

(** ** state.go *)

Record ControllerState := {
  Breaker_Tripped : bool;
  Breaker_Updated : Z;
  State_VPN_Configured : bool;
  State_VPN_Name : string;
  State_VPN_Icon : string;
  State_Subnet : string;
  State_SSID : string;
  State_AP : option APStatus
}.

(** [GetState]: [IPNet.String] and the fields of [vpnConf] dereference their
    pointers. *)
Definition GetState (c : Controller) : outcome ControllerState :=
  sub ← (match subnet c with Some n => Ret (net.IPNet_String n) | None => Panic NilDereference end);
  conf ← (match vpnConf c with Some v => Ret v | None => Panic NilDereference end);
  Ret {| Breaker_Tripped := breakerTripped c; Breaker_Updated := breakerUpdated c;
         State_VPN_Configured := bool_decide (is_Some (vpnInterface c));
         State_VPN_Name := VPN_Name conf; State_VPN_Icon := VPN_Icon conf;
         State_Subnet := sub; State_SSID := SSID (Wireless (Network (config c)));
         State_AP := lastAPState c |}.
