(* ===== verification/ControllerSpec.v ===== *)
(** * What the controller guarantees about forwarding

    Theorems about [SetVPN] and the circuit breaker of [Controller]: when IPv4
    forwarding is switched on, how a method leaves the switch whatever goes wrong,
    and what the breaker does on a tick. *)

From Stdlib Require Import ZArith Lia NArith Ascii Strings.Byte.
From stdpp Require Import base numbers gmap strings list fin_maps.
From coqutil Require Import Datatypes.RecordSetters.
From S2P Require Import Prelude GoNet Dhcp4 OS Config NetUtil Iptables Hostapd Controller.
Import RecordSetters.TriangleBracketNotations.

Open Scope Z_scope.

(** ** Frames of the controller's methods *)

(** The event of switching forwarding on. *)
Definition enables (e : event) : Prop :=
  exists r, e = EvWriteFile ipForwardPath (forward_data true) r.

(** The events of an attempt to switch forwarding off, and those of one that
    failed. *)
Definition attempts (e : event) : Prop :=
  (exists r, e = EvReadFile ipForwardPath r) \/
  (exists r, e = EvWriteFile ipForwardPath (forward_data false) r).

Definition disable_fails (e : event) : Prop :=
  (exists err, e = EvReadFile ipForwardPath (Err err)) \/
  (exists err, e = EvWriteFile ipForwardPath (forward_data false) (Err err)).

Definition unattempted (l : list event) : Prop := Forall (fun e => ~ attempts e) l.

(** The last attempt of [l] to switch forwarding off failed. *)
Definition left_on (l : list event) : Prop :=
  exists l1 e l2, l = l1 ++ e :: l2 /\ disable_fails e /\ unattempted l2.

Lemma fails_attempts e : disable_fails e -> attempts e.
Proof. intros [[err ->]|[err ->]]; [left|right]; by eexists. Qed.

(** What happens besides the attempts does not matter. *)
Lemma left_on_after l l' : unattempted l' -> left_on (l ++ l') <-> left_on l.
Proof.
  intros Hu. split.
  - intros (l1 & e & l2 & E & He & H2). apply app_eq_inv in E as [(k & -> & E)|(k & -> & E)].
    + destruct k as [|x k]; simpl in E.
      * subst l'. apply Forall_cons in Hu as [Hx _]. by destruct (Hx (fails_attempts _ He)).
      * injection E as -> ->. exists l1, x, k. apply Forall_app in H2 as [H2 _]. done.
    + rewrite E in Hu. apply Forall_app in Hu as [_ Hu]. apply Forall_cons in Hu as [Hx _].
      by destruct (Hx (fails_attempts _ He)).
  - intros (l1 & e & l2 & -> & He & H2). exists l1, e, (l2 ++ l'). rewrite <- app_assoc.
    split; [done|]. split; [done|]. by apply Forall_app.
Qed.

Lemma left_on_before l l' : unattempted l -> left_on (l ++ l') <-> left_on l'.
Proof.
  intros Hu. split.
  - intros (l1 & e & l2 & E & He & H2). apply app_eq_inv in E as [(k & -> & E)|(k & -> & E)].
    + destruct k as [|x k]; simpl in E; [subst l'; by exists [], e, l2|]. injection E as -> ->.
      apply Forall_app in Hu as [_ Hu]. apply Forall_cons in Hu as [Hx _]. by destruct (Hx (fails_attempts _ He)).
    + by exists k, e, l2.
  - intros (l1 & e & l2 & -> & He & H2). exists (l ++ l1), e, l2. by rewrite <- app_assoc.
Qed.

Section relations.
Context {W : Type}.

(** Only calls without the property [E] are added to the trace. *)
Definition avoids {C} (E : event -> Prop) (s s' : sys W C) : Prop :=
  exists l, trace s' = trace s ++ l /\ Forall (fun e => ~ E e) l.

(** Forwarding is not switched on. *)
Definition quiet {C} : relation (sys W C) := avoids enables.

(** A field is left alone. *)
Definition keeps {C A} (f : C -> A) (s s' : sys W C) : Prop := f (ctl s') = f (ctl s).

(** The switch is left alone. *)
Definition same_forwarding {C} `{Forwarding W} (s s' : sys W C) : Prop :=
  forwarding (world s') = forwarding (world s).

(** Nothing is done about the switch. *)
Definition still {C} `{Forwarding W} (s s' : sys W C) : Prop :=
  same_forwarding s s' /\ avoids attempts s s'.

#[export] Instance avoids_preorder {C} E : PreOrder (@avoids C E).
Proof.
  split.
  - intros s. exists []. by rewrite app_nil_r.
  - intros s1 s2 s3 (l1 & H1 & F1) (l2 & H2 & F2). exists (l1 ++ l2).
    rewrite H2, H1, app_assoc. split; [done|]. by apply Forall_app.
Qed.
#[export] Instance quiet_preorder {C} : PreOrder (@quiet C).
Proof. unfold quiet. apply _. Qed.
#[export] Instance keeps_preorder {C A} (f : C -> A) : PreOrder (keeps f).
Proof. split; [by intros s|]. intros s1 s2 s3. unfold keeps. congruence. Qed.
#[export] Instance same_forwarding_preorder {C} `{Forwarding W} : PreOrder (@same_forwarding C _ _).
Proof. split; [by intros s|]. intros s1 s2 s3. unfold same_forwarding. congruence. Qed.
#[export] Instance still_preorder {C} `{Forwarding W} : PreOrder (@still C _ _).
Proof.
  split; [by intros s; split|]. intros s1 s2 s3 [H1 H2] [H3 H4]. split; by etrans.
Qed.

Lemma avoids_event {C} E (s : sys W C) c w e :
  ~ E e -> avoids E s (Sys c w (trace s ++ [e])).
Proof. intros He. exists [e]. split; [done|]. by apply Forall_singleton. Qed.
Lemma avoids_silent {C} E (s : sys W C) c w : avoids E s (Sys c w (trace s)).
Proof. exists []. by rewrite app_nil_r. Qed.
End relations.

Create Rewrite HintDb forwarding.
#[export] Hint Rewrite @keep_TempFile @keep_FileWrite @keep_FileClose @keep_Remove @keep_Start
  @keep_FindProcess @keep_Signal0 @keep_Kill @keep_Now @keep_Select @keep_InterfaceByName
  @keep_Addrs @keep_RouteGet @keep_LinkDel @keep_Run @keep_Open @keep_Flock @keep_Close
  @keep_Rand @keep_DialUnix @keep_ConnWrite @keep_ConnRead @keep_ConnClose
  @keep_LookPath @keep_LinkAdd @keep_LinkSetUp @keep_LinkByName @keep_AddrAdd
  using typeclasses eauto : forwarding.

(** The atomic steps of a frame, for each of the relations. *)
Ltac atom :=
  lazymatch goal with
  | |- same_forwarding _ _ => unfold same_forwarding; simpl; by autorewrite with forwarding
  | |- quiet _ _ => unfold quiet; atom
  | |- still _ _ => split; atom
  | |- avoids _ _ (Sys _ _ (trace _)) => apply avoids_silent
  | |- avoids _ _ _ =>
      apply avoids_event; let F := fresh in intros F; hnf in F; decompose [ex or] F; discriminate
  | |- keeps _ _ _ => reflexivity
  end.

(** The frame of a method without loops, from those of the loops it calls. *)
Ltac method :=
  unfold stopVPN, startOpenvpn, readVPNInterface, writeTemp, findAndKill, Remove, Lock, Unlock,
    blocked, deref, first_link, RouteGet, select, InterfaceByName, breakerIdle; frame; try atom.

Section loops.
Context {W : Type} `{OS W} (R : sys W Controller -> sys W Controller -> Prop) `{!PreOrder R}.
Context (R_select : respects R select) (R_intf : forall n, respects R (InterfaceByName n)).

Lemma waitDown_respects n : respects R (waitDown n).
Proof. induction n; simpl; frame. Qed.
Lemma waitUp_respects n : respects R (waitUp n).
Proof. induction n; simpl; frame. Qed.
Lemma waitRoute_respects (R_route : respects R RouteGet) n : respects R (waitRoute n).
Proof. induction n; simpl; frame; unfold first_link, deref; frame. Qed.
End loops.
#[export] Hint Resolve waitDown_respects waitUp_respects waitRoute_respects : frame.

Section forwarding_frames.
Context {W : Type} `{Forwarding W} (turns : nat).

Lemma stopVPN_still : respects still (stopVPN turns).
Proof. method. apply waitDown_respects; method. Qed.
Lemma writeTemp_still t : respects still (writeTemp t).
Proof. method. Qed.
Lemma startOpenvpn_still vpn pw : respects still (startOpenvpn vpn pw).
Proof. method. Qed.
Lemma readVPNInterface_still : respects still readVPNInterface.
Proof. method. Qed.
End forwarding_frames.
#[export] Hint Resolve stopVPN_still writeTemp_still startOpenvpn_still readVPNInterface_still : frame.

(** ** The switch, under the laws of the kernel *)

Section forwarding.
Context {W : Type} `{Forwarding W} (turns : nat).
Implicit Types s : sys W Controller.

(** After an attempt to switch forwarding off: it is on only if it was, and the
    attempt failed. *)
Definition cleared s0 s : Prop :=
  exists l, trace s = trace s0 ++ l /\
    (forwarding (world s) = true <-> forwarding (world s0) = true /\ left_on l).

(** Forwarding is on when there was no error, and otherwise only if it could not
    be switched off. *)
Definition on_success s0 (r : outcome unit) s : Prop :=
  exists l, trace s = trace s0 ++ l /\
    (forwarding (world s) = true <-> r = Ret tt \/ (forwarding (world s0) = true /\ left_on l)).

Lemma still_cleared s0 s s' : still s0 s -> cleared s s' -> cleared s0 s'.
Proof.
  intros [Hf (l & Ht & Hl)] (l' & Ht' & Hi). exists (l ++ l'). rewrite Ht', Ht, app_assoc. split; [done|].
  rewrite left_on_before by done. unfold same_forwarding in Hf. by rewrite <- Hf.
Qed.

Lemma cleared_still s0 s s' : cleared s0 s -> still s s' -> cleared s0 s'.
Proof.
  intros (l & Ht & Hi) [Hf (l' & Ht' & Hl')]. exists (l ++ l'). rewrite Ht', Ht, app_assoc. split; [done|].
  rewrite left_on_after by done. unfold same_forwarding in Hf. by rewrite Hf.
Qed.

Lemma on_success_still s0 r s s' : on_success s0 r s -> still s s' -> on_success s0 r s'.
Proof.
  intros (l & Ht & Hi) [Hf (l' & Ht' & Hl')]. exists (l ++ l'). rewrite Ht', Ht, app_assoc. split; [done|].
  rewrite left_on_after by done. unfold same_forwarding in Hf. by rewrite Hf.
Qed.

Lemma cleared_error s0 r s : r <> Ret tt -> cleared s0 s -> on_success s0 r s.
Proof. intros Hr (l & Ht & Hi). exists l. split; [done|]. rewrite Hi. tauto. Qed.

Lemma left_on_fails l : left_on l -> exists e, e ∈ l /\ disable_fails e.
Proof. intros (l1 & e & l2 & -> & He & _). exists e. split; [|done]. apply elem_of_app. right. by left. Qed.

(** Whether an event is a failure, decided. *)
Definition failsb (e : event) : bool :=
  match e with
  | EvReadFile p (Err _) => bool_decide (p = ipForwardPath)
  | EvWriteFile p d (Err _) => bool_decide (p = ipForwardPath /\ d = forward_data false)
  | _ => false
  end.

Lemma not_left_on l : forallb (fun e => negb (failsb e)) l = true -> ~ left_on l.
Proof.
  intros Hb (e & He & Hf)%left_on_fails. rewrite forallb_forall in Hb. apply list_elem_of_In in He.
  specialize (Hb e He). by destruct Hf as [[err ->]|[err ->]].
Qed.

Lemma left_on_last l e : disable_fails e -> left_on (l ++ [e]).
Proof. intros He. exists l, e, []. split; [done|]. split; [done|]. apply Forall_nil_2. Qed.

(** Reading the switch gives it, or an error. *)
Lemma IPv4ForwardingEnabled_reads s :
  exists wd d, forwarding wd = forwarding (world s) /\
    IPv4ForwardingEnabled s =
      Some (match d with Ret _ => Ret (forwarding (world s)) | Err e => Err e | Panic p => Panic p end,
            Sys (ctl s) wd (trace s ++ [EvReadFile ipForwardPath d])) /\
    match d with Ret _ => True | Err _ => True | Panic _ => False end.
Proof.
  unfold IPv4ForwardingEnabled, mbind, GM_bind, call.
  pose proof (read_forward (world s)) as Hr. pose proof (keep_read_forward (world s)) as Hk.
  destruct (os_ReadFile ipForwardPath (world s)) as [d wd]. simpl in *. exists wd, d. split; [done|].
  destruct d as [d|e|p]; [subst d|done|done]. by destruct (forwarding (world s)).
Qed.

Lemma DisableForwarding_cleared s :
  exists s', DisableForwarding s = Some (Ret tt, s') /\ ctl s' = ctl s /\ cleared s s'.
Proof.
  unfold DisableForwarding, mbind, GM_bind, try.
  destruct (IPv4ForwardingEnabled_reads s) as (wd & d & Hf & -> & Hd).
  destruct d as [d|e|p]; [|clear Hd|done].
  - destruct (forwarding (world s)) eqn:E.
    + unfold IPv4EnableForwarding, call. pose proof (write_forward false wd) as Hw. cbn [world ctl trace].
      destruct (os_WriteFile _ _ _) as [[[]|e|p] wd2]; simpl in Hw; [| |done]; eexists; (split; [reflexivity|]); (split; [done|]);
        (eexists; split; [by rewrite <- app_assoc|]); simpl.
      * rewrite Hw. split; [done|]. intros [_ (x & Hx & Hl)%left_on_fails]. exfalso.
        rewrite !elem_of_cons, elem_of_nil in Hx. by destruct Hx as [->|[->|[]]], Hl as [[err ?]|[err ?]].
      * rewrite Hw, Hf. split; [|done]. intros _. split; [done|]. apply (left_on_last [_]). right. by eexists.
    + eexists. split; [reflexivity|]. split; [done|]. eexists. split; [reflexivity|]. simpl. rewrite Hf, E. by split; [|intros [? _]].
  - eexists. split; [reflexivity|]. split; [done|]. eexists. split; [reflexivity|]. simpl. rewrite Hf.
    split; [|by intros [? _]]. intros Hon. split; [done|]. apply (left_on_last []). left. by eexists.
Qed.

(** What does nothing about the switch keeps it cleared, also on the ways out of
    [SetVPN]. *)
Lemma cleared_bind {A} s0 (m : GM W Controller A) f :
  respects still m -> (forall a, triple (cleared s0) (f a) (on_success s0)) ->
  triple (cleared s0) (m ≫= f) (on_success s0).
Proof.
  intros Hm Hf. apply (triple_bind _ _ _ (fun _ => cleared s0)); [|done].
  eapply triple_conseq; [apply (respects_triple _ _ (cleared s0) Hm)|done|].
  - apply cleared_still.
  - intros [] s' Hs; [done|by apply cleared_error..].
Qed.

Lemma on_success_frame s0 (m : GM W Controller unit) r :
  respects still m -> triple (on_success s0 r) m (fun _ => on_success s0 r).
Proof.
  intros Hm. eapply triple_conseq; [apply (respects_triple _ _ (on_success s0 r) Hm)|done|done].
  apply on_success_still.
Qed.

(** The last step: forwarding is switched on, or the error is that of the write. *)
Lemma enable_on_success s0 : triple (cleared s0) (IPv4EnableForwarding true) (on_success s0).
Proof.
  intros s r s' (l & Ht & Hi). unfold IPv4EnableForwarding, call. pose proof (write_forward true (world s)) as Hw.
  destruct (os_WriteFile _ _ _) as [o wd]. simpl in Hw. intros [= <- <-]. eexists. simpl. rewrite Ht, <- app_assoc.
  split; [done|]. rewrite left_on_after by (apply Forall_singleton; intros [[? ?]|[? ?]]; done).
  destruct o as [[]|e|p]; [| |done]; rewrite Hw; [by split; auto|]. rewrite Hi. split; [by right|]. by intros [[=]|?].
Qed.

Lemma connect_on_success s0 vpn :
  triple (cleared s0)
    (pw ← writeTemp (VPN_Username vpn +:+ nl +:+ VPN_Password vpn);
     deferred
       (_ ← startOpenvpn vpn pw; _ ← waitUp turns; _ ← readVPNInterface; _ ← waitRoute turns;
        IPv4EnableForwarding true)
       (Remove pw)) (on_success s0).
Proof.
  apply cleared_bind; [auto with frame|]. intros pw.
  apply (triple_deferred _ _ _ (on_success s0)); [|intros r; apply on_success_frame; method].
  apply cleared_bind; [auto with frame|]. intros _.
  apply cleared_bind; [apply waitUp_respects; method|]. intros _.
  apply cleared_bind; [auto with frame|]. intros _.
  apply cleared_bind; [apply waitRoute_respects; method|]. intros _. apply enable_on_success.
Qed.

Lemma SetVPN_on_success vpn s r s' : SetVPN turns vpn s = Some (r, s') -> on_success s r s'.
Proof.
  intros E. revert E. lazymatch goal with |- _ -> ?Q => cut (triple (still s) (SetVPN turns vpn) (on_success s)) end.
  { intros Ht E. by apply (Ht s). }
  clear r s'. apply (triple_bind _ _ _ (fun _ => still s)).
  { intros s1 r s2 Hs. unfold Lock, mbind, GM_bind, get. destruct (setupLock _); [done|]. intros [= <- <-].
    etrans; [exact Hs|]. split; [done|apply avoids_silent]. }
  intros _. apply (triple_deferred _ _ _ (on_success s)); [|intros r; apply on_success_frame; method].
  apply (triple_bind _ _ _ (fun _ => cleared s)).
  { intros s1 r s2 Hs E. destruct (DisableForwarding_cleared s1) as (s3 & E' & _ & Hc).
    rewrite E' in E. injection E as <- <-. by eapply still_cleared. }
  intros _. apply cleared_bind; [auto with frame|]. intros _.
  apply cleared_bind; [method|]. intros _. apply connect_on_success.
Qed.
End forwarding.

(** ** The trace, whatever the system does *)

Section tracing.
Context {W : Type} `{OS W} (turns : nat).

Lemma stopVPN_quiet : respects quiet (stopVPN turns).
Proof. method. apply waitDown_respects; method. Qed.
Lemma writeTemp_quiet t : respects quiet (writeTemp t).
Proof. method. Qed.
Lemma startOpenvpn_quiet vpn pw : respects quiet (startOpenvpn vpn pw).
Proof. method. Qed.
Lemma readVPNInterface_quiet : respects quiet readVPNInterface.
Proof. method. Qed.
Lemma DisableForwarding_quiet : respects quiet (@DisableForwarding W Controller _).
Proof. unfold DisableForwarding, IPv4ForwardingEnabled, IPv4EnableForwarding. method. Qed.

(** From the trace of [s0]: quiet so far, the last call being the route lookup
    that went through the VPN's interface. *)
Definition routed (s0 s : sys W Controller) : Prop :=
  exists pre vi rts,
    trace s = trace s0 ++ pre ++ [EvRouteGet googleDNS (Ret (net.Intf_Index vi :: rts))] /\
    Forall (fun e => ~ enables e) pre /\ vpnInterface (ctl s) = Some vi.

Lemma waitRoute_routed s0 n :
  triple (quiet s0) (waitRoute n)
    (fun r s => match r with Ret _ => routed s0 s | _ => quiet s0 s end).
Proof.
  induction n as [|n IH]; [apply triple_turns|]. simpl.
  apply (triple_bind _ _ _ (fun _ => quiet s0)).
  { apply triple_ask. intros s a wd Hs _. etrans; [exact Hs|]. apply avoids_event. by intros [? ?]. }
  intros []; [by apply triple_fail|].
  apply (triple_bind _ _ _ (fun r s => exists s1, quiet s0 s1 /\
    trace s = trace s1 ++ [EvRouteGet googleDNS
                             (match r with inl rts => Ret rts | inr e => Err e end)])).
  { apply triple_try, triple_call. intros s r wd Hs _.
    destruct r; [by exists s| by exists s|].
    etrans; [exact Hs|]. apply avoids_event. by intros [? ?]. }
  assert (Hq : forall s s1 r, quiet s0 s1 -> trace s = trace s1 ++ [EvRouteGet googleDNS r] ->
                              quiet s0 s).
  { intros s s1 r (l & Hl & Fl) Ht. exists (l ++ [EvRouteGet googleDNS r]).
    rewrite Ht, Hl, app_assoc. split; [done|]. apply Forall_app. split; [done|].
    apply Forall_singleton. by intros [? ?]. }
  intros [rts|e]; [|eapply triple_conseq; [apply IH| |done]; intros s (s1 & H1 & H2); by eapply Hq].
  intros s r s' (s1 & H1 & H2). unfold mbind, GM_bind, first_link, pure, deref, get.
  destruct rts as [|i rts]; [intros [= <- <-]; by eapply Hq|].
  destruct (vpnInterface (ctl s)) as [vi|] eqn:Ev; [|intros [= <- <-]; by eapply Hq].
  cbv beta iota delta [pure]. case_decide as Hi; [intros E; eapply IH; [|exact E]; by eapply Hq|].
  intros [= <- <-]. subst i. destruct H1 as (l & Hl & Fl).
  exists l, vi, rts. by rewrite H2, Hl, <- app_assoc.
Qed.

(** What a run of [SetVPN] from [s0] with outcome [r] may have done. *)
Definition guarded (s0 : sys W Controller) (tail : list event) (r : outcome unit)
    (s : sys W Controller) : Prop :=
  quiet s0 s \/
  exists pre vi rts,
    trace s = trace s0 ++ pre ++
      [EvRouteGet googleDNS (Ret (net.Intf_Index vi :: rts));
       EvWriteFile ipForwardPath (forward_data true) r] ++ tail /\
    Forall (fun e => ~ enables e) pre /\ vpnInterface (ctl s) = Some vi.

Lemma quiet_bind {A} s0 tail (m : GM W Controller A) f :
  respects quiet m -> (forall a, triple (quiet s0) (f a) (guarded s0 tail)) ->
  triple (quiet s0) (m ≫= f) (guarded s0 tail).
Proof.
  intros Hm Hf. apply (triple_bind _ _ _ (fun _ => quiet s0)); [|done].
  eapply triple_conseq; [apply (respects_triple _ _ (quiet s0) Hm)|done|].
  - intros s s' H1 H2. by etrans.
  - intros [] s' Hs; [done|by left..].
Qed.

Lemma connect_guarded s0 vpn pw :
  triple (quiet s0)
    (deferred
       (_ ← startOpenvpn vpn pw; _ ← waitUp turns; _ ← readVPNInterface; _ ← waitRoute turns;
        IPv4EnableForwarding true)
       (Remove pw)) (guarded s0 [EvRemove pw]).
Proof.
  apply (triple_deferred _ _ _ (guarded s0 [])).
  - apply quiet_bind; [apply startOpenvpn_quiet|]. intros _.
    apply quiet_bind; [apply waitUp_respects; method|]. intros _.
    apply quiet_bind; [apply readVPNInterface_quiet|]. intros _.
    apply (triple_bind _ _ _ (fun _ => routed s0)).
    { eapply triple_conseq; [apply waitRoute_routed|done|]. intros [] s Hs; [done|by left..]. }
    intros _. apply triple_call. intros s r wd (pre & vi & rts & Ht & Hp & Hv) _. right.
    exists pre, vi, rts. simpl. by rewrite Ht, <- !app_assoc.
  - intros r. apply triple_call. intros s r' wd [Hq|(pre & vi & rts & Ht & Hp & Hv)] _.
    + left. etrans; [exact Hq|]. apply avoids_event. by intros [? ?].
    + right. exists pre, vi, rts. simpl. by rewrite Ht, <- !app_assoc.
Qed.

Lemma SetVPN_guarded s0 vpn :
  triple (quiet s0) (SetVPN turns vpn)
    (fun r s => quiet s0 s \/ exists pw, guarded s0 [EvRemove pw] r s).
Proof.
  assert (Hs : forall A (m : GM W Controller A) (f : A -> GM W Controller unit) Q,
    respects quiet m -> (forall r s, quiet s0 s -> (Q : outcome unit -> sys W Controller -> Prop) r s) ->
    (forall a, triple (quiet s0) (f a) Q) -> triple (quiet s0) (m ≫= f) Q).
  { intros A m f Q Hm HQ Hf. apply (triple_bind _ _ _ (fun _ => quiet s0)); [|done].
    eapply triple_conseq; [apply (respects_triple _ _ (quiet s0) Hm)|done|].
    - intros s s' H1 H2. by etrans.
    - intros [] s' Hs; auto. }
  unfold SetVPN. apply Hs; [method|by left|]. intros _.
  apply (triple_deferred _ _ _ (fun r s => quiet s0 s \/ exists pw, guarded s0 [EvRemove pw] r s)).
  - apply Hs; [apply DisableForwarding_quiet|by left|]. intros _.
    apply Hs; [apply stopVPN_quiet|by left|]. intros _. apply Hs; [method|by left|]. intros _.
    apply Hs; [apply writeTemp_quiet|by left|]. intros pw.
    eapply triple_conseq; [apply connect_guarded|done|]. intros r s Hg. right. by exists pw.
  - intros r. by apply triple_modify.
Qed.
End tracing.

(** ** SetVPN returns *)

(** The tickers of a waiting loop: between two turns of a loop the clock runs, so
    that at most [patience] checks come before the timeout. *)
Class Timers (W : Type) `{OS W} := {
  left : W -> nat;
  patience : nat;
  left_bound wd : (left wd <= patience)%nat;
  select_ticks wd :
    fst (os_Select wd) = TimeoutTick \/ (left (snd (os_Select wd)) < left wd)%nat;
  left_InterfaceByName n wd : (left (snd (os_InterfaceByName n wd)) <= left wd)%nat;
  left_RouteGet ip wd : (left (snd (nl_RouteGet ip wd)) <= left wd)%nat
}.

Section termination.
Context {W : Type} `{Timers W} (turns : nat).

(** A turn of a loop: the timeout, or a check with fewer ticks left. *)
Lemma select_turn (s : sys W Controller) (f : tick -> GM W Controller unit) :
  ends (f TimeoutTick) (Sys (ctl s) (snd (os_Select (world s))) (trace s ++ [EvSelect TimeoutTick])) ->
  (forall s', (left (world s') < left (world s))%nat -> ends (f CheckTick) s') ->
  ends (select ≫= f) s.
Proof.
  intros Hto Hck. apply ends_bind; [apply total_ask|]. intros t s'. unfold select, ask.
  pose proof (select_ticks (world s)) as Ht. destruct (os_Select (world s)) as [t' wd]. simpl in *.
  intros [= -> <-]. destruct t; [done|]. apply Hck. simpl. by destruct Ht.
Qed.

Lemma InterfaceByName_left n (s s' : sys W Controller) r :
  try (InterfaceByName n) s = Some (r, s') -> (left (world s') <= left (world s))%nat.
Proof.
  unfold try, InterfaceByName, call. pose proof (left_InterfaceByName n (world s)) as Hl.
  destruct (os_InterfaceByName n (world s)) as [[] wd]; intros [= <- <-]; done.
Qed.

Lemma RouteGet_left (s s' : sys W Controller) r :
  try RouteGet s = Some (r, s') -> (left (world s') <= left (world s))%nat.
Proof.
  unfold try, RouteGet, call. pose proof (left_RouteGet googleDNS (world s)) as Hl.
  destruct (nl_RouteGet googleDNS (world s)) as [[] wd]; intros [= <- <-]; done.
Qed.

Lemma waitDown_ends n s : (left (world s) < n)%nat -> ends (waitDown n) s.
Proof.
  revert s. induction n as [|n IH]; intros s Hn; [lia|]. simpl.
  apply select_turn; [by eexists|]. intros s1 H1.
  apply ends_bind; [apply total_get|]. intros c s2 [= <- <-].
  apply ends_bind; [unfold InterfaceByName; total|]. intros [i|e] s3 E3; [|by eexists].
  apply IH. apply InterfaceByName_left in E3. lia.
Qed.

Lemma waitUp_ends n s : (left (world s) < n)%nat -> ends (waitUp n) s.
Proof.
  revert s. induction n as [|n IH]; intros s Hn; [lia|]. simpl.
  apply select_turn; [by eexists|]. intros s1 H1.
  apply ends_bind; [apply total_get|]. intros c s2 [= <- <-].
  apply ends_bind; [unfold InterfaceByName; total|]. intros [i|e] s3 E3; [by eexists|].
  apply IH. apply InterfaceByName_left in E3. lia.
Qed.

Lemma waitRoute_ends n s : (left (world s) < n)%nat -> ends (waitRoute n) s.
Proof.
  revert s. induction n as [|n IH]; intros s Hn; [lia|]. simpl.
  apply select_turn; [by eexists|]. intros s1 H1.
  apply ends_bind; [unfold RouteGet; total|]. intros r s2 E2. apply RouteGet_left in E2.
  destruct r as [rts|e]; [|apply IH; lia].
  apply ends_bind; [apply total_pure|]. intros i s3 E3.
  assert (s3 = s2) as -> by (unfold first_link, pure in E3; congruence).
  apply ends_bind; [apply total_get|]. intros c s4 [= <- <-].
  apply ends_bind; [apply total_pure|]. intros vi s5 E5.
  assert (s5 = s2) as -> by (unfold deref, pure in E5; congruence).
  case_decide; [apply IH; lia|by eexists].
Qed.

Lemma stopVPN_total : (patience < turns)%nat -> total (stopVPN turns).
Proof.
  intros Ht. unfold stopVPN, deref, findAndKill. total.
  intros s. apply waitDown_ends. pose proof (left_bound (world s)). lia.
Qed.

Lemma SetVPN_ends_lemma vpn s :
  setupLock (ctl s) = false -> (patience < turns)%nat -> ends (SetVPN turns vpn) s.
Proof.
  intros Hl Ht. apply ends_bind.
  { unfold Lock, ends, mbind, GM_bind, get. rewrite Hl. by eexists. }
  intros _ s1 _. revert s1. lazymatch goal with |- forall s, ends ?m s => change (total m) end.
  pose proof (stopVPN_total Ht) as Hs.
  assert (Hu : total (waitUp turns)).
  { intros s1. apply waitUp_ends. pose proof (left_bound (world s1)). lia. }
  assert (Hr : total (waitRoute turns)).
  { intros s1. apply waitRoute_ends. pose proof (left_bound (world s1)). lia. }
  unfold DisableForwarding, IPv4ForwardingEnabled, IPv4EnableForwarding, writeTemp,
    startOpenvpn, readVPNInterface, InterfaceByName, Remove, Unlock. total.
Qed.
End termination.

(** ** The fields of the controller *)

Section fields.
Context {W : Type} `{OS W} (turns : nat).

(** A field [SetVPN] does not assign is left alone. *)
Section untouched.
Context {A : Type} (f : Controller -> A).
Context (f_lock : forall c v, f (c <| setupLock := v |>) = f c)
        (f_proc : forall c v, f (c <| vpnProc := v |>) = f c)
        (f_intf : forall c v, f (c <| vpnInterface := v |>) = f c)
        (f_addr : forall c v, f (c <| vpnAddr := v |>) = f c)
        (f_conf : forall c v, f (c <| vpnConf := v |>) = f c).

Ltac touch := method; try (unfold keeps; cbn [ctl]; solve [auto]).

Lemma SetVPN_keeps vpn : respects (keeps f) (SetVPN turns vpn).
Proof.
  unfold SetVPN, DisableForwarding, IPv4ForwardingEnabled, IPv4EnableForwarding. touch;
    first [apply waitDown_respects | apply waitUp_respects | apply waitRoute_respects]; touch.
Qed.
End untouched.

(** The part of the state a successful [SetVPN] establishes. *)
Definition vpn_fields (c : Controller) := (config c, vpnConf c, vpnProc c).

Lemma waitUp_fields n : respects (keeps vpn_fields) (waitUp n).
Proof. apply waitUp_respects; method. Qed.
Lemma readVPNInterface_fields : respects (keeps vpn_fields) readVPNInterface.
Proof. method. Qed.
Lemma waitRoute_fields n : respects (keeps (fun c => (vpn_fields c, vpnInterface c))) (waitRoute n).
Proof. apply waitRoute_respects; method. Qed.

(** What holds of the fields after a successful run. *)
Definition connected (cfg : Config) (vpn : VPNOpt) (c : Controller) : Prop :=
  config c = cfg /\ vpnConf c = Some vpn /\
  exists pw pid, vpnProc c = Some {| Args := openvpnArgs c vpn pw; Process := Some pid |}.

Definition succeeded (cfg : Config) (vpn : VPNOpt) (r : outcome unit) (s : sys W Controller) : Prop :=
  r = Ret tt -> connected cfg vpn (ctl s) /\ is_Some (vpnInterface (ctl s)).

Lemma connected_fields cfg vpn c c' :
  vpn_fields c' = vpn_fields c -> connected cfg vpn c -> connected cfg vpn c'.
Proof.
  intros [= E1 E2 E3] (H1 & H2 & pw & pid & H3). unfold connected. rewrite E1, E2, E3.
  split_and!; [done..|]. exists pw, pid. rewrite H3. unfold openvpnArgs, tunName. by rewrite E1.
Qed.

Lemma succeeded_bind {A} cfg vpn (P R : sys W Controller -> Prop) (m : GM W Controller A) f :
  triple P m (fun r s => match r with Ret _ => R s | _ => True end) ->
  (forall a, triple R (f a) (succeeded cfg vpn)) -> triple P (m ≫= f) (succeeded cfg vpn).
Proof.
  intros Hm Hf. apply (triple_bind _ _ _ (fun _ => R)); [|done].
  eapply triple_conseq; [exact Hm|done|]. unfold succeeded. by intros [] s.
Qed.

Lemma startOpenvpn_connected cfg vpn pw :
  triple (fun s => config (ctl s) = cfg /\ vpnConf (ctl s) = Some vpn) (startOpenvpn vpn pw)
    (fun r s => match r with Ret _ => connected cfg vpn (ctl s) | _ => True end).
Proof.
  intros s r s' [H1 H2]. unfold startOpenvpn, mbind, GM_bind, get, modify, call. simpl.
  destruct (os_Start _ _) as [[pid|e|p] wd]; intros [= <- <-]; [|done..].
  split; [done|]. split; [done|]. by exists pw, pid.
Qed.

Lemma readVPNInterface_intf cfg vpn :
  triple (fun s => connected cfg vpn (ctl s)) readVPNInterface
    (fun r s => match r with
                | Ret _ => connected cfg vpn (ctl s) /\ is_Some (vpnInterface (ctl s))
                | _ => True
                end).
Proof.
  intros s r s' Hc E. pose proof (readVPNInterface_fields _ _ _ E) as Hf.
  destruct r as [[]| |]; [|done..]. split; [by eapply connected_fields|]. clear Hc Hf. revert E.
  unfold readVPNInterface, InterfaceByName, mbind, GM_bind, try, call, get, modify, fail, throw.
  simpl. destruct (os_InterfaceByName _ _) as [[i|e|p] wd]; [|done..]. simpl.
  destruct (os_Addrs _ _) as [[[|[]]|e|p] wd']; try done. intros [= <-]. by eexists.
Qed.

Lemma connect_succeeds cfg vpn pw :
  triple (fun s => config (ctl s) = cfg /\ vpnConf (ctl s) = Some vpn)
    (_ ← startOpenvpn vpn pw; _ ← waitUp turns; _ ← readVPNInterface; _ ← waitRoute turns;
     IPv4EnableForwarding true) (succeeded cfg vpn).
Proof.
  eapply succeeded_bind; [apply startOpenvpn_connected|]. intros _.
  apply (succeeded_bind _ _ _ (fun s => connected cfg vpn (ctl s))).
  { intros s r s' Hc E%waitUp_fields. destruct r; [|done..]. by eapply connected_fields. }
  intros _. eapply succeeded_bind; [apply readVPNInterface_intf|]. intros _. simpl.
  apply (succeeded_bind _ _ _
    (fun s => connected cfg vpn (ctl s) /\ is_Some (vpnInterface (ctl s)))).
  { intros s r s' [Hc Hi] [= E1 E2 E3 E4]%waitRoute_fields. destruct r; [|done..].
    rewrite E4. split; [|done]. eapply connected_fields, Hc. unfold vpn_fields. by rewrite E1, E2, E3. }
  intros _. apply triple_call. by intros s r wd Hs _ _.
Qed.

Lemma SetVPN_succeeds cfg vpn :
  triple (fun s => config (ctl s) = cfg) (SetVPN turns vpn) (succeeded cfg vpn).
Proof.
  unfold SetVPN. apply (succeeded_bind _ _ _ (fun s => config (ctl s) = cfg)).
  { intros s r s' Hc. unfold Lock, mbind, GM_bind, get, modify.
    by destruct (setupLock _); intros [= <- <-]. }
  intros _. apply (triple_deferred _ _ _ (succeeded cfg vpn));
    [|by intros r; apply triple_modify; intros s Hs].
  apply (succeeded_bind _ _ _ (fun s => config (ctl s) = cfg)).
  { intros s r s' Hc E. assert (respects (keeps config) (@DisableForwarding W _ _)) as Hk.
    { unfold DisableForwarding, IPv4ForwardingEnabled, IPv4EnableForwarding. method. }
    apply Hk in E. destruct r; [|done..]. by rewrite <- Hc. }
  intros _. apply (succeeded_bind _ _ _ (fun s => config (ctl s) = cfg)).
  { intros s r s' Hc E. assert (respects (keeps config) (stopVPN turns)) as Hk.
    { method. apply waitDown_respects; method. }
    apply Hk in E. destruct r; [|done..]. by rewrite <- Hc. }
  intros _. apply (succeeded_bind _ _ _ (fun s => config (ctl s) = cfg /\ vpnConf (ctl s) = Some vpn)).
  { by apply triple_modify. }
  intros _. apply (succeeded_bind _ _ _ (fun s => config (ctl s) = cfg /\ vpnConf (ctl s) = Some vpn)).
  { intros s r s' [Hc Hv] E.
    assert (respects (keeps (fun c => (config c, vpnConf c)))
      (writeTemp (VPN_Username vpn +:+ nl +:+ VPN_Password vpn))) as Hk by method.
    apply Hk in E. injection E as E1 E2. destruct r; [|done..]. by rewrite E1, E2. }
  intros pw. apply (triple_deferred _ _ _ (succeeded cfg vpn)); [apply connect_succeeds|].
  intros r. by apply triple_call.
Qed.

(** However it ends, the mutex is free again. *)
Lemma SetVPN_unlocks vpn :
  triple (fun _ => True) (SetVPN turns vpn) (fun _ s => setupLock (ctl s) = false).
Proof.
  apply (triple_bind _ _ _ (fun _ _ => True)).
  - intros s r s' _. unfold Lock, mbind, GM_bind, get, modify.
    by destruct (setupLock _); intros [= <- <-].
  - intros _. apply (triple_deferred _ _ _ (fun _ _ => True)); [done|].
    intros r. by apply triple_modify.
Qed.
End fields.

(** ** Ticks of the routines *)

#[local] Arguments DisableForwarding : simpl never.

Section ticks.
Context {W : Type} `{Forwarding W} (w : Z).
Implicit Types s : sys W Controller.

Lemma Lock_free s :
  setupLock (ctl s) = false ->
  Lock s = Some (Ret tt, Sys ((ctl s) <| setupLock := true |>) (world s) (trace s)).
Proof. intros E. unfold Lock, mbind, GM_bind, get. by rewrite E. Qed.

(** The route went elsewhere: the breaker trips and forwarding is cleared. *)
Lemma breakerCheck_elsewhere s vi i rts wd :
  setupLock (ctl s) = false -> vpnInterface (ctl s) = Some vi ->
  nl_RouteGet googleDNS (world s) = (Ret (i :: rts), wd) -> i <> net.Intf_Index vi ->
  exists s', breakerCheck s = Some (Ret tt, s') /\ cleared s s' /\
    ctl s' = (ctl s) <| breakerTripped := true |> <| breakerUpdated := fst (os_Now wd) |>.
Proof.
  destruct s as [[] wd0 tr0]. simpl. intros -> -> Hr Hi.
  unfold breakerCheck, Lock, try, RouteGet, call, first_link, deref, pure, get, modify, ask, mbind,
    GM_bind. simpl. rewrite Hr. simpl. rewrite decide_True by done. cbn [world].
  pose proof (keep_RouteGet googleDNS wd0) as Hk. rewrite Hr in Hk. simpl in Hk.
  pose proof (keep_Now wd) as Hn. destruct (os_Now wd) as [now wd']. simpl in Hn |- *.
  match goal with |- context [DisableForwarding ?x] =>
    destruct (DisableForwarding_cleared x) as ([c2 wd2 tr2] & -> & Hc & Hcl) end.
  cbn [ctl] in Hc. subst c2. eexists. split; [reflexivity|]. split; [|reflexivity].
  refine (still_cleared _ _ _ _ Hcl). split.
  - unfold same_forwarding. cbn [world]. congruence.
  - eexists [_; _]. cbn [trace]. rewrite <- app_assoc. split; [reflexivity|].
    repeat (apply Forall_cons_2; [intros [[? ?]|[? ?]]; discriminate|]). apply Forall_nil_2.
Qed.

(** The route goes through the VPN, or cannot be looked up: nothing changes. *)
Lemma breakerCheck_otherwise s vi r wd :
  setupLock (ctl s) = false -> vpnInterface (ctl s) = Some vi ->
  nl_RouteGet googleDNS (world s) = (r, wd) ->
  (exists rts, r = Ret (net.Intf_Index vi :: rts)) \/ (exists e, r = Err e) ->
  exists tr, breakerCheck s = Some (Ret tt, Sys (ctl s) wd tr).
Proof.
  destruct s as [[] wd0 tr0]. simpl. intros -> -> Hr Hcase.
  unfold breakerCheck, Lock, try, RouteGet, call, first_link, deref, pure, get, modify, mbind,
    GM_bind. simpl. rewrite Hr. destruct Hcase as [[rts ->]|[e ->]]; simpl; [|by eexists].
  rewrite decide_False by (intros Hn; by apply Hn). by eexists.
Qed.

(** With no interface the check panics, and leaves the mutex held. *)
Lemma breakerCheck_nil s i rts wd :
  setupLock (ctl s) = false -> vpnInterface (ctl s) = None ->
  nl_RouteGet googleDNS (world s) = (Ret (i :: rts), wd) ->
  exists s', breakerCheck s = Some (Panic NilDereference, s') /\ setupLock (ctl s') = true.
Proof.
  destruct s as [[] wd0 tr0]. simpl. intros -> -> Hr.
  unfold breakerCheck, Lock, try, RouteGet, call, first_link, deref, pure, get, modify, mbind,
    GM_bind. simpl. rewrite Hr. by eexists.
Qed.

Lemma breakerIdle_forwarding : respects same_forwarding (@breakerIdle W _).
Proof. method. Qed.
End ticks.

(** ** A VPN client that does not start *)

Definition failed_start (e : event) : Prop := exists args err, e = EvStart args (Err err).

(** [vpnProc] is a command that was never started. *)
Definition wedged (c : Controller) : Prop :=
  exists cmd, vpnProc c = Some cmd /\ Process cmd = None.

Section wedge.
Context {W : Type} `{OS W} (turns : nat).

Lemma DisableForwarding_total : total (@DisableForwarding W Controller _).
Proof. unfold DisableForwarding, IPv4ForwardingEnabled, IPv4EnableForwarding. total. Qed.
Lemma DisableForwarding_ctl : respects (keeps id) (@DisableForwarding W Controller _).
Proof. unfold DisableForwarding, IPv4ForwardingEnabled, IPv4EnableForwarding. method. Qed.

Lemma DisableForwarding_no_error (s : sys W Controller) e s' :
  DisableForwarding s <> Some (Err e, s').
Proof.
  unfold DisableForwarding, mbind, GM_bind, try.
  destruct (IPv4ForwardingEnabled s) as [[[[]| |] s1]|]; try done.
  unfold IPv4EnableForwarding, call. by destruct (os_WriteFile _ _ _) as [[] ?].
Qed.

Lemma SetVPN_of_wedged vpn (s : sys W Controller) :
  setupLock (ctl s) = false -> wedged (ctl s) ->
  exists s' p, SetVPN turns vpn s = Some (Panic p, s') /\ wedged (ctl s') /\ setupLock (ctl s') = false.
Proof.
  destruct s as [[] wd0 tr0]. simpl. intros -> (cmd & Hc & Hp). simpl in Hc. subst.
  unfold SetVPN, Lock, get, modify, mbind at 1 2, GM_bind at 1 2. simpl.
  unfold deferred at 1, mbind at 1, GM_bind at 1.
  set (s1 := Sys _ _ _). destruct (DisableForwarding_total s1) as [[r [c2 wd2 tr2]] E].
  pose proof (DisableForwarding_ctl _ _ _ E) as Hk. unfold keeps, id in Hk. simpl in Hk. subst c2.
  rewrite E. destruct r as [[]|e|p].
  - unfold stopVPN, get, mbind, GM_bind, deref, pure. simpl. rewrite Hp. simpl.
    eexists _, NilDereference. split; [reflexivity|]. split; [|done]. by exists cmd.
  - by apply DisableForwarding_no_error in E.
  - eexists _, p. split; [reflexivity|]. split; [|done]. by exists cmd.
Qed.

(** Until a start fails, and after it. *)
Definition start_seen (s0 s : sys W Controller) : Prop :=
  avoids failed_start s0 s \/ wedged (ctl s).

Lemma avoids_bind {A} s0 (m : GM W Controller A) (f : A -> GM W Controller unit) :
  respects (avoids failed_start) m ->
  (forall a, triple (avoids failed_start s0) (f a) (fun _ => start_seen s0)) ->
  triple (avoids failed_start s0) (m ≫= f) (fun _ => start_seen s0).
Proof.
  intros Hm Hf. apply (triple_bind _ _ _ (fun _ => avoids failed_start s0)); [|done].
  eapply triple_conseq; [apply (respects_triple _ _ (avoids failed_start s0) Hm)|done|].
  - intros s s' H1 H2. by etrans.
  - intros [] s' Hs; [done|by left..].
Qed.

Lemma startOpenvpn_start s0 vpn pw :
  triple (avoids failed_start s0) (startOpenvpn vpn pw)
    (fun r s => match r with Ret _ => avoids failed_start s0 s | _ => start_seen s0 s end).
Proof.
  intros s r s' Hs. unfold startOpenvpn, mbind, GM_bind, get, modify, call. simpl.
  destruct (os_Start _ _) as [[pid|e|p] wd]; intros [= <- <-].
  - etrans; [exact Hs|]. simpl. atom.
  - right. by eexists.
  - left. etrans; [exact Hs|]. simpl. atom.
Qed.

Lemma SetVPN_start s0 vpn :
  triple (avoids failed_start s0) (SetVPN turns vpn) (fun _ => start_seen s0).
Proof.
  assert (Hseen : forall m, respects (avoids failed_start) m -> respects (keeps vpnProc) m ->
    triple (start_seen s0) m (fun (_ : outcome unit) => start_seen s0)).
  { intros m H1 H2 s r s' Hs E. destruct Hs as [Hs|Hs].
    - left. etrans; [exact Hs|]. by eapply H1.
    - right. apply H2 in E. unfold wedged. by rewrite E. }
  unfold SetVPN. apply avoids_bind; [method|]. intros _.
  apply (triple_deferred _ _ _ (fun _ => start_seen s0)); [|intros _; apply Hseen; method].
  apply avoids_bind.
  { unfold DisableForwarding, IPv4ForwardingEnabled, IPv4EnableForwarding. method. }
  intros _. apply avoids_bind; [method; apply waitDown_respects; method|]. intros _.
  apply avoids_bind; [method|]. intros _. apply avoids_bind; [method|]. intros pw.
  apply (triple_deferred _ _ _ (fun _ => start_seen s0)); [|intros _; apply Hseen; method].
  apply (triple_bind _ _ _ (fun _ => avoids failed_start s0)).
  { eapply triple_conseq; [apply startOpenvpn_start|done|]. by intros []. }
  intros _. apply avoids_bind; [apply waitUp_respects; method|]. intros _.
  apply avoids_bind; [method|]. intros _. apply avoids_bind; [apply waitRoute_respects; method|].
  intros _. eapply triple_conseq; [apply (respects_triple (avoids failed_start))|done|].
  - unfold IPv4EnableForwarding. method.
  - intros s s' H1 H2. etrans; [exact H1|exact H2].
  - intros r s Hs. by left.
Qed.
End wedge.
