(* ===== verification/SimOS.v ===== *)
(** * A simulated system

    A concrete world that satisfies the laws the theorems assume of the kernel,
    of the tickers and of iptables.  It shows that the laws can hold together, and
    runs the controller's methods on examples. *)

From Stdlib Require Import ZArith Lia NArith Ascii Strings.Byte.
From stdpp Require Import base numbers gmap strings list fin_maps.
From coqutil Require Import Datatypes.RecordSetters.
From S2P Require Import Prelude GoNet Dhcp4 OS Config NetUtil Iptables Hostapd Controller ControllerSpec.
Import RecordSetters.TriangleBracketNotations.

Open Scope Z_scope.

Record sim := {
  ip_forward : bool;
  (* whether the switch can be written *)
  writable : bool;
  interfaces : list net.Interface;
  (* the link index of the route to the internet, none when there is no route *)
  route : option Z;
  (* check ticks to come before the next timeout tick *)
  ticks : nat;
  clock : Z;
  table : gmap (string * string) (list (list string));
  (* whether openvpn is installed, and whether its interface goes away with it *)
  installed : bool;
  cleans_up : bool;
  (* whether addresses can be set *)
  addr_ok : bool;
  (* whether hostapd's socket takes requests *)
  sock_ok : bool;
  (* the link index the VPN's interface gets *)
  tun_index : Z;
  (* the files that can be read, besides the forwarding switch *)
  files : list (string * list byte)
}.

Fixpoint find_file (p : string) (l : list (string * list byte)) : outcome (list byte) :=
  match l with
  | [] => Err (SysError "no such file")
  | (q, d) :: l => if decide (q = p) then Ret d else find_file p l
  end.

Definition sim_patience : nat := 220.

Definition find_intf (n : string) (l : list net.Interface) : option net.Interface :=
  head (filter (fun i => net.Intf_Name i = n) l).

(** Takes the [--wait] off a command. *)
Definition unwait (args : list string) : list string := take (length args - 1) args.

Definition sim_run (args : list string) (wd : sim) : outcome string * sim :=
  match args with
  | _ :: "-t" :: t :: cmd :: c :: r =>
      let r := unwait r in
      let l := default [] (table wd !! (t, c)) in
      if decide (cmd = "-C") then
        (if decide (r ∈ l) then Ret "" else Err (ExitError 1 "no such rule"), wd)
      else if decide (cmd = "-A") then (Ret "", wd <| table := <[(t, c) := l ++ [r]]> (table wd) |>)
      else if decide (cmd = "-D") then
        (Ret "", wd <| table := <[(t, c) := remove_first r l]> (table wd) |>)
      else (Ret "", wd)
  | _ => (Ret "iptables v1.6.1", wd)
  end.

(** openvpn brings its interface up and routes through it. *)
Definition sim_start (args : list string) (wd : sim) : outcome Z * sim :=
  match args with
  | "openvpn" :: _ :: _ :: _ :: dev :: _ =>
      if installed wd then
        (Ret 4242, wd <| interfaces := {| net.Intf_Index := tun_index wd; net.Intf_Name := dev |}
                                         :: interfaces wd |>
                      <| route := Some (tun_index wd) |>)
      else (Err (ErrorString "executable file not found"), wd)
  | _ => (Ret 4243, wd)
  end.

Definition sim_kill (wd : sim) : sim :=
  if cleans_up wd then
    wd <| interfaces := filter (fun i => net.Intf_Index i <> tun_index wd) (interfaces wd) |>
       <| route := Some 1 |>
  else wd.

#[export] Instance sim_OS : OS sim := {
  os_ReadFile p wd :=
    (if decide (p = ipForwardPath)
     then Ret [if ip_forward wd then Byte.x31 else Byte.x30; Byte.x0a]
     else find_file p (files wd), wd);
  os_WriteFile p d wd :=
    if decide (p = ipForwardPath /\ writable wd = true)
    then (Ret tt, wd <| ip_forward := bool_decide (d = [Byte.x31]) |>)
    else (Err (SysError "permission denied"), wd);
  os_TempFile wd := (Ret "/tmp/rnd", wd);
  os_FileWrite _ _ wd := (Ret tt, wd);
  os_FileClose _ wd := (Ret tt, wd);
  os_Remove _ wd := (Ret tt, wd);
  os_LookPath p wd := (Ret ("/sbin/" +:+ p), wd);
  os_Start args wd := sim_start args wd;
  os_Run args wd := sim_run args wd;
  os_FindProcess _ wd := (Ret tt, wd);
  os_Signal0 _ wd := (Ret tt, wd);
  os_Kill _ wd := (Ret tt, sim_kill wd);
  os_Open _ wd := (Ret 3, wd);
  os_Flock _ wd := (FlockHeld, wd);
  os_Close _ wd := (Ret tt, wd);
  os_Now wd := (clock wd, wd <| clock := clock wd + 1 |>);
  os_Select wd :=
    if decide (0 < ticks wd <= sim_patience)%nat
    then (CheckTick, wd <| ticks := (ticks wd - 1)%nat |>)
    else (TimeoutTick, wd);
  os_InterfaceByName n wd :=
    (match find_intf n (interfaces wd) with
     | Some i => Ret i
     | None => Err (ErrorString "no such network interface")
     end, wd);
  os_Addrs _ wd :=
    (Ret [IPNetAddr {| net.IPNet_IP := [Byte.x0a; Byte.x08; Byte.x00; Byte.x02];
                       net.IPNet_Mask := [Byte.xff; Byte.xff; Byte.xff; Byte.x00] |}], wd);
  nl_LinkAdd n wd :=
    (Ret tt, wd <| interfaces := {| net.Intf_Index := 10; net.Intf_Name := n |} :: interfaces wd |>);
  nl_LinkDel n wd :=
    (Ret tt, wd <| interfaces := filter (fun i => net.Intf_Name i <> n) (interfaces wd) |>);
  nl_LinkSetUp _ wd := (Ret tt, wd);
  nl_LinkByName n wd := (Ret n, wd);
  nl_LinkIsBridge _ wd := (true, wd);
  nl_LinkSetMaster _ _ wd := (Ret tt, wd);
  nl_AddrAdd _ _ wd := (if addr_ok wd then Ret tt else Err (SysError "permission denied"), wd);
  nl_RouteAdd _ _ _ _ wd := (Ret tt, wd);
  nl_RouteGet _ wd :=
    (match route wd with Some i => Ret [i] | None => Err (SysError "network is unreachable") end, wd);
  os_Rand n wd := (clock wd `mod` n, wd);
  os_DialUnix _ _ wd := (Ret tt, wd);
  os_ConnWrite _ wd := (if sock_ok wd then Ret tt else Err (SysError "connection refused"), wd);
  os_ConnRead _ wd := (Ret (String.list_byte_of_string "state=ENABLED"), wd);
  os_ConnClose wd := (Ret tt, wd)
}.

(** ** The laws hold *)

#[export] Instance sim_Forwarding : Forwarding sim.
Proof.
  refine {| forwarding := ip_forward |}; simpl; try reflexivity.
  - intros b wd. destruct (decide (ipForwardPath = ipForwardPath /\ writable wd = true)); simpl; [|done].
    unfold constant. by destruct b.
  - intros args wd. unfold sim_start. repeat case_match; reflexivity.
  - intros _ wd. unfold sim_kill. by case_match.
  - intros wd. by case_match.
  - intros args wd. unfold sim_run. repeat case_match; reflexivity.
Defined.

#[export] Instance sim_Timers : Timers sim.
Proof.
  refine {| left wd := if decide (ticks wd <= sim_patience)%nat then ticks wd else O;
            patience := sim_patience |}; simpl; try done.
  - intros wd. case_decide; lia.
  - intros wd. case_decide; [right|by left]. simpl. unfold constant. rewrite !decide_True by lia. lia.
Defined.

Lemma unwait_app r : unwait (r ++ ["--wait"]) = r.
Proof. unfold unwait. rewrite length_app. simpl. by rewrite Nat.add_sub, take_app_length. Qed.

#[export] Instance sim_RuleTable : RuleTable sim.
Proof.
  refine {| rules wd k := default [] (table wd !! k) |}; intros p t c r wd; simpl;
    rewrite unwait_app.
  - split; [done|]. by case_decide.
  - unfold constant. split; [by rewrite lookup_insert_eq|]. intros k Hk. by rewrite lookup_insert_ne.
  - unfold constant. split; [by rewrite lookup_insert_eq|]. intros k Hk. by rewrite lookup_insert_ne.
Defined.

(** ** Fixtures *)

Definition sim_vpn : VPNOpt :=
  {| VPN_Name := "home"; VPN_Path := "/etc/home.ovpn"; VPN_Icon := "house";
     VPN_Username := "user"; VPN_Password := "secret" |}.

Definition sim_ipt : IPTables :=
  {| path := "/sbin/iptables"; proto := ProtocolIPv4; hasCheck := true; hasWait := true |}.

Definition sim_config : Config := ConfigExample.sample "nl80211".

(** A system with a wired uplink of link index 1 and forwarding on. *)
Definition sim_world : sim :=
  {| ip_forward := true; writable := true; interfaces := [{| net.Intf_Index := 1; net.Intf_Name := "eth0" |}];
     route := Some 1; ticks := 20; clock := 1000; table := ∅; installed := true;
     cleans_up := true; addr_ok := true; sock_ok := true; tun_index := 7; files := [] |}.

Definition sim_start_state (wd : sim) : sys sim Controller :=
  Sys (freshController sim_config sim_ipt) wd [].

(** The state a computation ends in. *)
Definition final {W C A} (m : GM W C A) (s : sys W C) : sys W C :=
  match m s with Some (_, s') => s' | None => s end.
