(* ===== verification/Killswitch.v ===== *)
(** * The kill switch

    IPv4 forwarding is what lets the clients of the access point reach the
    internet.  The theorems of this file say when [SetVPN] switches it on, how it
    is left when something goes wrong, that [SetVPN] returns, and what a tick of
    the circuit breaker does. *)

From Stdlib Require Import ZArith Lia NArith Ascii Strings.Byte.
From stdpp Require Import base numbers gmap strings list fin_maps.
From coqutil Require Import Datatypes.RecordSetters.
From S2P Require Import Prelude GoNet Dhcp4 OS Config NetUtil Iptables Hostapd Controller ControllerSpec SimOS.
Import RecordSetters.TriangleBracketNotations.

Open Scope Z_scope.

(** C2: Whatever the system answers, and however [SetVPN] ends, it has either not
    switched forwarding on, or it has done so once, as the last thing before it
    removed the password file, right after a route lookup whose answer was the
    interface the controller holds as the VPN's; and then its own result is that
    of the write. *)
Theorem SetVPN_enables_through_vpn {W} `{OS W} turns vpn (s : sys W Controller) r s' :
  SetVPN turns vpn s = Some (r, s') ->
  (exists l, trace s' = trace s ++ l /\ Forall (fun e => ~ enables e) l) \/
  (exists pre vi rts pw,
     trace s' = trace s ++ pre ++
       [EvRouteGet googleDNS (Ret (net.Intf_Index vi :: rts));
        EvWriteFile ipForwardPath (forward_data true) r; EvRemove pw] /\
     Forall (fun e => ~ enables e) pre /\ vpnInterface (ctl s') = Some vi).
Proof.
  intros E. destruct (SetVPN_guarded turns s vpn s r s' (reflexivity s) E) as [Hq|[pw Hg]].
  - by left.
  - destruct Hg as [Hq|(pre & vi & rts & Ht & Hp & Hv)]; [by left|].
    right. by exists pre, vi, rts, pw.
Qed.

Lemma SetVPN_enables_through_vpn_witness :
  exists pre vi rts pw,
    trace (final (SetVPN 300 sim_vpn) (sim_start_state sim_world)) = pre ++
      [EvRouteGet googleDNS (Ret (net.Intf_Index vi :: rts));
       EvWriteFile ipForwardPath (forward_data true) (Ret tt); EvRemove pw] /\
    net.Intf_Index vi = 7.
Proof.
  destruct (SetVPN_enables_through_vpn 300 sim_vpn (sim_start_state sim_world) (Ret tt)
    (final (SetVPN 300 sim_vpn) (sim_start_state sim_world))) as [(l & Hl & Fl)|H].
  - vm_compute. reflexivity.
  - exfalso. vm_compute in Hl. subst l. rewrite Forall_forall in Fl.
    apply (Fl (EvWriteFile ipForwardPath (forward_data true) (Ret tt))); [|by eexists].
    apply list_elem_of_In. vm_compute. tauto.
  - destruct H as (pre & vi & rts & pw & Ht & _ & Hv). exists pre, vi, rts, pw.
    split; [exact Ht|]. vm_compute in Hv. injection Hv as <-. reflexivity.
Defined.

(** C1: Once [SetVPN] has ended, in whatever way, forwarding is on exactly when it
    returned without an error, or when forwarding was on before and the attempt of
    this call to switch it off failed: the switch could not be read or not be
    written, which the code only logs.  With a switch that can be accessed every
    error and every panic leaves the clients cut off. *)
Theorem SetVPN_forwarding_iff {W} `{Forwarding W} turns vpn (s : sys W Controller) r s' :
  SetVPN turns vpn s = Some (r, s') ->
  exists l, trace s' = trace s ++ l /\
    (forwarding (world s') = true <->
     r = Ret tt \/ (forwarding (world s) = true /\ left_on l)).
Proof. apply SetVPN_on_success. Qed.

(** The route never comes up: with a switch that can be written forwarding was on
    and is off in the end, with one that cannot it stays on. *)
Definition no_route (w : bool) : sys sim Controller :=
  sim_start_state (sim_world <| ticks := 1%nat |> <| writable := w |>).

Lemma SetVPN_forwarding_iff_witness :
  forwarding (world (no_route true)) = true /\
  forwarding (world (final (SetVPN 300 sim_vpn) (no_route true))) = false /\
  forwarding (world (final (SetVPN 300 sim_vpn) (no_route false))) = true.
Proof.
  split; [reflexivity|].
  assert (E : forall w, SetVPN 300 sim_vpn (no_route w) =
    Some (Err (ErrorString "timeout waiting for VPN to routes up"), final (SetVPN 300 sim_vpn) (no_route w)))
    by (intros []; vm_compute; reflexivity).
  split.
  - destruct (SetVPN_forwarding_iff 300 sim_vpn (no_route true) _ _ (E true)) as (l & Ht & Hi).
    destruct (forwarding _); [|reflexivity]. destruct Hi as [Hi _].
    destruct (Hi eq_refl) as [Hr|[_ Hl]]; [discriminate|]. exfalso. revert Hl. apply not_left_on.
    vm_compute in Ht. subst l. reflexivity.
  - destruct (SetVPN_forwarding_iff 300 sim_vpn (no_route false) _ _ (E false)) as (l & Ht & Hi).
    apply Hi. right. split; [reflexivity|]. vm_compute in Ht. subst l.
    lazymatch goal with |- left_on (?a :: ?b :: ?l) => exists [a], b, l end.
    split; [reflexivity|]. split; [right; by eexists|].
    repeat (apply Forall_cons_2; [intros [[? ?]|[? ?]]; discriminate|]). apply Forall_nil_2.
Defined.

(** C37: After a successful [SetVPN] the controller holds the VPN it was asked for: its
    configuration, the process that was started with it, and its interface; the
    mutex is free. *)
Theorem SetVPN_success {W} `{OS W} turns vpn (s s' : sys W Controller) :
  SetVPN turns vpn s = Some (Ret tt, s') ->
  vpnConf (ctl s') = Some vpn /\ is_Some (vpnInterface (ctl s')) /\ setupLock (ctl s') = false /\
  config (ctl s') = config (ctl s) /\
  exists pw pid, vpnProc (ctl s') = Some {| Args := openvpnArgs (ctl s) vpn pw; Process := Some pid |}.
Proof.
  intros E. pose proof (SetVPN_unlocks turns vpn s _ _ I E) as Hl.
  destruct (SetVPN_succeeds turns (config (ctl s)) vpn s _ _ eq_refl E eq_refl)
    as [(Hc & Hv & pw & pid & Hp) Hi].
  split_and!; [done..|]. exists pw, pid. rewrite Hp. unfold openvpnArgs, tunName. by rewrite Hc.
Qed.

Lemma SetVPN_success_witness :
  vpnConf (ctl (final (SetVPN 300 sim_vpn) (sim_start_state sim_world))) = Some sim_vpn.
Proof.
  apply (SetVPN_success 300 sim_vpn (sim_start_state sim_world)
           (final (SetVPN 300 sim_vpn) (sim_start_state sim_world))).
  vm_compute. reflexivity.
Defined.

(** C36: [SetVPN] returns or panics, it does not wait for ever: with the mutex free and
    more turns than the tickers allow, each of its three waiting loops ends. *)
Theorem SetVPN_ends {W} `{Timers W} turns vpn (s : sys W Controller) :
  setupLock (ctl s) = false -> (patience < turns)%nat ->
  exists r s', SetVPN turns vpn s = Some (r, s').
Proof. intros Hl Ht. destruct (SetVPN_ends_lemma turns vpn s Hl Ht) as [[r s'] E]. eauto. Qed.

Lemma SetVPN_ends_witness :
  exists r s', SetVPN 221 sim_vpn (sim_start_state sim_world) = Some (r, s').
Proof. apply SetVPN_ends; [reflexivity|]. apply Nat.ltb_lt. reflexivity. Defined.

(** C39: When openvpn cannot be started, [vpnProc] is left with a nil [Process], and
    every later [SetVPN] panics on it and leaves it there: the VPN cannot be
    changed again until the daemon is restarted. *)
Theorem failed_start_wedges {W} `{OS W} turns vpn vpn' (s s1 : sys W Controller) r :
  SetVPN turns vpn s = Some (r, s1) ->
  ~ avoids failed_start s s1 ->
  wedged (ctl s1) /\
  exists p s2, SetVPN turns vpn' s1 = Some (Panic p, s2) /\ wedged (ctl s2).
Proof.
  intros E Hf. pose proof (SetVPN_unlocks turns vpn s _ _ I E) as Hl.
  destruct (SetVPN_start turns s vpn s r s1 (reflexivity s) E) as [Ha|Hw]; [done|].
  split; [done|]. destruct (SetVPN_of_wedged turns vpn' s1 Hl Hw) as (s2 & p & E2 & Hw2 & _). eauto.
Qed.

Lemma failed_start_wedges_witness :
  let s := sim_start_state (sim_world <| installed := false |>) in
  let s1 := final (SetVPN 300 sim_vpn) s in
  exists p s2, SetVPN 300 sim_vpn s1 = Some (Panic p, s2) /\ wedged (ctl s2).
Proof.
  intros s s1.
  refine (proj2 (failed_start_wedges 300 sim_vpn sim_vpn s s1
                   (Err (ErrorString "executable file not found")) _ _)).
  - vm_compute. reflexivity.
  - intros (l & Hl & Fl). rewrite Forall_forall in Fl. vm_compute in Hl. subst l.
    apply (Fl (EvStart (openvpnArgs (ctl s) sim_vpn "/tmp/rnd")
                 (Err (ErrorString "executable file not found")))); [|by eexists _, _].
    apply list_elem_of_In. vm_compute. tauto.
Defined.

(** C5: A tick of the circuit breaker that finds the route to the internet on another
    interface than the VPN's marks the breaker tripped and releases the mutex, in
    any case; forwarding is on afterwards only if it was on and could not be
    switched off, because the switch could not be read or not be written. *)
Theorem circuitBreaker_trips {W} `{Forwarding W} (s : sys W Controller) vi i rts wd :
  setupLock (ctl s) = false -> vpnInterface (ctl s) = Some vi -> breakerTripped (ctl s) = false ->
  nl_RouteGet googleDNS (world s) = (Ret (i :: rts), wd) -> i <> net.Intf_Index vi ->
  exists s' l, circuitBreakerTick s = Some (Ret tt, s') /\
    ctl s' = (ctl s) <| breakerTripped := true |> <| breakerUpdated := fst (os_Now wd) |> /\
    trace s' = trace s ++ l /\
    (forwarding (world s') = true <-> forwarding (world s) = true /\ left_on l).
Proof.
  intros Hl Hv Ht Hr Hi. unfold circuitBreakerTick, mbind, GM_bind, get, breakerArmed. rewrite Hv, Ht.
  destruct (breakerCheck_elsewhere s vi i rts wd Hl Hv Hr Hi) as (s' & E & (l & Htr & Hf) & Hc).
  by exists s', l.
Qed.

(** The VPN is up and the route falls back to the uplink. *)
Definition sim_up : sys sim Controller := final (SetVPN 300 sim_vpn) (sim_start_state sim_world).
Definition sim_fallback : sys sim Controller :=
  Sys (ctl sim_up) ((world sim_up) <| route := Some 1 |>) (trace sim_up).

Lemma circuitBreaker_trips_witness :
  forwarding (world sim_fallback) = true /\
  exists s', circuitBreakerTick sim_fallback = Some (Ret tt, s') /\ forwarding (world s') = false.
Proof.
  split; [reflexivity|].
  destruct (circuitBreaker_trips sim_fallback {| net.Intf_Index := 7; net.Intf_Name := "tunops" |}
              1 [] (world sim_fallback)) as (s' & l & E & _ & Ht & Hf);
    [vm_compute; reflexivity..|discriminate|].
  exists s'. split; [exact E|]. destruct (forwarding (world s')) eqn:Ew; [|reflexivity].
  apply proj1 in Hf. destruct (Hf eq_refl) as [_ Hl].
  exfalso. revert Hl. apply not_left_on. clear Hf Ew. vm_compute in E. injection E as <-.
  vm_compute in Ht. injection Ht as <-. reflexivity.
Defined.

(** A tick that finds the route on the VPN's interface, or cannot look it up,
    leaves the controller as it is, and forwarding with it: a failed lookup does
    not trip the breaker. *)
Theorem circuitBreaker_holds {W} `{Forwarding W} (s : sys W Controller) vi :
  setupLock (ctl s) = false -> vpnInterface (ctl s) = Some vi -> breakerTripped (ctl s) = false ->
  match fst (nl_RouteGet googleDNS (world s)) with
  | Ret (i :: _) => i = net.Intf_Index vi
  | Ret [] => False
  | Err _ => True
  | Panic _ => False
  end ->
  exists s', circuitBreakerTick s = Some (Ret tt, s') /\ ctl s' = ctl s /\
    forwarding (world s') = forwarding (world s).
Proof.
  intros Hl Hv Ht Hr. unfold circuitBreakerTick, mbind, GM_bind, get, breakerArmed. rewrite Hv, Ht.
  destruct (nl_RouteGet googleDNS (world s)) as [r wd] eqn:E.
  destruct (breakerCheck_otherwise s vi r wd Hl Hv E) as [tr Hb].
  - destruct r as [[|i rts]|e|p]; simpl in Hr; [done| |right; by exists e|done]. left. exists rts. by subst.
  - eexists. split; [exact Hb|]. split; [done|]. simpl.
    pose proof (keep_RouteGet googleDNS (world s)) as Hk. by rewrite E in Hk.
Qed.

Lemma circuitBreaker_holds_witness :
  exists s', circuitBreakerTick (Sys (ctl sim_up) ((world sim_up) <| route := None |>) []) =
    Some (Ret tt, s') /\ forwarding (world s') = true.
Proof.
  destruct (circuitBreaker_holds (Sys (ctl sim_up) ((world sim_up) <| route := None |>) [])
              {| net.Intf_Index := 7; net.Intf_Name := "tunops" |}) as (s' & E & _ & Hf);
    [vm_compute; reflexivity..|exact I|].
  exists s'. split; [exact E|]. rewrite Hf. vm_compute. reflexivity.
Defined.
