(* ===== verification/Machine.v ===== *)
(** * The daemon's goroutines together

    The routines started by [NewController], the HTTP handlers and [main] run at
    the same time on one [Controller].  A state of the machine is the controller
    with the world, and where each routine is.  What a routine does while it holds
    [setupLock] is one step; reads of the fields without the mutex (the guards of
    the two tickers) are steps of their own, so that anything may happen between
    a guard and the region it guards.  A panic in an HTTP handler is recovered by
    [net/http]; a panic in any other goroutine ends the process. *)

From Stdlib Require Import ZArith Lia NArith Ascii Strings.Byte.
From stdpp Require Import base numbers gmap strings list fin_maps relations.
From coqutil Require Import Datatypes.RecordSetters.
From S2P Require Import Prelude GoNet Dhcp4 OS Config NetUtil Iptables Hostapd Controller ControllerSpec SimOS.
Import RecordSetters.TriangleBracketNotations.

Open Scope Z_scope.

(** A ticking routine waits in its [select], has passed its guard, or returned. *)
Inductive routine := Waiting | Guarded | Returned.

#[export] Instance routine_eq_dec : EqDecision routine.
Proof. solve_decision. Defined.

(** [main]: it sets the first VPN, waits for a signal, runs its deferred calls
    (the server's [Shutdown], then [Close], which closes the channel and waits for
    the routines), or has returned. *)
Inductive main_at := SettingVPN | WaitingSignal | Leaving | Closing | Exited.

(** The HTTP server answers requests. *)
Definition serving (m : main_at) : bool :=
  match m with SettingVPN | WaitingSignal | Leaving => true | Closing | Exited => false end.

Record machine (W : Type) := {
  at_sys : sys W Controller;
  breaker : routine;
  status : routine;
  main : main_at;
  crashed : bool
}.
Arguments at_sys {W} _.
Arguments breaker {W} _.
Arguments status {W} _.
Arguments main {W} _.
Arguments crashed {W} _.

(** Whose step it is. *)
Inductive label := LBreaker | LStatus | LSetVPN | LMain | LWorld.

Section machine.
Context {W : Type} `{OS W} (w : Z) (turns : nat).

(** A region of a plain goroutine: a panic crashes the process. *)
Definition panicked {A} (r : outcome A) : bool := match r with Panic _ => true | _ => false end.

(** The other programs and the network change the world in any way [env] allows. *)
Context (env : W -> W -> Prop).

Inductive step : label -> machine W -> machine W -> Prop :=
(* circuitBreakerRoutine *)
| breaker_guard_holds s b m :
    breakerArmed (ctl s) = true ->
    step LBreaker {| at_sys := s; breaker := Waiting; status := b; main := m; crashed := false |}
      {| at_sys := s; breaker := Guarded; status := b; main := m; crashed := false |}
| breaker_guard_fails s s' r b m :
    breakerArmed (ctl s) = false -> breakerIdle s = Some (r, s') ->
    step LBreaker {| at_sys := s; breaker := Waiting; status := b; main := m; crashed := false |}
      {| at_sys := s'; breaker := Waiting; status := b; main := m; crashed := panicked r |}
| breaker_checks s s' r b m :
    breakerCheck s = Some (r, s') ->
    step LBreaker {| at_sys := s; breaker := Guarded; status := b; main := m; crashed := false |}
      {| at_sys := s'; breaker := Waiting; status := b; main := m; crashed := panicked r |}
| breaker_returns s s' r b m :
    shutdown (ctl s) = true -> routineDone s = Some (r, s') ->
    step LBreaker {| at_sys := s; breaker := Waiting; status := b; main := m; crashed := false |}
      {| at_sys := s'; breaker := Returned; status := b; main := m; crashed := false |}
(* hostapdStatusRoutine *)
| status_guard_holds s b m :
    is_Some (hostapdProc (ctl s)) ->
    step LStatus {| at_sys := s; breaker := b; status := Waiting; main := m; crashed := false |}
      {| at_sys := s; breaker := b; status := Guarded; main := m; crashed := false |}
| status_checks s s' r b m :
    hostapdStatusCheck w s = Some (r, s') ->
    step LStatus {| at_sys := s; breaker := b; status := Guarded; main := m; crashed := false |}
      {| at_sys := s'; breaker := b; status := Waiting; main := m; crashed := panicked r |}
| status_returns s s' r b m :
    shutdown (ctl s) = true -> routineDone s = Some (r, s') ->
    step LStatus {| at_sys := s; breaker := b; status := Waiting; main := m; crashed := false |}
      {| at_sys := s'; breaker := b; status := Returned; main := m; crashed := false |}
(* the /setVPN handler *)
| http_SetVPN s s' r vpn b b' m :
    serving m = true -> SetVPN turns vpn s = Some (r, s') ->
    step LSetVPN {| at_sys := s; breaker := b; status := b'; main := m; crashed := false |}
      {| at_sys := s'; breaker := b; status := b'; main := m; crashed := false |}
(* main *)
| main_SetVPN s s' r vpn vpns b b' :
    VPNConfigurations (config (ctl s)) = vpn :: vpns -> SetVPN turns vpn s = Some (r, s') ->
    step LSetVPN {| at_sys := s; breaker := b; status := b'; main := SettingVPN; crashed := false |}
      {| at_sys := s'; breaker := b; status := b';
         main := match r with Ret _ => WaitingSignal | _ => Leaving end; crashed := false |}
| main_no_VPN s b b' :
    VPNConfigurations (config (ctl s)) = [] ->
    step LMain {| at_sys := s; breaker := b; status := b'; main := SettingVPN; crashed := false |}
      {| at_sys := s; breaker := b; status := b'; main := WaitingSignal; crashed := false |}
| main_signal s b b' :
    step LMain {| at_sys := s; breaker := b; status := b'; main := WaitingSignal; crashed := false |}
      {| at_sys := s; breaker := b; status := b'; main := Leaving; crashed := false |}
| main_closes s s' r b b' :
    closeShutdown s = Some (r, s') ->
    step LMain {| at_sys := s; breaker := b; status := b'; main := Leaving; crashed := false |}
      {| at_sys := s'; breaker := b; status := b'; main := Closing; crashed := panicked r |}
| main_exits s s' r b b' :
    closeRest s = Some (r, s') ->
    step LMain {| at_sys := s; breaker := b; status := b'; main := Closing; crashed := false |}
      {| at_sys := s'; breaker := b; status := b'; main := Exited; crashed := panicked r |}
(* the world *)
| world_changes s wd b b' m :
    env (world s) wd ->
    step LWorld {| at_sys := s; breaker := b; status := b'; main := m; crashed := false |}
      {| at_sys := Sys (ctl s) wd (trace s); breaker := b; status := b'; main := m; crashed := false |}.

(** Steps whose labels are all in [L]. *)
Inductive steps (L : label -> Prop) : machine W -> machine W -> Prop :=
| steps_refl m : steps L m m
| steps_step l m1 m2 m3 : L l -> step l m1 m2 -> steps L m2 m3 -> steps L m1 m3.
End machine.

(** ** Frames of the regions *)

(** The fields [SetVPN] owns. *)
Definition vpn_state (c : Controller) := (vpnInterface c, vpnConf c, vpnProc c).

(** The VPN's fields are left alone, and forwarding is at most switched off: when
    it is on afterwards it was on before, and it was not attempted to switch it off,
    or that failed. *)
Definition calm {W} `{Forwarding W} (s s' : sys W Controller) : Prop :=
  (exists l, trace s' = trace s ++ l /\
     (forwarding (world s') = true -> forwarding (world s) = true /\ (unattempted l \/ left_on l))) /\
  vpn_state (ctl s') = vpn_state (ctl s).

Lemma left_on_later l l' : left_on l' -> left_on (l ++ l').
Proof. intros (l1 & e & l2 & -> & He). exists (l ++ l1), e, l2. by rewrite <- app_assoc. Qed.

#[export] Instance calm_preorder {W} `{Forwarding W} : PreOrder (@calm W _ _).
Proof.
  split.
  - intros s. split; [|done]. exists []. rewrite app_nil_r. split; [done|]. intros Hf. split; [done|]. left. apply Forall_nil_2.
  - intros s1 s2 s3 [(l1 & T1 & H1) E1] [(l2 & T2 & H2) E2]. split; [|congruence].
    exists (l1 ++ l2). rewrite T2, T1, app_assoc. split; [done|]. intros Hf.
    destruct (H2 Hf) as [Hf2 D2]. destruct (H1 Hf2) as [Hf1 D1]. split; [done|].
    destruct D2 as [U2|L2]; [|right; by apply left_on_later].
    destruct D1 as [U1|L1]; [left; by apply Forall_app|right; by apply left_on_after].
Qed.

Lemma still_calm {W} `{Forwarding W} (s s' : sys W Controller) :
  still s s' -> vpn_state (ctl s') = vpn_state (ctl s) -> calm s s'.
Proof.
  intros [Hf (l & Ht & Hl)] Hv. split; [|done]. exists l. split; [done|]. unfold same_forwarding in Hf. rewrite Hf.
  intros Hon. split; [done|]. by left.
Qed.

Ltac calm_atom := apply still_calm; [atom|reflexivity].

(** Unfolds the regions of the tickers and of [Close]. *)
Ltac region :=
  unfold breakerCheck, breakerIdle, hostapdStatusCheck, closeShutdown, closeRest, killIfSet,
    QueryStatus, Query, randStringFname, Delete, Iptables.run, runWithOutput, run_command,
    newXtablesFileLock, tryLock, Iptables.Unlock, DeleteNetBridge, routineDone; method.

Section regions.
Context {W : Type} `{OS W} (w : Z).

(** What the regions leave alone. *)
Lemma breakerCheck_keeps : respects (keeps (fun c => (shutdown c, wg c))) breakerCheck.
Proof. unfold breakerCheck, DisableForwarding, IPv4ForwardingEnabled, IPv4EnableForwarding. method. Qed.
Lemma hostapdStatusCheck_keeps :
  respects (keeps (fun c => (shutdown c, wg c, breakerTripped c))) (hostapdStatusCheck w).
Proof. region. Qed.
Lemma closeRest_keeps :
  respects (keeps (fun c => (shutdown c, wg c, breakerTripped c, setupLock c))) closeRest.
Proof. region. Qed.

(** The mutex is free after a check that did not panic. *)
Lemma breakerCheck_unlocks :
  triple (fun _ => True) breakerCheck
    (fun r s => match r with Ret _ => setupLock (ctl s) = false | Err _ => False | Panic _ => True end).
Proof.
  unfold breakerCheck. apply (triple_bind _ _ _ (fun _ _ => True)).
  { intros s r s' _. unfold Lock, mbind, GM_bind, get, modify.
    by destruct (setupLock _); intros [= <- <-]. }
  intros _. apply (triple_bind _ _ _ (fun _ _ => True)).
  { intros s r s' _. unfold try. destruct (RouteGet s) as [[[] ?]|]; by intros [= <- <-]. }
  intros [rts|e]; [|by apply triple_modify].
  apply (triple_bind _ _ _ (fun _ _ => True)).
  { apply triple_pure. by destruct rts. }
  intros i. apply (triple_bind _ _ _ (fun _ _ => True)); [by apply triple_get|].
  intros c. apply (triple_bind _ _ _ (fun _ _ => True)).
  { apply triple_pure. by destruct (vpnInterface c). }
  intros vi. apply (triple_bind _ _ _ (fun _ _ => True)); [|intros _; by apply triple_modify].
  case_decide; [|by apply triple_ret].
  intros s r s' _. unfold mbind, GM_bind, modify, ask. destruct (os_Now _) as [now wd]. intros E.
  destruct r; [done| |done]. by apply DisableForwarding_no_error in E.
Qed.

Lemma hostapdStatusCheck_unlocks :
  triple (fun _ => True) (hostapdStatusCheck w)
    (fun r s => match r with Ret _ => setupLock (ctl s) = false | Err _ => False | Panic _ => True end).
Proof.
  unfold hostapdStatusCheck. apply (triple_bind _ _ _ (fun _ _ => True)).
  { intros s r s' _. unfold Lock, mbind, GM_bind, get, modify.
    by destruct (setupLock _); intros [= <- <-]. }
  intros _. apply (triple_bind _ _ _ (fun _ _ => True)); [by apply triple_get|].
  intros c. apply (triple_bind _ _ _ (fun _ _ => True)).
  { intros s r s' _. unfold try. destruct (QueryStatus w _ s) as [[[] ?]|]; by intros [= <- <-]. }
  intros [st|e]; [|by apply triple_modify].
  apply (triple_bind _ _ _ (fun _ _ => True)); [by apply triple_modify|].
  intros _. by apply triple_modify.
Qed.
End regions.

Section calm_regions.
Context {W : Type} `{Forwarding W} (w : Z).

Lemma DisableForwarding_calm : respects calm (@DisableForwarding W Controller _).
Proof.
  intros s r s' E. destruct (DisableForwarding_cleared s) as (s1 & E' & Hc & (l & Ht & Hf)).
  rewrite E' in E. injection E as <- <-. split; [|by rewrite Hc]. exists l. split; [done|].
  intros [Hon Hl]%Hf. split; [done|]. by right.
Qed.
Lemma breakerCheck_calm : respects calm (@breakerCheck W _).
Proof. pose proof DisableForwarding_calm. region; calm_atom. Qed.
Lemma breakerIdle_calm : respects calm (@breakerIdle W _).
Proof. region; calm_atom. Qed.
Lemma hostapdStatusCheck_calm : respects calm (hostapdStatusCheck (W := W) w).
Proof. region; calm_atom. Qed.
Lemma closeRest_calm : respects calm (@closeRest W _).
Proof. region; calm_atom. Qed.
Lemma closeShutdown_calm : respects calm (@closeShutdown W).
Proof. region; calm_atom. Qed.
Lemma routineDone_calm : respects calm (@routineDone W).
Proof. region; calm_atom. Qed.
End calm_regions.

(** ** The invariant *)

Definition live (r : routine) : Z := match r with Returned => 0 | _ => 1 end.

Section invariant.
Context {W : Type} {HOS : OS W} (w : Z) (turns : nat) (env : W -> W -> Prop).

Record inv (m : machine W) : Prop := {
  inv_mutex : crashed m = false -> setupLock (ctl (at_sys m)) = false;
  inv_tripped : breakerTripped (ctl (at_sys m)) = true -> breaker m <> Guarded;
  inv_wg : wg (ctl (at_sys m)) = live (breaker m) + live (status m);
  inv_shutdown : shutdown (ctl (at_sys m)) = negb (serving (main m))
}.

Lemma SetVPN_core vpn s r s' :
  SetVPN turns vpn s = Some (r, s') ->
  keeps (fun c => (shutdown c, wg c, breakerTripped c)) s s' /\ setupLock (ctl s') = false.
Proof.
  intros E. split; [|by eapply (SetVPN_unlocks turns vpn s)].
  eapply (SetVPN_keeps turns (fun c => (shutdown c, wg c, breakerTripped c))); [done..|exact E].
Qed.

Lemma inv_SetVPN vpn s r s' b b' m m' :
  inv {| at_sys := s; breaker := b; status := b'; main := m; crashed := false |} ->
  SetVPN turns vpn s = Some (r, s') -> serving m' = serving m ->
  inv {| at_sys := s'; breaker := b; status := b'; main := m'; crashed := false |}.
Proof.
  intros [H2 H3 H4 H5] E Hm. destruct (SetVPN_core _ _ _ _ E) as [[= E1 E2 E3] E4]. simpl in *.
  split; simpl; [done|by rewrite E3|by rewrite E2|by rewrite E1, Hm].
Qed.

Lemma inv_breaker m m' : step w turns env LBreaker m m' -> inv m -> inv m'.
Proof.
  intros Hstep [H2 H3 H4 H5]. inversion Hstep; subst; clear Hstep; simpl in *.
  - split; simpl; [done| |done|done]. intros Ht. rename select (breakerArmed _ = true) into Ha. revert Ha. unfold breakerArmed. rewrite Ht.
    by destruct (vpnInterface _).
  - rename select (breakerIdle _ = _) into E. revert E. unfold breakerIdle, mbind, GM_bind, ask, modify. destruct (os_Now _) as [now wd].
    intros [= <- <-]. split; simpl; auto.
  - rename select (breakerCheck _ = _) into E. pose proof (breakerCheck_keeps _ _ _ E) as [= E1 E2].
    pose proof (breakerCheck_unlocks _ _ _ I E) as Hu. split; simpl; [|done|by rewrite E2|by rewrite E1]. by destruct r.
  - rename select (routineDone _ = _) into E. revert E. unfold routineDone, modify. intros [= <- <-].
    split; simpl; [auto|done| |done]. unfold constant in *. lia.
Qed.

Lemma inv_status m m' : step w turns env LStatus m m' -> inv m -> inv m'.
Proof.
  intros Hstep [H2 H3 H4 H5]. inversion Hstep; subst; clear Hstep; simpl in *.
  - by split.
  - rename select (hostapdStatusCheck _ _ = _) into E.
    pose proof (hostapdStatusCheck_keeps _ _ _ _ E) as [= E1 E2 E3].
    pose proof (hostapdStatusCheck_unlocks _ _ _ _ I E) as Hu.
    split; simpl; [|by rewrite E3|by rewrite E2|by rewrite E1]. by destruct r.
  - rename select (routineDone _ = _) into E. revert E. unfold routineDone, modify. intros [= <- <-].
    split; simpl; [auto|done| |done]. unfold constant in *. lia.
Qed.

Lemma inv_main m m' : step w turns env LMain m m' -> inv m -> inv m'.
Proof.
  intros Hstep [H2 H3 H4 H5]. inversion Hstep; subst; clear Hstep; simpl in *; [by split..| |].
  - rename select (closeShutdown _ = _) into E. revert E.
    unfold closeShutdown, mbind, GM_bind, get, modify. rewrite H5. simpl.
    intros [= <- <-]. split; simpl; auto.
  - rename select (closeRest _ = _) into E. pose proof (closeRest_keeps _ _ _ E) as [= E1 E2 E3 E4].
    split; simpl; [by rewrite E4; auto|by rewrite E3|by rewrite E2|by rewrite E1].
Qed.

Lemma inv_step l m m' : step w turns env l m m' -> inv m -> inv m'.
Proof.
  destruct l; [apply inv_breaker|apply inv_status| |apply inv_main|].
  - intros Hstep Hi. inversion Hstep; subst; [by eapply inv_SetVPN|].
    eapply inv_SetVPN; [exact Hi|eassumption|]. by destruct r.
  - intros Hstep [H2 H3 H4 H5]. inversion Hstep; subst. simpl in *. split; simpl; auto.
Qed.

Lemma inv_steps L m m' : steps w turns env L m m' -> inv m -> inv m'.
Proof. induction 1; [done|]. intros Hm. by eapply IHsteps, inv_step. Qed.
End invariant.

(** ** When forwarding is on *)

(** The controller holds a running VPN and its interface. *)
Definition holds_vpn (c : Controller) : Prop :=
  is_Some (vpnInterface c) /\ is_Some (vpnConf c) /\
  exists cmd, vpnProc c = Some cmd /\ is_Some (Process cmd).

Section tunnelled.
Context {W : Type} {HOS : OS W} {HF : Forwarding W} (w : Z) (turns : nat) (env : W -> W -> Prop).
Context (env_forwarding : forall wd wd', env wd wd' -> forwarding wd' = forwarding wd).

(** Since [s0] forwarding was on only with a VPN, except that it may be left on: the
    last attempt to switch it off failed, or it was on in [s0] and there was no
    attempt yet. *)
Definition tunnelled (s0 s : sys W Controller) : Prop :=
  exists l, trace s = trace s0 ++ l /\
    (forwarding (world s) = true ->
     holds_vpn (ctl s) \/ left_on l \/ (forwarding (world s0) = true /\ unattempted l)).

Lemma calm_tunnelled s0 s s' : calm s s' -> tunnelled s0 s -> tunnelled s0 s'.
Proof.
  intros [(l' & T' & H') [= E1 E2 E3]] (l & T & Ht). exists (l ++ l'). rewrite T', T, app_assoc. split; [done|].
  intros Hf. destruct (H' Hf) as [Hf0 D]. unfold holds_vpn in *. rewrite E1, E2, E3.
  destruct D as [U|L]; [|right; left; by apply left_on_later].
  destruct (Ht Hf0) as [Hv|[Hl|[Hon Hu]]]; [by left|right; left; by apply left_on_after|].
  right; right. split; [done|]. by apply Forall_app.
Qed.

Lemma SetVPN_tunnelled s0 vpn s r s' : SetVPN turns vpn s = Some (r, s') -> tunnelled s0 s -> tunnelled s0 s'.
Proof.
  intros E (l & T & _). destruct (SetVPN_on_success turns vpn s r s' E) as (l' & T' & Hi).
  exists (l ++ l'). rewrite T', T, app_assoc. split; [done|]. intros [->|[_ Hl]]%Hi; [|right; left; by apply left_on_later].
  destruct (SetVPN_succeeds turns (config (ctl s)) vpn s _ _ eq_refl E eq_refl)
    as [(_ & Hv & pw & pid & Hp) Hint].
  left. unfold holds_vpn. rewrite Hv, Hp. split; [done|]. split; [by eexists|]. eexists. split; [done|]. by eexists.
Qed.

Lemma tunnelled_step s0 l m m' :
  step w turns env l m m' -> tunnelled s0 (at_sys m) -> tunnelled s0 (at_sys m').
Proof.
  destruct 1; simpl; auto; try (by eapply SetVPN_tunnelled); apply calm_tunnelled.
  - by eapply breakerIdle_calm.
  - by eapply breakerCheck_calm.
  - eapply routineDone_calm; eauto.
  - by eapply hostapdStatusCheck_calm.
  - eapply routineDone_calm; eauto.
  - by eapply closeShutdown_calm.
  - by eapply closeRest_calm.
  - apply still_calm; [|done]. split; [by apply env_forwarding|apply avoids_silent].
Qed.

Lemma tunnelled_steps L s0 m m' :
  steps w turns env L m m' -> tunnelled s0 (at_sys m) -> tunnelled s0 (at_sys m').
Proof. induction 1; [done|]. intros Hm. by eapply IHsteps, tunnelled_step. Qed.

Lemma tunnelled_start s : tunnelled s s.
Proof.
  exists []. rewrite app_nil_r. split; [done|]. intros Hf. right; right. split; [done|]. apply Forall_nil_2.
Qed.
End tunnelled.

(** ** Theorems *)

(** The machine as [NewController] leaves it: both routines started, the mutex
    free, no VPN yet. *)
Definition starts {W} (m : machine W) : Prop :=
  crashed m = false /\ main m = SettingVPN /\ breaker m = Waiting /\ status m = Waiting /\
  setupLock (ctl (at_sys m)) = false /\ breakerTripped (ctl (at_sys m)) = false /\
  wg (ctl (at_sys m)) = 2 /\ shutdown (ctl (at_sys m)) = false.

Definition any (l : label) : Prop := True.
Definition not_SetVPN (l : label) : Prop := l <> LSetVPN.

(** What a shutdown relies on: the calls of the system it makes return a value or an
    error, a random number is below its bound, and a route lookup that succeeds
    gives a route. *)
Class Calls (W : Type) `{OS W} := {
  calls_RouteGet ip wd :
    match fst (nl_RouteGet ip wd) with Ret (_ :: _) | Err _ => True | Ret [] | Panic _ => False end;
  calls_Rand n wd : 0 < n -> 0 <= fst (os_Rand n wd) < n;
  calls_DialUnix a b wd : no_panic (fst (os_DialUnix a b wd));
  calls_ConnWrite d wd : no_panic (fst (os_ConnWrite d wd));
  calls_ConnRead n wd : no_panic (fst (os_ConnRead n wd));
  calls_FindProcess pid wd : no_panic (fst (os_FindProcess pid wd));
  calls_Signal0 pid wd : no_panic (fst (os_Signal0 pid wd));
  calls_Kill pid wd : no_panic (fst (os_Kill pid wd));
  calls_Run args wd : no_panic (fst (os_Run args wd));
  calls_Open p wd : no_panic (fst (os_Open p wd));
  calls_LinkDel n wd : no_panic (fst (nl_LinkDel n wd))
}.
Create HintDb calls.
#[export] Hint Resolve calls_DialUnix calls_ConnWrite calls_ConnRead calls_FindProcess calls_Signal0 calls_Kill calls_Run
  calls_Open calls_LinkDel : calls.

Lemma get_letter n s : (n < String.length s)%nat -> is_Some (String.get n s).
Proof.
  revert n. induction s as [|c s IH]; intros n Hn; simpl in *; [lia|]. destruct n as [|n]; [by eexists|]. apply IH. lia.
Qed.

Section theorems.
Context {W : Type} {HOS : OS W} {HF : Forwarding W} (w : Z) (turns : nat) (env : W -> W -> Prop).
Context (env_forwarding : forall wd wd', env wd wd' -> forwarding wd' = forwarding wd).

Lemma starts_inv (m : machine W) : starts m -> inv m.
Proof.
  destruct m as [s b b' mn cr]. intros (H1 & H2 & H3 & H4 & H5 & H6 & H7 & H8). simpl in *. subst.
  split; simpl; [done|congruence|done|done].
Qed.

(** C3: In every interleaving of the routines, the handlers and [main], with the rest
    of the world changing in between in any way that leaves the forwarding switch
    alone: whenever forwarding is on, the controller holds the interface, the
    configuration and the process of a VPN it started.  There are two exceptions:
    the last attempt to switch forwarding off failed, because the switch could not
    be read or written; or forwarding was on when the daemon started and it has not
    been attempted yet to switch it off. *)
Theorem forwarding_only_with_vpn m m' :
  steps w turns env any m m' -> forwarding (world (at_sys m')) = true ->
  holds_vpn (ctl (at_sys m')) \/
  exists l, trace (at_sys m') = trace (at_sys m) ++ l /\
    (left_on l \/ (forwarding (world (at_sys m)) = true /\ unattempted l)).
Proof.
  intros Hr Hf. destruct (tunnelled_steps w turns env env_forwarding any (at_sys m) m m' Hr (tunnelled_start _)) as (l & Ht & Hd).
  destruct (Hd Hf) as [Hv|Hl]; [by left|right; by exists l].
Qed.

(** C9: The mutex is never held between two regions, so a request to set a VPN is
    always answered: no interleaving leads to a deadlock. *)
Theorem setVPN_always_answers `{!Timers W} vpn m m' :
  starts m -> steps w turns env any m m' ->
  (patience < turns)%nat -> crashed m' = false ->
  exists r s', SetVPN turns vpn (at_sys m') = Some (r, s').
Proof.
  intros Hs Hr Ht Hc.
  assert (Hi : inv m') by (by eapply inv_steps; [exact Hr|apply starts_inv]).
  destruct (SetVPN_ends_lemma turns vpn (at_sys m') (inv_mutex _ Hi Hc) Ht) as [[r s'] E]. eauto.
Qed.

(** Once tripped, the breaker stays tripped and never looks again. *)
Lemma tripped_step l m m' :
  step w turns env l m m' -> breakerTripped (ctl (at_sys m)) = true -> breaker m <> Guarded ->
  (breakerTripped (ctl (at_sys m')) = true /\ breaker m' <> Guarded) /\
  (l <> LSetVPN -> forwarding (world (at_sys m')) = forwarding (world (at_sys m))).
Proof.
  intros Hstep Ht Hb. destruct Hstep; simpl in *; try done.
  - exfalso. revert H. unfold breakerArmed. rewrite Ht. by destruct (vpnInterface _).
  - pose proof (breakerIdle_forwarding _ _ _ H0) as Hk. revert H0.
    unfold breakerIdle, mbind, GM_bind, ask, modify. destruct (os_Now _). by intros [= <- <-].
  - unfold routineDone, modify in H0. by injection H0 as <- <-.
  - pose proof (hostapdStatusCheck_keeps _ _ _ _ H) as [= _ _ E]. rewrite E.
    assert (Hk : respects same_forwarding (hostapdStatusCheck (W := W) w)) by region.
    pose proof (Hk _ _ _ H) as Hf. done.
  - unfold routineDone, modify in H0. by injection H0 as <- <-.
  - destruct (SetVPN_core _ _ _ _ _ H0) as [[= _ _ E] _]. by rewrite E.
  - destruct (SetVPN_core _ _ _ _ _ H0) as [[= _ _ E] _]. by rewrite E.
  - revert H. unfold closeShutdown, mbind, GM_bind, get, modify, throw.
    destruct (shutdown _); by intros [= <- <-].
  - pose proof (closeRest_keeps _ _ _ H) as [= _ _ E _]. rewrite E.
    assert (Hk : respects same_forwarding (@closeRest W _)) by region.
    pose proof (Hk _ _ _ H) as Hf. done.
  - split; [done|]. intros _. by apply env_forwarding.
Qed.

Lemma tripped_steps L m m' :
  steps w turns env L m m' -> breakerTripped (ctl (at_sys m)) = true -> breaker m <> Guarded ->
  breakerTripped (ctl (at_sys m')) = true /\
  (~ L LSetVPN -> forwarding (world (at_sys m')) = forwarding (world (at_sys m))).
Proof.
  induction 1 as [m|l m1 m2 m3 Hl Hstep Hsteps IH]; intros Ht Hb; [done|].
  destruct (tripped_step l m1 m2 Hstep Ht Hb) as [[Ht2 Hb2] Hf].
  destruct (IH Ht2 Hb2) as [Ht3 Hf3]. split; [done|]. intros Hn. rewrite Hf3 by done.
  apply Hf. intros ->. done.
Qed.

(** After the breaker has tripped once it protects nothing any more: it stays
    tripped through every later [SetVPN], and no step but a [SetVPN] changes
    forwarding, whatever happens to the route meanwhile. *)
Theorem tripped_breaker_is_disarmed L m m' :
  steps w turns env L m m' -> breakerTripped (ctl (at_sys m)) = true -> breaker m <> Guarded ->
  breakerTripped (ctl (at_sys m')) = true /\
  (~ L LSetVPN -> forwarding (world (at_sys m')) = forwarding (world (at_sys m))).
Proof. apply tripped_steps. Qed.

(** ** Shutdown *)

Lemma steps_trans L m1 m2 m3 :
  steps w turns env L m1 m2 -> steps w turns env L m2 m3 -> steps w turns env L m1 m3.
Proof. induction 1; [done|]. intros. econstructor; eauto. Qed.

Lemma steps_one (L : label -> Prop) l m1 m2 : L l -> step w turns env l m1 m2 -> steps w turns env L m1 m2.
Proof. intros. econstructor; [done..|constructor]. Qed.

Lemma breakerCheck_ends s : setupLock (ctl s) = false -> ends (@breakerCheck W _) s.
Proof.
  intros Hl. unfold breakerCheck. apply ends_bind; [unfold ends; rewrite (Lock_free s Hl); by eexists|].
  intros _ s' _. revert s'. lazymatch goal with |- forall s, ends ?m s => change (total m) end.
  pose proof (DisableForwarding_total (W := W)). unfold RouteGet, first_link, deref, Unlock. total.
Qed.

Lemma hostapdStatusCheck_ends s : setupLock (ctl s) = false -> ends (hostapdStatusCheck (W := W) w) s.
Proof.
  intros Hl. unfold hostapdStatusCheck. apply ends_bind; [unfold ends; rewrite (Lock_free s Hl); by eexists|].
  intros _ s' _. revert s'. lazymatch goal with |- forall s, ends ?m s => change (total m) end.
  unfold Unlock, QueryStatus, Query, randStringFname. total.
Qed.

Lemma closeRest_ends s : wg (ctl s) = 0 -> ends (@closeRest W _) s.
Proof.
  intros Hw. unfold closeRest. apply ends_bind; [apply total_get|]. intros c s' [= <- <-].
  rewrite decide_False by (intros Hn; by apply Hn). clear Hw. generalize (ctl s). intros c. revert s.
  lazymatch goal with |- forall s, ends ?m s => change (total m) end.
  unfold killIfSet, deref, findAndKill, Delete, Iptables.run, runWithOutput, run_command,
    newXtablesFileLock, tryLock, Iptables.Unlock, DeleteNetBridge. total.
Qed.

(** C35: The breaker reads [vpnInterface] before it takes the mutex.  Whenever a
    [SetVPN] gets in between the guard of an armed breaker and its check and leaves
    the controller without an interface, that [SetVPN] has failed, and if the route
    can then be looked up the check dereferences nil: whatever else happens to be
    the case, the next step of the breaker is a panic that ends the daemon, and with
    it the access point, the DHCP server and the kill switch. *)
Theorem breaker_race s s' r vpn st mn i rts wd :
  breakerArmed (ctl s) = true -> serving mn = true ->
  SetVPN turns vpn s = Some (r, s') -> vpnInterface (ctl s') = None ->
  nl_RouteGet googleDNS (world s') = (Ret (i :: rts), wd) ->
  let at_ s b c := {| at_sys := s; breaker := b; status := st; main := mn; crashed := c |} in
  r <> Ret tt /\
  step w turns env LBreaker (at_ s Waiting false) (at_ s Guarded false) /\
  step w turns env LSetVPN (at_ s Guarded false) (at_ s' Guarded false) /\
  (exists s'', breakerCheck s' = Some (Panic NilDereference, s'') /\
     step w turns env LBreaker (at_ s' Guarded false) (at_ s'' Waiting true)) /\
  (forall m, step w turns env LBreaker (at_ s' Guarded false) m -> crashed m = true).
Proof.
  intros Ha Hm E Hv Hr at_. destruct (SetVPN_core turns vpn s r s' E) as [_ Hl].
  destruct (breakerCheck_nil s' i rts wd Hl Hv Hr) as (s'' & Eb & _). split_and!.
  - intros ->. destruct (SetVPN_succeeds turns (config (ctl s)) vpn s _ _ eq_refl E eq_refl) as [_ [vi Hi]].
    rewrite Hv in Hi. discriminate.
  - by apply breaker_guard_holds.
  - by eapply http_SetVPN.
  - exists s''. split; [done|]. by apply (breaker_checks w turns env s' s'' (Panic NilDereference)).
  - intros m Hstep. inversion Hstep; subst. rename select (breakerCheck s' = _) into E2. rewrite Eb in E2. by injection E2 as <- <-.
Qed.

(** *** The regions return *)

(** What [Close] dereferences is there: the processes were started, and the bridge
    and, for the rule it deletes, iptables are set. *)
Definition closable (c : Controller) : Prop :=
  (forall cmd, vpnProc c = Some cmd -> is_Some (Process cmd)) /\
  (forall cmd, hostapdProc c = Some cmd -> is_Some (Process cmd)) /\
  (areMasquerading c = true -> is_Some (ipt c)) /\ is_Some (bridgeInterface c).

(** The fields the routines leave alone. *)
Definition closing_fields (c : Controller) :=
  (vpnInterface c, vpnProc c, hostapdProc c, areMasquerading c, ipt c, bridgeInterface c).

Lemma breakerCheck_fields : respects (keeps closing_fields) (@breakerCheck W _).
Proof. unfold breakerCheck, DisableForwarding, IPv4ForwardingEnabled, IPv4EnableForwarding. method. Qed.
Lemma hostapdStatusCheck_fields : respects (keeps closing_fields) (hostapdStatusCheck (W := W) w).
Proof. region. Qed.

Context {HC : Calls W}.

Lemma breakerCheck_returns s :
  setupLock (ctl s) = false -> is_Some (vpnInterface (ctl s)) -> exists s', breakerCheck s = Some (Ret tt, s').
Proof.
  intros Hl [vi Hv]. pose proof (calls_RouteGet googleDNS (world s)) as Hr.
  destruct (nl_RouteGet googleDNS (world s)) as [r wd] eqn:E. simpl in Hr.
  destruct r as [[|i rts]|e|p]; [done| | |done].
  - destruct (decide (i = net.Intf_Index vi)) as [->|Hi].
    + destruct (breakerCheck_otherwise s vi _ wd Hl Hv E) as [tr Hb]; [left; by eexists|]. by eexists.
    + destruct (breakerCheck_elsewhere s vi i rts wd Hl Hv E Hi) as (s' & Hb & _). by exists s'.
  - destruct (breakerCheck_otherwise s vi _ wd Hl Hv E) as [tr Hb]; [right; by eexists|]. by eexists.
Qed.

Lemma rand_letters_panicless n : panicless (@rand_letters W Controller _ n).
Proof.
  induction n as [|n IH]; cbn [rand_letters]; [apply panicless_ret|]. apply panicless_ask_bind. intros wd.
  pose proof (calls_Rand 52 wd ltac:(lia)) as Hk. panicless. apply panicless_pure.
  destruct (get_letter (Z.to_nat (fst (os_Rand 52 wd))) letterRunes) as [c ->]; [|done].
  change (String.length letterRunes) with 52%nat. lia.
Qed.

Lemma hostapdStatusCheck_returns s :
  setupLock (ctl s) = false -> exists s', hostapdStatusCheck w s = Some (Ret tt, s').
Proof.
  intros Hl. destruct (hostapdStatusCheck_ends s Hl) as [[r s'] E].
  pose proof (hostapdStatusCheck_unlocks w s r s' I E) as Hu.
  assert (Hp : panicless (hostapdStatusCheck (W := W) w)).
  { pose proof rand_letters_panicless. unfold hostapdStatusCheck, Lock, blocked, Unlock, QueryStatus, Query, randStringFname.
    panicless; auto with calls. }
  pose proof (Hp _ _ _ E) as Hr.
  destruct r as [[]|e|p]; [by exists s'|done..].
Qed.

Lemma findAndKill_panicless pid : panicless (@findAndKill W _ pid).
Proof. unfold findAndKill. panicless; auto with calls. Qed.

Lemma killIfSet_no_panic (proc : Controller -> option Cmd) (s : sys W Controller) r s' :
  (forall cmd, proc (ctl s) = Some cmd -> is_Some (Process cmd)) -> killIfSet proc s = Some (r, s') -> no_panic r.
Proof.
  intros Hp. unfold killIfSet, mbind, GM_bind, get. destruct (proc (ctl s)) as [cmd|]; [|by intros [= <- <-]].
  destruct (Hp cmd eq_refl) as [pid Hpid]. unfold deref, pure. rewrite Hpid. apply findAndKill_panicless.
Qed.

Lemma killIfSet_fields proc : respects (keeps id) (@killIfSet W _ proc).
Proof. unfold killIfSet. method. Qed.

Lemma closeRest_no_panic s r s' : closable (ctl s) -> closeRest s = Some (r, s') -> no_panic r.
Proof.
  intros (Hv & Hh & Ht & [br Hbr]). unfold closeRest, mbind at 1, GM_bind at 1, get. case_decide; [done|].
  revert r s'. set (c := ctl s) in *. cut (triple (fun s => ctl s = c) (_ ← killIfSet vpnProc; _ ← killIfSet hostapdProc;
    _ ← (if areMasquerading c then t ← deref (ipt c); Delete t "nat" "POSTROUTING" (masqueradeRule c) else mret tt);
    br ← deref (bridgeInterface c); DeleteNetBridge (net.Intf_Name br)) (fun (r : outcome unit) _ => no_panic r)).
  { intros Hc r s' E. by eapply Hc. }
  assert (Hk : forall proc, (forall cmd, proc c = Some cmd -> is_Some (Process cmd)) ->
    triple (fun s => ctl s = c) (killIfSet proc) (fun r s => match r with Ret _ => ctl s = c | Err _ => True | Panic _ => False end)).
  { intros proc Hpr s1 r s2 Hs E. pose proof (killIfSet_fields proc _ _ _ E) as Hf. unfold keeps, id in Hf.
    apply killIfSet_no_panic in E; [|by rewrite Hs]. destruct r; [congruence|done|done]. }
  apply (triple_bind _ _ _ (fun _ s => ctl s = c)); [by apply Hk|]. intros _.
  apply (triple_bind _ _ _ (fun _ s => ctl s = c)); [by apply Hk|]. intros _.
  assert (Hp : panicless (_ ← (if areMasquerading c then t ← deref (ipt c); Delete t "nat" "POSTROUTING" (masqueradeRule c) else mret tt);
    br ← deref (bridgeInterface c); @DeleteNetBridge W Controller _ (net.Intf_Name br))).
  { rewrite Hbr. unfold deref, Delete, Iptables.run, runWithOutput, run_command, newXtablesFileLock, tryLock, DeleteNetBridge.
    destruct (areMasquerading c); [destruct (Ht eq_refl) as [t ->]|]; panicless; first [apply panicless_pure; exact I|auto with calls]. }
  intros s1 r s2 _ E. by eapply Hp.
Qed.

(** *** The way out *)

(** The labels of the daemon's own steps, without new requests. *)
Definition own (l : label) : Prop := l = LBreaker \/ l = LStatus \/ l = LMain.

Lemma closable_fields c c' : closing_fields c' = closing_fields c -> closable c -> closable c'.
Proof. intros [= E1 E2 E3 E4 E5 E6]. unfold closable. by rewrite E2, E3, E4, E5, E6. Qed.

(** A machine that is closing and can. *)
Definition ready (m : machine W) : Prop :=
  inv m /\ main m = Closing /\ crashed m = false /\ closable (ctl (at_sys m)) /\
  (breaker m = Guarded -> is_Some (vpnInterface (ctl (at_sys m)))).

Lemma step_ready l m m' :
  step w turns env l m m' -> ready m -> main m' = Closing -> crashed m' = false ->
  closing_fields (ctl (at_sys m')) = closing_fields (ctl (at_sys m)) -> breaker m' <> Guarded -> ready m'.
Proof.
  intros Hs (Hi & _ & _ & Hc & _) Hm Hcr Hf Hb. split; [by eapply inv_step|]. split; [done|]. split; [done|].
  split; [by eapply closable_fields|done].
Qed.

Lemma breaker_waits m : ready m -> breaker m <> Returned ->
  exists m', steps w turns env own m m' /\ ready m' /\ breaker m' = Waiting.
Proof.
  intros Hr Hb. destruct m as [s [] st mn cr]; [| |done].
  - eexists. split; [apply steps_refl|]. done.
  - pose proof Hr as (Hi & Hm & Hcr & Hc & Hv). simpl in *. subst.
    destruct (breakerCheck_returns s (inv_mutex _ Hi eq_refl) (Hv eq_refl)) as [s' E].
    pose proof (breaker_checks w turns env s s' (Ret tt) st Closing E) as Hstep.
    eexists. split; [eapply steps_one; [by left|exact Hstep]|]. split; [|done].
    eapply step_ready; [exact Hstep|done|done|done| |done]. by apply breakerCheck_fields in E.
Qed.

Lemma breaker_stops m : ready m ->
  exists m', steps w turns env own m m' /\ ready m' /\ breaker m' = Returned.
Proof.
  intros Hr. destruct (decide (breaker m = Returned)) as [|Hb]; [by eexists; split; [apply steps_refl|]|].
  destruct (breaker_waits m Hr Hb) as (m1 & H1 & Hr1 & Hb1). pose proof Hr1 as (Hi & Hm & Hcr & Hc & Hv).
  destruct m1 as [s b st mn cr]. simpl in *. subst. assert (Hsh : shutdown (ctl s) = true) by exact (inv_shutdown _ Hi).
  pose proof (breaker_returns w turns env s _ (Ret tt) st Closing Hsh eq_refl) as Hstep.
  eexists. split; [eapply steps_trans; [exact H1|]; eapply steps_one; [by left|exact Hstep]|]. split; [|done].
  by eapply step_ready; [exact Hstep|..].
Qed.

Lemma status_waits m : ready m -> breaker m = Returned -> status m <> Returned ->
  exists m', steps w turns env own m m' /\ ready m' /\ breaker m' = Returned /\ status m' = Waiting.
Proof.
  intros Hr Hb Hs. destruct m as [s b [] mn cr]; [| |done]; simpl in Hb; subst b.
  - eexists. split; [apply steps_refl|]. done.
  - pose proof Hr as (Hi & Hm & Hcr & Hc & Hv). simpl in *. subst.
    destruct (hostapdStatusCheck_returns s (inv_mutex _ Hi eq_refl)) as [s' E].
    pose proof (status_checks w turns env s s' (Ret tt) Returned Closing E) as Hstep.
    eexists. split; [eapply steps_one; [by right; left|exact Hstep]|]. split; [|done].
    eapply step_ready; [exact Hstep|done|done|done| |done]. by apply hostapdStatusCheck_fields in E.
Qed.

Lemma status_stops m : ready m -> breaker m = Returned ->
  exists m', steps w turns env own m m' /\ ready m' /\ breaker m' = Returned /\ status m' = Returned.
Proof.
  intros Hr Hb. destruct (decide (status m = Returned)) as [|Hs]; [by eexists; split; [apply steps_refl|]|].
  destruct (status_waits m Hr Hb Hs) as (m1 & H1 & Hr1 & Hb1 & Hs1). pose proof Hr1 as (Hi & Hm & Hcr & Hc & Hv).
  destruct m1 as [s b st mn cr]. simpl in *. subst. assert (Hsh : shutdown (ctl s) = true) by exact (inv_shutdown _ Hi).
  pose proof (status_returns w turns env s _ (Ret tt) Returned Closing Hsh eq_refl) as Hstep.
  eexists. split; [eapply steps_trans; [exact H1|]; eapply steps_one; [by right; left|exact Hstep]|]. split; [|done].
  by eapply step_ready; [exact Hstep|..].
Qed.

(** C8: A shutdown can always run to its end: from every reachable state in which
    [main] has closed the channel, the daemon's own steps, without any help from
    the world, lead to a state in which both routines have returned, [Close] has
    got past its [Wait] and the process has exited without a panic.  Excepted are
    states in which the breaker is between its guard and its check while the
    controller holds no interface, where the check panics, and controllers with
    a process that was never started, on which [Close] panics. *)
Theorem shutdown_completes m0 m :
  starts m0 -> steps w turns env any m0 m -> main m = Closing -> crashed m = false ->
  closable (ctl (at_sys m)) -> (breaker m = Guarded -> is_Some (vpnInterface (ctl (at_sys m)))) ->
  exists m', steps w turns env own m m' /\ main m' = Exited /\ crashed m' = false /\
    breaker m' = Returned /\ status m' = Returned.
Proof.
  intros Hs Hsteps Hm Hcr Hc Hv.
  assert (Hr : ready m) by (split; [by eapply inv_steps; [exact Hsteps|apply starts_inv]|done]).
  destruct (breaker_stops m Hr) as (m1 & H1 & Hr1 & Hb1).
  destruct (status_stops m1 Hr1 Hb1) as (m2 & H2 & (Hi2 & Hm2 & Hcr2 & Hc2 & _) & Hb2 & Hs2).
  destruct m2 as [s2 b2 st2 mn2 cr2]. simpl in *. subst.
  pose proof (inv_wg _ Hi2) as Hw. simpl in Hw. destruct (closeRest_ends s2 Hw) as [[r s'] E].
  eexists. split; [eapply steps_trans; [exact H1|]; eapply steps_trans; [exact H2|];
    eapply steps_one; [by right; right|by apply main_exits]|].
  simpl. split; [done|]. split; [|done]. apply closeRest_no_panic in E; [|done]. by destruct r.
Qed.
End theorems.

(** ** Runs of the simulated system *)

Module MachineExample.

(** Other programs may do anything but switch forwarding. *)
Definition sim_env (wd wd' : sim) : Prop := ip_forward wd' = ip_forward wd.

Lemma sim_env_forwarding wd wd' : sim_env wd wd' -> forwarding wd' = forwarding wd.
Proof. done. Qed.

#[export] Instance sim_Calls : Calls sim.
Proof.
  split; simpl; try done.
  - intros _ wd. by destruct (route wd).
  - intros n wd Hn. apply Z.mod_pos_bound. lia.
  - intros _ wd. by destruct (sock_ok wd).
  - intros args wd. unfold sim_run. by repeat case_match.
Qed.

#[local] Abbreviation run := (steps 64 300 sim_env any).

(** The system before the daemon starts, and the machine [NewController] builds. *)
Definition wd0 : sim := sim_world <| ip_forward := false |> <| ticks := 100%nat |>.
Definition started : sys sim Controller := final (NewController 64 300 sim_config) (sim_start_state wd0).
Definition m0 : machine sim :=
  {| at_sys := started; breaker := Waiting; status := Waiting; main := SettingVPN; crashed := false |}.

Lemma m0_starts : starts m0.
Proof. vm_compute. tauto. Qed.

(** The machine serving requests, in a state of the controller and the world. *)
Definition serve (s : sys sim Controller) (b : routine) : machine sim :=
  {| at_sys := s; breaker := b; status := Waiting; main := WaitingSignal; crashed := false |}.

Definition in_world (f : sim -> sim) (s : sys sim Controller) : sys sim Controller :=
  Sys (ctl s) (f (world s)) (trace s).

Lemma change_world f s b :
  (forall wd, ip_forward (f wd) = ip_forward wd) -> run (serve s b) (serve (in_world f s) b).
Proof. intros Hf. eapply steps_step; [exact I| |constructor]. apply world_changes, Hf. Qed.

(** A VPN is set; the route falls back to the uplink; the breaker trips; the VPN
    is set again; the route falls back again. *)
Definition s1 := final (SetVPN 300 sim_vpn) started.
Definition s2 := in_world (fun wd => wd <| route := Some 1 |>) s1.
Definition s3 := final breakerCheck s2.
Definition s4 := final (SetVPN 300 sim_vpn) s3.
Definition s5 := in_world (fun wd => wd <| route := Some 1 |>) s4.

Lemma to_s1 : run m0 (serve s1 Waiting).
Proof.
  eapply steps_step; [exact I|apply main_no_VPN; vm_compute; reflexivity|].
  eapply steps_step; [exact I| |constructor].
  apply (http_SetVPN 64 300 sim_env started s1 (Ret tt) sim_vpn); [reflexivity|vm_compute; reflexivity].
Qed.
Lemma s2_to_s3 : run (serve s2 Waiting) (serve s3 Waiting).
Proof.
  eapply steps_step; [exact I|apply breaker_guard_holds; vm_compute; reflexivity|].
  eapply steps_step; [exact I| |constructor].
  apply (breaker_checks 64 300 sim_env s2 s3 (Ret tt)). vm_compute. reflexivity.
Qed.
Lemma s3_to_s5 : run (serve s3 Waiting) (serve s5 Waiting).
Proof.
  eapply steps_step; [exact I| |].
  - apply (http_SetVPN 64 300 sim_env s3 s4 (Ret tt) sim_vpn); [reflexivity|vm_compute; reflexivity].
  - by apply change_world.
Qed.
Lemma to_s3 : run m0 (serve s3 Waiting).
Proof.
  eapply steps_trans; [apply to_s1|]. eapply steps_trans; [by apply (change_world (fun wd => wd <| route := Some 1 |>))|apply s2_to_s3].
Qed.

(** C34: The kill switch fails after one trip: the daemon reaches a state in which
    forwarding is on, the route to the internet is not the VPN's, and no step of
    the daemon short of another [SetVPN] switches forwarding off. *)
Theorem leak_after_trip :
  exists m, run m0 m /\ crashed m = false /\ forwarding (world (at_sys m)) = true /\
    fst (nl_RouteGet googleDNS (world (at_sys m))) = Ret [1] /\
    net.Intf_Index <$> vpnInterface (ctl (at_sys m)) = Some 7 /\
    forall m', steps 64 300 sim_env not_SetVPN m m' -> forwarding (world (at_sys m')) = true.
Proof.
  exists (serve s5 Waiting). split; [eapply steps_trans; [apply to_s3|apply s3_to_s5]|].
  split; [reflexivity|]. split; [vm_compute; reflexivity|]. split; [vm_compute; reflexivity|].
  split; [vm_compute; reflexivity|]. intros m' Hm.
  assert (Ht : breakerTripped (ctl (at_sys (serve s5 Waiting))) = true) by (vm_compute; reflexivity).
  destruct (tripped_steps 64 300 sim_env sim_env_forwarding _ _ _ Hm Ht ltac:(discriminate)) as [_ Hf].
  rewrite Hf by (intros Hn; by apply Hn). vm_compute. reflexivity.
Qed.

(** The guard passed, a [SetVPN] whose old interface does not go away. *)
Definition s6 := in_world (fun wd => wd <| cleans_up := false |>) s1.
Definition s7 := final (SetVPN 300 sim_vpn) s6.

(** The daemon comes to a crash this way. *)
Lemma breaker_race_witness :
  exists m, run m0 m /\ crashed m = true /\ main m = WaitingSignal.
Proof.
  destruct (breaker_race 64 300 sim_env s6 s7 (Err (ErrorString "timeout waiting for VPN to shut down")) sim_vpn
    Waiting WaitingSignal 7 [] (world s7)) as (_ & Hguard & Hset & (s8 & _ & Hcheck) & _); [vm_compute; reflexivity..|].
  exists {| at_sys := s8; breaker := Waiting; status := Waiting; main := WaitingSignal; crashed := true |}.
  split; [|by split]. eapply steps_trans; [apply to_s1|].
  eapply steps_trans; [by apply (change_world (fun wd => wd <| cleans_up := false |>))|].
  eapply steps_step; [exact I|exact Hguard|]. eapply steps_step; [exact I|exact Hset|].
  eapply steps_step; [exact I|exact Hcheck|constructor].
Defined.

(** ** Instances of the theorems *)

Lemma added {A} (a l b : list A) : b = a ++ l -> l = drop (length a) b.
Proof. intros ->. by rewrite drop_app_length. Qed.

Lemma forwarding_only_with_vpn_witness : forwarding (world s1) = true /\ holds_vpn (ctl s1).
Proof.
  split; [vm_compute; reflexivity|].
  destruct (forwarding_only_with_vpn 64 300 sim_env sim_env_forwarding m0 (serve s1 Waiting))
    as [Hv|(l & Ht & Hl)]; [exact to_s1|vm_compute; reflexivity|exact Hv|exfalso].
  rewrite (added _ _ _ Ht) in Hl.
  destruct Hl as [Hl|[Hon _]]; [|vm_compute in Hon; discriminate].
  revert Hl. apply not_left_on. vm_compute. reflexivity.
Defined.

Lemma setVPN_always_answers_witness :
  exists r s', SetVPN 300 sim_vpn s1 = Some (r, s').
Proof.
  apply (setVPN_always_answers 64 300 sim_env sim_vpn m0 (serve s1 Waiting));
    [exact m0_starts|exact to_s1|apply Nat.ltb_lt; reflexivity|reflexivity].
Defined.

Lemma tripped_breaker_is_disarmed_witness : breakerTripped (ctl s5) = true.
Proof.
  apply (tripped_breaker_is_disarmed 64 300 sim_env sim_env_forwarding any
           (serve s3 Waiting) (serve s5 Waiting));
    [exact s3_to_s5|vm_compute; reflexivity|discriminate].
Defined.

(** [main] has got its signal and closed the channel. *)
Definition s9 := final closeShutdown s1.
Definition m9 : machine sim :=
  {| at_sys := s9; breaker := Waiting; status := Waiting; main := Closing; crashed := false |}.

Lemma shutdown_completes_witness :
  exists m', steps 64 300 sim_env own m9 m' /\ main m' = Exited /\ crashed m' = false /\
    breaker m' = Returned /\ status m' = Returned.
Proof.
  apply (shutdown_completes 64 300 sim_env m0 m9); [exact m0_starts| |reflexivity|reflexivity| |discriminate].
  - eapply steps_trans; [exact to_s1|].
    eapply steps_step; [exact I|apply main_signal|].
    eapply steps_step; [exact I| |constructor].
    apply (main_closes 64 300 sim_env s1 s9 (Ret tt)). vm_compute. reflexivity.
  - vm_compute. split_and!; [intros cmd [= <-]; by eexists..|intros _; by eexists|by eexists].
Defined.
End MachineExample.
