(* ===== verification/Startup.v ===== *)
(** * Starting up and shutting down

    Theorems about [NewController], the firewall it sets up, [Close] and
    [GetState]. *)

From Stdlib Require Import ZArith Lia NArith Ascii Strings.Byte.
From stdpp Require Import base numbers gmap strings list fin_maps.
From coqutil Require Import Datatypes.RecordSetters.
From S2P Require Import Prelude GoNet Dhcp4 OS Config NetUtil Iptables Hostapd Controller ControllerSpec SimOS Machine.
Import RecordSetters.TriangleBracketNotations.

Open Scope Z_scope.

(** ** The firewall *)

(** The rules for the blocked ports and subnets, in the order they are added. *)
Definition portRules (sub : string) (ports : list Z) : list (list string) :=
  ports ≫= fun p => [portRule sub "tcp" p; portRule sub "udp" p].
Definition subnetRules (sub : string) (subnets : list string) : list (list string) :=
  subnetRule sub <$> subnets.

Lemma foldl_add_unique_mono l rs r : r ∈ l -> r ∈ foldl add_unique l rs.
Proof.
  revert l. induction rs as [|x rs IH]; intros l Hr; [done|]. simpl. apply IH.
  unfold add_unique. case_decide; [done|]. apply elem_of_app. by left.
Qed.

Lemma foldl_add_unique_in l rs r : r ∈ rs -> r ∈ foldl add_unique l rs.
Proof.
  revert l. induction rs as [|x rs IH]; intros l Hr; [by apply not_elem_of_nil in Hr|].
  apply elem_of_cons in Hr as [->|Hr]; simpl; [|by apply IH].
  apply foldl_add_unique_mono. unfold add_unique. case_decide; [done|].
  apply elem_of_app. right. by apply list_elem_of_singleton.
Qed.

Lemma foldl_add_unique_extends l rs :
  exists new, foldl add_unique l rs = l ++ new /\ NoDup new /\ Forall (fun r => r ∈ rs /\ r ∉ l) new.
Proof.
  revert l. induction rs as [|x rs IH]; intros l; simpl.
  { exists []. rewrite app_nil_r. repeat split; [constructor|by apply Forall_nil_2]. }
  destruct (IH (add_unique l x)) as (new & Hn & Hd & Hf). rewrite Hn. unfold add_unique in *.
  rewrite Forall_forall in Hf. case_decide as Hx.
  - exists new. split; [done|]. split; [done|]. apply Forall_forall. intros r Hr.
    apply Hf in Hr as [? ?]. split; [by right|done].
  - exists (x :: new). split; [by rewrite <- app_assoc|].
    assert (Hnew : forall r, r ∈ new -> r ∈ rs /\ (r ∉ l) /\ r <> x).
    { intros r Hr. apply Hf in Hr as [? Hr]. rewrite elem_of_app, list_elem_of_singleton in Hr. tauto. }
    split; [apply NoDup_cons; split; [|done]; intros Hin; by apply Hnew in Hin as (_ & _ & ?)|].
    apply Forall_cons_2; [by split; [left|]|]. apply Forall_forall. intros r Hr.
    apply Hnew in Hr as (? & ? & _). split; [by right|done].
Qed.

Section firewall.
Context {W : Type} `{RuleTable W} (t : IPTables) (Hw : hasWait t = true) (Hc : hasCheck t = true).
Implicit Types s : sys W Controller.

(** The outcome of adding rules [rs] to chain [k], starting in world [wd]. *)
Definition added (wd wd' : W) (k : string * string) (rs : list (list string)) : Prop :=
  chain_becomes wd wd' k (foldl add_unique (rules wd k) rs).

Lemma added_cons wd1 wd2 wd3 k r rs :
  chain_becomes wd1 wd2 k (add_unique (rules wd1 k) r) -> added wd2 wd3 k rs ->
  added wd1 wd3 k (r :: rs).
Proof.
  intros [H1 H2] [H3 H4]. split; [by rewrite H3, H1|]. intros k' Hk. by rewrite H4, H2.
Qed.

Lemma blockPorts_adds sub ports s :
  exists wd tr r, blockPorts t sub ports s = Some (r, Sys (ctl s) wd tr) /\
    match r with
    | Ret _ => added (world s) wd ("filter", "INPUT") (portRules sub ports)
    | Err _ => True
    | Panic _ => False
    end.
Proof.
  revert s. induction ports as [|p ports IH]; intros s; simpl.
  { destruct s. eexists _, _, _. by split; [reflexivity|]. }
  unfold mbind, GM_bind.
  destruct (AppendUnique_lemma t Hw Hc "filter" "INPUT" (portRule sub "tcp" p) s)
    as (wd1 & tr1 & r1 & -> & H1). destruct r1; [|by eexists _, _, _|done]; cbn beta iota delta [ctl].
  destruct (AppendUnique_lemma t Hw Hc "filter" "INPUT" (portRule sub "udp" p) (Sys (ctl s) wd1 tr1))
    as (wd2 & tr2 & r2 & -> & H2). destruct r2; [|by eexists _, _, _|done]; cbn beta iota delta [ctl].
  destruct (IH (Sys (ctl s) wd2 tr2)) as (wd3 & tr3 & r3 & -> & H3).
  eexists _, _, _. split; [reflexivity|]. destruct r3; [|done..].
  eapply added_cons; [exact H1|]. by eapply added_cons.
Qed.

Lemma blockSubnets_adds sub subnets s :
  exists wd tr r, blockSubnets t sub subnets s = Some (r, Sys (ctl s) wd tr) /\
    match r with
    | Ret _ => added (world s) wd ("filter", "FORWARD") (subnetRules sub subnets)
    | Err _ => True
    | Panic _ => False
    end.
Proof.
  revert s. induction subnets as [|d subnets IH]; intros s; simpl.
  { destruct s. eexists _, _, _. by split; [reflexivity|]. }
  unfold mbind, GM_bind.
  destruct (AppendUnique_lemma t Hw Hc "filter" "FORWARD" (subnetRule sub d) s)
    as (wd1 & tr1 & r1 & -> & H1). destruct r1; [|by eexists _, _, _|done]; cbn beta iota delta [ctl].
  destruct (IH (Sys (ctl s) wd1 tr1)) as (wd3 & tr3 & r3 & -> & H3).
  eexists _, _, _. split; [reflexivity|]. destruct r3; [|done..]. by eapply added_cons.
Qed.

Lemma setupFirewall_adds s :
  ipt (ctl s) = Some t ->
  exists wd tr r, setupFirewall s = Some (r, Sys (ctl s) wd tr) /\
    match r with
    | Ret _ =>
        let sub := Subnet (Network (config (ctl s))) in
        rules wd ("filter", "INPUT") =
          foldl add_unique (rules (world s) ("filter", "INPUT"))
            (portRules sub (VPNBoxBlockedPorts (Firewall (config (ctl s))))) /\
        rules wd ("filter", "FORWARD") =
          foldl add_unique (rules (world s) ("filter", "FORWARD"))
            (subnetRules sub (BlockedSubnets (Firewall (config (ctl s))))) /\
        forall k, k <> ("filter", "INPUT") -> k <> ("filter", "FORWARD") -> rules wd k = rules (world s) k
    | Err _ => True
    | Panic _ => False
    end.
Proof.
  intros Hi. unfold setupFirewall, mbind, GM_bind, get, deref, pure. rewrite Hi.
  set (sub := Subnet (Network (config (ctl s)))).
  destruct (blockPorts_adds sub (VPNBoxBlockedPorts (Firewall (config (ctl s)))) s)
    as (wd1 & tr1 & r1 & -> & H1). destruct r1; [|by eexists _, _, _|done]; cbn beta iota delta [ctl].
  destruct (blockSubnets_adds sub (BlockedSubnets (Firewall (config (ctl s)))) (Sys (ctl s) wd1 tr1))
    as (wd2 & tr2 & r2 & -> & H2).
  eexists _, _, _. split; [reflexivity|]. destruct r2; [|done..].
  destruct H1 as [H1 H1'], H2 as [H2 H2']. simpl in *. split; [by rewrite H2', H1|].
  split; [by rewrite H2, H1'|]. intros k Hk1 Hk2. by rewrite H2', H1'.
Qed.
End firewall.

(** C7: When [setupFirewall] returns without an error, every blocked port of the box
    and every blocked subnet has its DROP rule; the rules that were there keep
    their place, each new rule is one of those asked for and is added once, and
    the other chains are untouched. *)
Theorem setupFirewall_blocks {W} `{RuleTable W} t (s s' : sys W Controller) :
  hasWait t = true -> hasCheck t = true -> ipt (ctl s) = Some t ->
  setupFirewall s = Some (Ret tt, s') ->
  let sub := Subnet (Network (config (ctl s))) in
  (forall p, p ∈ VPNBoxBlockedPorts (Firewall (config (ctl s))) ->
     portRule sub "tcp" p ∈ rules (world s') ("filter", "INPUT") /\
     portRule sub "udp" p ∈ rules (world s') ("filter", "INPUT")) /\
  (forall d, d ∈ BlockedSubnets (Firewall (config (ctl s))) ->
     subnetRule sub d ∈ rules (world s') ("filter", "FORWARD")) /\
  (forall k, exists new, rules (world s') k = rules (world s) k ++ new /\ NoDup new /\
     Forall (fun r => r ∉ rules (world s) k) new) /\
  (forall k, k <> ("filter", "INPUT") -> k <> ("filter", "FORWARD") ->
     rules (world s') k = rules (world s) k).
Proof.
  intros Hw Hc Hi E sub. destruct (setupFirewall_adds t Hw Hc s Hi) as (wd & tr & r & E' & Hr).
  rewrite E' in E. injection E as -> <-. simpl. destruct Hr as (H1 & H2 & H3).
  rewrite H1, H2. split_and!.
  - intros p Hp. split; apply foldl_add_unique_in, list_elem_of_bind; exists p; (split; [|done]);
      [by left|right; by left].
  - intros d Hd. by apply foldl_add_unique_in, list_elem_of_fmap_2.
  - assert (Hext : forall k rs, rules wd k = foldl add_unique (rules (world s) k) rs ->
      exists new, rules wd k = rules (world s) k ++ new /\ NoDup new /\
        Forall (fun r => r ∉ rules (world s) k) new).
    { intros k rs ->. destruct (foldl_add_unique_extends (rules (world s) k) rs) as (new & -> & Hd & Hf).
      exists new. split; [done|]. split; [done|]. eapply Forall_impl; [exact Hf|]. by intros r [_ ?]. }
    intros k. destruct (decide (k = ("filter", "INPUT"))) as [->|Hk1]; [by eapply Hext|].
    destruct (decide (k = ("filter", "FORWARD"))) as [->|Hk2]; [by eapply Hext|].
    apply (Hext k []). by rewrite H3.
  - exact H3.
Qed.

(** Two ports and a subnet. *)
Definition fw_config : Config :=
  {| Config_Name := Config_Name sim_config; Listener := Listener sim_config;
     Network := Network sim_config; Debug := Debug sim_config; VPNConfigurations := [];
     Firewall := {| VPNBoxBlockedPorts := [22; 80]; BlockedSubnets := ["10.0.0.0/8"] |} |}.
Definition fw_state : sys sim Controller := Sys (freshController fw_config sim_ipt) sim_world [].

Lemma setupFirewall_blocks_witness :
  portRule "192.168.48.1/24" "udp" 80 ∈
    rules (world (final setupFirewall fw_state)) ("filter", "INPUT").
Proof.
  apply (setupFirewall_blocks sim_ipt fw_state (final setupFirewall fw_state));
    [reflexivity..|vm_compute; reflexivity|].
  right. by left.
Defined.

(** Adding a rule a second time changes nothing, and deleting a rule that
    [AppendUnique] added gives every chain its rules back: this is how the
    masquerading rule of [startHostapd] is removed by [Close]. *)
Theorem AppendUnique_Delete {W} `{RuleTable W} t tb ch r (s s1 s2 : sys W Controller) :
  hasWait t = true -> hasCheck t = true -> r ∉ rules (world s) (tb, ch) ->
  AppendUnique t tb ch r s = Some (Ret tt, s1) ->
  (AppendUnique t tb ch r s1 = Some (Ret tt, s2) -> rules (world s2) (tb, ch) = rules (world s1) (tb, ch)) /\
  (Delete t tb ch r s1 = Some (Ret tt, s2) -> forall k, rules (world s2) k = rules (world s) k).
Proof.
  intros Hw Hc Hr E1.
  destruct (AppendUnique_lemma t Hw Hc tb ch r s) as (wd1 & tr1 & r1 & E1' & H1).
  rewrite E1' in E1. injection E1 as -> <-. destruct H1 as [H1 H1']. split.
  - intros E2. destruct (AppendUnique_lemma t Hw Hc tb ch r (Sys (ctl s) wd1 tr1))
      as (wd2 & tr2 & r2 & E2' & H2). rewrite E2' in E2. injection E2 as -> <-.
    destruct H2 as [H2 _]. simpl in *. rewrite H2. unfold add_unique at 1. rewrite decide_True; [done|].
    rewrite H1. unfold add_unique. case_decide; [done|]. apply elem_of_app. right.
    by apply list_elem_of_singleton.
  - intros E2. destruct (Delete_lemma t Hw tb ch r (Sys (ctl s) wd1 tr1))
      as (wd2 & tr2 & r2 & E2' & H2). rewrite E2' in E2. injection E2 as -> <-.
    destruct H2 as [H2 H2']. simpl in *. intros k. destruct (decide (k = (tb, ch))) as [->|Hk].
    + by rewrite H2, H1, remove_first_add_unique.
    + by rewrite H2', H1'.
Qed.

Lemma AppendUnique_Delete_witness :
  let m := AppendUnique sim_ipt "nat" "POSTROUTING" ["-j"; "MASQUERADE"] in
  let d := Delete sim_ipt "nat" "POSTROUTING" ["-j"; "MASQUERADE"] in
  rules (world (final d (final m fw_state))) ("nat", "POSTROUTING") = [].
Proof.
  intros m d.
  destruct (AppendUnique_Delete sim_ipt "nat" "POSTROUTING" ["-j"; "MASQUERADE"] fw_state
    (final m fw_state) (final d (final m fw_state))) as [_ Hd];
    [reflexivity|reflexivity|apply not_elem_of_nil|vm_compute; reflexivity|].
  rewrite Hd; [reflexivity|vm_compute; reflexivity].
Defined.

(** ** NewController *)

(** The fields [NewController] sets only at the end, or not at all, and those it
    sets before the firewall and hostapd. *)
Definition idle_fields (c : Controller) :=
  (setupLock c, breakerTripped c, wg c, shutdown c, (vpnConf c, vpnInterface c, vpnProc c)).
Definition base_fields (c : Controller) :=
  (idle_fields c, bridgeAddr c, wlanAddr c, subnet c, bridgeInterface c).

Ltac startup :=
  unfold CreateNetBridge, SetInterfaceAddr, AddrAdd, setupFirewall, startHostapd, orDeleteBridge,
    DeleteNetBridge, Query, randStringFname, AppendUnique, Exists, Append, existsForOldIptables,
    Iptables.run, runWithOutput, run_command, newXtablesFileLock, tryLock, Iptables.Unlock; method.

Section startup.
Context {W : Type} `{OS W} (w : Z) (turns : nat).
Context (R : sys W Controller -> sys W Controller -> Prop) `{!PreOrder R}.
Context (R_unique : forall t tb c r, respects R (AppendUnique t tb c r)).

Lemma blockPorts_respects t sub ports : respects R (blockPorts t sub ports).
Proof using All. induction ports; simpl; frame. Qed.
Lemma blockSubnets_respects t sub subnets : respects R (blockSubnets t sub subnets).
Proof using All. induction subnets; simpl; frame. Qed.
End startup.

Section starts.
Context {W : Type} `{OS W} (w : Z) (turns : nat).

Lemma waitHostapd_base n : respects (keeps base_fields) (waitHostapd n).
Proof. induction n; simpl; startup. Qed.
Lemma setupFirewall_base : respects (keeps base_fields) setupFirewall.
Proof.
  startup; [apply blockPorts_respects|apply blockSubnets_respects]; try apply _; intros; startup.
Qed.
Lemma startHostapd_base : respects (keeps base_fields) (startHostapd turns).
Proof. pose proof waitHostapd_base. startup. Qed.
Lemma SetInterfaceAddr_base n a : respects (keeps base_fields) (SetInterfaceAddr n a).
Proof. startup. Qed.

Lemma orDeleteBridge_returns br m s s' :
  orDeleteBridge br m s = Some (Ret tt, s') -> exists r, m s = Some (r, s') .
Proof.
  intros (r & s1 & E & E1)%bind_returns. revert E. unfold try.
  destruct (m s) as [[[a|e|p] s2]|]; intros [= <- <-].
  - injection E1 as <-. eauto.
  - apply bind_returns in E1 as (? & ? & _ & [=]).
Qed.

Lemma startServices_base c br wl sub s s' :
  startServices turns c br wl sub s = Some (Ret tt, s') ->
  base_fields (ctl s') = base_fields ((ctl s) <| wg := wg (ctl s) + 2 |>).
Proof.
  intros ([] & s1 & E1 & E)%bind_returns.
  apply bind_returns in E as ([] & s2 & [r2 E2]%orDeleteBridge_returns & E).
  apply bind_returns in E as ([] & s3 & [r3 E3]%orDeleteBridge_returns & [= <-]).
  apply setupFirewall_base in E2. apply startHostapd_base in E3.
  assert (base_fields (ctl s1) = base_fields (ctl s)) as H1.
  { case_decide; [|by injection E1 as <-].
    apply orDeleteBridge_returns in E1 as [r E1]. by apply SetInterfaceAddr_base in E1. }
  unfold keeps in E2, E3. rewrite E2, H1 in E3. destruct s as [[] ? ?], s3 as [[] ? ?].
  unfold base_fields, idle_fields, constant in *. simpl in *. congruence.
Qed.

Lemma CreateNetBridge_fields n ip sub :
  respects (keeps (fun c => (idle_fields c, bridgeAddr c, subnet c)))
    (@CreateNetBridge W Controller _ n ip sub).
Proof. startup. Qed.

Lemma NewController_fields c s s' :
  NewController w turns c s = Some (Ret tt, s') ->
  exists ip sub wl, net.ParseCIDR (Subnet (Network c)) = Ret (ip, sub) /\ IPAdd ip 1 = Ret wl /\
    idle_fields (ctl s') = (false, false, 2, false, (None, None, None)) /\
    bridgeAddr (ctl s') = ip /\ wlanAddr (ctl s') = wl /\ subnet (ctl s') = Some sub /\
    is_Some (bridgeInterface (ctl s')).
Proof.
  intros (t & s1 & _ & E)%bind_returns.
  apply bind_returns in E as ([] & s2 & [= <-] & E).
  apply bind_returns in E as ([ip sub] & s3 & E3 & E). unfold pure in E3. injection E3 as E3 <-.
  apply bind_returns in E as ([] & s4 & [= <-] & E).
  apply bind_returns in E as ([] & s5 & [= <-] & E).
  apply bind_returns in E as (br & s6 & E6 & E). apply CreateNetBridge_fields in E6.
  apply bind_returns in E as ([] & s7 & [= <-] & E).
  apply bind_returns in E as (wl & s8 & E8 & E). unfold pure in E8. injection E8 as E8 <-.
  apply bind_returns in E as ([] & s9 & [= <-] & E). apply startServices_base in E.
  exists ip, sub, wl. split; [done|]. split; [done|].
  destruct s6 as [[] ? ?], s' as [[] ? ?].
  unfold keeps, base_fields, idle_fields, constant in *. simpl in *.
  unfold constant in *. simplify_eq. split_and!; done.
Qed.
End starts.

Section startup_forwarding.
Context {W : Type} `{Forwarding W} (w : Z) (turns : nat).

Lemma waitHostapd_forwarding n : respects same_forwarding (waitHostapd (W := W) n).
Proof. induction n; simpl; startup. Qed.
Lemma setupFirewall_forwarding : respects same_forwarding (@setupFirewall W _).
Proof.
  startup; [apply blockPorts_respects|apply blockSubnets_respects]; try apply _; intros; startup.
Qed.
Lemma startHostapd_forwarding : respects same_forwarding (startHostapd (W := W) turns).
Proof. pose proof waitHostapd_forwarding. startup. Qed.
Lemma NewController_forwarding c : respects same_forwarding (NewController (W := W) w turns c).
Proof.
  pose proof setupFirewall_forwarding. pose proof startHostapd_forwarding.
  unfold NewController, startServices, New, NewWithProtocol, getIptablesCommandSupport,
    getIptablesVersionString. startup.
Qed.
End startup_forwarding.

(** A controller that [NewController] returns is in the initial state of the
    machine: the mutex free, the breaker armed, the two routines counted, no VPN;
    its addresses are the bridge's from the configured subnet and the one after
    it.  Forwarding is as it was before the daemon started. *)
Theorem NewController_starts {W} `{Forwarding W} w turns c (s s' : sys W Controller) :
  NewController w turns c s = Some (Ret tt, s') ->
  starts {| at_sys := s'; breaker := Waiting; status := Waiting; main := SettingVPN;
            crashed := false |} /\
  (exists sub, net.ParseCIDR (Subnet (Network c)) = Ret (bridgeAddr (ctl s'), sub) /\
     subnet (ctl s') = Some sub) /\
  IPAdd (bridgeAddr (ctl s')) 1 = Ret (wlanAddr (ctl s')) /\
  forwarding (world s') = forwarding (world s).
Proof.
  intros E. pose proof (NewController_forwarding _ _ _ _ _ _ E) as Hf.
  apply NewController_fields in E as (ip & sub & wl & Hc & Hw & Hi & <- & <- & Hs & _).
  unfold idle_fields in Hi. injection Hi as ? ? ? ? ? ? ?.
  split; [by repeat split|]. split; [by exists sub|]. by split.
Qed.

(** The daemon starts on a machine that forwards, and goes on forwarding. *)
Lemma NewController_starts_witness :
  forwarding (world (final (NewController 64 300 sim_config) (sim_start_state sim_world))) = true.
Proof.
  destruct (NewController_starts 64 300 sim_config (sim_start_state sim_world)
    (final (NewController 64 300 sim_config) (sim_start_state sim_world))) as (_ & _ & _ & Hf).
  - vm_compute. reflexivity.
  - exact Hf.
Defined.

(** ** Failed starts *)

Definition adds_bridge (e : event) : Prop := exists n, e = EvLinkAdd n (Ret tt).

(** The last call deleted the bridge. *)
Definition bridge_deleted {W} (s : sys W Controller) : Prop :=
  exists tr n r, trace s = tr ++ [EvLinkDel n r].

Section failures.
Context {W : Type} `{OS W} (w : Z) (turns : nat).

Lemma orDeleteBridge_fails br m (s s' : sys W Controller) e :
  orDeleteBridge br m s = Some (Err e, s') -> bridge_deleted s'.
Proof.
  intros [E|(r & s1 & E & E1)]%bind_fails.
  { revert E. unfold try. by destruct (m s) as [[[]?]|]. }
  destruct r as [?|e1]; [by injection E1|]. apply bind_fails in E1 as [E1|(r2 & s2 & E2 & E3)].
  { revert E1. unfold try. by destruct (DeleteNetBridge _ _) as [[[]?]|]. }
  injection E3 as _ <-. revert E2. unfold try, DeleteNetBridge, call.
  destruct (nl_LinkDel _ _) as [[] wd]; intros [= _ <-]; by eexists _, _, _.
Qed.

Lemma startServices_fails c br wl sub s s' e :
  startServices turns c br wl sub s = Some (Err e, s') -> bridge_deleted s'.
Proof.
  intros [E|([] & s1 & _ & E)]%bind_fails.
  { case_decide; [by apply orDeleteBridge_fails in E|done]. }
  apply bind_fails in E as [E|([] & s2 & _ & E)]; [by apply orDeleteBridge_fails in E|].
  apply bind_fails in E as [E|([] & s3 & _ & E)]; [by apply orDeleteBridge_fails in E|done].
Qed.

Lemma New_adds_no_bridge : respects (avoids adds_bridge) (@New W Controller _ w).
Proof.
  unfold New, NewWithProtocol, getIptablesCommandSupport, getIptablesVersionString. startup.
Qed.
End failures.

(** When [NewController] fails, no bridge was added, or adding it is what failed,
    or the bridge is deleted again as the last thing that happens. *)
Theorem NewController_failure {W} `{OS W} w turns c (s s' : sys W Controller) e :
  NewController w turns c s = Some (Err e, s') ->
  avoids adds_bridge s s' \/
  (exists s1 ip sub, CreateNetBridge ("br" +:+ InterfaceIdent (Network c)) ip sub s1 = Some (Err e, s')) \/
  bridge_deleted s'.
Proof.
  intros [E|(t & s1 & E0 & E)]%bind_fails; [left; by eapply New_adds_no_bridge|].
  apply bind_fails in E as [E|([] & s2 & [= <-] & E)]; [done|].
  apply bind_fails in E as [E|([ip sub] & s3 & E3 & E)].
  { left. apply New_adds_no_bridge in E0. unfold pure in E. injection E as _ <-. exact E0. }
  apply bind_fails in E as [E|([] & s4 & _ & E)]; [done|].
  apply bind_fails in E as [E|([] & s5 & _ & E)]; [done|].
  apply bind_fails in E as [E|(br & s6 & _ & E)]; [right; left; by eexists _, _, _|].
  apply bind_fails in E as [E|([] & s7 & _ & E)]; [done|].
  apply bind_fails in E as [E|(wl & s8 & _ & E)].
  { exfalso. unfold pure in E. injection E as E _. revert E. unfold IPAdd.
    by destruct (net.To4 ip) as [|? [|? [|? [|? ?]]]]. }
  apply bind_fails in E as [E|([] & s9 & _ & E)]; [done|].
  right. right. by apply startServices_fails in E.
Qed.

(** hostapd never answers. *)
Lemma NewController_failure_witness :
  let s := sim_start_state (sim_world <| ticks := 0%nat |>) in
  avoids adds_bridge s (final (NewController 64 300 sim_config) s) \/
  (exists s1 ip sub, CreateNetBridge "brops" ip sub s1 =
     Some (Err (ErrorString "timeout waiting for hostapd to come up"),
           final (NewController 64 300 sim_config) s)) \/
  bridge_deleted (final (NewController 64 300 sim_config) s).
Proof.
  intros s.
  apply (NewController_failure 64 300 sim_config s (final (NewController 64 300 sim_config) s)
           (ErrorString "timeout waiting for hostapd to come up")).
  vm_compute. reflexivity.
Defined.

(** [CreateNetBridge] itself does not clean up: when the address cannot be set the
    bridge stays behind, and the next start finds the device in its way. *)
Theorem CreateNetBridge_leaves_bridge {W} `{OS W} n ip sub (s : sys W Controller) e1 e2 w1 w2 w3 :
  os_InterfaceByName n (world s) = (Err e1, w1) -> nl_LinkAdd n w1 = (Ret tt, w2) ->
  nl_AddrAdd n {| net.IPNet_IP := ip; net.IPNet_Mask := net.IPNet_Mask sub |} w2 = (Err e2, w3) ->
  exists tr, CreateNetBridge n ip sub s = Some (Err e2, Sys (ctl s) w3 tr) /\
    EvLinkAdd n (Ret tt) ∈ tr /\ avoids (fun e => exists m r, e = EvLinkDel m r) s (Sys (ctl s) w3 tr).
Proof.
  intros H1 H2 H3. unfold CreateNetBridge, InterfaceByName, AddrAdd, mbind, GM_bind, try, call.
  rewrite H1. simpl. rewrite H2. simpl. rewrite H3. eexists. split; [reflexivity|].
  split; [rewrite !elem_of_app, !list_elem_of_singleton; tauto|].
  eexists. split; [simpl; rewrite <- !app_assoc; reflexivity|].
  repeat apply Forall_cons_2; try apply Forall_nil_2; intros (? & ? & [=]).
Qed.

Lemma CreateNetBridge_leaves_bridge_witness :
  let s := sim_start_state (sim_world <| addr_ok := false |>) in
  exists wd tr, CreateNetBridge "brops" [] {| net.IPNet_IP := []; net.IPNet_Mask := [] |} s =
      Some (Err (SysError "permission denied"), Sys (ctl s) wd tr) /\
    EvLinkAdd "brops" (Ret tt) ∈ tr.
Proof.
  intros s.
  destruct (CreateNetBridge_leaves_bridge "brops" [] {| net.IPNet_IP := []; net.IPNet_Mask := [] |} s
    (ErrorString "no such network interface") (SysError "permission denied") (world s)
    (snd (nl_LinkAdd "brops" (world s))) (snd (nl_LinkAdd "brops" (world s)))) as (tr & E & Hin & _);
    [reflexivity..|].
  exists (snd (nl_LinkAdd "brops" (world s))), tr. exact (conj E Hin).
Defined.

(** ** GetState *)

(** [GetState] panics exactly when no VPN was ever set; otherwise it reports the
    breaker, the VPN, the subnet and the access point as the fields have them. *)
Theorem GetState_panics_iff c sub :
  subnet c = Some sub ->
  (GetState c = Panic NilDereference <-> vpnConf c = None) /\
  forall vpn, vpnConf c = Some vpn -> exists st, GetState c = Ret st /\
    Breaker_Tripped st = breakerTripped c /\ State_VPN_Name st = VPN_Name vpn /\
    State_Subnet st = net.IPNet_String sub /\ State_AP st = lastAPState c /\
    (State_VPN_Configured st = true <-> is_Some (vpnInterface c)).
Proof.
  intros Hs. unfold GetState. rewrite Hs, bind_ret. split.
  - destruct (vpnConf c); [rewrite bind_ret|]; done.
  - intros vpn ->. rewrite bind_ret. eexists. split; [reflexivity|].
    repeat split; simpl; [by intros ?%bool_decide_eq_true|]. by intros ?; apply bool_decide_eq_true.
Qed.

(** Right after the start, before any VPN is set. *)
Lemma GetState_panics_iff_witness :
  GetState (ctl MachineExample.started) = Panic NilDereference.
Proof.
  apply (GetState_panics_iff (ctl MachineExample.started)
    {| net.IPNet_IP := [Byte.xc0; Byte.xa8; Byte.x30; Byte.x00];
       net.IPNet_Mask := [Byte.xff; Byte.xff; Byte.xff; Byte.x00] |}); vm_compute; reflexivity.
Defined.

(** ** Close *)

Section close.
Context {W : Type} `{Forwarding W}.

Lemma closeRest_forwarding : respects same_forwarding (@closeRest W _).
Proof. region. Qed.
End close.

(** [Close] kills the VPN but never touches forwarding: what was on stays on. *)
Theorem Close_leaves_forwarding {W} `{Forwarding W} (s : sys W Controller) r s' :
  Close s = Some (r, s') -> forwarding (world s') = forwarding (world s).
Proof.
  intros E. assert (Hc : respects same_forwarding (@Close W _)).
  { pose proof closeRest_forwarding. unfold Close, closeShutdown. region. }
  exact (Hc _ _ _ E).
Qed.

(** The VPN is up, the routines have returned; after [Close] its process is killed,
    the route is the uplink's again, and the machine still forwards. *)
Definition before_close : sys sim Controller :=
  Sys ((ctl MachineExample.s1) <| wg := 0 |>) (world MachineExample.s1) [].

Lemma Close_leaves_forwarding_witness :
  forwarding (world (final Close before_close)) = true /\
  EvKill 4242 ∈ trace (final Close before_close) /\
  route (world (final Close before_close)) = Some 1.
Proof.
  split; [|split; [apply list_elem_of_In; vm_compute; tauto|vm_compute; reflexivity]].
  rewrite (Close_leaves_forwarding before_close (Ret tt) (final Close before_close));
    vm_compute; reflexivity.
Defined.

(** ** hostapd's status *)

(** A request that cannot be written to hostapd's socket is taken for an empty
    answer: [Query] returns the nil error of the dial, and the routine replaces
    the last known status by an empty one. *)
Theorem write_error_is_empty_status :
  let s := sim_start_state (sim_world <| sock_ok := false |>) in
  lastAPState (ctl (final (hostapdStatusCheck 64) s)) =
    Some {| State := EmptyString; Frequency := 0; Channel := 0; Stations := 0 |} /\
  exists s', QueryStatus 64 "/var/run/hostapd/wlan0" s =
    Some (Ret {| State := EmptyString; Frequency := 0; Channel := 0; Stations := 0 |}, s').
Proof.
  intros s. split; [vm_compute; reflexivity|].
  exists (final (QueryStatus 64 "/var/run/hostapd/wlan0") s). vm_compute. reflexivity.
Qed.
