(* ===== verification/Server.v ===== *)
(** * main.go: the HTTP handlers and the start of the daemon

    The handlers [makeServer] registers for [/], [/setVPN], [/status] and [/vpns],
    and [main] up to the wait for signals.  The JSON decoder's result is an argument
    of the [/setVPN] handler.  A handler that panics is recovered by [net/http],
    which drops the connection. *)

From Stdlib Require Import ZArith Lia NArith Ascii Strings.Byte.
From stdpp Require Import base numbers gmap strings list fin_maps.
From coqutil Require Import Datatypes.RecordSetters.
From S2P Require Import Prelude GoNet Dhcp4 OS Config NetUtil Iptables Hostapd Controller ControllerSpec SimOS.
Import RecordSetters.TriangleBracketNotations.

Open Scope Z_scope.

Definition StatusOK : Z := 200.
Definition StatusBadRequest : Z := 400.
Definition StatusNotFound : Z := 404.
Definition StatusMethodNotAllowed : Z := 405.
Definition StatusInternalServerError : Z := 500.

Record response := { code : Z; text : string }.

(** [err.Error()] of the errors [SetVPN] returns. *)
Definition Error_text (e : error) : string :=
  match e with
  | ErrorString m | OpError _ m | ExitError _ m | SysError m | NumError _ m => m
  end.

(** [http.Error] *)
Definition http_Error (msg : string) (c : Z) : response := {| code := c; text := msg +:+ nl |}.

(** The loop over the configured VPNs: the first with that name. *)
Fixpoint findVPN (n : string) (vpns : list VPNOpt) : option VPNOpt :=
  match vpns with
  | [] => None
  | v :: vpns => if decide (VPN_Name v = n) then Some v else findVPN n vpns
  end.

Section server.
Context {W : Type} `{OS W} (w : Z) (turns : nat).

#[local] Abbreviation M := (GM W Controller).

(** The [/setVPN] handler: [input] is what decoding the body gave. *)
Definition handleSetVPN (c : Config) (method : string) (input : string + error) : M response :=
  if decide (method <> "POST") then mret (http_Error "Method not allowed" StatusMethodNotAllowed)
  else
    match input with
    | inr e => mret (http_Error (Error_text e) StatusBadRequest)
    | inl n =>
        match findVPN n (VPNConfigurations c) with
        | None => mret (http_Error "No VPN with that name" StatusBadRequest)
        | Some vpn =>
            r ← try (SetVPN turns vpn);
            match r with
            | inr e => mret (http_Error (Error_text e) StatusInternalServerError)
            | inl _ => mret {| code := StatusOK; text := EmptyString |}
            end
        end
    end.

(** The [/status] handler: the state it encodes. *)
Definition handleStatus : M ControllerState := c ← get; pure (GetState c).

(** The [/] handler; the error of [ReadFile] is dropped. *)
Definition handleRoot (path : string) : M response :=
  if decide (path <> "/") then mret (http_Error "404 page not found" StatusNotFound)
  else
    d ← try (call (os_ReadFile "static/index.html") (EvReadFile "static/index.html"));
    mret {| code := StatusOK; text := match d with inl d => Prelude.text d | inr _ => EmptyString end |}.

(** The [/vpns] handler: the objects it encodes, with the keys of the tags. *)
Definition json_VPNOpt (v : VPNOpt) : list (string * string) :=
  [("name", VPN_Name v); ("path", VPN_Path v); ("icon", VPN_Icon v)].

Definition handleVPNs (c : Config) : M (list (list (string * string))) :=
  mret (json_VPNOpt <$> VPNConfigurations c).

(** [waitInterrupt] in the loop of [main], on the signals it receives while it
    waits: the ones left when [main] returns. *)
Inductive Signal := SIGHUP | SIGINT | SIGTERM.

Fixpoint waitSignals (sigs : list Signal) : option (list Signal) :=
  match sigs with
  | [] => None
  | SIGHUP :: sigs => waitSignals sigs
  | _ :: sigs => Some sigs
  end.

(** How [main] gets on before it waits for signals. *)
Inductive main_start :=
| ConfigFailed          (* [os.Exit(1)] *)
| ControllerFailed      (* returns at once *)
| VPNFailed             (* returns, running the deferred [Close] *)
| Started.

Context {Node : Type} (ParseBytes : list byte -> outcome Node) (is_list : Node -> bool)
        (DecodeObject : Node -> outcome Config).

Definition mainStart (arg : string) : M main_start :=
  let configFile := if decide (arg = EmptyString) then "config.hcl" else arg in
  c ← try (LoadConfigFile ParseBytes is_list DecodeObject configFile);
  match c with
  | inr _ => mret ConfigFailed
  | inl c =>
      ctr ← try (NewController w turns c);
      match ctr with
      | inr _ => mret ControllerFailed
      | inl _ =>
          match VPNConfigurations c with
          | [] => mret Started
          | vpn :: _ =>
              r ← try (SetVPN turns vpn);
              match r with
              | inr _ => mret VPNFailed
              | inl _ => mret Started
              end
          end
      end
  end.
End server.

(** ** Theorems *)

Lemma findVPN_Some n vpns v :
  findVPN n vpns = Some v -> VPN_Name v = n /\ v ∈ vpns.
Proof.
  induction vpns as [|x vpns IH]; simpl; [done|]. case_decide; [intros [= <-]; by split; [|left]|].
  intros [? ?]%IH. by split; [|right].
Qed.

(** C40: A [/setVPN] request answered with 200 was a POST naming a configured VPN; that
    VPN is now the controller's and forwarding is on.  Answered with anything
    else, it either changed nothing at all, or forwarding is off, unless it was on
    before and the attempt of this request to switch it off failed: a client that
    gets an error then is not cut off. *)
Theorem setVPN_response {W} `{Forwarding W} turns c method input (s : sys W Controller) r s' :
  handleSetVPN turns c method input s = Some (Ret r, s') ->
  if decide (code r = StatusOK) then
    method = "POST" /\
    exists n v, input = inl n /\ v ∈ VPNConfigurations c /\ VPN_Name v = n /\
      vpnConf (ctl s') = Some v /\ forwarding (world s') = true
  else s' = s \/
    exists l, trace s' = trace s ++ l /\
      (forwarding (world s') = true <-> forwarding (world s) = true /\ left_on l).
Proof.
  unfold handleSetVPN. case_decide as Hm; [by intros [= <- <-]; left|].
  destruct input as [n|e]; [|by intros [= <- <-]; left].
  destruct (findVPN n (VPNConfigurations c)) as [v|] eqn:Ev; [|by intros [= <- <-]; left].
  apply findVPN_Some in Ev as [Hn Hv]. intros E. apply bind_returns in E as (a & s1 & E & E1).
  revert E. unfold try. destruct (SetVPN turns v s) as [[[[]|e|p] s2]|] eqn:Es; [| |done|done];
    intros [= <- <-]; injection E1 as <- <-; simpl;
    destruct (SetVPN_on_success turns v s _ _ Es) as (l & Ht & Hi).
  - split; [done|]. exists n, v. split; [done|]. split; [done|]. split; [done|].
    destruct (SetVPN_succeeds turns (config (ctl s)) v s _ _ eq_refl Es eq_refl) as [(_ & Hc & _) _].
    split; [done|]. apply Hi. by left.
  - right. exists l. split; [done|]. rewrite Hi. split; [by intros [[=]|?]|by right].
Qed.

(** [main] waits through hang-ups and ends at the first other signal. *)
Lemma waitSignals_spec sigs rest :
  waitSignals sigs = Some rest <-> exists n sig, sig <> SIGHUP /\ sigs = replicate n SIGHUP ++ sig :: rest.
Proof.
  split.
  - induction sigs as [|[] sigs IH]; simpl; [done|..].
    + intros (n & sig & Hs & ->)%IH. by exists (S n), sig.
    + intros [= ->]. by exists 0%nat, SIGINT.
    + intros [= ->]. by exists 0%nat, SIGTERM.
  - intros (n & sig & Hs & ->). induction n as [|n IH]; simpl; [by destruct sig|done].
Qed.

(** A name [/vpns] lists is one [/setVPN] accepts, and the credentials of a VPN do
    not show in the answers of [/vpns]. *)
Lemma vpns_lists_names {W} `{OS W} c (s : sys W Controller) l n :
  handleVPNs c s = Some (Ret l, s) ->
  (exists o, o ∈ l /\ ("name", n) ∈ o) <-> is_Some (findVPN n (VPNConfigurations c)).
Proof.
  intros [= <-]. induction (VPNConfigurations c) as [|v vpns IH]; simpl.
  - split; [intros (o & Ho & _); by apply not_elem_of_nil in Ho|by intros [? ?]].
  - case_decide as Hn; [subst n; split; [by eauto|intros _; exists (json_VPNOpt v); split; constructor]|].
    rewrite <- IH. split.
    + intros (o & [->|Ho]%elem_of_cons & Hin); [|by eauto]. exfalso.
      unfold json_VPNOpt in Hin. rewrite !elem_of_cons, elem_of_nil in Hin.
      by destruct Hin as [[= ->]|[?|[?|?]]].
    + intros (o & Ho & Hin). exists o. split; [by right|done].
Qed.

Lemma vpns_hides_credentials {W} `{OS W} c c' (s : sys W Controller) :
  (fun v => (VPN_Name v, VPN_Path v, VPN_Icon v)) <$> VPNConfigurations c =
    ((fun v => (VPN_Name v, VPN_Path v, VPN_Icon v)) <$> VPNConfigurations c') ->
  handleVPNs c s = handleVPNs c' s.
Proof.
  intros E. unfold handleVPNs. assert (json_VPNOpt <$> VPNConfigurations c = json_VPNOpt <$> VPNConfigurations c') as ->; [|done].
  apply (f_equal (fmap (fun '(n, p, i) => [("name", n); ("path", p); ("icon", i)]))) in E.
  rewrite <- !list_fmap_compose in E. exact E.
Qed.

(** A configuration with two VPNs. *)
Definition two_vpns : Config :=
  {| Config_Name := Config_Name sim_config; Listener := Listener sim_config;
     Network := Network sim_config; Debug := Debug sim_config;
     VPNConfigurations :=
       [{| VPN_Name := "office"; VPN_Path := "/etc/office.ovpn"; VPN_Icon := "desk";
           VPN_Username := "user"; VPN_Password := "secret" |}; sim_vpn];
     Firewall := Firewall sim_config |}.

Lemma setVPN_response_witness :
  vpnConf (ctl (final (handleSetVPN 300 two_vpns "POST" (inl "home")) (sim_start_state sim_world)))
    = Some sim_vpn.
Proof.
  destruct (setVPN_response 300 two_vpns "POST" (inl "home") (sim_start_state sim_world)
    {| code := StatusOK; text := EmptyString |}
    (final (handleSetVPN 300 two_vpns "POST" (inl "home")) (sim_start_state sim_world)))
    as (_ & n & v & [= <-] & Hv & Hn & Hc & _).
  - vm_compute. reflexivity.
  - rewrite Hc. simpl in Hv. apply elem_of_cons in Hv as [->|Hv]; [discriminate Hn|].
    apply list_elem_of_singleton in Hv as ->. reflexivity.
Defined.
