(* ===== verification/Utf8.v ===== *)
(** * unicode/utf8 and unicode

    Go's [utf8.DecodeRune] and [utf8.EncodeRune] on byte lists, [unicode.IsSpace],
    and a class for the Unicode tables ([unicode.IsLetter], [unicode.IsDigit] above
    ASCII, [strings.EqualFold]), about which nothing is assumed. *)

From Stdlib Require Import ZArith Lia NArith Ascii Strings.Byte.
From stdpp Require Import base numbers gmap strings list fin_maps.
From S2P Require Import Prelude GoNet.

Open Scope Z_scope.

Definition RuneError : Z := 65533.
Definition RuneSelf : Z := 128.
Definition MaxRune : Z := 1114111.

(** A continuation byte that is the second of a sequence starting with [b0] is
    restricted further for some [b0]. *)
Definition second_ok (b0 b1 : Z) : bool :=
  if decide (b0 = 224) then bool_decide (160 <= b1 <= 191)
  else if decide (b0 = 237) then bool_decide (128 <= b1 <= 159)
  else if decide (b0 = 240) then bool_decide (144 <= b1 <= 191)
  else if decide (b0 = 244) then bool_decide (128 <= b1 <= 143)
  else bool_decide (128 <= b1 <= 191).

Definition cont (b : Z) : bool := bool_decide (128 <= b <= 191).

(** The six low bits of a continuation byte, [b & maskx]. *)
Definition low6 (b : Z) : Z := Z.land b 63.

(** [DecodeRune]: the rune and its width; [RuneError] of width 1 for an invalid
    encoding, of width 0 for an empty slice. *)
Definition DecodeRune (p : list byte) : Z * nat :=
  match p with
  | [] => (RuneError, 0%nat)
  | c0 :: p =>
      let b0 := u8 c0 in
      if decide (b0 < RuneSelf) then (b0, 1%nat)
      else if decide (b0 < 194 \/ 244 < b0) then (RuneError, 1%nat)
      else
        match p with
        | [] => (RuneError, 1%nat)
        | c1 :: p =>
            let b1 := u8 c1 in
            if negb (second_ok b0 b1) then (RuneError, 1%nat)
            else if decide (b0 < 224) then
              (Z.lor (low6 b1) (Z.shiftl (Z.land b0 31) 6), 2%nat)
            else
              match p with
              | [] => (RuneError, 1%nat)
              | c2 :: p =>
                  let b2 := u8 c2 in
                  if negb (cont b2) then (RuneError, 1%nat)
                  else if decide (b0 < 240) then
                    (Z.lor (low6 b2) (Z.lor (Z.shiftl (low6 b1) 6) (Z.shiftl (Z.land b0 15) 12)),
                     3%nat)
                  else
                    match p with
                    | [] => (RuneError, 1%nat)
                    | c3 :: _ =>
                        let b3 := u8 c3 in
                        if negb (cont b3) then (RuneError, 1%nat)
                        else
                          (Z.lor (low6 b3) (Z.lor (Z.shiftl (low6 b2) 6)
                             (Z.lor (Z.shiftl (low6 b1) 12) (Z.shiftl (Z.land b0 7) 18))), 4%nat)
                    end
              end
        end
  end.

(** [EncodeRune]: the bytes written for a rune. *)
Definition encode3 (r : Z) : list byte :=
  [byte_of_Z (Z.lor 224 (Z.shiftr r 12)); byte_of_Z (Z.lor 128 (low6 (Z.shiftr r 6)));
   byte_of_Z (Z.lor 128 (low6 r))].

Definition EncodeRune (r : Z) : list byte :=
  if decide (0 <= r <= 127) then [byte_of_Z r]
  else if decide (0 <= r <= 2047) then
    [byte_of_Z (Z.lor 192 (Z.shiftr r 6)); byte_of_Z (Z.lor 128 (low6 r))]
  else if decide (r < 0 \/ MaxRune < r \/ 55296 <= r <= 57343) then encode3 RuneError
  else if decide (r <= 65535) then encode3 r
  else
    [byte_of_Z (Z.lor 240 (Z.shiftr r 18)); byte_of_Z (Z.lor 128 (low6 (Z.shiftr r 12)));
     byte_of_Z (Z.lor 128 (low6 (Z.shiftr r 6))); byte_of_Z (Z.lor 128 (low6 r))].

(** [unicode.IsSpace] *)
Definition IsSpace (r : Z) : bool :=
  bool_decide (9 <= r <= 13 \/ r = 32 \/ r = 133 \/ r = 160 \/ r = 5760 \/ 8192 <= r <= 8202 \/
               r = 8232 \/ r = 8233 \/ r = 8239 \/ r = 8287 \/ r = 12288).

(** Functions that depend on the tables of the Unicode standard. *)
Class Unicode := {
  unicode_IsLetter : Z -> bool;
  unicode_IsDigit : Z -> bool;
  EqualFold : list byte -> list byte -> bool
}.

(** Folds an ASCII letter. *)
Definition fold_byte (b : byte) : byte :=
  if decide (65 <= u8 b <= 90) then byte_of_Z (u8 b + 32) else b.

(** An instance for texts in ASCII. *)
Definition ascii_Unicode : Unicode := {|
  unicode_IsLetter _ := false;
  unicode_IsDigit _ := false;
  EqualFold s t := bool_decide (fold_byte <$> s = fold_byte <$> t)
|}.

(** ** Widths *)

Lemma DecodeRune_width p : (snd (DecodeRune p) <= length p)%nat /\ (p <> [] -> (0 < snd (DecodeRune p))%nat).
Proof.
  destruct p as [|c0 [|c1 [|c2 [|c3 p]]]]; simpl; [by split; [lia|]|..];
    repeat (case_decide || case_match); simpl; split; intros; lia.
Qed.

Lemma DecodeRune_ascii c p : u8 c < RuneSelf -> DecodeRune (c :: p) = (u8 c, 1%nat).
Proof. intros H. unfold DecodeRune. by rewrite decide_True. Qed.

#[global] Arguments DecodeRune : simpl never.
#[global] Arguments EncodeRune : simpl never.

(** ** Decoding in terms of sums *)

Lemma land_mask a k : 0 <= k -> Z.land a (2 ^ k - 1) = a mod 2 ^ k.
Proof. intros Hk. rewrite <- Z.land_ones by done. f_equal. rewrite Z.ones_equiv. lia. Qed.

Lemma low6_mod b : low6 b = b mod 64.
Proof. exact (land_mask b 6 ltac:(lia)). Qed.

Lemma lor_64 a b : 0 <= a < 64 -> Z.lor a (Z.shiftl b 6) = a + b * 64.
Proof. intros. apply (binary.lor_shiftl_add a b 6); lia. Qed.

Lemma lor_4096 a b : 0 <= a < 4096 -> Z.lor a (Z.shiftl b 12) = a + b * 4096.
Proof. intros. apply (binary.lor_shiftl_add a b 12); lia. Qed.

Lemma lor_262144 a b : 0 <= a < 262144 -> Z.lor a (Z.shiftl b 18) = a + b * 262144.
Proof. intros. apply (binary.lor_shiftl_add a b 18); lia. Qed.

(** The sum a sequence of bytes stands for. *)
Definition rune2 (b0 b1 : Z) : Z := (b1 - 128) + (b0 - 192) * 64.
Definition rune3 (b0 b1 b2 : Z) : Z := (b2 - 128) + (b1 - 128) * 64 + (b0 - 224) * 4096.
Definition rune4 (b0 b1 b2 b3 : Z) : Z :=
  (b3 - 128) + (b2 - 128) * 64 + (b1 - 128) * 4096 + (b0 - 240) * 262144.

Lemma low6_cont b : 128 <= b <= 191 -> low6 b = b - 128.
Proof. intros. rewrite low6_mod. symmetry. apply (Z.mod_unique _ _ 2); lia. Qed.

Lemma sum2 b0 b1 : 192 <= b0 < 224 -> 128 <= b1 <= 191 ->
  Z.lor (low6 b1) (Z.shiftl (Z.land b0 31) 6) = rune2 b0 b1.
Proof.
  intros H0 H1. rewrite low6_cont, lor_64 by lia. unfold rune2.
  change 31 with (2 ^ 5 - 1). rewrite land_mask by lia.
  rewrite <- (Z.mod_unique b0 (2 ^ 5) 6 (b0 - 192)); lia.
Qed.

Lemma sum3 b0 b1 b2 : 224 <= b0 < 240 -> 128 <= b1 <= 191 -> 128 <= b2 <= 191 ->
  Z.lor (low6 b2) (Z.lor (Z.shiftl (low6 b1) 6) (Z.shiftl (Z.land b0 15) 12)) = rune3 b0 b1 b2.
Proof.
  intros H0 H1 H2. rewrite !low6_cont by lia. rewrite Z.lor_assoc, lor_64, lor_4096 by lia.
  unfold rune3. change 15 with (2 ^ 4 - 1). rewrite land_mask by lia.
  rewrite <- (Z.mod_unique b0 (2 ^ 4) 14 (b0 - 224)); lia.
Qed.

Lemma sum4 b0 b1 b2 b3 :
  240 <= b0 < 248 -> 128 <= b1 <= 191 -> 128 <= b2 <= 191 -> 128 <= b3 <= 191 ->
  Z.lor (low6 b3) (Z.lor (Z.shiftl (low6 b2) 6)
    (Z.lor (Z.shiftl (low6 b1) 12) (Z.shiftl (Z.land b0 7) 18))) = rune4 b0 b1 b2 b3.
Proof.
  intros H0 H1 H2 H3. rewrite !low6_cont by lia. rewrite !Z.lor_assoc, lor_64, lor_4096, lor_262144 by lia.
  unfold rune4. change 7 with (2 ^ 3 - 1). rewrite land_mask by lia.
  rewrite <- (Z.mod_unique b0 (2 ^ 3) 30 (b0 - 240)); lia.
Qed.

Lemma cont_spec b : cont b = true <-> 128 <= b <= 191.
Proof. apply bool_decide_eq_true. Qed.

Lemma second_ok_cont b0 b1 : second_ok b0 b1 = true ->
  128 <= b1 <= 191 /\ (b0 = 224 -> 160 <= b1) /\ (b0 = 237 -> b1 <= 159) /\
  (b0 = 240 -> 144 <= b1) /\ (b0 = 244 -> b1 <= 143).
Proof.
  unfold second_ok. repeat case_decide; rewrite bool_decide_eq_true; lia.
Qed.

(** What [DecodeRune] gives: an ASCII byte, an error of width at most 1, or a
    rune of two to four bytes. *)
Variant decoded (p : list byte) : Z -> nat -> Prop :=
| decoded_ascii c r : p = c :: r -> u8 c < 128 -> decoded p (u8 c) 1
| decoded_error n : (n <= 1)%nat -> decoded p RuneError n
| decoded_2 c0 c1 r : p = c0 :: c1 :: r -> 194 <= u8 c0 < 224 -> 128 <= u8 c1 <= 191 ->
    decoded p (rune2 (u8 c0) (u8 c1)) 2
| decoded_3 c0 c1 c2 r : p = c0 :: c1 :: c2 :: r -> 224 <= u8 c0 < 240 -> second_ok (u8 c0) (u8 c1) = true ->
    128 <= u8 c2 <= 191 -> decoded p (rune3 (u8 c0) (u8 c1) (u8 c2)) 3
| decoded_4 c0 c1 c2 c3 r : p = c0 :: c1 :: c2 :: c3 :: r -> 240 <= u8 c0 <= 244 ->
    second_ok (u8 c0) (u8 c1) = true -> 128 <= u8 c2 <= 191 -> 128 <= u8 c3 <= 191 ->
    decoded p (rune4 (u8 c0) (u8 c1) (u8 c2) (u8 c3)) 4.

Lemma DecodeRune_decoded p : decoded p (fst (DecodeRune p)) (snd (DecodeRune p)).
Proof.
  unfold DecodeRune. destruct p as [|c0 p]; [by simpl; apply decoded_error; lia|].
  case_decide as H0; [simpl; eapply decoded_ascii; [done|unfold RuneSelf in H0; lia]|]. case_decide as H1; [by simpl; apply decoded_error; lia|].
  destruct p as [|c1 p]; [by simpl; apply decoded_error; lia|].
  destruct (second_ok (u8 c0) (u8 c1)) eqn:E1; simpl; [|by simpl; apply decoded_error; lia].
  pose proof (second_ok_cont _ _ E1) as (Hc1 & _). unfold RuneSelf in H0.
  case_decide as H2; [simpl; rewrite sum2 by lia; eapply decoded_2; [done|lia..]|].
  destruct p as [|c2 p]; [by simpl; apply decoded_error; lia|].
  destruct (cont (u8 c2)) eqn:E2; simpl; [|by simpl; apply decoded_error; lia]. apply cont_spec in E2.
  case_decide as H3; [simpl; rewrite sum3 by lia; eapply decoded_3; [done|lia|done|lia]|].
  destruct p as [|c3 p]; [by simpl; apply decoded_error; lia|].
  destruct (cont (u8 c3)) eqn:E3; simpl; [|by simpl; apply decoded_error; lia]. apply cont_spec in E3.
  rewrite sum4 by lia. eapply decoded_4; [done|lia|done|lia|lia].
Qed.

(** An ASCII rune is the byte itself. *)
Lemma DecodeRune_small p r n :
  DecodeRune p = (r, n) -> r < 128 -> p <> [] -> exists c q, p = c :: q /\ u8 c = r /\ n = 1%nat.
Proof.
  intros E Hr Hp. pose proof (DecodeRune_decoded p) as H. rewrite E in H. simpl in H.
  destruct H as [c q Ep H|n _|c0 c1 q _ H0 H1|c0 c1 c2 q _ H0 H1%second_ok_cont H2|
                 c0 c1 c2 c3 q _ H0 H1%second_ok_cont H2 H3].
  - eauto.
  - unfold RuneError in Hr. lia.
  - unfold rune2 in Hr. lia.
  - unfold rune3 in Hr. lia.
  - unfold rune4 in Hr. lia.
Qed.
