(* ===== verification/HclStrconv.v ===== *)
(** * hcl/strconv/quote.go: unquoting HCL strings

    [Unquote] and its helpers on byte strings.  [quote] is a reference printer,
    which writes every byte that could be special as [\xHH]; unquoting what it
    writes gives the bytes back. *)

From Stdlib Require Import ZArith Lia NArith Ascii Strings.Byte.
From stdpp Require Import base numbers gmap strings list fin_maps.
From S2P Require Import Prelude GoNet Utf8.

Open Scope Z_scope.

Module hclstrconv.

Definition ErrSyntax : error := ErrorString "invalid syntax".

Fixpoint contains (s : list byte) (c : byte) : bool :=
  match s with
  | [] => false
  | b :: s => bool_decide (b = c) || contains s c
  end.
Arguments contains s c%_byte_scope.

Definition unhex (b : byte) : Z * bool :=
  let c := u8 b in
  if decide (ch "0" <= c <= ch "9") then (c - ch "0", true)
  else if decide (ch "a" <= c <= ch "f") then (c - ch "a" + 10, true)
  else if decide (ch "A" <= c <= ch "F") then (c - ch "A" + 10, true)
  else (0, false).

(** The loop of the cases [x], [u] and [U] of [unquoteChar]: [n] hexadecimal
    digits into a [rune], an [int32]. *)
Fixpoint unhexes (n : nat) (v : Z) (s : list byte) : outcome Z :=
  match n, s with
  | O, _ => Ret v
  | S n, c :: s =>
      let '(x, ok) := unhex c in
      if ok then unhexes n (Z.lor (sint 32 (Z.shiftl v 4)) x) s else Err ErrSyntax
  | S _, [] => Panic IndexOutOfRange
  end.

(** The loop of the octal case: [n] digits after the first. *)
Fixpoint octals (n : nat) (v : Z) (s : list byte) : outcome Z :=
  match n, s with
  | O, _ => Ret v
  | S n, c :: s =>
      let x := u8 c - ch "0" in
      if decide (x < 0 \/ x > 7) then Err ErrSyntax
      else octals n (Z.lor (Z.shiftl v 3) x) s
  | S _, [] => Panic IndexOutOfRange
  end.

(** What follows a backslash: the escaped character [c] and the text after it. *)
Definition unquoteEscape (c : Z) (s : list byte) (quote : Z) : outcome (Z * bool * list byte) :=
  let hex (n : nat) :=
    if decide (length s < n)%nat then Err ErrSyntax
    else
      v ← unhexes n 0 s;
      if decide (c = ch "x") then Ret (v, false, drop n s)
      else if decide (v > MaxRune) then Err ErrSyntax
      else Ret (v, true, drop n s) in
  if decide (c = ch "a") then Ret (7, false, s)
  else if decide (c = ch "b") then Ret (8, false, s)
  else if decide (c = ch "f") then Ret (12, false, s)
  else if decide (c = ch "n") then Ret (10, false, s)
  else if decide (c = ch "r") then Ret (13, false, s)
  else if decide (c = ch "t") then Ret (9, false, s)
  else if decide (c = ch "v") then Ret (11, false, s)
  else if decide (c = ch "x") then hex 2%nat
  else if decide (c = ch "u") then hex 4%nat
  else if decide (c = ch "U") then hex 8%nat
  else if decide (ch "0" <= c <= ch "7") then
    if decide (length s < 2)%nat then Err ErrSyntax
    else
      v ← octals 2 (c - ch "0") s;
      if decide (v > 255) then Err ErrSyntax else Ret (v, false, drop 2 s)
  else if decide (c = ch "\") then Ret (ch "\", false, s)
  else if decide (c = ch "'" \/ c = ch "034") then
    if decide (c = quote) then Ret (c, false, s) else Err ErrSyntax
  else Err ErrSyntax.

Definition unquoteChar (s : list byte) (quote : Z) : outcome (Z * bool * list byte) :=
  c0 ← index s 0;
  let c := u8 c0 in
  if decide (c = quote /\ (quote = ch "'" \/ quote = ch "034")) then Err ErrSyntax
  else if decide (RuneSelf <= c) then
    let '(r, size) := DecodeRune s in Ret (r, true, drop size s)
  else if decide (c <> ch "\") then Ret (c, false, drop 1 s)
  else if decide (length s <= 1)%nat then Err ErrSyntax
  else
    c1 ← index s 1;
    unquoteEscape (u8 c1) (drop 2 s) quote.

(** The inner loop of [Unquote]: the text of an interpolation up to its closing
    brace, copied as it is.  Gives the rest of [s], the bytes copied and the
    braces still open.  The turns are bounded by the length of [s]. *)
Fixpoint interpolation (turns : nat) (s buf : list byte) (braces : Z) : outcome (list byte * list byte * Z) :=
  match turns with
  | O => Ret (s, buf, braces)
  | S turns =>
      if decide (s = [] \/ braces <= 0) then Ret (s, buf, braces)
      else
        let '(r, size) := DecodeRune s in
        if decide (r = RuneError) then Err ErrSyntax
        else
          interpolation turns (drop size s) (buf ++ EncodeRune r)
            (if decide (r = ch "{") then braces + 1
             else if decide (r = ch "}") then braces - 1 else braces)
  end.

Definition starts_interpolation (s : list byte) : bool :=
  match s with
  | c0 :: c1 :: _ => bool_decide (c0 = "$"%byte /\ c1 = "{"%byte)
  | _ => false
  end.

(** The outer loop of [Unquote]; its turns are bounded by the length of [s]. *)
Fixpoint unquoteLoop (turns : nat) (s buf : list byte) (quote : Z) : outcome (list byte) :=
  match turns with
  | O => Ret buf
  | S turns =>
      match s with
      | [] => Ret buf
      | c0 :: _ =>
          if starts_interpolation s then
            '(s, buf, braces) ← interpolation (length s) (drop 2 s) (buf ++ ["$"%byte; "{"%byte]) 1;
            if decide (braces <> 0) then Err ErrSyntax else unquoteLoop turns s buf quote
          else if decide (c0 = "010"%byte) then Err ErrSyntax
          else
            '(c, multibyte, ss) ← unquoteChar s quote;
            let buf := if decide (c < RuneSelf \/ multibyte = false)
                       then buf ++ [byte_of_Z c] else buf ++ EncodeRune c in
            if decide (quote = ch "'" /\ ss <> []) then Err ErrSyntax
            else unquoteLoop turns ss buf quote
      end
  end.

Definition Unquote (s : list byte) : outcome (list byte) :=
  let n := length s in
  if decide (n < 2)%nat then Err ErrSyntax
  else
    q ← index s 0;
    z ← index s (n - 1);
    if decide (q <> z) then Err ErrSyntax
    else
      let s := take (n - 2) (drop 1 s) in
      if decide (u8 q <> ch "034") then Err ErrSyntax
      else if negb (contains s "$") && negb (contains s "{") && contains s "010" then Err ErrSyntax
      else if negb (contains s "\") && negb (contains s q) && negb (contains s "$") then Ret s
      else unquoteLoop (length s) s [] (u8 q).

(** ** The reference printer *)

Definition hex_digit (v : Z) : byte :=
  byte_of_Z (if decide (v < 10) then ch "0" + v else ch "a" + (v - 10)).

(** A byte that stands for itself in a quoted string. *)
Definition plain (b : byte) : bool :=
  bool_decide (32 <= u8 b < 127 /\ b <> "034"%byte /\ b <> "\"%byte /\ b <> "$"%byte).

Definition escape (b : byte) : list byte :=
  if plain b then [b]
  else ["\"%byte; "x"%byte; hex_digit (u8 b / 16); hex_digit (u8 b mod 16)].

Definition body (v : list byte) : list byte := v ≫= escape.

Definition quote (v : list byte) : list byte := "034"%byte :: body v ++ ["034"%byte].

(** ** The loops have enough turns *)

Lemma interpolation_shorter turns : forall s buf braces s' buf' braces',
  interpolation turns s buf braces = Ret (s', buf', braces') -> (length s' <= length s)%nat.
Proof.
  induction turns as [|n IH]; intros s buf braces s' buf' braces'; cbn [interpolation].
  - intros [= <- _ _]. done.
  - case_decide; [intros [= <- _ _]; done|].
    destruct (DecodeRune s) as [r size]. case_decide; [done|].
    intros E%IH. rewrite length_drop in E. lia.
Qed.

Lemma interpolation_done turns s buf braces :
  s = [] \/ braces <= 0 -> interpolation turns s buf braces = Ret (s, buf, braces).
Proof. intros H. destruct turns; cbn [interpolation]; [done|]. by rewrite decide_True. Qed.

(** More turns than bytes change nothing: the model's loop ends where the code's
    does. *)
Lemma interpolation_turns n : forall m s buf braces,
  (length s <= n)%nat -> (length s <= m)%nat ->
  interpolation n s buf braces = interpolation m s buf braces.
Proof.
  induction n as [|n IH]; intros [|m] s buf braces Hn Hm; try done.
  - assert (s = []) as -> by (by destruct s; simpl in *; [|lia]).
    by rewrite !interpolation_done by auto.
  - assert (s = []) as -> by (by destruct s; simpl in *; [|lia]).
    by rewrite !interpolation_done by auto.
  - cbn [interpolation]. case_decide as Hs; [done|].
    pose proof (DecodeRune_width s) as [_ Hw].
    destruct (DecodeRune s) as [r size] eqn:E. simpl in Hw. case_decide; [done|].
    assert (0 < size)%nat by (apply Hw; tauto).
    apply IH; rewrite length_drop; lia.
Qed.

Lemma unquoteEscape_shorter c s q r mb ss :
  unquoteEscape c s q = Ret (r, mb, ss) -> (length ss <= length s)%nat.
Proof.
  unfold unquoteEscape.
  repeat case_decide; try done; try (intros [= _ _ <-]; done);
    (intros (v & _ & E)%bind_Ret_inv; repeat case_decide; try done;
     injection E as _ _ <-; rewrite length_drop; lia).
Qed.

Lemma unquoteChar_shorter s q r mb ss :
  unquoteChar s q = Ret (r, mb, ss) -> (length ss < length s)%nat.
Proof.
  unfold unquoteChar. intros (c0 & Hi & H)%bind_Ret_inv.
  destruct s as [|b s]; [done|]. injection Hi as <-.
  case_decide; [done|]. case_decide.
  { pose proof (DecodeRune_width (b :: s)) as [_ Hw].
    destruct (DecodeRune (b :: s)) as [r0 size]. injection H as _ _ <-.
    specialize (Hw ltac:(done)). rewrite length_drop. simpl in *. lia. }
  case_decide; [injection H as _ _ <-; simpl; rewrite drop_0; lia|].
  case_decide as Hl; [done|]. apply bind_Ret_inv in H as (c1 & _ & H).
  apply unquoteEscape_shorter in H. rewrite length_drop in H. simpl in *. lia.
Qed.

Lemma starts_interpolation_spec s :
  starts_interpolation s = true <-> exists s', s = "$"%byte :: "{"%byte :: s'.
Proof.
  destruct s as [|a [|b s]]; cbn; [by split; [|intros [? ?]]..|].
  rewrite bool_decide_eq_true. split; [intros [-> ->]; eauto|by intros [? [= -> -> _]]].
Qed.

Lemma unquoteLoop_turns n : forall m s buf q,
  (length s <= n)%nat -> (length s <= m)%nat -> unquoteLoop n s buf q = unquoteLoop m s buf q.
Proof.
  induction n as [|n IH]; intros [|m] s buf q Hn Hm; try done;
    try (by assert (s = []) as -> by (by destruct s; simpl in *; [|lia])).
  cbn [unquoteLoop]. destruct s as [|c s]; [done|].
  destruct (starts_interpolation (c :: s)) eqn:Hs.
  - apply starts_interpolation_spec in Hs as [s' [= -> ->]].
    destruct (interpolation _ _ _ _) as [[[s1 buf1] br]|e|p] eqn:E; simpl; [|done..].
    case_decide; [done|]. apply interpolation_shorter in E.
    simpl in *. rewrite drop_0 in E. apply IH; lia.
  - case_decide; [done|].
    destruct (unquoteChar (c :: s) q) as [[[r mb] ss]|e|p] eqn:E; simpl; [|done..].
    apply unquoteChar_shorter in E. case_decide; [done|]. simpl in *. apply IH; lia.
Qed.

(** ** Unquoting what was quoted *)

Lemma unhex_digit v : 0 <= v < 16 -> unhex (hex_digit v) = (v, true).
Proof.
  intros Hv. unfold unhex, hex_digit.
  change (ch "0") with 48; change (ch "9") with 57; change (ch "a") with 97;
    change (ch "f") with 102; change (ch "A") with 65; change (ch "F") with 70.
  rewrite u8_byte_of_Z_small by (case_decide; lia).
  repeat case_decide; try lia; f_equal; lia.
Qed.

Lemma nibbles b : 0 <= u8 b / 16 < 16 /\ 0 <= u8 b mod 16 < 16 /\ u8 b = 16 * (u8 b / 16) + u8 b mod 16.
Proof. pose proof (u8_range b). Z.to_euclidean_division_equations. lia. Qed.

Lemma unhexes_byte b rest :
  unhexes 2 0 (hex_digit (u8 b / 16) :: hex_digit (u8 b mod 16) :: rest) = Ret (u8 b).
Proof.
  destruct (nibbles b) as (Hh & Hl & E). cbn [unhexes]. rewrite unhex_digit by lia.
  rewrite unhex_digit by lia. f_equal. change (Z.shiftl 0 4) with 0.
  change (sint 32 0) with 0. rewrite Z.lor_0_l.
  assert (Hs : sint 32 (Z.shiftl (u8 b / 16) 4) = Z.shiftl (u8 b / 16) 4).
  { rewrite Z.shiftl_mul_pow2 by lia. unfold sint. rewrite Z.mod_small; lia. }
  rewrite Hs, Z.lor_comm, binary.lor_shiftl_add; lia.
Qed.

Lemma plain_spec b :
  plain b = true <-> 32 <= u8 b < 127 /\ b <> "034"%byte /\ b <> "\"%byte /\ b <> "$"%byte.
Proof. unfold plain. apply bool_decide_eq_true. Qed.

(** One turn of the loop on an escaped byte. *)
Lemma unquoteLoop_escape b rest buf n :
  unquoteLoop (S n) (escape b ++ rest) buf (ch "034") = unquoteLoop n rest (buf ++ [b]) (ch "034").
Proof.
  unfold escape. destruct (plain b) eqn:Hp.
  - apply plain_spec in Hp as (Hr & Hq & Hb & Hd). cbn [app unquoteLoop].
    assert (starts_interpolation (b :: rest) = false) as ->.
    { destruct (starts_interpolation _) eqn:E; [|done].
      apply starts_interpolation_spec in E as [? [=]]. done. }
    rewrite decide_False by (intros ->; change (u8 _) with 10 in Hr; lia).
    unfold unquoteChar. cbn [index lookup list_lookup]. rewrite bind_ret.
    rewrite decide_False by (rewrite ch_spec; tauto).
    rewrite decide_False by (unfold RuneSelf; lia).
    rewrite decide_True by (by rewrite ch_spec). rewrite bind_ret.
    rewrite decide_False by (intros [E _]; discriminate E).
    rewrite decide_True by (by right). by rewrite byte_of_Z_u8.
  - cbn [app unquoteLoop]. cbn [starts_interpolation].
    rewrite bool_decide_eq_false_2 by (intros [[=] _]).
    rewrite decide_False by done.
    unfold unquoteChar. cbn [index lookup list_lookup length]. rewrite bind_ret.
    change (u8 "\") with (ch "\").
    rewrite decide_False by (intros [E _]; discriminate E).
    rewrite decide_False by (vm_compute; auto). rewrite decide_False by tauto.
    rewrite decide_False by lia. rewrite bind_ret. cbn [drop].
    unfold unquoteEscape. change (u8 "x") with (ch "x").
    do 7 (rewrite decide_False by done). rewrite decide_True by done. cbn [length].
    rewrite decide_False by lia. rewrite unhexes_byte, bind_ret.
    rewrite decide_True by done. rewrite bind_ret, decide_False by (intros [E _]; discriminate E).
    rewrite decide_True by (by right). by rewrite byte_of_Z_u8.
Qed.

Lemma unquoteLoop_body v : forall buf n,
  (length v <= n)%nat -> unquoteLoop n (body v) buf (ch "034") = Ret (buf ++ v).
Proof.
  induction v as [|b v IH]; intros buf n Hn.
  - rewrite app_nil_r. by destruct n.
  - destruct n as [|n]; simpl in Hn; [lia|]. change (body (b :: v)) with (escape b ++ body v).
    rewrite unquoteLoop_escape, IH by lia. by rewrite <- app_assoc.
Qed.

Lemma length_body v : (length v <= length (body v))%nat.
Proof.
  induction v as [|b v IH]; [done|]. change (body (b :: v)) with (escape b ++ body v).
  rewrite length_app. unfold escape. case_match; simpl; lia.
Qed.

Lemma contains_app s t c : contains (s ++ t) c = contains s c || contains t c.
Proof. induction s as [|b s IH]; simpl; [done|]. by rewrite IH, orb_assoc. Qed.

Lemma hex_digit_range v : 0 <= v < 16 ->
  48 <= u8 (hex_digit v) <= 57 \/ 97 <= u8 (hex_digit v) <= 102.
Proof.
  intros Hv. unfold hex_digit. change (ch "0") with 48. change (ch "a") with 97.
  rewrite u8_byte_of_Z_small by (case_decide; lia). case_decide; lia.
Qed.

(** The bytes the printer writes: printable, no quote, no dollar. *)
Lemma escape_bytes b c : c ∈ escape b -> 32 <= u8 c < 127 /\ c <> "034"%byte /\ c <> "$"%byte.
Proof.
  unfold escape. destruct (plain b) eqn:Hp.
  { apply plain_spec in Hp as (Hr & Hq & Hb & Hd). intros ->%list_elem_of_singleton. done. }
  assert (Hh : forall v, 0 <= v < 16 -> let c := hex_digit v in
            32 <= u8 c < 127 /\ c <> "034"%byte /\ c <> "$"%byte).
  { intros v Hv c'. pose proof (hex_digit_range v Hv) as Hx. fold c' in Hx. split; [lia|].
    split; intros E; rewrite E in Hx; [change (u8 _) with 34 in Hx|change (u8 _) with 36 in Hx]; lia. }
  pose proof (nibbles b). rewrite !elem_of_cons, elem_of_nil.
  intros [-> | [-> | [-> | [-> | []]]]]; try (vm_compute; intuition congruence); apply Hh; lia.
Qed.

Lemma body_bytes v c : c ∈ body v -> 32 <= u8 c < 127 /\ c <> "034"%byte /\ c <> "$"%byte.
Proof. unfold body. rewrite list_elem_of_bind. intros (b & H & _). by eapply escape_bytes. Qed.

Lemma contains_spec s c : contains s c = true <-> c ∈ s.
Proof.
  induction s as [|b s IH]; simpl.
  - by rewrite elem_of_nil.
  - rewrite orb_true_iff, bool_decide_eq_true, IH, elem_of_cons.
    split; (intros [->|?]; [by left|by right]).
Qed.

Lemma body_without v c :
  ~ (32 <= u8 c < 127) \/ c = "034"%byte \/ c = "$"%byte -> contains (body v) c = false.
Proof.
  intros Hc. destruct (contains (body v) c) eqn:E; [|done].
  apply contains_spec, body_bytes in E. tauto.
Qed.

Lemma body_plain v : contains (body v) "\" = false -> body v = v.
Proof.
  induction v as [|b v IH]; [done|]. change (body (b :: v)) with (escape b ++ body v).
  rewrite contains_app. intros [He Hv]%orb_false_iff. rewrite IH by done.
  unfold escape in *. destruct (plain b); [done|]. simpl in He. done.
Qed.

Lemma Unquote_quote_lemma v : Unquote (quote v) = Ret v.
Proof.
  unfold Unquote, quote. cbn [length]. rewrite length_app. cbn [length].
  rewrite decide_False by lia. cbn [index lookup list_lookup]. rewrite bind_ret.
  replace (S (length (body v) + 1) - 1)%nat with (S (length (body v))) by lia.
  rewrite (index_Ret _ (S (length (body v))) "034"%byte) by (apply (list_lookup_middle (body v) []); done).
  rewrite bind_ret, decide_False by tauto.
  cbn [drop]. rewrite ?drop_0. replace (S (length (body v) + 1) - 2)%nat with (length (body v)) by lia.
  rewrite take_app_length, decide_False by (by intros []).
  rewrite (body_without v "010") by (left; change (u8 _) with 10; lia). rewrite andb_false_r.
  rewrite (body_without v "034") by auto. rewrite (body_without v "$") by auto.
  destruct (contains (body v) "\") eqn:E; simpl.
  - change (u8 "034") with (ch "034"). by rewrite unquoteLoop_body by apply length_body.
  - by rewrite body_plain.
Qed.

(** ** Unquoting never panics *)

(** A result or a syntax error. *)
Definition decided {A} (o : outcome A) : Prop := returns o \/ o = Err ErrSyntax.

Lemma decided_Ret {A} (a : A) : decided (Ret a).
Proof. left. by exists a. Qed.

Lemma decided_bind {A B} (m : outcome A) (f : A -> outcome B) :
  decided m -> (forall a, m = Ret a -> decided (f a)) -> decided (m ≫= f).
Proof. intros [[a ->]| ->] Hf; [by apply Hf|by right]. Qed.

Ltac decided :=
  repeat first [apply decided_Ret | by right | case_decide | apply decided_bind; [|intros ? _] | case_match].

Lemma unhexes_decided n : forall v s, (n <= length s)%nat -> decided (unhexes n v s).
Proof.
  induction n as [|n IH]; intros v s Hs; [apply decided_Ret|]. cbn [unhexes].
  destruct s as [|c s]; simpl in Hs; [lia|]. destruct (unhex c) as [x []]; [|by right].
  apply IH. lia.
Qed.

Lemma octals_decided n : forall v s, (n <= length s)%nat -> decided (octals n v s).
Proof.
  induction n as [|n IH]; intros v s Hs; [apply decided_Ret|]. cbn [octals].
  destruct s as [|c s]; simpl in Hs; [lia|]. case_decide; [by right|]. apply IH. lia.
Qed.

Lemma unquoteEscape_decided c s q : decided (unquoteEscape c s q).
Proof.
  unfold unquoteEscape.
  decided; first [apply unhexes_decided | apply octals_decided]; lia.
Qed.

Lemma unquoteChar_decided s q : s <> [] -> decided (unquoteChar s q).
Proof.
  intros Hs. destruct s as [|c s]; [done|]. unfold unquoteChar. cbn [index lookup list_lookup].
  rewrite bind_ret. case_decide; [by right|]. case_decide; [case_match; apply decided_Ret|].
  case_decide; [apply decided_Ret|]. case_decide as Hl; [by right|].
  destruct s as [|c1 s]; [simpl in Hl; lia|]. apply unquoteEscape_decided.
Qed.

Lemma interpolation_decided n : forall s buf braces, decided (interpolation n s buf braces).
Proof.
  induction n as [|n IH]; intros s buf braces; cbn [interpolation]; [apply decided_Ret|].
  case_decide; [apply decided_Ret|]. destruct (DecodeRune s). case_decide; [by right|apply IH].
Qed.

Lemma unquoteLoop_decided n : forall s buf q, decided (unquoteLoop n s buf q).
Proof.
  induction n as [|n IH]; intros s buf q; cbn [unquoteLoop]; [apply decided_Ret|].
  destruct s as [|c s]; [apply decided_Ret|]. case_match.
  - apply decided_bind; [apply interpolation_decided|]. intros [[s1 buf1] br] _.
    case_decide; [by right|apply IH].
  - case_decide; [by right|]. apply decided_bind; [by apply unquoteChar_decided|].
    intros [[r mb] ss] _. case_decide; [by right|apply IH].
Qed.

Lemma Unquote_decided s : decided (Unquote s).
Proof.
  unfold Unquote. case_decide as Hn; [by right|].
  destruct (lookup_lt_is_Some_2 s 0) as [q Hq]; [lia|].
  destruct (lookup_lt_is_Some_2 s (length s - 1)) as [z Hz]; [lia|].
  rewrite (index_Ret _ _ _ Hq), bind_ret, (index_Ret _ _ _ Hz), bind_ret.
  case_decide; [by right|]. case_decide; [by right|].
  destruct (_ && contains _ "010"); [by right|].
  destruct (_ && negb (contains _ "$")); [apply decided_Ret|apply unquoteLoop_decided].
Qed.

(** Unquoting a string never brings the daemon down (it yields a value or
    the syntax error), and it inverts quoting: whatever bytes a value has,
    the text that quotes them is unquoted to exactly those bytes. *)
Theorem Unquote_spec :
  (forall s, returns (Unquote s) \/ Unquote s = Err ErrSyntax) /\
  (forall v, Unquote (quote v) = Ret v).
Proof. split; [exact Unquote_decided|exact Unquote_quote_lemma]. Qed.

(** The code point of a [\U] escape is computed in 32 bits and compared as a
    signed number, so [\U80000041], far above the largest code point, is accepted
    and unquoted to the letter A; of the code points that do not overflow, those
    above the largest are refused. *)
Theorem Unquote_code_point_wraps :
  Unquote ("034"%byte :: String.list_byte_of_string "\U80000041" ++ ["034"%byte]) = Ret ["A"%byte] /\
  Unquote ("034"%byte :: String.list_byte_of_string "\U00110000" ++ ["034"%byte]) = Err ErrSyntax.
Proof. by vm_compute. Qed.

End hclstrconv.

(** ** strconv.Unquote of the standard library

    The token of a JSON string is unquoted with it; [unquoteChar] is the same
    function there. *)

Module gostrconv.
Import hclstrconv.

Fixpoint goUnquoteLoop (turns : nat) (s buf : list byte) (quote : Z) : outcome (list byte) :=
  match turns, s with
  | O, _ | _, [] => Ret buf
  | S turns, _ =>
      '(c, multibyte, ss) ← unquoteChar s quote;
      let buf := if decide (c < RuneSelf \/ multibyte = false)
                 then buf ++ [byte_of_Z c] else buf ++ EncodeRune c in
      if decide (quote = ch "'" /\ ss <> []) then Err ErrSyntax
      else goUnquoteLoop turns ss buf quote
  end.

Definition GoUnquote (s : list byte) : outcome (list byte) :=
  let n := length s in
  if decide (n < 2)%nat then Err ErrSyntax
  else
    q ← index s 0;
    z ← index s (n - 1);
    if decide (q <> z) then Err ErrSyntax
    else
      let s := take (n - 2) (drop 1 s) in
      if decide (u8 q = ch "`") then
        if contains s "`" then Err ErrSyntax else Ret (filter (fun b => b <> "013"%byte) s)
      else if decide (u8 q <> ch "034" /\ u8 q <> ch "'") then Err ErrSyntax
      else if contains s "010" then Err ErrSyntax
      else
        let '(r, size) := DecodeRune s in
        if negb (contains s "\") && negb (contains s q) &&
           bool_decide (u8 q = ch "034" \/ (size = length s /\ (r <> RuneError \/ size <> 1%nat)))
        then Ret s
        else goUnquoteLoop (length s) s [] (u8 q).

Lemma goUnquoteLoop_decided n : forall s buf q, decided (goUnquoteLoop n s buf q).
Proof.
  induction n as [|n IH]; intros s buf q; cbn [goUnquoteLoop]; [apply decided_Ret|].
  destruct s as [|c s]; [apply decided_Ret|].
  apply decided_bind; [by apply unquoteChar_decided|].
  intros [[r mb] ss] _. case_decide; [by right|apply IH].
Qed.

Lemma GoUnquote_decided s : decided (GoUnquote s).
Proof.
  unfold GoUnquote. case_decide as Hn; [by right|].
  destruct (lookup_lt_is_Some_2 s 0) as [q Hq]; [lia|].
  destruct (lookup_lt_is_Some_2 s (length s - 1)) as [z Hz]; [lia|].
  rewrite (index_Ret _ _ _ Hq), bind_ret, (index_Ret _ _ _ Hz), bind_ret.
  case_decide; [by right|]. case_decide.
  { destruct (contains _ "`"); [by right|apply decided_Ret]. }
  case_decide; [by right|]. destruct (contains _ "010"); [by right|].
  destruct (DecodeRune _). destruct (_ && bool_decide _); [apply decided_Ret|apply goUnquoteLoop_decided].
Qed.
End gostrconv.
