(* ===== verification/HclToken.v ===== *)
(** * hcl/token: the lexical tokens of HCL

    token.go and position.go: the token types, [Token.Value] with
    [unindentHeredoc], and [strconv.ParseInt] with base 0, which reads numbers.
    The conversion of a decimal fraction to an IEEE number, [strconv.ParseFloat],
    is an operation of a class about which nothing is assumed. *)

From Stdlib Require Import ZArith Lia NArith Ascii Strings.Byte.
From stdpp Require Import base numbers gmap strings list fin_maps pretty.
From S2P Require Import Prelude GoNet Utf8 HclStrconv.

Open Scope Z_scope.

(** ** The functions of package strings on byte lists *)

Module bstrings.

Fixpoint IndexByte (s : list byte) (c : byte) : option nat :=
  match s with
  | [] => None
  | b :: s => if decide (b = c) then Some 0%nat else S <$> IndexByte s c
  end.

(** [Split] at a single byte. *)
Fixpoint Split (s : list byte) (sep : byte) : list (list byte) :=
  match s with
  | [] => [[]]
  | b :: s =>
      if decide (b = sep) then [] :: Split s sep
      else match Split s sep with
           | w :: ws => (b :: w) :: ws
           | [] => [[b]]
           end
  end.

Fixpoint Join (l : list (list byte)) (sep : list byte) : list byte :=
  match l with
  | [] => []
  | [w] => w
  | w :: ws => w ++ sep ++ Join ws sep
  end.

Fixpoint HasPrefix (s pre : list byte) {struct pre} : bool :=
  match pre, s with
  | [], _ => true
  | a :: pre, b :: s => bool_decide (a = b) && HasPrefix s pre
  | _ :: _, [] => false
  end.

Definition TrimPrefix (s pre : list byte) : list byte :=
  if HasPrefix s pre then drop (length pre) s else s.

(** [TrimRight] with a cutset of single bytes. *)
Fixpoint TrimLeft (s cutset : list byte) : list byte :=
  match s with
  | [] => []
  | b :: r => if decide (b ∈ cutset) then TrimLeft r cutset else s
  end.
Definition TrimRight (s cutset : list byte) : list byte := reverse (TrimLeft (reverse s) cutset).

(** [bytes.Replace(s, old, new, -1)] for an [old] of two bytes. *)
Fixpoint Replace2 (s : list byte) (a b : byte) (new : list byte) : list byte :=
  match s with
  | x :: ((y :: s) as r) =>
      if decide (x = a /\ y = b) then new ++ Replace2 s a b new else x :: Replace2 r a b new
  | _ => s
  end.

Lemma HasPrefix_spec s pre : HasPrefix s pre = true <-> exists t, s = pre ++ t.
Proof.
  revert s. induction pre as [|a pre IH]; intros s; simpl; [by split; [exists s|]|].
  destruct s as [|b s]; [split; [done|by intros [? ?]]|].
  rewrite andb_true_iff, bool_decide_eq_true, IH.
  split; [intros [-> [t ->]]; eauto|intros [t [= -> ->]]; eauto].
Qed.

End bstrings.

(** ** strconv.ParseInt with base 0 *)

Module parseint.

Definition digitOf (c : byte) : option Z :=
  let c := u8 c in
  if decide (ch "0" <= c <= ch "9") then Some (c - ch "0")
  else if decide (ch "a" <= c <= ch "z") then Some (c - ch "a" + 10)
  else if decide (ch "A" <= c <= ch "Z") then Some (c - ch "A" + 10)
  else None.

Inductive uint_result := UOk (n : Z) | USyntax | URange.

(** The loop of [ParseUint]: a number that does not fit in 64 bits is reported
    before the rest is looked at. *)
Fixpoint parseDigits (base : Z) (s : list byte) (n : Z) : uint_result :=
  match s with
  | [] => UOk n
  | c :: s =>
      match digitOf c with
      | None => USyntax
      | Some d =>
          if decide (base <= d) then USyntax
          else if decide (2 ^ 64 <= n * base + d) then URange
          else parseDigits base s (n * base + d)
      end
  end.

Definition ParseUint (s : list byte) : uint_result :=
  match s with
  | [] => USyntax
  | c0 :: r =>
      if decide (c0 = "0"%byte) then
        match r with
        | c1 :: r' =>
            if decide (c1 = "x"%byte \/ c1 = "X"%byte) then
              match r' with
              | [] => USyntax
              | _ => parseDigits 16 r' 0
              end
            else parseDigits 8 r 0
        | [] => parseDigits 8 r 0
        end
      else parseDigits 10 s 0
  end.

Definition errSyntax (s : list byte) : error := NumError (text s) "invalid syntax".
Definition errRange (s : list byte) : error := NumError (text s) "value out of range".

(** For an [int] of 64 bits, and for [int64]. *)
Definition ParseInt (s : list byte) : outcome Z :=
  match s with
  | [] => Err (errSyntax s)
  | c0 :: r =>
      let neg := bool_decide (c0 = "-"%byte) in
      let u := if decide (c0 = "+"%byte \/ c0 = "-"%byte) then r else s in
      match ParseUint u with
      | USyntax => Err (errSyntax s)
      | URange => Err (errRange s)
      | UOk n =>
          if negb neg && bool_decide (2 ^ 63 <= n) then Err (errRange s)
          else if neg && bool_decide (2 ^ 63 < n) then Err (errRange s)
          else Ret (if neg then - n else n)
      end
  end.

End parseint.

(** ** token.go and position.go *)

Module token.

Inductive Type_ :=
| ILLEGAL | EOF | COMMENT
| IDENT | NUMBER | FLOAT | BOOL | STRING | HEREDOC
| LBRACK | LBRACE | COMMA | PERIOD | RBRACK | RBRACE | ASSIGN | ADD | SUB.

#[export] Instance Type_eq_dec : EqDecision Type_.
Proof. solve_decision. Defined.

(** The integers of the constants, with the markers between them. *)
Definition iota (t : Type_) : Z :=
  match t with
  | ILLEGAL => 0 | EOF => 1 | COMMENT => 2
  | IDENT => 4 | NUMBER => 6 | FLOAT => 7 | BOOL => 8 | STRING => 9 | HEREDOC => 10
  | LBRACK => 14 | LBRACE => 15 | COMMA => 16 | PERIOD => 17 | RBRACK => 18 | RBRACE => 19
  | ASSIGN => 20 | ADD => 21 | SUB => 22
  end.
Definition identifier_beg : Z := 3.
Definition literal_beg : Z := 5.
Definition literal_end : Z := 11.
Definition identifier_end : Z := 12.
Definition operator_beg : Z := 13.
Definition operator_end : Z := 23.

Definition Type_String (t : Type_) : string :=
  match t with
  | ILLEGAL => "ILLEGAL" | EOF => "EOF" | COMMENT => "COMMENT"
  | IDENT => "IDENT" | NUMBER => "NUMBER" | FLOAT => "FLOAT" | BOOL => "BOOL"
  | STRING => "STRING" | HEREDOC => "HEREDOC"
  | LBRACK => "LBRACK" | LBRACE => "LBRACE" | COMMA => "COMMA" | PERIOD => "PERIOD"
  | RBRACK => "RBRACK" | RBRACE => "RBRACE" | ASSIGN => "ASSIGN" | ADD => "ADD" | SUB => "SUB"
  end.

Definition IsIdentifier (t : Type_) : bool := bool_decide (identifier_beg < iota t < identifier_end).
Definition IsLiteral (t : Type_) : bool := bool_decide (literal_beg < iota t < literal_end).
Definition IsOperator (t : Type_) : bool := bool_decide (operator_beg < iota t < operator_end).

Record Pos := { Filename : string; Offset : Z; Line : Z; Column : Z }.

(** The zero value. *)
Definition noPos : Pos := {| Filename := ""; Offset := 0; Line := 0; Column := 0 |}.

Definition IsValid (p : Pos) : bool := bool_decide (Line p > 0).

Definition Pos_String (p : Pos) : string :=
  let s := Filename p in
  let s := if IsValid p
           then (if decide (s = EmptyString) then s else s +:+ ":") +:+
                strconv.Itoa (Line p) +:+ ":" +:+ strconv.Itoa (Column p)
           else s in
  if decide (s = EmptyString) then "-" else s.

Definition Before (p u : Pos) : bool := bool_decide (Offset u > Offset p \/ Line u > Line p).
Definition After (p u : Pos) : bool := bool_decide (Offset u < Offset p \/ Line u < Line p).

Record Token := { Type' : Type_; Pos' : Pos; Text : list byte; JSON : bool }.

(** The zero value. *)
Definition noToken : Token := {| Type' := ILLEGAL; Pos' := noPos; Text := []; JSON := false |}.

(** [unindentHeredoc].  Slices of the text are taken at computed indices, with
    Go's bounds checks. *)
Definition slice_Z {A} (l : list A) (i j : Z) : outcome (list A) :=
  if decide (0 <= i <= j) then slice l (Z.to_nat i) (Z.to_nat j) else Panic SliceOutOfRange.

Definition unindentHeredoc (heredoc : list byte) : outcome (list byte) :=
  match bstrings.IndexByte heredoc "010"%byte with
  | None => Panic (PanicValue "heredoc doesn't contain newline")
  | Some idx =>
      let len := Z.of_nat (length heredoc) in
      let idx := Z.of_nat idx in
      c2 ← index heredoc 2;
      if decide (c2 <> "-"%byte) then slice_Z heredoc (idx + 1) (len - idx + 1)
      else
        content ← slice_Z heredoc (idx + 1) (len - idx + 2);
        let lines := bstrings.Split content "010"%byte in
        let whitespacePrefix := default [] (last lines) in
        if forallb (fun v => bstrings.HasPrefix v whitespacePrefix) lines then
          Ret (bstrings.Join
                 (((fun v => bstrings.TrimPrefix v whitespacePrefix) <$> take (length lines - 1) lines) ++ [[]])
                 ["010"%byte])
        else
          r ← slice_Z heredoc (idx + 1) (len - idx + 1);
          Ret (bstrings.TrimRight r [" "%byte; "009"%byte])
  end.

(** The conversion of decimal fractions. *)
Class Floats := { float64 : Type; ParseFloat : list byte -> outcome float64 }.

(** The dynamic type and value of the [interface{}] that [Value] returns. *)
Inductive value `{Floats} :=
| VBool (b : bool)
| VFloat (f : float64)
| VInt (n : Z)
| VString (s : list byte).

(** [panic(err)] for an error. *)
Definition must {A} (m : outcome A) (msg : error -> string) : outcome A :=
  match m with
  | Err e => Panic (PanicValue (msg e))
  | _ => m
  end.

Definition error_text (e : error) : string :=
  match e with
  | ErrorString msg | OpError _ msg | ExitError _ msg | SysError msg | NumError _ msg => msg
  end.

Section value.
Context `{Floats}.

Definition Value (t : Token) : outcome value :=
  match Type' t with
  | BOOL =>
      if decide (Text t = bytes "true") then Ret (VBool true)
      else if decide (Text t = bytes "false") then Ret (VBool false)
      else Panic (PanicValue ("unknown bool value: " +:+ text (Text t)))
  | FLOAT => v ← must (ParseFloat (Text t)) error_text; Ret (VFloat v)
  | NUMBER => v ← must (parseint.ParseInt (Text t)) error_text; Ret (VInt v)
  | IDENT => Ret (VString (Text t))
  | HEREDOC => v ← unindentHeredoc (Text t); Ret (VString v)
  | STRING =>
      let f := if JSON t then gostrconv.GoUnquote else hclstrconv.Unquote in
      if decide (Text t = []) then Ret (VString [])
      else
        v ← must (f (Text t)) (fun e => "unquote " +:+ text (Text t) +:+ " err: " +:+ error_text e);
        Ret (VString v)
  | ty => Panic (PanicValue ("unimplemented Value for type: " +:+ Type_String ty))
  end.
End value.

End token.
