(* ===== verification/HclAst.v ===== *)
(** * hcl/ast/ast.go: syntax trees

    A pointer to a node that the sources never leave nil is the node.  Nodes are
    not changed after they are built, except for the keys of an item that
    [expandObject] of the decoder unpacks: it is then visited once only, so that a
    tree of values stands for the tree of pointers.  [ObjectItem.Val] is never nil
    in a tree the HCL parser returns. *)

From Stdlib Require Import ZArith Lia NArith Ascii Strings.Byte.
From stdpp Require Import base numbers gmap strings list fin_maps.
From S2P Require Import Prelude GoNet Utf8 HclStrconv HclToken.

Import token.
Open Scope Z_scope.

Module ast.

Record Comment := { Start : Pos; Comment_Text : list byte }.

Record CommentGroup := { CommentList : list Comment }.

(** [ObjectKey] *)
Definition ObjectKey : Type := Token.

(** The nodes the decoder meets: [*LiteralType], [*ListType], [*ObjectType],
    [*ObjectList] and [*ObjectItem]. *)
#[warnings="-register-all"] Inductive Node :=
| LiteralType (tok : Token) (LeadComment LineComment : option CommentGroup)
| ListType (Lbrack Rbrack : Pos) (List : list Node)
| ObjectType (Lbrace Rbrace : Pos) (List : list ObjectItem)
| ObjectList (Items : list ObjectItem)
| ItemNode (item : ObjectItem)
with ObjectItem :=
| Item (Keys : list ObjectKey) (Assign : Pos) (Val : Node) (LeadComment LineComment : option CommentGroup).

Definition Keys (i : ObjectItem) : list ObjectKey := let '(Item k _ _ _ _) := i in k.
Definition Val (i : ObjectItem) : Node := let '(Item _ _ v _ _) := i in v.
Definition set_Keys (i : ObjectItem) (k : list ObjectKey) : ObjectItem :=
  let '(Item _ a v lead line) := i in Item k a v lead line.

Record File := { File_Node : Node; Comments : list CommentGroup }.

(** ** Positions *)

(** [ObjectItem.Pos] *)
Definition ObjectItem_Pos (i : ObjectItem) : Pos :=
  match Keys i with
  | [] => noPos
  | k :: _ => Pos' k
  end.

(** [Node.Pos]; the position of an object list is that of its first item, and an
    empty one has none. *)
Definition Node_Pos (n : Node) : outcome Pos :=
  match n with
  | LiteralType tok _ _ => Ret (Pos' tok)
  | ListType lbrack _ _ => Ret lbrack
  | ObjectType lbrace _ _ => Ret lbrace
  | ObjectList items => i ← index items 0; Ret (ObjectItem_Pos i)
  | ItemNode i => Ret (ObjectItem_Pos i)
  end.

(** [CommentGroup.Pos] *)
Definition CommentGroup_Pos (c : CommentGroup) : outcome Pos :=
  c ← index (CommentList c) 0; Ret (Start c).

(** ** Object lists *)

Section filter.
Context `{Unicode, Floats}.

(** [key.Token.Value().(string)] *)
Definition keyString (k : ObjectKey) : outcome (list byte) :=
  v ← Value k;
  match v with
  | VString s => Ret s
  | _ => Panic FailedTypeAssertion
  end.

(** The loop over the first keys of an item. *)
Fixpoint matchKeys (ks : list ObjectKey) (keys : list (list byte)) : outcome bool :=
  match ks, keys with
  | k :: ks, want :: keys =>
      key ← keyString k;
      if decide (key <> want) then
        if EqualFold key want then matchKeys ks keys else Ret false
      else matchKeys ks keys
  | _, _ => Ret true
  end.

Fixpoint Filter (items : list ObjectItem) (keys : list (list byte)) : outcome (list ObjectItem) :=
  match items with
  | [] => Ret []
  | item :: items =>
      if decide (length (Keys item) < length keys)%nat then Filter items keys
      else
        m ← matchKeys (take (length keys) (Keys item)) keys;
        rest ← Filter items keys;
        Ret (if m : bool then set_Keys item (drop (length keys) (Keys item)) :: rest else rest)
  end.
End filter.

Definition Children (items : list ObjectItem) : list ObjectItem :=
  filter (fun i => (0 < length (Keys i))%nat) items.

Definition Elem (items : list ObjectItem) : list ObjectItem :=
  filter (fun i => length (Keys i) = 0%nat) items.

(** Every item is a child or an element. *)
Lemma Children_Elem items : Children items ++ Elem items ≡ₚ items.
Proof.
  unfold Children, Elem. induction items as [|i items IH]; [done|].
  rewrite !filter_cons. destruct (decide (length (Keys i) = 0)%nat) as [E|E].
  - rewrite decide_False by lia. by rewrite <- Permutation_middle, IH.
  - rewrite decide_True by lia. simpl. by rewrite IH.
Qed.

End ast.
