(* ===== verification/StateM.v ===== *)
(** * The monad of the HCL scanner and parser

    Go methods on a mutable structure [S]: the state is threaded, errors and
    panics are outcomes that leave the state as it was when they happened, and
    [None] is a loop that has not ended within its bound.  [wp] is the weakest
    precondition for total correctness: the computation ends, and its outcome and
    final state satisfy the postcondition. *)

From Stdlib Require Import ZArith Lia NArith Ascii Strings.Byte.
From stdpp Require Import base numbers gmap strings list fin_maps.
From S2P Require Import Prelude.

Definition ST (S A : Type) : Type := S -> option (outcome A * S).

#[export] Instance ST_ret {S} : MRet (ST S) := fun A a s => Some (Ret a, s).
#[export] Instance ST_bind {S} : MBind (ST S) := fun A B f m s =>
  match m s with
  | Some (Ret a, s) => f a s
  | Some (Err e, s) => Some (Err e, s)
  | Some (Panic p, s) => Some (Panic p, s)
  | None => None
  end.

Module st.
Section ops.
Context {S : Type}.

Definition get : ST S S := fun s => Some (Ret s, s).
Definition upd (f : S -> S) : ST S unit := fun s => Some (Ret tt, f s).
Definition fail {A} (e : error) : ST S A := fun s => Some (Err e, s).
Definition lift {A} (o : outcome A) : ST S A := fun s => Some (o, s).

(** The bound on the turns of a loop is reached. *)
Definition stuck {A} : ST S A := fun _ => None.

(** [v, err := m] *)
Definition try {A} (m : ST S A) : ST S (A + error) := fun s =>
  match m s with
  | Some (Ret a, s) => Some (Ret (inl a), s)
  | Some (Err e, s) => Some (Ret (inr e), s)
  | Some (Panic p, s) => Some (Panic p, s)
  | None => None
  end.

(** A computation on a part of the state. *)
Definition zoom {T A} (part : S -> T) (put : T -> S -> S) (m : ST T A) : ST S A := fun s =>
  match m (part s) with
  | Some (r, t) => Some (r, put t s)
  | None => None
  end.
End ops.
End st.

Definition wp {S A} (m : ST S A) (Q : outcome A -> S -> Prop) (s : S) : Prop :=
  match m s with
  | Some (r, s) => Q r s
  | None => False
  end.

(** The computation returns normally. *)
Definition returning {S A} (Q : A -> S -> Prop) (r : outcome A) (s : S) : Prop :=
  match r with
  | Ret a => Q a s
  | _ => False
  end.

(** It returns or fails with an error; it does not panic. *)
Definition orelse {S A} (Q : A -> S -> Prop) (E : error -> S -> Prop) (r : outcome A) (s : S) : Prop :=
  match r with
  | Ret a => Q a s
  | Err e => E e s
  | Panic _ => False
  end.

Section rules.
Context {S : Type}.

Lemma wp_ret {A} (a : A) (Q : outcome A -> S -> Prop) s : Q (Ret a) s -> wp (mret a) Q s.
Proof. done. Qed.
Lemma wp_get (Q : outcome S -> S -> Prop) s : Q (Ret s) s -> wp st.get Q s.
Proof. done. Qed.
Lemma wp_upd f (Q : outcome unit -> S -> Prop) s : Q (Ret tt) (f s) -> wp (st.upd f) Q s.
Proof. done. Qed.
Lemma wp_fail {A} e (Q : outcome A -> S -> Prop) s : Q (Err e) s -> wp (st.fail e) Q s.
Proof. done. Qed.
Lemma wp_lift {A} (o : outcome A) (Q : outcome A -> S -> Prop) s : Q o s -> wp (st.lift o) Q s.
Proof. done. Qed.

Lemma wp_bind {A B} (m : ST S A) (f : A -> ST S B) (Q : outcome B -> S -> Prop) s :
  wp m (fun r s => match r with
                   | Ret a => wp (f a) Q s
                   | Err e => Q (Err e) s
                   | Panic p => Q (Panic p) s
                   end) s -> wp (m ≫= f) Q s.
Proof. unfold wp, mbind, ST_bind. by destruct (m s) as [[[a|e|p] s']|]. Qed.

Lemma wp_try {A} (m : ST S A) (Q : outcome (A + error) -> S -> Prop) s :
  wp m (fun r s => match r with
                   | Ret a => Q (Ret (inl a)) s
                   | Err e => Q (Ret (inr e)) s
                   | Panic p => Q (Panic p) s
                   end) s -> wp (st.try m) Q s.
Proof. unfold wp, st.try. by destruct (m s) as [[[a|e|p] s']|]. Qed.

Lemma wp_zoom {T A} (part : S -> T) (put : T -> S -> S) (m : ST T A) (Q : outcome A -> S -> Prop) s :
  wp m (fun r t => Q r (put t s)) (part s) -> wp (st.zoom part put m) Q s.
Proof. unfold wp, st.zoom. by destruct (m (part s)) as [[r t]|]. Qed.

Lemma wp_conseq {A} (m : ST S A) (P Q : outcome A -> S -> Prop) s :
  wp m P s -> (forall r s, P r s -> Q r s) -> wp m Q s.
Proof. unfold wp. destruct (m s) as [[r s']|]; auto. Qed.

(** Sequencing after a part that returns. *)
Lemma wp_then {A B} (m : ST S A) (f : A -> ST S B) (P : A -> S -> Prop) (Q : outcome B -> S -> Prop) s :
  wp m (returning P) s -> (forall a s, P a s -> wp (f a) Q s) -> wp (m ≫= f) Q s.
Proof.
  intros Hm Hf. apply wp_bind. eapply wp_conseq; [exact Hm|].
  intros [a|e|p] s' H; [by apply Hf|done..].
Qed.

(** Sequencing after two parts that are treated as one. *)
Lemma wp_assoc {A B C} (m : ST S A) (f : A -> ST S B) (g : B -> ST S C) (P : B -> S -> Prop) (Q : outcome C -> S -> Prop) s :
  wp (m ≫= f) (returning P) s -> (forall b s, P b s -> wp (g b) Q s) ->
  wp (a ← m; b ← f a; g b) Q s.
Proof.
  unfold wp, mbind, ST_bind. destruct (m s) as [[[a|e|p] s1]|]; simpl; try done.
  destruct (f a s1) as [[[b|e|p] s2]|]; simpl; try done. intros HP Hg. exact (Hg b s2 HP).
Qed.

Lemma wp_returning {A} (m : ST S A) (P Q : A -> S -> Prop) s :
  wp m (returning P) s -> (forall a s, P a s -> Q a s) -> wp m (returning Q) s.
Proof. intros Hm HQ. eapply wp_conseq; [exact Hm|]. intros [] ? H; simpl in *; auto. Qed.

Lemma wp_run {A} (m : ST S A) (Q : A -> S -> Prop) s :
  wp m (returning Q) s <-> exists a s', m s = Some (Ret a, s') /\ Q a s'.
Proof.
  unfold wp. destruct (m s) as [[[a|e|p] s']|]; simpl; split; try done; try (by intros (? & ? & ? & ?)).
  - eauto.
  - by intros (a' & s'' & [= -> ->] & H).
Qed.

Lemma run_bind {A B} (m : ST S A) (f : A -> ST S B) s a s' :
  m s = Some (Ret a, s') -> (m ≫= f) s = f a s'.
Proof. intros H. unfold mbind, ST_bind. by rewrite H. Qed.
End rules.

(** The values a computation can return. *)
Definition yields {S A} (P : A -> Prop) (m : ST S A) : Prop :=
  forall s a s', m s = Some (Ret a, s') -> P a.

Lemma yields_ret {S A} (P : A -> Prop) (a : A) : P a -> yields P (mret a : ST S A).
Proof. by intros H s b s' [= <- _]. Qed.

Lemma yields_bind {S A B} (P : B -> Prop) (m : ST S A) (f : A -> ST S B) :
  (forall a, yields P (f a)) -> yields P (m ≫= f).
Proof.
  intros Hf s b s'. unfold mbind, ST_bind. destruct (m s) as [[[a|e|p] s1]|]; [|done..]. apply Hf.
Qed.

Ltac yields :=
  repeat first
    [ apply yields_ret; done | apply yields_bind; intros
    | match goal with |- yields _ (match ?x with _ => _ end) => destruct x end ].

Lemma wp_yields {S A} (P : A -> Prop) (Q : A -> S -> Prop) (m : ST S A) s :
  yields P m -> wp m (returning Q) s -> wp m (returning (fun a s' => P a /\ Q a s')) s.
Proof.
  intros HP. specialize (HP s). unfold wp. destruct (m s) as [[[a|e|p] s']|]; try done.
  intros HQ. split; [by eapply HP|exact HQ].
Qed.

(** Walks over straight-line code. *)
Ltac wp_steps :=
  repeat first
    [ apply wp_bind | apply wp_get | apply wp_upd | apply wp_ret | apply wp_lift | apply wp_fail
    | progress cbv beta iota ].
