(* ===== verification/HclScanner.v ===== *)
(** * hcl/scanner/scanner.go: the lexical scanner

    [Scanner] with the [bytes.Buffer] it reads from, one definition per method.
    Every loop reads a rune per turn and ends at the end of the text, so that its
    turns are bounded by the bytes that are left; that this bound is enough is part
    of the theorems.  The calls of the [Error] function are a list in the state. *)

From Stdlib Require Import ZArith Lia NArith Ascii Strings.Byte.
From stdpp Require Import base numbers gmap strings list fin_maps.
From coqutil Require Import Datatypes.RecordSetters.
From S2P Require Import Prelude GoNet Utf8 HclStrconv HclToken StateM.

Import RecordSetters.TriangleBracketNotations.
Import token.
Open Scope Z_scope.

Module scanner.

Definition eof : Z := 0.

(** [buf] is what is left of the [bytes.Buffer]; [lastRead] the bytes of the rune
    that [UnreadRune] would put back, none if the last operation was not a
    successful [ReadRune]. *)
Record Scanner := mkScanner {
  buf : list byte;
  lastRead : list byte;
  src : list byte;
  srcPos : Pos;
  prevPos : Pos;
  lastCharLen : Z;
  lastLineLen : Z;
  tokStart : Z;
  tokEnd : Z;
  Errors : list (Pos * string);
  ErrorCount : Z;
  tokPos : Pos
}.

Definition New (s : list byte) : Scanner :=
  {| buf := s; lastRead := []; src := s; srcPos := noPos <| Line := 1 |>; prevPos := noPos;
     lastCharLen := 0; lastLineLen := 0; tokStart := 0; tokEnd := 0;
     Errors := []; ErrorCount := 0; tokPos := noPos |}.

#[local] Abbreviation M := (ST Scanner).

(** *** bytes.Buffer *)

(** [ReadRune]: the rune, its size and whether there was one. *)
Definition ReadRune : M (option (Z * Z)) :=
  s ← st.get;
  match buf s with
  | [] => _ ← st.upd (fun s => s <| lastRead := [] |>); mret None
  | b =>
      let '(r, n) := DecodeRune b in
      _ ← st.upd (fun s => s <| buf := drop n b |> <| lastRead := take n b |>);
      mret (Some (r, Z.of_nat n))
  end.

Definition UnreadRune : M (option error) :=
  s ← st.get;
  if decide (lastRead s = []) then
    mret (Some (ErrorString "bytes.Buffer: UnreadRune: previous operation was not a successful ReadRune"))
  else
    _ ← st.upd (fun s => s <| buf := lastRead s ++ buf s |> <| lastRead := [] |>);
    mret None.

(** *** Errors *)

Definition recentPosition (s : Scanner) : Pos :=
  let off := Offset (srcPos s) - lastCharLen s in
  if decide (Column (srcPos s) > 0) then
    {| Filename := ""; Offset := off; Line := Line (srcPos s); Column := Column (srcPos s) |}
  else if decide (lastLineLen s > 0) then
    {| Filename := ""; Offset := off; Line := Line (srcPos s) - 1; Column := lastLineLen s |}
  else {| Filename := ""; Offset := off; Line := 1; Column := 1 |}.

Definition err (msg : string) : M unit :=
  _ ← st.upd (fun s => s <| ErrorCount := ErrorCount s + 1 |>);
  st.upd (fun s => s <| Errors := Errors s ++ [(recentPosition s, msg)] |>).

(** *** Reading runes *)

Definition advance (size : Z) (p : Pos) : Pos :=
  p <| Offset := Offset p + size |> <| Column := Column p + 1 |>.

Definition newline (p : Pos) : Pos := p <| Line := Line p + 1 |> <| Column := 0 |>.

Definition next : M Z :=
  r ← ReadRune;
  match r with
  | None =>
      _ ← st.upd (fun s => s <| srcPos := advance 0 (srcPos s) |> <| lastCharLen := 0 |>);
      mret eof
  | Some (ch, size) =>
      _ ← st.upd (fun s => s <| prevPos := srcPos s |>);
      _ ← st.upd (fun s => s <| srcPos := advance size (srcPos s) |> <| lastCharLen := size |>);
      if decide (ch = RuneError /\ size = 1) then
        _ ← err "illegal UTF-8 encoding"; mret ch
      else
        _ ← (if decide (ch = 10) then
               st.upd (fun s => s <| srcPos := newline (srcPos s) |>
                                  <| lastLineLen := Column (srcPos s) |>)
             else mret tt);
        if decide (ch = 0) then
          _ ← err "unexpected null character (0x00)"; mret eof
        else if decide (ch = 57635) then
          _ ← err "unicode code point U+E123 reserved for internal use"; mret RuneError
        else mret ch
  end.

Definition unread : M unit :=
  e ← UnreadRune;
  match e with
  | Some e => st.lift (Panic (PanicValue (error_text e)))
  | None => st.upd (fun s => s <| srcPos := prevPos s |>)
  end.

Definition peek : M Z :=
  r ← ReadRune;
  match r with
  | None => mret eof
  | Some (ch, _) => _ ← UnreadRune; mret ch
  end.

(** *** Classes of runes *)

Section classes.
Context `{Unicode}.

Definition isLetter (c : Z) : bool :=
  bool_decide (ch "a" <= c <= ch "z") || bool_decide (ch "A" <= c <= ch "Z") ||
  bool_decide (c = ch "_") || (bool_decide (128 <= c) && unicode_IsLetter c).

Definition isDigit (c : Z) : bool :=
  bool_decide (ch "0" <= c <= ch "9") || (bool_decide (128 <= c) && unicode_IsDigit c).
End classes.

Definition isDecimal (c : Z) : bool := bool_decide (ch "0" <= c <= ch "9").

Definition isHexadecimal (c : Z) : bool :=
  bool_decide (ch "0" <= c <= ch "9") || bool_decide (ch "a" <= c <= ch "f") ||
  bool_decide (ch "A" <= c <= ch "F").

Definition isWhitespace (c : Z) : bool :=
  bool_decide (c = ch " " \/ c = 9 \/ c = 10 \/ c = 13).

Definition digitVal (c : Z) : Z :=
  if decide (ch "0" <= c <= ch "9") then c - ch "0"
  else if decide (ch "a" <= c <= ch "f") then c - ch "a" + 10
  else if decide (ch "A" <= c <= ch "F") then c - ch "A" + 10
  else 16.

(** *** Loops *)

(** [for p(ch) { ch = s.next() }]; also tells whether the body ran. *)
Fixpoint nextWhile (turns : nat) (p : Z -> bool) (c : Z) (ran : bool) : M (Z * bool) :=
  match turns with
  | O => st.stuck
  | S turns =>
      if p c then c ← next; nextWhile turns p c true
      else mret (c, ran)
  end.

(** With as many turns as the rest of the text can need: one per byte, one that
    meets the end, and the last test. *)
Definition nextLoop (p : Z -> bool) (c : Z) : M (Z * bool) :=
  s ← st.get; nextWhile (length (buf s) + 2) p c false.

(** *** Comments *)

Fixpoint blockComment (turns : nat) (c : Z) : M unit :=
  match turns with
  | O => st.stuck
  | S turns =>
      if decide (c < 0 \/ c = eof) then err "comment not terminated"
      else
        let ch0 := c in
        c ← next;
        if decide (ch0 = ch "*" /\ c = ch "/") then mret tt
        else blockComment turns c
  end.

(** [s.peek() != '*'] is only evaluated for a slash. *)
Definition scanComment (c : Z) : M unit :=
  line ← (if decide (c = ch "#") then mret true
          else if decide (c = ch "/") then p ← peek; mret (bool_decide (p <> ch "*"))
          else mret false);
  if line : bool then
    bad ← (if decide (c = ch "/") then p ← peek; mret (bool_decide (p <> ch "/")) else mret false);
    if bad : bool then err "expected '/' for comment"
    else
      c ← next;
      '(c, _) ← nextLoop (fun c => bool_decide (c <> 10 /\ c >= 0 /\ c <> eof)) c;
      if decide (c <> eof /\ c >= 0) then unread else mret tt
  else
    c ← (if decide (c = ch "/") then _ ← next; next else mret c);
    s ← st.get;
    blockComment (length (buf s) + 2) c.

(** *** Numbers *)

Definition scanMantissa (c : Z) : M Z :=
  '(c, scanned) ← nextLoop isDecimal c;
  _ ← (if (scanned : bool) && bool_decide (c <> eof) then unread else mret tt);
  mret c.

Definition scanFraction (c : Z) : M Z :=
  if decide (c = ch ".") then c ← peek; scanMantissa c else mret c.

Definition isExp (c : Z) : bool := bool_decide (c = ch "e" \/ c = ch "E").

Definition scanExponent (c : Z) : M Z :=
  if isExp c then
    c ← next;
    c ← (if decide (c = ch "-" \/ c = ch "+") then next else mret c);
    scanMantissa c
  else mret c.

(** The loop over the digits of an octal number. *)
Fixpoint octalDigits (turns : nat) (c : Z) (illegalOctal : bool) : M (Z * bool) :=
  match turns with
  | O => st.stuck
  | S turns =>
      if isDecimal c then
        c ← next;
        octalDigits turns c (if decide (c = ch "8" \/ c = ch "9") then true else illegalOctal)
      else mret (c, illegalOctal)
  end.

Definition unreadUnlessEof (c : Z) : M unit := if decide (c <> eof) then unread else mret tt.

(** The fraction of a number whose next rune is a period, and its exponent. *)
Definition scanPeriod (c : Z) : M Type_ :=
  c ← scanFraction c;
  _ ← (if isExp c then c ← next; scanExponent c else mret c);
  mret FLOAT.

Definition scanNumber (c : Z) : M Type_ :=
  if decide (c = ch "0") then
    c ← next;
    if decide (c = ch "x" \/ c = ch "X") then
      c ← next;
      '(c, found) ← nextLoop isHexadecimal c;
      _ ← (if found : bool then mret tt else err "illegal hexadecimal number");
      _ ← unreadUnlessEof c;
      mret NUMBER
    else
      s ← st.get;
      '(c, illegalOctal) ← octalDigits (length (buf s) + 2) c false;
      if isExp c then _ ← scanExponent c; mret FLOAT
      else if decide (c = ch ".") then scanPeriod c
      else
        _ ← (if illegalOctal : bool then err "illegal octal number" else mret tt);
        _ ← unreadUnlessEof c;
        mret NUMBER
  else
    _ ← scanMantissa c;
    c ← next;
    if isExp c then _ ← scanExponent c; mret FLOAT
    else if decide (c = ch ".") then scanPeriod c
    else _ ← unreadUnlessEof c; mret NUMBER.

(** *** Strings *)

Fixpoint scanDigitsLoop (turns : nat) (c base : Z) (n : nat) : M (Z * nat) :=
  match turns with
  | O => st.stuck
  | S turns =>
      if decide ((0 < n)%nat /\ digitVal c < base) then
        c ← next;
        if decide (c = eof) then mret (c, n)
        else scanDigitsLoop turns c base (n - 1)
      else mret (c, n)
  end.

Definition scanDigits (c base : Z) (n : nat) : M Z :=
  let start := n in
  '(c, n) ← scanDigitsLoop (S n) c base n;
  _ ← (if decide (0 < n)%nat then err "illegal char escape" else mret tt);
  _ ← (if decide (n <> start /\ c <> eof) then unread else mret tt);
  mret c.

Definition scanEscape : M Z :=
  c ← next;
  if decide (c = ch "a" \/ c = ch "b" \/ c = ch "f" \/ c = ch "n" \/ c = ch "r" \/ c = ch "t" \/
             c = ch "v" \/ c = ch "\" \/ c = ch "034") then mret c
  else if decide (ch "0" <= c <= ch "7") then scanDigits c 8 3
  else if decide (c = ch "x") then c ← next; scanDigits c 16 2
  else if decide (c = ch "u") then c ← next; scanDigits c 16 4
  else if decide (c = ch "U") then c ← next; scanDigits c 16 8
  else _ ← err "illegal char escape"; mret c.

Fixpoint scanStringLoop (turns : nat) (braces : Z) : M unit :=
  match turns with
  | O => st.stuck
  | S turns =>
      c ← next;
      if decide ((c = 10 /\ braces = 0) \/ c < 0 \/ c = eof) then err "literal not terminated"
      else if decide (c = ch "034" /\ braces = 0) then mret tt
      else
        opens ← (if decide (braces = 0 /\ c = ch "$") then p ← peek; mret (bool_decide (p = ch "{"))
                 else mret false);
        braces ← (if opens : bool then _ ← next; mret (braces + 1)
                  else mret (if decide (braces > 0 /\ c = ch "{") then braces + 1 else braces));
        let braces := if decide (braces > 0 /\ c = ch "}") then braces - 1 else braces in
        _ ← (if decide (c = ch "\") then scanEscape else mret c);
        scanStringLoop turns braces
  end.

Definition scanString : M unit :=
  s ← st.get; scanStringLoop (length (buf s) + 1) 0.

(** *** Heredocs *)

(** [[[:space:]]] *)
Definition isSpaceByte (b : byte) : bool := bool_decide (9 <= u8 b <= 13 \/ b = " "%byte).

Definition endsAnchor (line ident : list byte) : bool :=
  bstrings.HasPrefix line ident &&
  forallb (fun b => bool_decide (b = "013"%byte)) (drop (length ident) line).

(** [^[[:space:]]*IDENT\r*\z] *)
Fixpoint matchAnchor (line ident : list byte) : bool :=
  endsAnchor line ident ||
  match line with
  | b :: line => isSpaceByte b && matchAnchor line ident
  | [] => false
  end.

Fixpoint heredocLoop (turns : nat) (identBytes ident : list byte) (lineStart : Z) : M unit :=
  match turns with
  | O => st.stuck
  | S turns =>
      c ← next;
      s ← st.get;
      if decide (c = 10) then
        let lineEnd := Offset (srcPos s) - lastCharLen s in
        matches ← (if decide (lineEnd - lineStart >= Z.of_nat (length identBytes)) then
                     line ← st.lift (slice_Z (src s) lineStart lineEnd);
                     mret (matchAnchor line ident)
                   else mret false);
        if matches : bool then mret tt
        else heredocLoop turns identBytes ident (Offset (srcPos s))
      else if decide (c = eof) then err "heredoc not terminated"
      else heredocLoop turns identBytes ident lineStart
  end.

Section scan.
Context `{Unicode}.

Definition scanHeredoc : M unit :=
  c ← next;
  if decide (c <> ch "<") then err "heredoc expected second '<', didn't see it"
  else
    s ← st.get;
    let offs := Offset (srcPos s) in
    c ← next;
    c ← (if decide (c = ch "-") then next else mret c);
    '(c, _) ← nextLoop (fun c => isLetter c || isDigit c) c;
    if decide (c = eof) then err "heredoc not terminated"
    else
      c ← (if decide (c = 13) then p ← peek; if decide (p = 10) then next else mret c
           else mret c);
      if decide (c <> 10) then err "invalid characters in heredoc anchor"
      else
        s ← st.get;
        identBytes ← st.lift (slice_Z (src s) offs (Offset (srcPos s) - lastCharLen s));
        if decide (identBytes = [] \/ identBytes = ["-"%byte]) then err "zero-length heredoc anchor"
        else
          let ident := match identBytes with
                       | b :: r => if decide (b = "-"%byte) then r else identBytes
                       | [] => identBytes
                       end in
          s ← st.get;
          heredocLoop (length (buf s) + 1) identBytes ident (Offset (srcPos s)).

(** *** Identifiers *)

Definition scanIdentifier : M (list byte) :=
  s ← st.get;
  let offs := Offset (srcPos s) - lastCharLen s in
  c ← next;
  '(c, _) ← nextLoop (fun c => isLetter c || isDigit c || bool_decide (c = ch "-" \/ c = ch ".")) c;
  _ ← unreadUnlessEof c;
  s ← st.get;
  st.lift (slice_Z (src s) offs (Offset (srcPos s))).

(** *** Scan *)

(** The token type for the rune [c] that starts a token. *)
Definition scanToken (c : Z) : M Type_ :=
  if isLetter c then
    lit ← scanIdentifier;
    mret (if decide (lit = bytes "true" \/ lit = bytes "false") then BOOL else IDENT)
  else if isDecimal c then scanNumber c
  else if decide (c = eof) then mret EOF
  else if decide (c = ch "034") then _ ← scanString; mret STRING
  else if decide (c = ch "#" \/ c = ch "/") then _ ← scanComment c; mret COMMENT
  else if decide (c = ch ".") then
    c ← peek;
    if isDecimal c then c ← scanMantissa c; _ ← scanExponent c; mret FLOAT
    else mret PERIOD
  else if decide (c = ch "<") then _ ← scanHeredoc; mret HEREDOC
  else if decide (c = ch "[") then mret LBRACK
  else if decide (c = ch "]") then mret RBRACK
  else if decide (c = ch "{") then mret LBRACE
  else if decide (c = ch "}") then mret RBRACE
  else if decide (c = ch ",") then mret COMMA
  else if decide (c = ch "=") then mret ASSIGN
  else if decide (c = ch "+") then mret ADD
  else if decide (c = ch "-") then
    p ← peek;
    if isDecimal p then c ← next; scanNumber c else mret SUB
  else _ ← err "illegal char"; mret ILLEGAL.

Definition markToken (s : Scanner) : Scanner :=
  let off := Offset (srcPos s) - lastCharLen s in
  let pos := (tokPos s) <| Offset := off |> in
  s <| tokStart := off |>
    <| tokPos := if decide (Column (srcPos s) > 0)
                 then pos <| Line := Line (srcPos s) |> <| Column := Column (srcPos s) |>
                 else pos <| Line := Line (srcPos s) - 1 |> <| Column := lastLineLen s |> |>.

(** The end of the token and its text. *)
Definition finishToken (tok : Type_) : M Token :=
  _ ← st.upd (fun s => s <| tokEnd := Offset (srcPos s) |>);
  s ← st.get;
  tokenText ← (if decide (tokStart s >= 0) then st.lift (slice_Z (src s) (tokStart s) (tokEnd s))
               else mret []);
  _ ← st.upd (fun s => s <| tokStart := tokEnd s |>);
  mret {| Type' := tok; Pos' := tokPos s; Text := tokenText; JSON := false |}.

Definition Scan : M Token :=
  c ← next;
  '(c, _) ← nextLoop isWhitespace c;
  _ ← st.upd markToken;
  tok ← scanToken c;
  finishToken tok.
End scan.

End scanner.
