(* ===== verification/HclScannerSpec.v ===== *)
(** * The HCL scanner is total and loses nothing

    The invariant of the scanner ties the position it counts to the bytes it has
    read.  Every method preserves it, never puts back a rune it has not just read,
    and ends within its bound; the token it returns is a slice of the source that
    starts where the white space before it ends. *)

From Stdlib Require Import ZArith Lia NArith Ascii Strings.Byte.
From stdpp Require Import base numbers gmap strings list fin_maps.
From coqutil Require Import Datatypes.RecordSetters.
From S2P Require Import Prelude GoNet Utf8 HclStrconv HclToken StateM HclScanner.

Import token scanner.
Open Scope Z_scope.

(** The offset the scanner has counted to. *)
Definition offset (s : Scanner) : Z := Offset (srcPos s).

(** What has been read and what is left make up the source, the offset counts
    what has been read, and the rune that may be put back is the end of it. *)
Definition inv (s : Scanner) : Prop :=
  exists done, src s = done ++ buf s /\ offset s = Z.of_nat (length done) /\
    (lastRead s <> [] ->
     exists before, done = before ++ lastRead s /\ Offset (prevPos s) = Z.of_nat (length before) /\
                    lastCharLen s = Z.of_nat (length (lastRead s))).

(** Reachable from [s0] within a token: the source and the marks of the token are
    those of [s0], and nothing before [s0] has been put back. *)
Record adv (s0 s : Scanner) : Prop := Adv {
  adv_inv : inv s;
  adv_src : src s = src s0;
  adv_start : tokStart s = tokStart s0;
  adv_pos : tokPos s = tokPos s0;
  adv_offset : offset s0 <= offset s;
  adv_errors : Errors s0 `prefix_of` Errors s
}.

(** The last rune may be put back. *)
Definition can_unread (s0 s : Scanner) : Prop :=
  lastRead s <> [] /\ offset s0 <= Offset (prevPos s).

(** The rune [c0] of the text and what [next] returns for it: itself, or the end
    of the text or the replacement rune with an error, or the replacement rune. *)
Definition rune_read (c0 c : Z) (errs errs' : list (Pos * string)) : Prop :=
  (c = c0 /\ c0 <> 0 /\ errs' = errs) \/ (c = eof /\ c0 = 0 /\ errs' <> errs) \/
  (c = RuneError /\ (c0 = RuneError \/ c0 = 57635)).

(** One call of [next]: either the text is at its end, or a non-empty piece of
    it has been read. *)
Definition reads (s : Scanner) (c : Z) (s' : Scanner) : Prop :=
  inv s' /\ src s' = src s /\ tokStart s' = tokStart s /\ tokPos s' = tokPos s /\
  Errors s `prefix_of` Errors s' /\
  ((c = eof /\ buf s = [] /\ buf s' = [] /\ lastCharLen s' = 0 /\ offset s' = offset s /\
    Errors s' = Errors s) \/
   (exists r, r <> [] /\ buf s = r ++ buf s' /\ lastRead s' = r /\
      lastCharLen s' = Z.of_nat (length r) /\ offset s' = offset s + Z.of_nat (length r) /\
      prevPos s' = srcPos s /\
      exists c0, DecodeRune (buf s) = (c0, length r) /\ rune_read c0 c (Errors s) (Errors s'))).

Lemma inv_New text : inv (New text).
Proof. exists []. by split. Qed.

(** The fields of a state after assignments. *)
Ltac fields := unfold constant, advance, newline in *; cbn in *; unfold constant in *.

(** The state after a rune of [n] bytes, whatever happened to the line numbers. *)
Lemma reads_intro s c n s' :
  inv s -> (0 < n <= length (buf s))%nat ->
  src s' = src s -> tokStart s' = tokStart s -> tokPos s' = tokPos s ->
  buf s' = drop n (buf s) -> lastRead s' = take n (buf s) -> lastCharLen s' = Z.of_nat n ->
  offset s' = offset s + Z.of_nat n -> prevPos s' = srcPos s ->
  Errors s `prefix_of` Errors s' ->
  (exists c0, DecodeRune (buf s) = (c0, n) /\ rune_read c0 c (Errors s) (Errors s')) ->
  reads s c s'.
Proof.
  intros (done & Hsrc & Hoff & _) Hn Es Et Ep Eb El Ec Eo Epp Hpre HD.
  assert (length (take n (buf s)) = n) as Hl by (rewrite length_take; lia).
  split; [|split_and!; try done].
  - exists (done ++ take n (buf s)). rewrite Es, Eb, El, Eo, Epp, Hsrc.
    split; [by rewrite <- app_assoc, take_drop|]. split; [rewrite length_app; lia|].
    intros _. exists done. rewrite Hl. split; [done|]. split; [exact Hoff|done].
  - right. exists (take n (buf s)). rewrite Hl, Eb.
    split_and!; try done; [|by rewrite take_drop].
    intros E. rewrite E in Hl. simpl in Hl. lia.
Qed.

Lemma snoc_neq {A} (l : list A) x : l ++ [x] <> l.
Proof. intros E%(f_equal length). rewrite length_app in E. simpl in E. lia. Qed.

Lemma next_reads s : inv s -> wp next (returning (reads s)) s.
Proof.
  intros Hinv. unfold next, ReadRune. wp_steps.
  destruct (buf s) as [|c b] eqn:Eb; wp_steps.
  { destruct Hinv as (done & Hsrc & Hoff & _).
    destruct s as [b l sr [fn off ln col] pp lcl lll ts te errs ec tp]. unfold offset in *. cbn in *. subst b.
    split; [|fields; unfold offset; cbn; split_and!; [done..|left; split_and!; done || lia]].
    exists done. fields. unfold offset. cbn. split_and!; [done|lia|done]. }
  destruct (DecodeRune_width (c :: b)) as [Hw1 Hw2]. specialize (Hw2 ltac:(done)).
  destruct (DecodeRune (c :: b)) as [r n] eqn:E. cbn [fst snd] in Hw1, Hw2.
  rewrite <- Eb in *.
  assert (Hlen : (0 < n <= length (buf s))%nat) by lia.
  destruct s as [b' l sr [fn off ln col] pp lcl lll ts te errs ec tp]. wp_steps.
  destruct (decide (r = RuneError /\ Z.of_nat n = 1)) as [H1|H1];
    [|destruct (decide (r = 10)), (decide (r = 0)), (decide (r = 57635))];
    unfold err; wp_steps;
    (eapply (reads_intro _ _ n); fields; unfold offset; cbn; try done; try lia; subst; try done);
    first [by apply prefix_app_r | eexists; split; [exact E|]];
    unfold rune_read, eof; first [left; split_and!; done | right; right; tauto
                                 | right; left; split_and!; [done..|apply snoc_neq]].
Qed.

(** ** The steps of a token *)

(** Bytes left. *)
Definition remaining (s : Scanner) : nat := length (buf s).

(** The scanner has moved on, and has just read [c]. *)
Definition after (s0 : Scanner) (c : Z) (s : Scanner) : Prop :=
  adv s0 s /\ (c <> eof -> can_unread s0 s).

Lemma adv_refl s : inv s -> adv s s.
Proof. by constructor. Qed.

Lemma reads_after s0 s c s' :
  adv s0 s -> reads s c s' ->
  after s0 c s' /\ (remaining s' <= remaining s - 1)%nat /\ (buf s = [] -> c = eof) /\
  offset s' = offset s + lastCharLen s' /\ 0 <= lastCharLen s'.
Proof.
  intros [Hi Hs Ht Hp Ho He] (Hi' & Es & Et & Ep & He' & Hr). unfold remaining.
  assert (Errors s0 `prefix_of` Errors s') by (by etrans).
  destruct Hr as [(-> & Hb & Hb' & Hl & Eo & _)|(r & Hne & Hb & Hlr & Hl & Eo & Hpp & _)].
  - rewrite Hb, Hb', Hl. split_and!; try done; try lia.
    split; [|done]. constructor; congruence || lia.
  - rewrite Hb, Hl, length_app.
    assert (length r <> 0)%nat by (by destruct r). split_and!; try lia.
    + split; [constructor; congruence || lia|]. intros _. split; [congruence|].
      rewrite Hpp. unfold offset in *. lia.
    + intros E. destruct r; [done|discriminate].
Qed.

Lemma next_after s0 s :
  adv s0 s ->
  wp next (returning (fun c s' => after s0 c s' /\ (remaining s' <= remaining s - 1)%nat /\
                                 (buf s = [] -> c = eof) /\
                                 offset s' = offset s + lastCharLen s' /\ 0 <= lastCharLen s')) s.
Proof.
  intros Ha. eapply wp_returning; [apply next_reads, Ha|]. intros c s' Hr. by apply reads_after.
Qed.

Lemma unread_adv s0 s : adv s0 s -> can_unread s0 s -> wp unread (returning (fun _ s' => adv s0 s')) s.
Proof.
  intros [(done & Hsrc & Hoff & Hl) Es Et Ep Ho He] [Hne Hpp].
  destruct (Hl Hne) as (before & -> & Hb & _).
  unfold unread, UnreadRune. wp_steps. rewrite decide_False by done. wp_steps.
  destruct s as [b l sr sp pp lcl lll ts te errs ec tp]. unfold offset in *. fields.
  constructor; cbn; try done. exists before. unfold offset. cbn.
  split_and!; [by rewrite app_assoc|done|done].
Qed.

(** [peek] changes nothing but the rune that may be put back. *)
Lemma peek_adv s0 s : adv s0 s ->
  wp peek (returning (fun c s' => adv s0 s' /\ remaining s' = remaining s /\
    offset s' = offset s /\ lastCharLen s' = lastCharLen s /\ (c <> eof -> buf s <> []))) s.
Proof.
  intros [(done & Hsrc & Hoff & Hl) Es Et Ep Ho He]. unfold peek, ReadRune. wp_steps.
  destruct (buf s) as [|c b] eqn:Eb; wp_steps.
  { destruct s as [b l sr sp pp lcl lll ts te errs ec tp]. unfold remaining, offset in *. fields. subst b.
    split_and!; try done. constructor; try done. exists done. by split_and!. }
  destruct (DecodeRune_width (c :: b)) as [Hw1 Hw2]. specialize (Hw2 ltac:(done)).
  destruct (DecodeRune (c :: b)) as [r n] eqn:E. cbn [fst snd] in Hw1, Hw2.
  destruct s as [b' l sr sp pp lcl lll ts te errs ec tp]. unfold remaining, offset in *.
  unfold UnreadRune. wp_steps. fields.
  rewrite decide_False by (destruct n; [lia|done]). wp_steps. fields. subst b'.
  assert (Etd : take n (c :: b) ++ drop n (c :: b) = c :: b) by apply take_drop.
  rewrite Etd. split_and!; try done. constructor; try done. exists done. split_and!; done.
Qed.

Lemma err_adv s0 s msg : adv s0 s -> wp (err msg) (returning (fun _ s' => adv s0 s')) s.
Proof.
  intros [(done & Hsrc & Hoff & Hl) Es Et Ep Ho He]. unfold err. wp_steps.
  destruct s as [b l sr sp pp lcl lll ts te errs ec tp]. unfold offset in *. fields.
  constructor; try done; [by exists done|]. by apply prefix_app_r.
Qed.

(** [for p(ch) { ch = s.next() }] ends, for a [p] that is false at the end of the
    text, with a rune that is not in [p] and that may be put back if it was read
    by the loop or could be before it. *)
Lemma nextWhile_after s0 (p : Z -> bool) (before : Prop) turns : forall s c ran,
  p eof = false -> adv s0 s ->
  (before \/ ran = true -> c <> eof -> can_unread s0 s) ->
  (remaining s + 2 <= turns)%nat \/ (p c = false /\ (1 <= turns)%nat) ->
  wp (nextWhile turns p c ran)
     (returning (fun '(c', ran') s' => adv s0 s' /\ (before \/ ran' = true -> c' <> eof -> can_unread s0 s') /\
                            p c' = false /\ (remaining s' <= remaining s)%nat)) s.
Proof.
  induction turns as [|turns IH]; intros s c ran Hp Ha Hc Hn; [lia|].
  cbn [nextWhile]. destruct (p c) eqn:Ec.
  - destruct Hn as [Hn|[? _]]; [|congruence].
    eapply wp_then; [by apply next_after|].
    intros c' s' ([Ha' Hc'] & Hl & Hb & _). eapply wp_returning; [apply IH; [done|done|by intros _|]|].
    + destruct (decide (buf s = [])) as [E|E].
      * right. rewrite Hb by done. split; [done|lia].
      * left. assert (remaining s <> 0)%nat by (unfold remaining; by destruct (buf s)). lia.
    + intros [c2 r2] s2 (? & ? & ? & ?). split_and!; try done. lia.
  - wp_steps. split_and!; done || lia.
Qed.

Lemma nextLoop_after s0 (p : Z -> bool) (before : Prop) s c :
  p eof = false -> adv s0 s -> (before -> c <> eof -> can_unread s0 s) ->
  wp (nextLoop p c)
     (returning (fun '(c', ran') s' => adv s0 s' /\ (before \/ ran' = true -> c' <> eof -> can_unread s0 s') /\
                            p c' = false /\ (remaining s' <= remaining s)%nat)) s.
Proof.
  intros Hp Ha Hc. unfold nextLoop. wp_steps. apply nextWhile_after; try done.
  - intros [H|H]; [by apply Hc|done].
  - left. done.
Qed.

Lemma adv_left s0 s : inv s0 -> adv s0 s -> (remaining s <= remaining s0)%nat.
Proof.
  intros (d0 & E0 & O0 & _) [(d & E & O & _) Es _ _ Ho _]. unfold remaining.
  rewrite Es, E0 in E. apply (f_equal length) in E. rewrite !length_app in E. lia.
Qed.

(** ** Methods that stay within a token

    [scans m]: from a state reached within a token, [m] returns in such a state.
    Closed under sequencing; the database [scans] holds the methods. *)
Definition scans {A} (m : ST Scanner A) : Prop :=
  forall s0 s, adv s0 s -> wp m (returning (fun _ s' => adv s0 s')) s.

Lemma scans_bind {A B} (m : ST Scanner A) (f : A -> ST Scanner B) :
  scans m -> (forall a, scans (f a)) -> scans (m ≫= f).
Proof. intros Hm Hf s0 s Ha. eapply wp_then; [by apply Hm|]. intros a s' Ha'. by apply Hf. Qed.

Lemma scans_ret {A} (a : A) : scans (mret a).
Proof. intros s0 s Ha. by apply wp_ret. Qed.

Lemma scans_next : scans next.
Proof. intros s0 s Ha. eapply wp_returning; [by apply next_after|]. by intros c s' [[? _] _]. Qed.

Lemma scans_peek : scans peek.
Proof. intros s0 s Ha. eapply wp_returning; [by apply peek_adv|]. by intros c s' [? _]. Qed.

Lemma scans_err msg : scans (err msg).
Proof. intros s0 s Ha. by apply err_adv. Qed.

(** Code that begins with [next] and may put that rune back. *)
Lemma scans_after {A} (f : Z -> ST Scanner A) :
  (forall s0 s c, after s0 c s -> wp (f c) (returning (fun _ s' => adv s0 s')) s) ->
  scans (next ≫= f).
Proof.
  intros Hf s0 s Ha. eapply wp_then; [by apply next_after|]. intros c s' [? _]. by apply Hf.
Qed.

Create HintDb scans.
#[export] Hint Resolve scans_bind scans_ret scans_next scans_peek scans_err : scans.

Ltac scans :=
  repeat first
    [ progress intros
    | solve [eauto with scans nocore]
    | apply scans_bind
    | match goal with |- scans (match ?x with _ => _ end) => destruct x end ].

Lemma unread_after s0 s c : after s0 c s -> c <> eof -> wp unread (returning (fun _ s' => adv s0 s')) s.
Proof. intros [Ha Hc] Hne. apply unread_adv; auto. Qed.

Lemma unreadUnlessEof_after s0 s c :
  after s0 c s -> wp (unreadUnlessEof c) (returning (fun _ s' => adv s0 s')) s.
Proof.
  intros H. unfold unreadUnlessEof. case_decide; [by eapply unread_after|]. wp_steps. apply H.
Qed.

Lemma scans_scanMantissa c : scans (scanMantissa c).
Proof.
  intros s0 s Ha. unfold scanMantissa.
  eapply wp_then; [by apply (nextLoop_after s0 isDecimal False)|].
  intros [c' ran] s' (Ha' & Hc & _). eapply wp_then with (P := fun _ s' => adv s0 s').
  - destruct ran; [case_bool_decide; simpl|]; [|by wp_steps..]. apply unread_adv; auto.
  - intros ? s2 Ha2. by wp_steps.
Qed.
#[export] Hint Resolve scans_scanMantissa : scans.

Lemma scans_scanFraction c : scans (scanFraction c).
Proof. unfold scanFraction. scans. Qed.
Lemma scans_scanExponent c : scans (scanExponent c).
Proof. unfold scanExponent. scans. Qed.
#[export] Hint Resolve scans_scanFraction scans_scanExponent : scans.
Lemma scans_scanPeriod c : scans (scanPeriod c).
Proof. unfold scanPeriod. scans. Qed.
#[export] Hint Resolve scans_scanPeriod : scans.

Lemma octalDigits_after s0 turns : forall s c ill,
  after s0 c s -> (remaining s + 2 <= turns)%nat \/ (isDecimal c = false /\ (1 <= turns)%nat) ->
  wp (octalDigits turns c ill) (returning (fun '(c', _) s' => after s0 c' s')) s.
Proof.
  induction turns as [|turns IH]; intros s c ill Ha Hn; [lia|].
  cbn [octalDigits]. destruct (isDecimal c) eqn:Ec; [|by wp_steps].
  destruct Hn as [Hn|[? _]]; [|congruence].
  eapply wp_then; [apply next_after, Ha|]. intros c' s' (Ha' & Hl & Hb & _).
  apply IH; [done|]. destruct (decide (buf s = [])) as [E|E].
  - right. rewrite Hb by done. split; [done|lia].
  - left. assert (remaining s <> 0)%nat by (unfold remaining; by destruct (buf s)). lia.
Qed.

Lemma err_after s0 s c msg : after s0 c s -> wp (err msg) (returning (fun _ s' => after s0 c s')) s.
Proof.
  intros [Ha Hc]. unfold err. wp_steps.
  split; [exact (err_adv s0 s msg Ha)|]. intros Hne. destruct (Hc Hne), s. by split.
Qed.

(** An error message, or not, and then the rune is put back. *)
Lemma err_unread s0 s c (b : bool) msg (t : Type_) :
  after s0 c s ->
  wp (_ ← (if b then mret tt else err msg); _ ← unreadUnlessEof c; mret t)
     (returning (fun _ s' => adv s0 s')) s.
Proof.
  intros Ha. eapply wp_then with (P := fun _ s' => after s0 c s').
  - destruct b; [by wp_steps|by apply err_after].
  - intros ? s' Ha'. eapply wp_then; [by apply unreadUnlessEof_after|]. intros ? s2 Ha2. by wp_steps.
Qed.

Lemma unread_number s0 s c : after s0 c s ->
  wp (_ ← unreadUnlessEof c; mret NUMBER) (returning (fun _ s' => adv s0 s')) s.
Proof.
  intros Ha. eapply wp_then; [by apply unreadUnlessEof_after|]. intros ? s' Ha'. by wp_steps.
Qed.

Lemma after_adv s0 c s : after s0 c s -> adv s0 s.
Proof. by intros [? _]. Qed.
#[export] Hint Resolve after_adv : core.

(** The exponent of a number, with its type. *)
Lemma scans_float c : scans (_ ← scanExponent c; mret FLOAT).
Proof. scans. Qed.

Lemma scans_scanNumber c : scans (scanNumber c).
Proof.
  unfold scanNumber. case_decide.
  - apply scans_after. intros s0 s c1 Ha. case_decide.
    + eapply wp_then; [by apply next_after, Ha|]. intros c2 s2 ([Ha2 Hc2] & _).
      eapply wp_then; [by apply (nextLoop_after s0 isHexadecimal True); auto|].
      intros [c3 found] s3 (Ha3 & Hc3 & _). apply err_unread. split; [done|]. apply Hc3. by left.
    + apply wp_bind, wp_get. eapply wp_then; [apply octalDigits_after; [exact Ha|by left]|].
      intros [c2 ill] s2 Ha2. destruct (isExp c2); [by apply scans_float, Ha2|].
      case_decide; [by apply scans_scanPeriod, Ha2|].
      rewrite <- (negb_involutive ill). generalize (negb ill). intros b.
      pose proof (err_unread s0 s2 c2 b "illegal octal number" NUMBER Ha2) as H'.
      by destruct b.
  - apply scans_bind; [scans|]. intros _. apply scans_after. intros s0 s c1 Ha.
    destruct (isExp c1); [by apply scans_float, Ha|].
    case_decide; [by apply scans_scanPeriod, Ha|]. by apply unread_number.
Qed.
#[export] Hint Resolve scans_scanNumber : scans.

Lemma adv_trans s0 s1 s2 : adv s0 s1 -> adv s1 s2 -> adv s0 s2.
Proof. intros [] []. constructor; first [congruence | lia | by etrans]. Qed.

(** A method that stays within a token also leaves no more bytes than there were. *)
Lemma scans_left {A} (m : ST Scanner A) s0 s : scans m -> adv s0 s ->
  wp m (returning (fun _ s' => adv s0 s' /\ (remaining s' <= remaining s)%nat)) s.
Proof.
  intros Hm Ha. pose proof (adv_inv _ _ Ha) as Hi.
  eapply wp_returning; [by apply (Hm s s), adv_refl|]. intros ? s' Ha'.
  split; [by eapply adv_trans|by apply adv_left].
Qed.

(** ** Comments *)

Lemma blockComment_adv s0 turns : forall s c,
  adv s0 s -> (remaining s + 2 <= turns)%nat \/ (c = eof /\ (1 <= turns)%nat) ->
  wp (blockComment turns c) (returning (fun _ s' => adv s0 s')) s.
Proof.
  induction turns as [|turns IH]; intros s c Ha Hn; [lia|].
  cbn [blockComment]. case_decide as Hc; [by apply err_adv|].
  eapply wp_then; [by apply next_after|]. intros c' s' (Ha' & Hl & Hb & _).
  case_decide; [wp_steps; apply Ha'|]. apply IH; [apply Ha'|].
  destruct (decide (buf s = [])) as [E|E].
  - right. rewrite Hb by done. split; [done|lia].
  - left. assert (remaining s <> 0)%nat by (unfold remaining; by destruct (buf s)). lia.
Qed.

Lemma scans_scanComment c : scans (scanComment c).
Proof.
  unfold scanComment. apply scans_bind; [scans|]. intros [].
  - apply scans_bind; [scans|]. intros []; [scans|]. apply scans_after. intros s0 s c1 [Ha Hc].
    eapply wp_then; [apply (nextLoop_after s0 _ True); [done|done|by intros _]|].
    intros [c2 r] s2 (Ha2 & Hc2 & _). case_decide as Hd; [|by wp_steps].
    apply unread_adv; [done|]. apply Hc2; tauto.
  - apply scans_bind; [scans|]. intros c1 s0 s Ha. apply wp_bind, wp_get.
    apply blockComment_adv; [done|]. by left.
Qed.

(** ** Strings *)

Lemma scanDigitsLoop_after s0 base n0 turns : forall s c n,
  adv s0 s -> (n < turns)%nat -> (n <= n0)%nat -> (n <> n0 -> c <> eof -> can_unread s0 s) ->
  wp (scanDigitsLoop turns c base n)
     (returning (fun '(c', n') s' => adv s0 s' /\ (n' <> n0 -> c' <> eof -> can_unread s0 s'))) s.
Proof.
  induction turns as [|turns IH]; intros s c n Ha Hn Hn0 Hc; [lia|].
  cbn [scanDigitsLoop]. case_decide as Hd; [|by wp_steps].
  eapply wp_then; [by apply next_after|]. intros c' s' ([Ha' Hc'] & _).
  case_decide as He; [by wp_steps|]. apply IH; [done|lia|lia|by intros _].
Qed.

Lemma scans_scanDigits c base n : scans (scanDigits c base n).
Proof.
  intros s0 s Ha. unfold scanDigits.
  eapply wp_then; [apply (scanDigitsLoop_after s0 base n); [done|lia|lia|done]|].
  intros [c' n'] s' [Ha' Hc'].
  assert (Hcase : (n' = n \/ c' = eof) \/ (n' <> n /\ c' <> eof)) by
    (destruct (decide (n' = n)), (decide (c' = eof)); tauto).
  destruct Hcase as [Hno|[Hn Hc]].
  - eapply wp_then with (P := fun _ s' => adv s0 s').
    + case_decide; [by apply err_adv|by wp_steps].
    + intros ? s2 Ha2. rewrite decide_False by tauto. by wp_steps.
  - eapply wp_then with (P := fun _ s' => after s0 c' s').
    + assert (after s0 c' s') by (split; [done|by intros _; apply Hc']).
      case_decide; [by apply err_after|by wp_steps].
    + intros ? s2 Ha2. rewrite decide_True by tauto.
      eapply wp_then; [by eapply unread_after|]. intros ? s3 Ha3. by wp_steps.
Qed.
#[export] Hint Resolve scans_scanDigits scans_scanComment : scans.

Lemma scans_scanEscape : scans scanEscape.
Proof. unfold scanEscape. scans. Qed.
#[export] Hint Resolve scans_scanEscape : scans.

Lemma scanStringLoop_adv s0 turns : forall s braces,
  adv s0 s -> (remaining s + 1 <= turns)%nat ->
  wp (scanStringLoop turns braces) (returning (fun _ s' => adv s0 s')) s.
Proof.
  induction turns as [|turns IH]; intros s braces Ha Hn; [lia|].
  cbn [scanStringLoop]. eapply wp_then; [by apply next_after|].
  intros c s' ([Ha' _] & Hl & Hb & _).
  case_decide as Hend; [by apply err_adv|]. case_decide; [by wp_steps|].
  assert (Hl' : (remaining s' + 1 <= turns)%nat).
  { destruct (decide (buf s = [])) as [E|E]; [rewrite Hb in Hend by done; tauto|].
    assert (remaining s <> 0)%nat by (unfold remaining; by destruct (buf s)). lia. }
  eapply wp_then; [apply (scans_left _ s0); [scans|exact Ha']|]. intros opens s2 [Ha2 Hl2].
  eapply wp_then; [apply (scans_left _ s0); [scans|exact Ha2]|]. intros br s3 [Ha3 Hl3].
  eapply wp_then; [apply (scans_left _ s0); [scans|exact Ha3]|]. intros ? s4 [Ha4 Hl4].
  apply IH; [done|lia].
Qed.

Lemma scans_scanString : scans scanString.
Proof. intros s0 s Ha. unfold scanString. apply wp_bind, wp_get. by apply scanStringLoop_adv. Qed.
#[export] Hint Resolve scans_scanString : scans.

(** ** Slices of the source *)

Lemma slice_Z_Ret {A} (l : list A) i j :
  0 <= i <= j -> j <= Z.of_nat (length l) ->
  slice_Z l i j = Ret (take (Z.to_nat (j - i)) (drop (Z.to_nat i) l)).
Proof.
  intros Hi Hj. unfold slice_Z. rewrite decide_True, slice_Ret by lia.
  do 2 f_equal. lia.
Qed.

Lemma inv_offset s : inv s -> 0 <= offset s <= Z.of_nat (length (src s)).
Proof. intros (d & E & O & _). rewrite E, length_app. lia. Qed.

Lemma after_start s0 c s : after s0 c s -> c <> eof ->
  offset s0 <= offset s - lastCharLen s <= offset s.
Proof.
  intros [[(d & E & O & Hl) _ _ _ _ _] Hc] Hne. destruct (Hc Hne) as [Hr Hp].
  destruct (Hl Hr) as (b & -> & Hb & ->). rewrite length_app in O. lia.
Qed.

Lemma slice_adv s0 c s : inv s0 -> after s0 c s -> c <> eof ->
  exists r, slice_Z (src s) (offset s0) (offset s - lastCharLen s) = Ret r.
Proof.
  intros Hi Ha Hc. pose proof (after_start _ _ _ Ha Hc).
  pose proof (inv_offset s (adv_inv _ _ (after_adv _ _ _ Ha))). pose proof (inv_offset s0 Hi).
  eexists. apply slice_Z_Ret; lia.
Qed.

(** ** Heredocs *)

Lemma heredocLoop_adv s0 ib ident turns : forall s sl,
  adv s0 s -> inv sl -> adv sl s -> (remaining s + 1 <= turns)%nat ->
  wp (heredocLoop turns ib ident (offset sl)) (returning (fun _ s' => adv s0 s')) s.
Proof.
  induction turns as [|turns IH]; intros s sl Ha Hil Hal Hn; [lia|].
  cbn [heredocLoop]. pose proof (adv_inv _ _ Ha) as Hi.
  eapply wp_then; [by apply (next_after s), adv_refl|].
  intros c s' (Has & Hl & Hb & _).
  assert (Ha' : adv s0 s') by (eapply adv_trans; [exact Ha|apply Has]).
  assert (Hal' : after sl c s').
  { destruct Has as [Has Hc]. split; [by eapply adv_trans|]. intros Hne. destruct (Hc Hne).
    split; [done|]. pose proof (adv_offset _ _ Hal). lia. }
  apply wp_bind, wp_get.
  assert (Hl' : c <> eof -> (remaining s' + 1 <= turns)%nat).
  { intros Hc. assert (remaining s <> 0)%nat by (unfold remaining; intros E; apply Hc, Hb; by destruct (buf s)). lia. }
  case_decide as Hc.
  - subst c. eapply wp_then with (P := fun _ s2 => s2 = s').
    + case_decide; [|by wp_steps]. destruct (slice_adv sl 10 s' Hil Hal') as [r Hr]; [done|].
      fold (offset s'). rewrite Hr. by wp_steps.
    + intros [] s2 ->; [by wp_steps|]. apply (IH s' s'); [done|apply Ha'|apply adv_refl, Ha'|by apply Hl'].
  - case_decide as He; [by apply err_adv|]. apply IH; [done|done|apply Hal'|by apply Hl'].
Qed.

Section unicode.
Context `{Unicode}.

Lemma isLetter_eof : isLetter eof = false.
Proof. done. Qed.
Lemma isDigit_eof : isDigit eof = false.
Proof. done. Qed.

Lemma scans_scanHeredoc : scans scanHeredoc.
Proof.
  unfold scanHeredoc. apply scans_bind; [scans|]. intros c. case_decide; [scans|].
  intros s0 s1 Ha. apply wp_bind, wp_get. fold (offset s1). pose proof (adv_inv _ _ Ha) as Hi1.
  eapply wp_conseq with (P := returning (fun _ s' => adv s1 s')); cycle 1.
  { intros [] s'; simpl; [|done..]. intros H'. by eapply adv_trans. }
  eapply wp_then; [by apply (next_after s1), adv_refl|]. intros c1 s2 (Ha2 & _).
  eapply wp_then with (P := fun c s => after s1 c s).
  { case_decide; [|by wp_steps]. eapply wp_returning; [apply (next_after s1), Ha2|]. by intros c2 s3 (? & _). }
  intros c2 s3 [Ha3 Hc3].
  eapply wp_then; [apply (nextLoop_after s1 _ True); [done|done|by intros _]|].
  intros [c4 r] s4 (Ha4 & Hc4 & _). case_decide as He; [by apply err_adv|].
  eapply wp_then with (P := fun c s => c <> 10 /\ adv s1 s \/ after s1 c s).
  { case_decide; [|by wp_steps; right; split; [|intros; apply Hc4; auto]].
    eapply wp_then; [by apply (peek_adv s1)|]. intros p s5 (Ha5 & _).
    case_decide; [|wp_steps; left; split; [lia|done]].
    eapply wp_returning; [by apply (next_after s1)|]. intros c6 s6 (? & _). by right. }
  intros c5 s5 H5. case_decide as H10.
  { apply err_adv. destruct H5 as [[_ ?]|?]; eauto. }
  destruct H5 as [[? _]|H5]; [done|]. apply wp_bind, wp_get. subst c5.
  destruct (slice_adv s1 10 s5 Hi1 H5) as [ib Hib]; [done|].
  fold (offset s5). rewrite Hib. apply wp_bind, wp_lift.
  case_decide; [apply err_adv; eauto|]. apply wp_bind, wp_get.
  apply heredocLoop_adv; [apply H5|apply H5|apply adv_refl, H5|done].
Qed.
#[local] Hint Resolve scans_scanHeredoc : scans.

Lemma scanIdentifier_adv s0 s :
  adv s0 s -> 0 <= offset s - lastCharLen s <= offset s ->
  wp scanIdentifier (returning (fun _ s' => adv s0 s')) s.
Proof.
  intros Ha Hs. unfold scanIdentifier. apply wp_bind, wp_get. pose proof (adv_inv _ _ Ha) as Hi.
  eapply wp_conseq with (P := returning (fun _ s' => adv s s')); cycle 1.
  { intros [] s'; simpl; [|done..]. intros H'. by eapply adv_trans. }
  eapply wp_then; [by apply (next_after s), adv_refl|]. intros c1 s2 ([Ha2 Hc2] & _).
  eapply wp_then; [apply (nextLoop_after s _ True); [done|done|intros _; exact Hc2]|].
  intros [c3 r] s3 (Ha3 & Hc3 & _).
  eapply wp_then; [apply (unreadUnlessEof_after s); split; [done|apply Hc3; by left]|].
  intros ? s4 Ha4. apply wp_bind, wp_get.
  pose proof (adv_offset _ _ Ha4). pose proof (inv_offset s4 (adv_inv _ _ Ha4)).
  fold (offset s) (offset s4). rewrite slice_Z_Ret by lia. by wp_steps.
Qed.

(** The end of the text is reported for the rune [eof] alone. *)
Lemma yields_scanNumber c : yields (fun t => t <> EOF) (scanNumber c).
Proof. unfold scanNumber, scanPeriod. yields. Qed.

Lemma scanToken_adv s0 s c :
  adv s0 s -> 0 <= offset s - lastCharLen s <= offset s ->
  wp (scanToken c) (returning (fun t s' => adv s0 s' /\ (t = EOF -> c = eof) /\ (c = eof -> t = EOF /\ s' = s))) s.
Proof.
  intros Ha Hs. unfold scanToken.
  destruct (decide (c = eof)) as [->|Hc]; [by wp_steps|].
  assert (HT : forall (m : ST Scanner Type_), scans m -> yields (fun t => t <> EOF) m ->
    wp m (returning (fun t s' => adv s0 s' /\ (t = EOF -> c = eof) /\ (c = eof -> t = EOF /\ s' = s))) s).
  { intros m Hm Hy. eapply wp_returning; [apply wp_yields; [exact Hy|by apply (Hm s0)]|].
    by intros t s' [? ?]. }
  destruct (isLetter c).
  { eapply wp_then; [by apply (scanIdentifier_adv s0)|]. intros lit s' Ha'. wp_steps.
    split; [done|]. split; [|done]. by case_decide. }
  apply HT.
  - scans.
  - assert (Hn := yields_scanNumber). yields; apply Hn.
Qed.

(** ** White space *)

Definition white (b : byte) : bool := isWhitespace (u8 b).

(** [s'] is [s] with the white space [ws] read. *)
Definition skipped (s : Scanner) (ws : list byte) (s' : Scanner) : Prop :=
  inv s' /\ src s' = src s /\ Forall (fun b => white b = true) ws /\ buf s = ws ++ buf s' /\
  offset s' = offset s + Z.of_nat (length ws) /\ Errors s' = Errors s.

Lemma isWhitespace_small c : isWhitespace c = true -> c <> eof /\ c <> RuneError /\ c < 128.
Proof.
  unfold isWhitespace. rewrite bool_decide_eq_true. unfold RuneError, eof. change (ch " ") with 32. lia.
Qed.

Lemma nextWhile_white turns : forall s0 s c ran,
  inv s0 -> reads s0 c s ->
  (remaining s + 2 <= turns)%nat \/ (isWhitespace c = false /\ (1 <= turns)%nat) ->
  wp (nextWhile turns isWhitespace c ran)
     (returning (fun '(c', _) s' => isWhitespace c' = false /\
        exists ws s1, skipped s0 ws s1 /\ reads s1 c' s')) s.
Proof.
  induction turns as [|turns IH]; intros s0 s c ran Hi0 Hr Hn; [lia|].
  cbn [nextWhile]. destruct (isWhitespace c) eqn:Ec.
  - destruct Hn as [Hn|[? _]]; [|congruence].
    destruct (isWhitespace_small c Ec) as (Hc1 & Hc2 & Hc3).
    destruct Hr as (Hi & Es & Et & Ep & _ & [[? _]|(r & Hne & Hb & Hlr & Hl & Ho & Hpp & c0 & HD' & HR)]); [done|].
    destruct HR as [(<- & _ & HE)|[[? _]|[? _]]]; [|done..].
    destruct (DecodeRune_small _ _ _ HD' Hc3) as (b & q & Eb & Hub & Hlen);
      [rewrite Hb; by destruct r|].
    destruct r as [|b' [|]]; try done. rewrite Hb in Eb. injection Eb as -> <-.
    eapply wp_then; [by apply next_reads|]. intros c' s' Hr'.
    pose proof (reads_after s s c' s' (adv_refl s Hi) Hr') as (_ & Hrem & Hbe & _).
    eapply wp_returning; [apply (IH s); [done|done|]|].
    + destruct (decide (buf s = [])) as [E|E].
      * right. rewrite Hbe by done. split; [done|lia].
      * left. assert (remaining s <> 0)%nat by (unfold remaining; by destruct (buf s)). lia.
    + intros [c2 ?] s2 (Hw & ws & s1 & (Hi1 & Es1 & Hws & Hb1 & Ho1 & He1) & Hr1).
      split; [done|]. exists (b :: ws), s1. split; [|done].
      unfold skipped. rewrite Hb, Hb1, Ho1, Es1, He1. split_and!; try done.
      * constructor; [|done]. unfold white. by rewrite Hub.
      * simpl length. simpl length in Ho. lia.
  - wp_steps. split; [done|]. exists [], s0. split; [|done].
    split_and!; try done. simpl. lia.
Qed.

(** ** Scan *)

(** What a call of [Scan] returns: the token's text is what follows the white
    space [ws], its position the offset of that text. *)
Record scanned (s : Scanner) (t : Token) (s' : Scanner) : Prop := Scanned {
  scanned_inv : inv s';
  scanned_src : src s' = src s;
  scanned_errors : Errors s `prefix_of` Errors s';
  scanned_text : exists ws, Forall (fun b => white b = true) ws /\
    buf s = ws ++ Text t ++ buf s' /\ Offset (Pos' t) = offset s + Z.of_nat (length ws) /\
    (Type' t = EOF -> Errors s' = Errors s -> buf s = ws);
  scanned_progress : Type' t <> EOF -> Text t <> [];
  scanned_first b r : Text t = b :: r -> white b = false;
  scanned_blank : Forall (fun b => white b = true) (buf s) ->
    Type' t = EOF /\ buf s' = [] /\ Errors s' = Errors s
}.

Lemma inv_marked s : inv s -> inv (markToken s).
Proof. intros (d & ? & ? & ?). exists d. by destruct s. Qed.

(** The source between two offsets is what was read between them. *)
Lemma slice_read s1 s2 :
  inv s1 -> inv s2 -> src s2 = src s1 -> offset s1 <= offset s2 ->
  exists t, slice_Z (src s2) (offset s1) (offset s2) = Ret t /\ buf s1 = t ++ buf s2 /\
            Z.of_nat (length t) = offset s2 - offset s1.
Proof.
  intros (d1 & E1 & O1 & _) (d2 & E2 & O2 & _) Es Ho.
  assert (Hlen : length (src s2) = (length d2 + length (buf s2))%nat) by (by rewrite E2, length_app).
  exists (take (Z.to_nat (offset s2 - offset s1)) (drop (Z.to_nat (offset s1)) (src s2))).
  split; [apply slice_Z_Ret; lia|].
  assert (Hd1 : drop (Z.to_nat (offset s1)) (src s2) = buf s1).
  { rewrite Es, E1, O1, Nat2Z.id. apply drop_app_length. }
  assert (Hd2 : drop (Z.to_nat (offset s2)) (src s2) = buf s2).
  { rewrite E2, O2, Nat2Z.id. apply drop_app_length. }
  rewrite Hd1. split.
  - rewrite <- Hd2.
    replace (Z.to_nat (offset s2)) with (Z.to_nat (offset s1) + Z.to_nat (offset s2 - offset s1))%nat by lia.
    rewrite <- drop_drop, Hd1. symmetry. apply take_drop.
  - rewrite length_take, <- Hd1, length_drop. lia.
Qed.

(** From the state [s1] at the start of the text of a token to the token. *)
Lemma finishToken_text s1 s tok :
  inv s1 -> inv s -> src s = src s1 -> tokStart s = offset s1 -> offset s1 <= offset s ->
  wp (finishToken tok) (returning (fun t s' =>
    Type' t = tok /\ Pos' t = tokPos s /\ inv s' /\ src s' = src s /\ Errors s' = Errors s /\
    buf s' = buf s /\ buf s1 = Text t ++ buf s /\ Z.of_nat (length (Text t)) = offset s - offset s1)) s.
Proof.
  intros Hi1 Hi Es Ht Ho. destruct (slice_read s1 s Hi1 Hi Es Ho) as (t & Hs & Hb & Hl).
  pose proof (inv_offset s1 Hi1). destruct Hi as (d & ? & ? & ?).
  destruct s as [b l sr sp pp lcl lll ts te errs ec tp].
  unfold finishToken. wp_steps. fields. unfold offset in Hs at 2. cbn in Hs. subst ts.
  rewrite decide_True by lia. rewrite Hs. wp_steps. fields.
  split_and!; try done. by exists d.
Qed.

(** The first byte of what a rune other than white space was read from. *)
Lemma read_not_white s c s' b r : reads s c s' -> isWhitespace c = false -> buf s = b :: r -> white b = false.
Proof.
  intros (_ & _ & _ & _ & _ & Hr) Hc Hb. destruct (white b) eqn:Ew; [|done]. exfalso.
  pose proof (isWhitespace_small _ Ew) as (Hw1 & Hw2 & Hw3).
  destruct Hr as [(_ & Hb' & _)|(w & _ & _ & _ & _ & _ & _ & c0 & HD & Hrr)]; [congruence|].
  rewrite Hb, DecodeRune_ascii in HD by done. injection HD as <- _.
  destruct Hrr as [(-> & _)|[(_ & ? & _)|(_ & [?|?])]]; [unfold white in Ew; congruence|done|done|lia].
Qed.

Lemma Scan_scanned s : inv s -> wp Scan (returning (scanned s)) s.
Proof.
  intros Hi. unfold Scan. eapply wp_then; [by apply next_reads|]. intros c0 s0 Hr0.
  eapply wp_then.
  { unfold nextLoop. apply wp_bind, wp_get. apply (nextWhile_white _ s); [done|done|by left]. }
  intros [c ?] s2 (Hw & ws & s1 & (Hi1 & Es1 & Hws & Hb1 & Ho1 & He1) & Hr).
  pose proof (reads_after s1 s1 c s2 (adv_refl s1 Hi1) Hr) as (Ha2 & _ & _ & Ho2 & Hlc).
  apply wp_bind, wp_upd. set (s3 := markToken s2).
  assert (Hi3 : inv s3) by (apply inv_marked, Ha2).
  assert (Hs3 : offset s3 = offset s2 /\ lastCharLen s3 = lastCharLen s2 /\ src s3 = src s2 /\
                Errors s3 = Errors s2 /\ buf s3 = buf s2 /\ tokStart s3 = offset s1 /\ Offset (tokPos s3) = offset s1).
  { clear -Ho2. unfold s3, markToken, offset in *. destruct s2 as [? ? ? ? ? ? ? ? ? ? ? []].
    split_and!; try done; fields; [lia|]. case_decide; fields; lia. }
  destruct Hs3 as (Eo & El & Es & Ee & Eb & Et & Ep).
  pose proof (inv_offset s1 Hi1). pose proof (adv_src _ _ (after_adv _ _ _ Ha2)) as Es2.
  eapply wp_then; [apply (scanToken_adv s3 s3); [by apply adv_refl|lia]|].
  intros tok s4 (Ha4 & Htok & Heof).
  eapply wp_returning.
  { apply (finishToken_text s1).
    - done.
    - apply Ha4.
    - rewrite (adv_src _ _ Ha4). congruence.
    - rewrite (adv_start _ _ Ha4). done.
    - pose proof (adv_offset _ _ Ha4). lia. }
  intros t s' (HT & HP & Hi' & Es' & Ee' & Eb' & Htext & Hlen).
  assert (Hr' := Hr). destruct Hr' as (_ & _ & _ & _ & Hpre & Hrd). constructor.
  - done.
  - rewrite Es', (adv_src _ _ Ha4). congruence.
  - rewrite Ee', <- He1. etrans; [exact Hpre|]. rewrite <- Ee. apply Ha4.
  - exists ws. rewrite HP, (adv_pos _ _ Ha4), Ep, Eb', <- Htext. split_and!; try done.
    intros Hte Hee. destruct (Heof (Htok (eq_trans (eq_sym HT) Hte))) as [_ ->].
    assert (Hc : c = eof) by (apply Htok; congruence).
    destruct Hrd as [(_ & Hb & _)|(r & _ & _ & _ & _ & _ & _ & c1 & _ & Hrr)].
    + by rewrite Hb1, Hb, app_nil_r.
    + exfalso. destruct Hrr as [(? & ? & _)|[(_ & _ & He)|[? _]]]; [unfold eof in *; congruence| |].
      * apply He. congruence.
      * rewrite Hc in *. done.
  - intros Hte Hnil. rewrite Hnil in Hlen. simpl in Hlen.
    destruct Hrd as [(Hc & _)|(r & Hne & _ & _ & Hl & _)]; [destruct (Heof Hc); congruence|].
    pose proof (adv_offset _ _ Ha4). destruct r; [done|]. simpl in Hl. lia.
  - intros b0 r0 Hcons. rewrite Hcons in Htext. by eapply read_not_white.
  - intros Hbl. rewrite Hb1 in Hbl. apply Forall_app in Hbl as [_ Hbl].
    destruct (buf s1) as [|b0 r0] eqn:Eb1; [|by apply Forall_cons_1 in Hbl as [? _];
      rewrite (read_not_white s1 c s2 b0 r0) in * by done].
    destruct Hr as (_ & _ & _ & _ & _ & [(Hc & _ & Hb2 & _ & _ & HE)|(r & Hne & Hb & _)]); [|rewrite Eb1 in Hb; by destruct r].
    destruct (Heof Hc) as [? E4]. subst s4. split_and!; congruence.
Qed.

Lemma yields_Scan : yields (fun t => JSON t = false) Scan.
Proof. unfold Scan, finishToken. yields. Qed.

(** The scanner is total and loses nothing: from every state it can be in, a
    call of [Scan] returns a token (it neither panics nor loops) and the text
    before the call is white space, then exactly the token's text, then the text
    left to scan; the token's offset is where its text starts; a token other than
    the end of the file is not empty, and the end of the file is only reported
    when nothing but white space was left or with an error. *)
Theorem Scan_total s : inv s -> exists t s',
  Scan s = Some (Ret t, s') /\ inv s' /\ src s' = src s /\
  exists ws, Forall (fun b => white b = true) ws /\ buf s = ws ++ Text t ++ buf s' /\
    Offset (Pos' t) = offset s + Z.of_nat (length ws) /\
    (Type' t <> EOF -> Text t <> []) /\
    (Type' t = EOF -> Errors s' = Errors s -> buf s = ws).
Proof.
  intros Hi. destruct (proj1 (wp_run _ _ _) (Scan_scanned s Hi)) as (t & s' & Hrun & [? ? _ (ws & ? & ? & ? & ?) ? _ _]).
  exists t, s'. split_and!; try done. by exists ws.
Qed.

End unicode.

Lemma Scan_total_witness :
  inv (New (bytes "listener = 1")) /\
  exists t s', Scan (H := ascii_Unicode) (New (bytes "listener = 1")) = Some (Ret t, s') /\ inv s'.
Proof.
  split; [apply inv_New|].
  destruct (Scan_total (H := ascii_Unicode) (New (bytes "listener = 1")) (inv_New _)) as (t & s' & Hr & Hi & _).
  exact (ex_intro _ t (ex_intro _ s' (conj Hr Hi))).
Defined.
