(* ===== verification/HclLex.v ===== *)
(** * Scanning the words of a text

    For each kind of word a configuration is written with (names, quoted strings,
    integers, booleans and punctuation), [Scan] returns the token with that word
    when the word is followed by a blank, and leaves the blank and what follows. *)

From Stdlib Require Import ZArith Lia NArith Ascii Strings.Byte.
From stdpp Require Import base numbers gmap strings list fin_maps.
From coqutil Require Import Datatypes.RecordSetters.
From S2P Require Import Prelude GoNet Utf8 HclStrconv HclToken StateM HclScanner HclScannerSpec.

Import token scanner.
Open Scope Z_scope.

(** ** Runs of known bytes *)

(** Between [s] and [s'] nothing but the position in the text has changed. *)
Definition same_run (s s' : Scanner) : Prop :=
  inv s' /\ src s' = src s /\ Errors s' = Errors s.

Lemma same_run_refl s : inv s -> same_run s s.
Proof. done. Qed.
Lemma same_run_trans a b c : same_run a b -> same_run b c -> same_run a c.
Proof. intros (? & ? & ?) (? & ? & ?). split_and!; congruence. Qed.

(** A byte that is a rune of its own and not the end of the text. *)
Definition plain_rune (b : byte) : Prop := 0 < u8 b < 128.

Lemma next_byte s b r : inv s -> buf s = b :: r -> plain_rune b ->
  wp next (returning (fun c s' => c = u8 b /\ same_run s s' /\ buf s' = r /\
                        lastRead s' = [b] /\ lastCharLen s' = 1 /\ offset s' = offset s + 1)) s.
Proof.
  intros Hi Hb [Hp1 Hp2]. eapply wp_returning; [by apply next_reads|].
  intros c s' (Hi' & Es & _ & _ & _ & [(_ & ? & _)|(w & Hne & Hw & Hl & Hlc & Ho & _ & c0 & HD & HR)]); [congruence|].
  rewrite Hb, DecodeRune_ascii in HD by done. injection HD as <- Hlen.
  destruct w as [|b' [|]]; try done. rewrite Hb in Hw. injection Hw as -> ->.
  destruct HR as [(-> & _ & ?)|[(_ & ? & _)|(_ & [?|?])]]; [by split_and!|lia|unfold RuneError in *; lia|lia].
Qed.

Lemma unread_byte s b r : inv s -> buf s = r -> lastRead s = [b] ->
  wp unread (returning (fun _ s' => same_run s s' /\ buf s' = b :: r /\ offset s' = offset s - 1)) s.
Proof.
  intros (d & Hsrc & Hoff & Hl) Hb Hlr. destruct Hl as (d' & -> & Hpp & _); [by rewrite Hlr|].
  unfold unread, UnreadRune. wp_steps. rewrite decide_False by (by rewrite Hlr). wp_steps.
  destruct s as [b0 l sr sp pp lcl lll ts te errs ec tp]. unfold same_run, offset in *. fields. subst l b0.
  split_and!; try done.
  - exists d'. unfold offset. cbn. split_and!; [by rewrite <- app_assoc in Hsrc|done|done].
  - rewrite length_app in Hoff. simpl in Hoff. lia.
Qed.

Lemma peek_byte s b r : inv s -> buf s = b :: r -> plain_rune b ->
  wp peek (returning (fun c s' => c = u8 b /\ same_run s s' /\ buf s' = b :: r /\
                        offset s' = offset s /\ lastCharLen s' = lastCharLen s)) s.
Proof.
  intros (d & Hsrc & Hoff & Hl) Hb [Hp1 Hp2]. unfold peek, ReadRune. wp_steps. rewrite Hb. cbv iota.
  rewrite DecodeRune_ascii by done. wp_steps. unfold UnreadRune. wp_steps.
  destruct s as [b0 l sr sp pp lcl lll ts te errs ec tp]. unfold same_run, offset in *. fields. subst b0.
  rewrite ?drop_0. split_and!; try done. exists d. by split_and!.
Qed.

(** [for p(ch) { ch = s.next() }] over bytes in [p] up to one that is not. *)
Lemma nextWhile_run p d r : forall w turns s c ran,
  inv s -> p c = true -> buf s = w ++ d :: r ->
  Forall (fun b => plain_rune b /\ p (u8 b) = true) w -> plain_rune d -> p (u8 d) = false ->
  (length w + 2 <= turns)%nat ->
  wp (nextWhile turns p c ran)
     (returning (fun '(c', ran') s' => c' = u8 d /\ ran' = true /\ same_run s s' /\ buf s' = r /\
        lastRead s' = [d] /\ lastCharLen s' = 1 /\ offset s' = offset s + Z.of_nat (length w) + 1)) s.
Proof.
  induction w as [|b w IH]; intros turns s c ran Hi Hc Hb Hw Hd Hpd Ht;
    (destruct turns as [|turns]; [simpl in Ht; lia|]); cbn [nextWhile]; rewrite Hc.
  - eapply wp_then; [by eapply next_byte|].
    intros c' s' (-> & Hs & Hb' & Hl & Hlc & Ho). destruct turns as [|turns]; [simpl in Ht; lia|].
    cbn [nextWhile]. rewrite Hpd. apply wp_ret. split_and!; try done. simpl. lia.
  - inv Hw as [|? ? [Hb1 Hb2] Hw']. eapply wp_then; [by eapply next_byte|].
    intros c' s' (-> & Hs & Hb' & Hl & Hlc & Ho).
    eapply wp_returning; [apply IH; [apply Hs|done|exact Hb'|done..|simpl in Ht; lia]|].
    intros [c2 r2] s2 (-> & -> & Hs2 & Hb2' & Hl2 & Hlc2 & Ho2).
    split_and!; try done; [by eapply same_run_trans|]. simpl length. lia.
Qed.

Lemma nextLoop_run p d r w s c :
  inv s -> p c = true -> buf s = w ++ d :: r ->
  Forall (fun b => plain_rune b /\ p (u8 b) = true) w -> plain_rune d -> p (u8 d) = false ->
  wp (nextLoop p c)
     (returning (fun '(c', ran') s' => c' = u8 d /\ ran' = true /\ same_run s s' /\ buf s' = r /\
        lastRead s' = [d] /\ lastCharLen s' = 1 /\ offset s' = offset s + Z.of_nat (length w) + 1)) s.
Proof.
  intros Hi Hc Hb Hw Hd Hpd. unfold nextLoop. apply wp_bind, wp_get.
  apply nextWhile_run; try done. rewrite Hb, length_app. simpl. lia.
Qed.

Lemma nextLoop_none p s c : p c = false ->
  wp (nextLoop p c) (returning (fun '(c', ran') s' => c' = c /\ ran' = false /\ s' = s)) s.
Proof.
  intros Hc. unfold nextLoop. apply wp_bind, wp_get. rewrite Nat.add_comm. cbn [nextWhile Nat.add].
  rewrite Hc. by apply wp_ret.
Qed.

(** ** Words *)

Lemma wp_and {S A} (m : ST S A) (P Q : A -> S -> Prop) s :
  wp m (returning P) s -> wp m (returning Q) s -> wp m (returning (fun a s' => P a s' /\ Q a s')) s.
Proof. unfold wp. destruct (m s) as [[[a|e|p] s']|]; simpl; auto. Qed.

(** [b :: w] is a word of type [ty] when it is followed by a blank: what
    [scanToken] does after the rune [b] has been read. *)
Definition word `{Unicode} (ty : Type_) (b : byte) (w : list byte) : Prop :=
  forall s d rest, inv s -> src s = d ++ b :: w ++ " "%byte :: rest -> offset s = Z.of_nat (length d) + 1 ->
    lastCharLen s = 1 -> buf s = w ++ " "%byte :: rest ->
    wp (scanToken (u8 b)) (returning (fun ty' s' => ty' = ty /\ buf s' = " "%byte :: rest /\ Errors s' = Errors s)) s.

(** The text of a token after white space is determined by what is left. *)
Lemma white_prefix ws t ws' t' :
  Forall (fun b => white b = true) ws -> Forall (fun b => white b = true) ws' ->
  (forall b r, t = b :: r -> white b = false) -> (forall b r, t' = b :: r -> white b = false) ->
  t <> [] -> t' <> [] -> ws ++ t = ws' ++ t' -> t = t'.
Proof.
  revert ws'. induction ws as [|b ws IH]; intros [|b' ws'] Hw Hw' Ht Ht' Hn Hn' E; simpl in E.
  - done.
  - apply Forall_cons_1 in Hw' as [Hb' _]. specialize (Ht _ _ E). congruence.
  - apply Forall_cons_1 in Hw as [Hb _]. specialize (Ht' _ _ (eq_sym E)). congruence.
  - injection E as -> E. apply Forall_cons_1 in Hw as [_ Hw]. apply Forall_cons_1 in Hw' as [_ Hw'].
    by eapply IH.
Qed.

Lemma white_plain b : white b = true -> plain_rune b.
Proof. intros Hw. pose proof (u8_range b). apply isWhitespace_small in Hw. unfold plain_rune, eof in *. lia. Qed.

(** Reading over bytes in [p] up to one that is not. *)
Lemma run_exact p s ws b r :
  inv s -> buf s = ws ++ b :: r -> Forall (fun b => plain_rune b /\ p (u8 b) = true) ws ->
  plain_rune b -> p (u8 b) = false ->
  wp (c ← next; nextLoop p c)
     (returning (fun '(c', _) s' => c' = u8 b /\ same_run s s' /\ buf s' = r /\ lastCharLen s' = 1 /\
                   lastRead s' = [b] /\ offset s' = offset s + Z.of_nat (length ws) + 1)) s.
Proof.
  intros Hi Hb Hws Hp Hwb. destruct ws as [|w0 ws].
  - eapply wp_then; [by eapply next_byte|]. intros c s' (-> & Hs & Hb' & Hl & Hlc & Ho).
    eapply wp_returning; [by apply nextLoop_none|]. intros [c' ?] s2 (-> & _ & ->).
    split_and!; try done. simpl. lia.
  - apply Forall_cons_1 in Hws as [[Hp0 Hw0] Hws].
    eapply wp_then; [by eapply next_byte|]. intros c s' (-> & Hs & Hb' & Hl & Hlc & Ho).
    eapply wp_returning; [apply (nextLoop_run _ b r ws); [apply Hs|done..]|].
    intros [c' ?] s2 (-> & _ & Hs2 & Hb2 & Hl2 & Hlc2 & Ho2).
    split_and!; try done; [by eapply same_run_trans|]. simpl length. lia.
Qed.

Lemma finishToken_ok s tok : inv s -> 0 <= tokStart s <= offset s ->
  wp (finishToken tok) (returning (fun t s' => Type' t = tok /\ buf s' = buf s /\ Errors s' = Errors s)) s.
Proof.
  intros Hi Ht. pose proof (inv_offset s Hi) as Ho.
  destruct s as [b l sr sp pp lcl lll ts te errs ec tp]. unfold offset in *.
  unfold finishToken. wp_steps. fields. rewrite decide_True by lia.
  rewrite slice_Z_Ret by lia. by wp_steps.
Qed.

Section unicode.
Context `{Unicode}.

Lemma Scan_word s ws ty b w rest :
  inv s -> buf s = ws ++ (b :: w) ++ " "%byte :: rest -> Forall (fun b => white b = true) ws ->
  plain_rune b -> white b = false -> word ty b w -> ty <> EOF ->
  wp Scan (returning (fun t s' => scanned s t s' /\ Type' t = ty /\ Text t = b :: w /\
                        buf s' = " "%byte :: rest /\ Errors s' = Errors s)) s.
Proof.
  intros Hi Hb Hws Hp Hwb Hword Hty.
  assert (Hrun : wp Scan (returning (fun t s' => Type' t = ty /\ buf s' = " "%byte :: rest /\ Errors s' = Errors s)) s).
  { destruct Hi as (dn & Hsrc & Hoff & Hlr). assert (Hi : inv s) by (by exists dn).
    unfold Scan. rewrite Hb in Hsrc.
    eapply wp_assoc; [apply (run_exact _ s ws b (w ++ " "%byte :: rest) Hi Hb); [|done|exact Hwb]|].
    { eapply Forall_impl; [exact Hws|]. intros x Hx. split; [by apply white_plain|exact Hx]. }
    intros [c ?] s1 (-> & (Hi1 & Es1 & Ee1) & Hb1 & Hlc1 & _ & Ho1).
    apply wp_bind, wp_upd. set (s3 := markToken s1).
    assert (H3 : inv s3 /\ src s3 = src s1 /\ buf s3 = buf s1 /\ offset s3 = offset s1 /\ lastCharLen s3 = 1 /\
                 Errors s3 = Errors s1 /\ tokStart s3 = offset s1 - 1).
    { split; [by apply inv_marked|]. subst s3. unfold markToken, offset. destruct s1. simpl in *.
      fields. split_and!; try done. lia. }
    clearbody s3. destruct H3 as (Hi3 & Es3 & Eb3 & Eo3 & El3 & Ee3 & Et3).
    eapply wp_then.
    { apply wp_and; [apply (scanToken_adv s3 s3); [by apply adv_refl|]|].
      - rewrite Eo3, El3. pose proof (inv_offset s Hi). lia.
      - apply (Hword s3 (dn ++ ws) rest); [done| |rewrite length_app; lia|done|congruence].
        rewrite Es3, Es1, Hsrc. by rewrite <- (assoc_L (++)). }
    intros ty' s4 ((Ha4 & _) & -> & Hb4 & He4).
    eapply wp_returning; [apply finishToken_ok; [apply Ha4|]|].
    - rewrite (adv_start _ _ Ha4), Et3. pose proof (adv_offset _ _ Ha4). pose proof (inv_offset s Hi). lia.
    - intros t s5 (? & ? & ?). split_and!; congruence. }
  eapply wp_returning; [apply wp_and; [by apply Scan_scanned|exact Hrun]|].
  intros t s' (Hsc & Ht & Hb' & He). split_and!; try done.
  destruct Hsc as [_ _ _ (ws' & Hws' & Hbuf & _) Hprog Hfirst _].
  rewrite Hb, Hb', !(assoc_L (++)) in Hbuf. apply app_inv_tail in Hbuf.
  eapply (white_prefix ws'); [done|exact Hws|done| |by apply Hprog; rewrite Ht|done|done].
  by intros b0 r0 [= <- _].
Qed.

(** *** Punctuation *)

Lemma word_punct ty b : scanToken (u8 b) = mret ty -> word ty b [].
Proof. intros E s d rest Hi _ _ _ Hb. rewrite E. by apply wp_ret. Qed.

(** *** Names and booleans *)

Definition ident_rune (c : Z) : bool :=
  isLetter c || isDigit c || bool_decide (c = ch "-" \/ c = ch ".").

Definition name_or_bool (w : list byte) : Type_ :=
  if decide (w = bytes "true" \/ w = bytes "false") then BOOL else IDENT.

Lemma blank_plain : plain_rune " "%byte.
Proof. done. Qed.

(** The source from the start of a word to the blank after it. *)
Lemma slice_word s d (w rest : list byte) :
  src s = d ++ w ++ rest ->
  slice_Z (src s) (Z.of_nat (length d)) (Z.of_nat (length d) + Z.of_nat (length w)) = Ret w.
Proof.
  intros ->. rewrite slice_Z_Ret by (rewrite ?length_app; lia).
  rewrite Nat2Z.id, drop_app_length. replace (Z.to_nat _) with (length w) by lia. by rewrite take_app_length.
Qed.

Lemma word_ident b w :
  isLetter (u8 b) = true -> Forall (fun b => plain_rune b /\ ident_rune (u8 b) = true) w ->
  word (name_or_bool (b :: w)) b w.
Proof.
  intros Hb Hw s d rest Hi Hsrc Ho Hlc Hbuf. unfold scanToken. rewrite Hb.
  eapply wp_then with (P := fun lit s' => lit = b :: w /\ buf s' = " "%byte :: rest /\ Errors s' = Errors s);
    [|by intros lit s' (-> & ? & ?); apply wp_ret].
  unfold scanIdentifier. apply wp_bind, wp_get. cbv beta zeta.
  eapply wp_assoc; [apply (run_exact ident_rune s w " "%byte rest); try done|].
  intros [c ?] s1 (-> & Hs1 & Hb1 & Hlc1 & Hl1 & Ho1).
  eapply wp_then; [apply (unread_byte s1 " "%byte rest); [apply Hs1|done|done]|].
  intros ? s2 (Hs2 & Hb2 & Ho2). apply wp_bind, wp_get.
  destruct (same_run_trans _ _ _ Hs1 Hs2) as (Hi2 & Es2 & Ee2).
  fold (offset s) (offset s2). rewrite Es2, Hlc.
  replace (offset s - 1) with (Z.of_nat (length d)) by lia.
  replace (offset s2) with (Z.of_nat (length d) + Z.of_nat (length (b :: w))) by (simpl length; lia).
  rewrite (slice_word s d (b :: w) (" "%byte :: rest)) by (by rewrite Hsrc). by apply wp_lift.
Qed.

(** *** Integers *)

Definition digit_byte (b : byte) : Prop := isDecimal (u8 b) = true.

Lemma digit_range b : digit_byte b <-> 48 <= u8 b <= 57.
Proof. unfold digit_byte, isDecimal. rewrite bool_decide_eq_true. done. Qed.

Lemma digit_plain b : digit_byte b -> plain_rune b.
Proof. rewrite digit_range. unfold plain_rune. lia. Qed.

Lemma digit_not_letter b : digit_byte b -> isLetter (u8 b) = false.
Proof.
  rewrite digit_range. intros Hr. unfold isLetter. rewrite !orb_false_iff, andb_false_iff, !bool_decide_eq_false.
  change (ch "a") with 97; change (ch "z") with 122; change (ch "A") with 65; change (ch "Z") with 90;
    change (ch "_") with 95. lia.
Qed.

Lemma scanMantissa_run s c w rest :
  inv s -> isDecimal c = true -> buf s = w ++ " "%byte :: rest -> Forall digit_byte w ->
  wp (scanMantissa c) (returning (fun _ s' => same_run s s' /\ buf s' = " "%byte :: rest)) s.
Proof.
  intros Hi Hc Hb Hw. unfold scanMantissa.
  eapply wp_then; [apply (nextLoop_run _ " "%byte rest w); try done|].
  { eapply Forall_impl; [exact Hw|]. intros x Hx. split; [by apply digit_plain|exact Hx]. }
  intros [c' ran] s1 (-> & -> & Hs1 & Hb1 & Hl1 & _). simpl.
  eapply wp_then; [apply (unread_byte s1 " "%byte rest); [apply Hs1|done|done]|].
  intros ? s2 (Hs2 & Hb2 & _). apply wp_ret. split; [by eapply same_run_trans|done].
Qed.

(** A number that does not start with 0. *)
Lemma scanNumber_run s c w rest :
  inv s -> isDecimal c = true -> c <> ch "0" -> buf s = w ++ " "%byte :: rest -> Forall digit_byte w ->
  wp (scanNumber c) (returning (fun ty s' => ty = NUMBER /\ buf s' = " "%byte :: rest /\ Errors s' = Errors s)) s.
Proof.
  intros Hi Hc H0 Hb Hw. unfold scanNumber. rewrite decide_False by done.
  eapply wp_then; [by apply (scanMantissa_run s c w rest)|]. intros ? s1 (Hs1 & Hb1).
  eapply wp_then; [apply (next_byte s1 " "%byte rest); [apply Hs1|done|done]|].
  intros ? s2 (-> & Hs2 & Hb2 & Hl2 & _). cbv [isExp]. rewrite bool_decide_eq_false_2 by (by intros [?|?]).
  rewrite decide_False by done. unfold unreadUnlessEof. rewrite decide_True by done.
  eapply wp_then; [apply (unread_byte s2 " "%byte rest); [apply Hs2|done|done]|].
  intros ? s3 (Hs3 & Hb3 & _). apply wp_ret. split_and!; try done.
  apply (same_run_trans _ _ _ Hs1 (same_run_trans _ _ _ Hs2 Hs3)).
Qed.

Lemma scanNumber_zero s rest :
  inv s -> buf s = " "%byte :: rest ->
  wp (scanNumber (ch "0")) (returning (fun ty s' => ty = NUMBER /\ buf s' = " "%byte :: rest /\ Errors s' = Errors s)) s.
Proof.
  intros Hi Hb. unfold scanNumber. rewrite decide_True by done.
  eapply wp_then; [by apply (next_byte s " "%byte rest)|]. intros ? s2 (-> & Hs2 & Hb2 & Hl2 & _).
  rewrite decide_False by (by intros [?|?]). apply wp_bind, wp_get. rewrite Nat.add_comm. cbn [Nat.add octalDigits].
  change (isDecimal (u8 " ")) with false. cbv iota. apply wp_bind, wp_ret.
  cbv [isExp]. rewrite bool_decide_eq_false_2 by (by intros [?|?]). rewrite decide_False by done.
  apply wp_bind, wp_ret. unfold unreadUnlessEof. rewrite decide_True by done.
  eapply wp_then; [apply (unread_byte s2 " "%byte rest); [apply Hs2|done|done]|].
  intros ? s3 (Hs3 & Hb3 & _). apply wp_ret. split_and!; try done. apply (same_run_trans _ _ _ Hs2 Hs3).
Qed.

(** The digits of a number: [0], or digits of which the first is not 0. *)
Definition numeral (b : byte) (w : list byte) : Prop :=
  digit_byte b /\ Forall digit_byte w /\ (b = "0"%byte -> w = []).

Lemma scanNumber_numeral s b w rest :
  inv s -> numeral b w -> buf s = w ++ " "%byte :: rest ->
  wp (scanNumber (u8 b)) (returning (fun ty s' => ty = NUMBER /\ buf s' = " "%byte :: rest /\ Errors s' = Errors s)) s.
Proof.
  intros Hi (Hb & Hw & Hz) Hbuf. destruct (decide (b = "0"%byte)) as [->|Hn].
  - rewrite (Hz eq_refl) in Hbuf. by apply scanNumber_zero.
  - apply (scanNumber_run s _ w); try done. intros E. apply Hn. by apply ch_spec in E.
Qed.

Lemma word_number b w : numeral b w -> word NUMBER b w.
Proof.
  intros Hn s d rest Hi _ _ _ Hbuf. unfold scanToken.
  rewrite digit_not_letter by apply Hn. destruct Hn as (Hb & Hn). unfold digit_byte in Hb. rewrite Hb.
  by apply (scanNumber_numeral s b w).
Qed.

Lemma word_negative b w : numeral b w -> word NUMBER "-"%byte (b :: w).
Proof.
  intros Hn s d rest Hi _ _ _ Hbuf.
  change (scanToken (u8 "-")) with (p ← peek; if isDecimal p then c ← next; scanNumber c else mret SUB).
  assert (Hp : plain_rune b) by (apply digit_plain, Hn).
  eapply wp_then; [apply (peek_byte s b (w ++ " "%byte :: rest)); done|].
  intros ? s1 (-> & Hs1 & Hb1 & _). rewrite (proj1 Hn : isDecimal (u8 b) = true).
  eapply wp_then; [apply (next_byte s1 b (w ++ " "%byte :: rest)); [apply Hs1|done|done]|].
  intros ? s2 (-> & Hs2 & Hb2 & _).
  eapply wp_returning; [apply (scanNumber_numeral s2 b w rest); [apply Hs2|done|done]|].
  intros ty s3 (-> & Hb3 & He3). split_and!; try done. destruct Hs1 as (_ & _ & ?), Hs2 as (_ & _ & ?). congruence.
Qed.
End unicode.

(** *** Quoted strings *)

Import hclstrconv.

Lemma digitVal_hex v : 0 <= v < 16 -> plain_rune (hex_digit v) /\ digitVal (u8 (hex_digit v)) < 16.
Proof.
  intros Hv. pose proof (hex_digit_range v Hv) as Hr. split; [unfold plain_rune; lia|].
  unfold digitVal. change (ch "0") with 48; change (ch "9") with 57; change (ch "a") with 97;
    change (ch "f") with 102; change (ch "A") with 65; change (ch "F") with 70.
  repeat case_decide; lia.
Qed.

(** Two hexadecimal digits, and the byte after them put back. *)
Lemma scanDigits_hex s h2 e r c :
  inv s -> digitVal c < 16 -> plain_rune h2 -> digitVal (u8 h2) < 16 -> plain_rune e -> buf s = h2 :: e :: r ->
  wp (scanDigits c 16 2) (returning (fun _ s' => same_run s s' /\ buf s' = e :: r)) s.
Proof.
  intros Hi Hc Hp2 H2 Hpe Hb. unfold scanDigits. cbn [scanDigitsLoop].
  apply wp_bind. rewrite decide_True by (split; [lia|done]).
  eapply wp_then; [by apply (next_byte s h2)|]. intros ? s1 (-> & Hs1 & Hb1 & _).
  rewrite decide_False by (unfold plain_rune, eof in *; lia). rewrite decide_True by (split; [lia|done]).
  eapply wp_then; [apply (next_byte s1 e r); [apply Hs1|done|done]|]. intros ? s2 (-> & Hs2 & Hb2 & Hl2 & _).
  rewrite decide_False by (unfold plain_rune, eof in *; lia). rewrite decide_False by (intros [? _]; lia).
  apply wp_ret. cbv beta iota. rewrite (decide_False (P := (0 < _)%nat)) by lia. apply wp_bind, wp_ret.
  rewrite decide_True by (unfold plain_rune, eof in *; lia).
  eapply wp_then; [apply (unread_byte s2 e r); [apply Hs2|done|done]|]. intros ? s3 (Hs3 & Hb3 & _).
  apply wp_ret. split; [|done]. apply (same_run_trans _ _ _ Hs1 (same_run_trans _ _ _ Hs2 Hs3)).
Qed.

Lemma scanEscape_hex s b e r :
  inv s -> plain_rune e -> buf s = "x"%byte :: hex_digit (u8 b / 16) :: hex_digit (u8 b mod 16) :: e :: r ->
  wp scanEscape (returning (fun _ s' => same_run s s' /\ buf s' = e :: r)) s.
Proof.
  intros Hi Hpe Hb. destruct (nibbles b) as (Hh & Hl & _).
  destruct (digitVal_hex _ Hh) as [Hp1 Hd1]. destruct (digitVal_hex _ Hl) as [Hp2 Hd2].
  unfold scanEscape. eapply wp_then; [by apply (next_byte s "x"%byte)|]. intros ? s1 (-> & Hs1 & Hb1 & _).
  rewrite decide_False by (vm_compute; intuition congruence).
  rewrite decide_False by (vm_compute; intuition congruence). rewrite decide_True by done.
  eapply wp_then; [eapply next_byte; [apply Hs1|exact Hb1|done]|]. intros ? s2 (-> & Hs2 & Hb2 & _).
  eapply wp_returning; [eapply (scanDigits_hex s2); [apply Hs2|done|exact Hp2|done|exact Hpe|exact Hb2]|].
  intros ? s3 (Hs3 & Hb3). split; [|done]. apply (same_run_trans _ _ _ Hs1 (same_run_trans _ _ _ Hs2 Hs3)).
Qed.

(** The first byte of a quoted string after some of it. *)
Lemma body_head v r : exists e r', body v ++ "034"%byte :: r = e :: r' /\ plain_rune e.
Proof.
  destruct (body v) as [|e l] eqn:E; [eexists _, _; by split|].
  exists e, (l ++ "034"%byte :: r). split; [done|]. assert (He : e ∈ body v) by (rewrite E; left).
  apply body_bytes in He. unfold plain_rune. lia.
Qed.

Lemma scanString_body v : forall turns s r,
  inv s -> buf s = body v ++ "034"%byte :: r -> (length v + 1 <= turns)%nat ->
  wp (scanStringLoop turns 0) (returning (fun _ s' => same_run s s' /\ buf s' = r)) s.
Proof.
  induction v as [|b v IH]; intros turns s r Hi Hb Ht; (destruct turns as [|turns]; [simpl in Ht; lia|]);
    cbn [scanStringLoop].
  - eapply wp_then; [by apply (next_byte s "034"%byte r)|]. intros ? s1 (-> & Hs1 & Hb1 & _).
    rewrite decide_False by (vm_compute; intuition congruence). rewrite decide_True by done. by apply wp_ret.
  - change (body (b :: v)) with (escape b ++ body v) in Hb. unfold escape in Hb.
    destruct (plain b) eqn:Hp.
    + apply plain_spec in Hp as (Hr & Hq & Hbs & Hd). simpl in Hb.
      eapply wp_then; [eapply next_byte; [done|exact Hb|unfold plain_rune; lia]|].
      intros ? s1 (-> & Hs1 & Hb1 & _). rewrite decide_False by (unfold eof; lia).
      rewrite (decide_False (P := u8 b = ch "034" /\ _)) by (rewrite ch_spec; tauto).
      rewrite (decide_False (P := _ /\ u8 b = ch "$")) by (rewrite ch_spec; tauto). apply wp_bind, wp_ret.
      cbv beta iota. apply wp_bind, wp_ret. cbv beta iota. cbv zeta. rewrite (decide_False (P := u8 b = ch "\")) by (by rewrite ch_spec).
      rewrite !(decide_False (P := 0 > 0 /\ _)) by lia. apply wp_bind, wp_ret.
      eapply wp_returning; [apply (IH turns s1 r); [apply Hs1|done|simpl in Ht; lia]|].
      intros ? s2 (Hs2 & Hb2). split; [by eapply same_run_trans|done].
    + simpl in Hb. eapply wp_then; [eapply next_byte; [done|exact Hb|done]|].
      intros ? s1 (-> & Hs1 & Hb1 & _).
      rewrite decide_False by (vm_compute; intuition congruence).
      rewrite (decide_False (P := u8 "\" = ch "034" /\ _)) by (vm_compute; intuition congruence).
      rewrite (decide_False (P := _ /\ u8 "\" = ch "$")) by (vm_compute; intuition congruence).
      apply wp_bind, wp_ret. cbv beta iota. apply wp_bind, wp_ret. cbv beta iota zeta.
      rewrite (decide_True (P := u8 "\" = ch "\")) by done.
      destruct (body_head v r) as (e & r' & Her & Hpe). rewrite Her in Hb1.
      eapply wp_then; [eapply scanEscape_hex; [apply Hs1|exact Hpe|exact Hb1]|].
      intros ? s2 (Hs2 & Hb2). rewrite <- Her in Hb2. rewrite !(decide_False (P := 0 > 0 /\ _)) by lia.
      eapply wp_returning; [apply (IH turns s2 r); [apply Hs2|done|simpl in Ht; lia]|].
      intros ? s3 (Hs3 & Hb3). split; [|done]. apply (same_run_trans _ _ _ Hs1 (same_run_trans _ _ _ Hs2 Hs3)).
Qed.

Lemma word_string `{Unicode} v : word STRING "034"%byte (body v ++ ["034"%byte]).
Proof.
  intros s d rest Hi _ _ _ Hbuf. change (scanToken (u8 "034")) with (_ ← scanString; mret STRING).
  rewrite <- (assoc_L (++)) in Hbuf.
  eapply wp_then; [|intros ? s' H'; apply wp_ret; exact H'].
  unfold scanString. apply wp_bind, wp_get.
  eapply wp_returning; [apply (scanString_body v _ s (" "%byte :: rest)); [done|done|]|].
  - rewrite Hbuf, length_app. pose proof (length_body v). lia.
  - intros ? s' ((_ & _ & ?) & ?). by split_and!.
Qed.
