(* ===== verification/HclParser.v ===== *)
(** * hcl/parser: the HCL parser

    parser.go and error.go, one definition per method.  Tracing, which only
    prints and is switched off, is left out.  The methods that call each other
    share a bound on their calls; [Parse] gives them one that is proved to be
    enough for every text. *)

From Stdlib Require Import ZArith Lia NArith Ascii Strings.Byte.
From stdpp Require Import base numbers gmap strings list fin_maps.
From coqutil Require Import Datatypes.RecordSetters.
From S2P Require Import Prelude GoNet Utf8 HclStrconv HclToken HclAst StateM HclScanner.

Import RecordSetters.TriangleBracketNotations.
Import token ast.
Open Scope Z_scope.

Module parser.

(** [n] tells whether the last token has been put back. *)
Record Parser := mkParser {
  sc : scanner.Scanner;
  tok : Token;
  comments : list CommentGroup;
  leadComment : option CommentGroup;
  lineComment : option CommentGroup;
  n : Z
}.

Definition newParser (s : list byte) : Parser :=
  {| sc := scanner.New s; tok := noToken; comments := [];
     leadComment := None; lineComment := None; n := 0 |}.

#[local] Abbreviation M := (ST Parser).

(** [PosError.Error] *)
Definition PosError (pos : Pos) (msg : string) : error :=
  ErrorString ("At " +:+ Pos_String pos +:+ ": " +:+ msg).

Definition errEofToken : error := ErrorString "EOF token found".

(** [Token.String] *)
Definition Token_String (t : Token) : string :=
  Pos_String (Pos' t) +:+ " " +:+ Type_String (Type' t) +:+ " " +:+ text (Text t).

(** ** Tokens and comments *)

Section parser.
Context `{Unicode}.

(** [p.sc.Scan()] *)
Definition scScan : M Token := st.zoom sc (fun s p => p <| sc := s |>) scanner.Scan.

(** Bytes the scanner has left. *)
Definition bytesLeft (p : Parser) : nat := length (scanner.buf (sc p)).

Definition newlines (s : list byte) : Z :=
  Z.of_nat (length (filter (fun b => b = "010"%byte) s)).

Definition consumeComment : M (Comment * Z) :=
  p ← st.get;
  let t := tok p in
  let endline :=
    match Text t with
    | _ :: c :: _ =>
        if decide (c = "*"%byte) then Line (Pos' t) + newlines (Text t) else Line (Pos' t)
    | _ => Line (Pos' t)
    end in
  t' ← scScan;
  _ ← st.upd (fun p => p <| tok := t' |>);
  mret ({| Start := Pos' t; Comment_Text := Text t |}, endline).

(** The loop of [consumeCommentGroup]. *)
Fixpoint commentLoop (turns : nat) (k : Z) (list : list Comment) (endline : Z) : M (CommentGroup * Z) :=
  match turns with
  | O => st.stuck
  | S turns =>
      p ← st.get;
      if decide (Type' (tok p) = COMMENT /\ Line (Pos' (tok p)) <= endline + k) then
        '(comment, endline) ← consumeComment;
        commentLoop turns k (list ++ [comment]) endline
      else
        let group := {| CommentList := list |} in
        _ ← st.upd (fun p => p <| comments := comments p ++ [group] |>);
        mret (group, endline)
  end.

Definition consumeCommentGroup (k : Z) : M (CommentGroup * Z) :=
  p ← st.get;
  commentLoop (bytesLeft p + 2) k [] (Line (Pos' (tok p))).

(** The loop over the comment groups that follow. *)
Fixpoint commentGroups (turns : nat) (comment : option CommentGroup) (endline : Z) :
  M (option CommentGroup * Z) :=
  match turns with
  | O => st.stuck
  | S turns =>
      p ← st.get;
      if decide (Type' (tok p) = COMMENT) then
        '(comment, endline) ← consumeCommentGroup 1;
        commentGroups turns (Some comment) endline
      else mret (comment, endline)
  end.

(** The comments between the token [prev] and the next one. *)
Definition scanComments (prev : Token) : M unit :=
  p ← st.get;
  comment ← (if decide (Line (Pos' (tok p)) = Line (Pos' prev)) then
               '(comment, endline) ← consumeCommentGroup 0;
               p ← st.get;
               _ ← (if decide (Line (Pos' (tok p)) <> endline)
                    then st.upd (fun p => p <| lineComment := Some comment |>) else mret tt);
               mret (Some comment)
             else mret None);
  p ← st.get;
  '(comment, endline) ← commentGroups (bytesLeft p + 2) comment (-1);
  p ← st.get;
  if decide (endline + 1 = Line (Pos' (tok p)) /\ Type' (tok p) <> RBRACE) then
    match Type' (tok p) with
    | RBRACE | RBRACK => mret tt
    | _ => st.upd (fun p => p <| leadComment := comment |>)
    end
  else mret tt.

Definition scan : M Token :=
  p ← st.get;
  if decide (n p <> 0) then
    _ ← st.upd (fun p => p <| n := 0 |>);
    mret (tok p)
  else
    let prev := tok p in
    t ← scScan;
    _ ← st.upd (fun p => p <| tok := t |>);
    _ ← (if decide (Type' t = COMMENT) then scanComments prev else mret tt);
    p ← st.get;
    mret (tok p).

Definition unscan : M unit := st.upd (fun p => p <| n := 1 |>).

(** ** Keys *)

(** Both results of [objectKey]: the keys and the error. *)
Fixpoint objectKeyLoop (turns : nat) (keys : list ObjectKey) : M (list ObjectKey * option error) :=
  match turns with
  | O => st.stuck
  | S turns =>
      t ← scan;
      p ← st.get;
      let pos := Pos' (tok p) in
      match Type' t with
      | EOF => mret (keys, Some errEofToken)
      | ASSIGN =>
          if decide (1 < length keys)%nat then
            mret ([], Some (PosError pos ("nested object expected: LBRACE got: " +:+ Type_String (Type' (tok p)))))
          else if decide (length keys = 0)%nat then
            mret ([], Some (PosError pos "no object keys found!"))
          else mret (keys, None)
      | LBRACE =>
          mret (keys, if decide (length keys = 0)%nat
                      then Some (PosError pos ("expected: IDENT | STRING got: " +:+ Type_String (Type' (tok p))))
                      else None)
      | IDENT | STRING => objectKeyLoop turns (keys ++ [tok p])
      | ILLEGAL => mret (keys, Some (PosError pos "illegal character"))
      | _ =>
          mret (keys, Some (PosError pos ("expected: IDENT | STRING | ASSIGN | LBRACE got: " +:+
                                          Type_String (Type' (tok p)))))
      end
  end.

Definition objectKey : M (list ObjectKey * option error) :=
  p ← st.get; objectKeyLoop (bytesLeft p + 2) [].

Definition literalType : M Node := p ← st.get; mret (LiteralType (tok p) None None).

(** ** Items, objects and lists *)

(** The keys of an item, or the error [objectItem] returns for them. *)
Definition itemKeys : M (list ObjectKey) :=
  '(keys, err) ← objectKey;
  let err := if decide (keys <> [] /\ err = Some errEofToken) then None else err in
  p ← st.get;
  err ← (if decide (keys <> [] /\ err <> None /\ Type' (tok p) = RBRACE) then
           _ ← st.upd (fun p => p <| tok := {| Type' := EOF; Pos' := Pos' (tok p);
                                               Text := Text (tok p); JSON := JSON (tok p) |} |>);
           mret None
         else mret err);
  match err with
  | Some e => st.fail e
  | None => mret keys
  end.

(** The end of [objectItem]: the comments around the item. *)
Definition finishItem (keys : list ObjectKey) (assign : Pos) (lead : option CommentGroup) (val : Node) :
  M ObjectItem :=
  p ← st.get;
  let line := lineComment p in
  _ ← st.upd (fun p => p <| lineComment := None |>);
  _ ← scan;
  vpos ← st.lift (Node_Pos val);
  p ← st.get;
  line ← (match lineComment p, keys with
          | Some c, k :: _ =>
              if decide (Line vpos = Line (Pos' k)) then
                _ ← st.upd (fun p => p <| lineComment := None |>); mret (Some c)
              else mret line
          | _, _ => mret line
          end);
  _ ← unscan;
  mret (Item keys assign val lead line).

(** A literal as an element of a list. *)
Definition listLiteral : M Node :=
  node ← literalType;
  p ← st.get;
  match leadComment p, node with
  | Some c, LiteralType t _ line =>
      _ ← st.upd (fun p => p <| leadComment := None |>);
      mret (LiteralType t (Some c) line)
  | _, _ => mret node
  end.

(** After a comma in a list: a line comment goes to the literal before it. *)
Definition listComma (l : list Node) : M (list Node) :=
  _ ← scan;
  p ← st.get;
  l ← (match lineComment p, last l with
       | Some c, Some (LiteralType t lead _) =>
           _ ← st.upd (fun p => p <| lineComment := None |>);
           mret (take (length l - 1) l ++ [LiteralType t lead (Some c)])
       | _, _ => mret l
       end);
  _ ← unscan;
  mret l.

(** The closing brace of an object with the items [l]. *)
Definition closeObject (lbrace : Pos) (l : list ObjectItem) : M Node :=
  t ← scan;
  if decide (Type' t <> RBRACE) then
    st.fail (PosError (Pos' t) ("object expected closing RBRACE got: " +:+ Type_String (Type' t)))
  else
    p ← st.get;
    mret (ObjectType lbrace (Pos' (tok p)) l).

(** The methods, over the methods they call. *)
Definition objectListBody (objectItem : M ObjectItem)
    (objectList : list ObjectItem -> M (list ObjectItem * option error)) (obj : bool) (items : list ObjectItem) :
  M (list ObjectItem * option error) :=
  closed ← (if obj then t ← scan; _ ← unscan; mret (bool_decide (Type' t = RBRACE)) else mret false);
  if closed : bool then mret (items, None)
  else
    r ← st.try objectItem;
    match r with
    | inr e => if decide (e = errEofToken) then mret (items, None) else mret (items, Some e)
    | inl i =>
        t ← scan;
        _ ← (if decide (Type' t <> COMMA) then unscan else mret tt);
        objectList (items ++ [i])
    end.

Definition objectItemBody (object objectType : M Node) : M ObjectItem :=
  keys ← itemKeys;
  p ← st.get;
  let lead := leadComment p in
  _ ← st.upd (fun p => p <| leadComment := None |>);
  match Type' (tok p) with
  | ASSIGN => val ← object; finishItem keys (Pos' (tok p)) lead val
  | LBRACE => val ← objectType; finishItem keys noPos lead val
  | _ =>
      st.fail (PosError (Pos' (tok p))
        ("key '" +:+ strings.Join " " (text ∘ Text <$> keys) +:+
         "' expected start of object ('{') or assignment ('=')"))
  end.

Definition objectBody (objectType : M Node) (listType : Pos -> bool -> list Node -> M Node) : M Node :=
  t ← scan;
  match Type' t with
  | NUMBER | FLOAT | BOOL | STRING | HEREDOC => literalType
  | LBRACE => objectType
  | LBRACK => p ← st.get; listType (Pos' (tok p)) false []
  | EOF => st.fail errEofToken
  | _ => st.fail (PosError (Pos' t) ("Unknown token: " +:+ Token_String t))
  end.

Definition objectTypeBody (objectList : bool -> list ObjectItem -> M (list ObjectItem * option error)) : M Node :=
  p ← st.get;
  let lbrace := Pos' (tok p) in
  '(l, err) ← objectList true [];
  p ← st.get;
  match err with
  | Some e =>
      if decide (Type' (tok p) <> RBRACE) then st.fail e else closeObject lbrace l
  | None => closeObject lbrace l
  end.

(** A turn of the loop of [listType]. *)
Definition listTypeBody (objectType : M Node) (listType : Pos -> bool -> list Node -> M Node)
    (lbrack : Pos) (needComma : bool) (l : list Node) : M Node :=
  t ← scan;
  if (needComma : bool) && bool_decide (Type' t <> COMMA /\ Type' t <> RBRACK) then
    st.fail (PosError (Pos' t) ("error parsing list, expected comma or list end, got: " +:+
                                Type_String (Type' t)))
  else
    match Type' t with
    | BOOL | NUMBER | FLOAT | STRING | HEREDOC =>
        node ← listLiteral; listType lbrack true (l ++ [node])
    | COMMA => l ← listComma l; listType lbrack false l
    | LBRACE =>
        r ← st.try objectType;
        match r with
        | inr e =>
            st.fail (PosError (Pos' t) ("error while trying to parse object within list: " +:+ error_text e))
        | inl node => listType lbrack true (l ++ [node])
        end
    | LBRACK =>
        p ← st.get;
        r ← st.try (listType (Pos' (tok p)) false []);
        match r with
        | inr e =>
            st.fail (PosError (Pos' t) ("error while trying to parse list within list: " +:+ error_text e))
        | inl node => listType lbrack needComma (l ++ [node])
        end
    | RBRACK => p ← st.get; mret (ListType lbrack (Pos' (tok p)) l)
    | _ => st.fail (PosError (Pos' t) ("unexpected token while parsing list: " +:+ Type_String (Type' t)))
    end.

(** The methods call each other. *)
Fixpoint objectList (turns : nat) (obj : bool) (items : list ObjectItem) :
  M (list ObjectItem * option error) :=
  match turns with
  | O => st.stuck
  | S turns => objectListBody (objectItem turns) (objectList turns obj) obj items
  end
with objectItem (turns : nat) : M ObjectItem :=
  match turns with
  | O => st.stuck
  | S turns => objectItemBody (object turns) (objectType turns)
  end
with object (turns : nat) : M Node :=
  match turns with
  | O => st.stuck
  | S turns => objectBody (objectType turns) (listType turns)
  end
with objectType (turns : nat) : M Node :=
  match turns with
  | O => st.stuck
  | S turns => objectTypeBody (objectList turns)
  end
with listType (turns : nat) (lbrack : Pos) (needComma : bool) (l : list Node) : M Node :=
  match turns with
  | O => st.stuck
  | S turns => listTypeBody (objectType turns) (listType turns) lbrack needComma l
  end.

(** ** Parse *)

(** Enough calls for a text of [k] bytes. *)
Definition turnsFor (k : nat) : nat := 4 * k + 2.

(** [p.Parse()]: an error of the scanner goes first, and it is the last one that
    was reported. *)
Definition parse_ (p : Parser) : option (outcome File) :=
  match objectList (turnsFor (bytesLeft p)) false [] p with
  | None => None
  | Some (Ret (items, err), p) =>
      Some match last (scanner.Errors (sc p)), err with
           | Some (pos, msg), _ => Err (PosError pos msg)
           | None, Some e => Err e
           | None, None => Ret {| File_Node := ObjectList items; Comments := comments p |}
           end
  | Some (Err e, _) => Some (Err e)
  | Some (Panic v, _) => Some (Panic v)
  end.

Definition Parse (src : list byte) : option (outcome File) :=
  parse_ (newParser (bstrings.Replace2 src "013"%byte "010"%byte ["010"%byte])).

End parser.
End parser.
