(* ===== verification/HclParserSpec.v ===== *)
(** * The HCL parser ends and never panics

    The measure is the number of bytes the scanner has left, plus one for a token
    that has been put back; every token that is read takes at least one off it, so
    that the bound [Parse] puts on the calls of the parser's methods is enough. *)

From Stdlib Require Import ZArith Lia NArith Ascii Strings.Byte.
From stdpp Require Import base numbers gmap strings list fin_maps.
From coqutil Require Import Datatypes.RecordSetters.
From S2P Require Import Prelude GoNet Utf8 HclStrconv HclToken HclAst StateM HclScanner HclScannerSpec HclParser.

Import token ast parser.
Open Scope Z_scope.

(** The scanner of the parser is in a state it can be in. *)
Definition pinv (p : Parser) : Prop := inv (sc p).

(** The tokens there can still be. *)
Definition fuel (p : Parser) : nat :=
  bytesLeft p + (if decide (n p <> 0 /\ Type' (tok p) <> EOF) then 1 else 0).

(** No more than [k] tokens can come. *)
Definition within (k : nat) (p : Parser) : Prop := pinv p /\ (fuel p <= k)%nat.

Lemma fuel_n0 p : n p = 0 -> fuel p = bytesLeft p.
Proof. intros H. unfold fuel. rewrite decide_False by tauto. lia. Qed.

Lemma within_le k k' p : within k p -> (k <= k')%nat -> within k' p.
Proof. intros [? ?] ?. split; [done|lia]. Qed.

Section unicode.
Context `{Unicode}.

(** ** Tokens *)

Lemma scScan_spec p : pinv p ->
  wp scScan (returning (fun t p' => pinv p' /\ n p' = n p /\ tok p' = tok p /\
    (bytesLeft p' <= bytesLeft p)%nat /\ (Type' t <> EOF -> (bytesLeft p' < bytesLeft p)%nat))) p.
Proof.
  intros Hi. unfold scScan. apply wp_zoom. eapply wp_conseq; [by apply Scan_scanned|].
  intros [t| |] s'; simpl; [|done..]. intros [Hi' _ _ (ws & _ & Hb & _) Hp _ _].
  destruct p as [s t0 c ld ln k]. unfold bytesLeft, pinv in *. fields. rewrite Hb, !length_app.
  split_and!; try done; [lia|]. intros Ht. specialize (Hp Ht). destruct (Text t); [done|]. simpl. lia.
Qed.

(** A step of the comment loops: the next token is read into [tok]. *)
Lemma consumeComment_spec p : pinv p -> n p = 0 ->
  wp consumeComment (returning (fun _ p' => pinv p' /\ n p' = 0 /\ (bytesLeft p' <= bytesLeft p)%nat /\
    (Type' (tok p') <> EOF -> (bytesLeft p' < bytesLeft p)%nat))) p.
Proof.
  intros Hi Hn. unfold consumeComment. apply wp_bind, wp_get. cbv beta iota.
  eapply wp_then; [by apply scScan_spec|]. intros t p' (Hi' & Hn' & _ & Hl & Hs).
  apply wp_bind, wp_upd. apply wp_ret. destruct p'. simpl in *. fields. split_and!; try done. lia.
Qed.

Lemma commentLoop_spec turns : forall k l e p,
  pinv p -> n p = 0 -> (bytesLeft p + 2 <= turns)%nat \/ (Type' (tok p) <> COMMENT /\ (1 <= turns)%nat) ->
  wp (commentLoop turns k l e) (returning (fun _ p' => pinv p' /\ n p' = 0 /\ (bytesLeft p' <= bytesLeft p)%nat /\
    (Type' (tok p') = EOF \/ tok p' = tok p \/ (bytesLeft p' < bytesLeft p)%nat) /\
    (Type' (tok p) = COMMENT -> Line (Pos' (tok p)) <= e + k ->
     Type' (tok p') = EOF \/ (bytesLeft p' < bytesLeft p)%nat))) p.
Proof.
  induction turns as [|turns IH]; intros k l e p Hi Hn Ht; [lia|].
  cbn [commentLoop]. apply wp_bind, wp_get. case_decide as Hc.
  - destruct Ht as [Ht|[? _]]; [|tauto].
    eapply wp_then; [by apply consumeComment_spec|]. intros [cm e'] p' (Hi' & Hn' & Hl & Hs).
    eapply wp_returning; [apply IH; [done|done|]|].
    + destruct (decide (Type' (tok p') = EOF)) as [E|E]; [right; rewrite E; split; [done|lia]|].
      left. specialize (Hs E). lia.
    + intros ? p2 (Hi2 & Hn2 & Hl2 & Ho & _). split_and!; try done; try lia.
      all: assert (Hend : Type' (tok p2) = EOF \/ (bytesLeft p2 < bytesLeft p)%nat)
        by (destruct (decide (Type' (tok p') = EOF)) as [E|E];
            [destruct Ho as [?|[-> |?]]; [by left|by left|right; lia]|specialize (Hs E); right; lia]); tauto.
  - apply wp_bind, wp_upd, wp_ret. destruct p. fields. split_and!; try done; [auto|tauto].
Qed.

(** The parser has read a token, or is at the end of the text. *)
Definition moved (p p' : Parser) : Prop :=
  pinv p' /\ n p' = 0 /\ (bytesLeft p' <= bytesLeft p)%nat /\
  (Type' (tok p') = EOF \/ (bytesLeft p' < bytesLeft p)%nat).

Lemma consumeCommentGroup_spec k p : pinv p -> n p = 0 -> Type' (tok p) = COMMENT -> 0 <= k ->
  wp (consumeCommentGroup k) (returning (fun _ p' => moved p p')) p.
Proof.
  intros Hi Hn Ht Hk. unfold consumeCommentGroup. apply wp_bind, wp_get.
  eapply wp_returning; [apply commentLoop_spec; [done|done|by left]|].
  intros ? p' (? & ? & ? & _ & Hm). split_and!; try done. apply Hm; [done|lia].
Qed.

Lemma commentGroups_spec turns : forall c e p,
  pinv p -> n p = 0 -> (bytesLeft p + 2 <= turns)%nat \/ (Type' (tok p) <> COMMENT /\ (1 <= turns)%nat) ->
  wp (commentGroups turns c e) (returning (fun _ p' => pinv p' /\ n p' = 0 /\ (bytesLeft p' <= bytesLeft p)%nat)) p.
Proof.
  induction turns as [|turns IH]; intros c e p Hi Hn Ht; [lia|].
  cbn [commentGroups]. apply wp_bind, wp_get. case_decide as Hc; [|by apply wp_ret].
  destruct Ht as [Ht|[? _]]; [|tauto].
  eapply wp_then; [by apply consumeCommentGroup_spec|]. intros [cm e'] p' (Hi' & Hn' & Hl & Hs).
  eapply wp_returning; [apply IH; [done|done|]|].
  - destruct Hs as [E|?]; [right; rewrite E; split; [done|lia]|left; lia].
  - intros ? p2 (? & ? & ?). split_and!; try done. lia.
Qed.

(** Reading comments after a token of at least one byte. *)
Lemma scanComments_spec prev p : pinv p -> n p = 0 -> Type' (tok p) = COMMENT ->
  wp (scanComments prev) (returning (fun _ p' => pinv p' /\ n p' = 0 /\ (bytesLeft p' <= bytesLeft p)%nat)) p.
Proof.
  intros Hi Hn Ht. unfold scanComments. apply wp_bind, wp_get.
  eapply wp_then with (P := fun _ p' => pinv p' /\ n p' = 0 /\ (bytesLeft p' <= bytesLeft p)%nat).
  { case_decide; [|by apply wp_ret]. eapply wp_then; [by apply consumeCommentGroup_spec|].
    intros [cm e] p1 (Hi1 & Hn1 & Hl1 & _). apply wp_bind, wp_get.
    apply wp_bind. case_decide; [apply wp_upd|apply wp_ret]; apply wp_ret; by destruct p1. }
  intros c p1 (Hi1 & Hn1 & Hl1). apply wp_bind, wp_get.
  eapply wp_then; [apply commentGroups_spec; [done|done|by left]|].
  intros [c' e] p2 (Hi2 & Hn2 & Hl2). apply wp_bind, wp_get.
  assert (Hl : (bytesLeft p2 <= bytesLeft p)%nat) by lia.
  case_decide; [|by apply wp_ret]. destruct (Type' (tok p2)); by destruct p2.
Qed.

Lemma scan_spec p : pinv p ->
  wp scan (returning (fun t p' => pinv p' /\ n p' = 0 /\ t = tok p' /\ (fuel p' <= fuel p)%nat /\
                        (Type' t <> EOF -> (fuel p' < fuel p)%nat))) p.
Proof.
  intros Hi. unfold scan. apply wp_bind, wp_get. case_decide as Hn.
  { apply wp_bind, wp_upd, wp_ret. set (p' := apply_update _ p).
    assert (H' : pinv p' /\ n p' = 0 /\ tok p' = tok p /\ bytesLeft p' = bytesLeft p) by (by destruct p).
    clearbody p'. destruct H' as (Hi' & Hn' & Ht' & Hl'). cbn [returning]. rewrite (fuel_n0 p' Hn'), Hl'. unfold fuel.
    split_and!; try done; [lia|]. intros Ht. rewrite decide_True by done. lia. }
  assert (Hn0 : n p = 0) by lia. rewrite (fuel_n0 p Hn0). cbv zeta.
  eapply wp_then; [by apply scScan_spec|]. intros t p1 (Hi1 & Hn1 & Ht1 & Hl1 & Hs1).
  apply wp_bind, wp_upd.
  set (p2 := apply_update _ p1).
  assert (H2 : pinv p2 /\ n p2 = 0 /\ tok p2 = t /\ bytesLeft p2 = bytesLeft p1).
  { subst p2. destruct p1. fields. split_and!; try done. lia. }
  clearbody p2. destruct H2 as (Hi2 & Hn2 & Ht2 & Hl2).
  eapply wp_then with (P := fun _ p' => pinv p' /\ n p' = 0 /\ (bytesLeft p' <= bytesLeft p2)%nat /\
                                        (Type' t <> COMMENT -> t = tok p')).
  { case_decide as Hc; [|by apply wp_ret]. eapply wp_returning; [apply scanComments_spec; [done|done|congruence]|].
    intros ? p3 (? & ? & ?). by split_and!. }
  intros ? p3 (Hi3 & Hn3 & Hl3 & Ht3). apply wp_bind, wp_get, wp_ret.
  cbn [returning]. rewrite (fuel_n0 p3 Hn3). split_and!; try done; [lia|]. intros He.
  destruct (decide (Type' t = EOF)) as [E|E].
  - exfalso. apply He. rewrite <- Ht3; [done|]. by rewrite E.
  - specialize (Hs1 E). lia.
Qed.

Lemma unscan_spec p : pinv p ->
  wp unscan (returning (fun _ p' => pinv p' /\ tok p' = tok p /\ (fuel p' <= S (bytesLeft p))%nat /\
    (Type' (tok p) = EOF -> fuel p' = bytesLeft p))) p.
Proof.
  intros Hi. unfold unscan. apply wp_upd. set (p' := apply_update _ p).
  assert (H' : pinv p' /\ tok p' = tok p /\ bytesLeft p' = bytesLeft p) by (by destruct p).
  clearbody p'. destruct H' as (Hi' & Ht' & Hl'). cbn [returning]. unfold fuel. rewrite Ht', Hl'.
  split_and!; try done; [case_decide; lia|]. intros E. rewrite E, decide_False by tauto. lia.
Qed.

(** Reading a token and putting it back. *)
Lemma scan_unscan k p t : pinv p -> n p = 0 -> t = tok p -> (fuel p <= k)%nat ->
  (Type' t <> EOF -> (fuel p < k)%nat) -> wp unscan (returning (fun _ p' => within k p')) p.
Proof.
  intros Hi Hn -> Hk Hs. rewrite (fuel_n0 p Hn) in *.
  eapply wp_returning; [by apply unscan_spec|]. intros ? p' (? & _ & ? & He).
  split; [done|]. destruct (decide (Type' (tok p) = EOF)) as [E|E]; [rewrite He by done; lia|].
  specialize (Hs E). lia.
Qed.

(** ** Keys *)

Lemma PosError_not_eof pos msg : PosError pos msg <> errEofToken.
Proof. done. Qed.

Lemma objectKeyLoop_spec turns : forall keys p,
  pinv p -> (fuel p + 1 <= turns)%nat ->
  wp (objectKeyLoop turns keys) (returning (fun '(_, err) p' =>
    pinv p' /\ n p' = 0 /\ (fuel p' <= fuel p)%nat /\
    (err = Some errEofToken -> Type' (tok p') = EOF) /\
    (err = None -> (fuel p' + 1 <= fuel p)%nat /\ (keys = [] -> (fuel p' + 2 <= fuel p)%nat)))) p.
Proof.
  induction turns as [|turns IH]; intros keys p Hi Ht; [lia|].
  cbn [objectKeyLoop]. eapply wp_then; [by apply scan_spec|].
  intros t p1 (Hi1 & Hn1 & -> & Hl1 & Hs1). apply wp_bind, wp_get. cbv beta zeta.
  assert (Hloop : Type' (tok p1) <> EOF -> forall k, k <> [] -> wp (objectKeyLoop turns k) (returning (fun '(_, err) p' =>
    pinv p' /\ n p' = 0 /\ (fuel p' <= fuel p)%nat /\
    (err = Some errEofToken -> Type' (tok p') = EOF) /\
    (err = None -> (fuel p' + 1 <= fuel p)%nat /\ (keys = [] -> (fuel p' + 2 <= fuel p)%nat)))) p1).
  { intros He k Hk. specialize (Hs1 He). eapply wp_returning; [apply IH; [done|lia]|].
    intros [ks [e|]] p2 (? & ? & ? & ? & Hnone); split_and!; try done; try lia.
    intros _. destruct (Hnone eq_refl). split; [lia|]. lia. }
  assert (Hne : forall x : ObjectKey, keys ++ [x] <> []) by (intros x; by destruct keys).
  destruct (Type' (tok p1)) eqn:Et; try (apply Hloop; [done|apply Hne]);
    try (apply wp_ret; split_and!; try done; fail).
  - (* LBRACE *) apply wp_ret. specialize (Hs1 ltac:(done)). case_decide as Hk; split_and!; try done.
    intros _. split; [lia|]. intros ->. done.
  - (* ASSIGN *) specialize (Hs1 ltac:(done)).
    case_decide; [apply wp_ret; by split_and!|]. case_decide as Hk; apply wp_ret; split_and!; try done.
    intros _. split; [lia|]. intros ->. done.
Qed.

Lemma objectKey_spec p : pinv p ->
  wp objectKey (returning (fun '(_, err) p' =>
    pinv p' /\ n p' = 0 /\ (fuel p' <= fuel p)%nat /\
    (err = Some errEofToken -> Type' (tok p') = EOF) /\
    (err = None -> (fuel p' + 2 <= fuel p)%nat))) p.
Proof.
  intros Hi. unfold objectKey. apply wp_bind, wp_get.
  eapply wp_returning; [apply objectKeyLoop_spec; [done|]|].
  - unfold fuel. case_decide; lia.
  - intros [ks e] p' (? & ? & ? & ? & Hn). split_and!; try done. intros E. by apply Hn.
Qed.

(** The keys of an item that has a value: two tokens at least. *)
Lemma itemKeys_spec p : pinv p ->
  wp itemKeys (orelse (fun _ p' => pinv p' /\ n p' = 0 /\ (fuel p' <= fuel p)%nat /\
      (Type' (tok p') = ASSIGN \/ Type' (tok p') = LBRACE -> (fuel p' + 2 <= fuel p)%nat))
    (fun _ p' => within (fuel p) p')) p.
Proof.
  intros Hi. unfold itemKeys. eapply wp_then; [by apply objectKey_spec|].
  intros [keys err] p1 (Hi1 & Hn1 & Hl1 & He1 & Hnone). apply wp_bind, wp_get. cbv beta zeta.
  destruct err as [e|].
  - destruct (decide (keys <> [] /\ Some e = Some errEofToken)) as [Hk|Hk].
    + (* the end of the file after keys *) rewrite decide_False by (intros (_ & ? & _); done).
      apply wp_bind, wp_ret, wp_ret. split_and!; try done. destruct Hk as [_ He].
      rewrite (He1 He). intros [|]; done.
    + case_decide as Hr.
      * apply wp_bind, wp_bind, wp_upd. apply wp_ret, wp_ret.
        set (p2 := apply_update _ p1). assert (H2 : pinv p2 /\ n p2 = 0 /\ Type' (tok p2) = EOF /\ bytesLeft p2 = bytesLeft p1)
          by (subst p2; destruct p1; fields; by split_and!).
        clearbody p2. destruct H2 as (Hi2 & Hn2 & Ht2 & Hl2). cbn [orelse].
        rewrite (fuel_n0 p1 Hn1) in Hl1. rewrite (fuel_n0 p2 Hn2), Hl2, Ht2.
        split_and!; try done. intros [|]; done.
      * apply wp_bind, wp_ret. by apply wp_fail.
  - rewrite (decide_False (P := _ /\ None = _)) by (intros [_ ?]; done).
    rewrite decide_False by (intros (_ & ? & _); done).
    apply wp_bind, wp_ret, wp_ret. specialize (Hnone eq_refl). by split_and!.
Qed.

(** ** Parts of items and lists *)

(** A node that has a position. *)
Definition placed (v : Node) : Prop := exists pos, Node_Pos v = Ret pos.

Lemma finishItem_spec keys a lead val p : pinv p -> placed val ->
  wp (finishItem keys a lead val) (returning (fun _ p' => within (fuel p) p')) p.
Proof.
  intros Hi [pos Hpos]. unfold finishItem. apply wp_bind, wp_get. cbv beta zeta.
  apply wp_bind, wp_upd. set (p1 := apply_update _ p).
  assert (H1 : pinv p1 /\ fuel p1 = fuel p) by (by destruct p). clearbody p1. destruct H1 as [Hi1 <-].
  eapply wp_then; [by apply scan_spec|]. intros t p2 (Hi2 & Hn2 & Ht2 & Hl2 & Hs2).
  rewrite Hpos. apply wp_bind, wp_lift. apply wp_bind, wp_get.
  eapply wp_then with (P := fun _ p' => pinv p' /\ n p' = 0 /\ t = tok p' /\ fuel p' = fuel p2).
  { repeat case_match; first [by apply wp_ret|apply wp_bind, wp_upd, wp_ret; by destruct p2]. }
  intros line p3 (Hi3 & Hn3 & Ht3 & Hf3).
  eapply wp_then; [apply (scan_unscan (fuel p1) p3 t); [done..|lia|intros E; specialize (Hs2 E); lia]|].
  intros ? p4 H4. by apply wp_ret.
Qed.

Lemma listLiteral_spec p : pinv p ->
  wp listLiteral (returning (fun v p' => placed v /\ within (fuel p) p')) p.
Proof.
  intros Hi. unfold listLiteral, literalType. apply wp_bind, wp_bind, wp_get, wp_ret.
  apply wp_bind, wp_get. destruct (leadComment p); [apply wp_bind, wp_upd|]; apply wp_ret;
    (split; [by eexists|]); split; by destruct p.
Qed.

Lemma listComma_spec l p : pinv p -> wp (listComma l) (returning (fun _ p' => within (fuel p) p')) p.
Proof.
  intros Hi. unfold listComma. eapply wp_then; [by apply scan_spec|].
  intros t p2 (Hi2 & Hn2 & Ht2 & Hl2 & Hs2). apply wp_bind, wp_get.
  eapply wp_then with (P := fun _ p' => pinv p' /\ n p' = 0 /\ t = tok p' /\ fuel p' = fuel p2).
  { repeat case_match; first [by apply wp_ret|apply wp_bind, wp_upd, wp_ret; by destruct p2]. }
  intros line p3 (Hi3 & Hn3 & Ht3 & Hf3).
  eapply wp_then; [apply (scan_unscan (fuel p) p3 t); [done..|lia|intros E; specialize (Hs2 E); lia]|].
  intros ? p4 H4. by apply wp_ret.
Qed.

Lemma closeObject_spec lb l p : pinv p ->
  wp (closeObject lb l) (orelse (fun v p' => placed v /\ within (fuel p) p') (fun _ p' => within (fuel p) p')) p.
Proof.
  intros Hi. unfold closeObject. eapply wp_then; [by apply scan_spec|].
  intros t p2 (Hi2 & Hn2 & Ht2 & Hl2 & Hs2). case_decide; [by apply wp_fail|].
  apply wp_bind, wp_get, wp_ret. split; [by eexists|done].
Qed.

(** ** The methods that call each other *)

(** A node with a position, or an error; no more tokens than before. *)
Definition node_or_error (k : nat) : outcome Node -> Parser -> Prop :=
  orelse (fun v p => placed v /\ within k p) (fun _ p => within k p).

(** What holds of the methods with [turns] calls left. *)
Record methods (turns : nat) : Prop := Methods {
  m_objectList obj items p : pinv p -> (4 * fuel p + 2 <= turns)%nat ->
    wp (objectList turns obj items) (returning (fun _ p' => within (fuel p) p')) p;
  m_objectItem p : pinv p -> (4 * fuel p + 1 <= turns)%nat ->
    wp (objectItem turns) (orelse (fun _ p' => pinv p' /\ (fuel p' + 1 <= fuel p)%nat)
                                  (fun _ p' => within (fuel p) p')) p;
  m_object p : pinv p -> (4 * fuel p + 1 <= turns)%nat ->
    wp (object turns) (node_or_error (fuel p)) p;
  m_objectType p : pinv p -> (4 * fuel p + 3 <= turns)%nat ->
    wp (objectType turns) (node_or_error (fuel p)) p;
  m_listType lb nc l p : pinv p -> (4 * fuel p + 1 <= turns)%nat ->
    wp (listType turns lb nc l) (node_or_error (fuel p)) p
}.

Lemma node_or_error_le k k' r p : node_or_error k r p -> (k <= k')%nat -> node_or_error k' r p.
Proof.
  destruct r; simpl; [intros [? ?] ?; split; [done|]|intros ? ?|done]; by eapply within_le.
Qed.

Lemma objectList_step turns obj items p : methods turns -> pinv p -> (4 * fuel p + 2 <= S turns)%nat ->
  wp (objectList (S turns) obj items) (returning (fun _ p' => within (fuel p) p')) p.
Proof.
  intros IH Hi Ht. cbn [objectList]; unfold objectListBody.
  eapply wp_then with (P := fun _ p' => within (fuel p) p').
  { destruct obj; [|by apply wp_ret]. eapply wp_then; [by apply scan_spec|].
    intros t p1 (Hi1 & Hn1 & Ht1 & Hl1 & Hs1).
    eapply wp_then; [by apply (scan_unscan (fuel p) p1 t)|]. intros ? p2 H2. by apply wp_ret. }
  intros [] p1 [Hi1 Hl1]; [by apply wp_ret|]. apply wp_bind, wp_try.
  eapply wp_conseq; [apply (m_objectItem _ IH); [done|lia]|].
  intros [i|e|q] p2; cbn [orelse]; [|intros [? ?]..|done].
  - intros [Hi2 Hl2]. eapply wp_then; [by apply scan_spec|].
    intros t p3 (Hi3 & Hn3 & Ht3 & Hl3 & Hs3).
    eapply wp_then with (P := fun _ p' => within (fuel p2) p').
    { case_decide; [by apply (scan_unscan (fuel p2) p3 t)|]. by apply wp_ret. }
    intros ? p4 [Hi4 Hl4]. eapply wp_returning; [apply (m_objectList _ IH); [done|lia]|].
    intros ? p5 H5. eapply within_le; [exact H5|lia].
  - case_decide; apply wp_ret; (split; [done|lia]).
Qed.

Lemma objectItem_step turns p : methods turns -> pinv p -> (4 * fuel p + 1 <= S turns)%nat ->
  wp (objectItem (S turns)) (orelse (fun _ p' => pinv p' /\ (fuel p' + 1 <= fuel p)%nat)
                                    (fun _ p' => within (fuel p) p')) p.
Proof.
  intros IH Hi Ht. cbn [objectItem]; unfold objectItemBody. apply wp_bind.
  eapply wp_conseq; [by apply itemKeys_spec|]. intros [keys|e|q] p1; cbn [orelse]; [|done..].
  intros (Hi1 & Hn1 & Hl1 & Hv). apply wp_bind, wp_get. cbv beta zeta.
  apply wp_bind, wp_upd. set (p2 := apply_update _ p1).
  assert (H2 : pinv p2 /\ fuel p2 = fuel p1) by (by destruct p1). clearbody p2. destruct H2 as [Hi2 Hl2].
  assert (Hval : forall m a, (fuel p1 + 2 <= fuel p)%nat -> wp m (node_or_error (fuel p2)) p2 ->
    wp (val ← m; finishItem keys a (leadComment p1) val)
       (orelse (fun _ p' => pinv p' /\ (fuel p' + 1 <= fuel p)%nat) (fun _ p' => within (fuel p) p')) p2).
  { intros m a Hle Hm. apply wp_bind. eapply wp_conseq; [exact Hm|].
    intros [v|e|q] p3; cbn [node_or_error orelse]; [intros [Hpl [Hi3 Hl3]]|intros [? ?]; split; [done|lia]|done].
    eapply wp_conseq; [by apply finishItem_spec|]. intros [i|e|q] p4; cbn [returning orelse]; [|done..].
    intros [? ?]. split; [done|lia]. }
  destruct (Type' (tok p1)) eqn:Et; try (apply wp_fail; split; [done|lia]).
  - specialize (Hv (or_intror eq_refl)). apply Hval; [done|]. apply (m_objectType _ IH); [done|lia].
  - specialize (Hv (or_introl eq_refl)). apply Hval; [done|]. apply (m_object _ IH); [done|lia].
Qed.

Lemma object_step turns p : methods turns -> pinv p -> (4 * fuel p + 1 <= S turns)%nat ->
  wp (object (S turns)) (node_or_error (fuel p)) p.
Proof.
  intros IH Hi Ht. cbn [object]; unfold objectBody. eapply wp_then; [by apply scan_spec|].
  intros t p1 (Hi1 & Hn1 & Ht1 & Hl1 & Hs1).
  destruct (Type' t) eqn:Et; try (apply wp_fail; split; [done|lia]);
    try (unfold literalType; apply wp_bind, wp_get, wp_ret; split; [by eexists|split; [done|lia]]).
  - specialize (Hs1 ltac:(done)). apply wp_bind, wp_get.
    eapply wp_conseq; [apply (m_listType _ IH); [done|lia]|]. intros r p2 H2. eapply node_or_error_le; [exact H2|lia].
  - specialize (Hs1 ltac:(done)).
    eapply wp_conseq; [apply (m_objectType _ IH); [done|lia]|]. intros r p2 H2. eapply node_or_error_le; [exact H2|lia].
Qed.

Lemma objectType_step turns p : methods turns -> pinv p -> (4 * fuel p + 3 <= S turns)%nat ->
  wp (objectType (S turns)) (node_or_error (fuel p)) p.
Proof.
  intros IH Hi Ht. cbn [objectType]; unfold objectTypeBody. apply wp_bind, wp_get. cbv beta zeta.
  eapply wp_then; [apply (m_objectList _ IH); [done|lia]|]. intros [l err] p1 [Hi1 Hl1].
  apply wp_bind, wp_get.
  assert (Hclose : wp (closeObject (Pos' (tok p)) l) (node_or_error (fuel p)) p1).
  { eapply wp_conseq; [by apply closeObject_spec|]. intros r p2 H2. eapply node_or_error_le; [exact H2|lia]. }
  destruct err; [|done]. case_decide; [|done]. apply wp_fail. by split.
Qed.

Lemma listType_step turns lb nc l p : methods turns -> pinv p -> (4 * fuel p + 1 <= S turns)%nat ->
  wp (listType (S turns) lb nc l) (node_or_error (fuel p)) p.
Proof.
  intros IH Hi Ht. cbn [listType]; unfold listTypeBody. eapply wp_then; [by apply scan_spec|].
  intros t p1 (Hi1 & Hn1 & Ht1 & Hl1 & Hs1).
  destruct (nc && bool_decide _); [apply wp_fail; split; [done|lia]|].
  assert (Hgo : forall nc l p2, within (fuel p1) p2 -> Type' t <> EOF ->
    wp (listType turns lb nc l) (node_or_error (fuel p)) p2).
  { intros nc' l' p2 [Hi2 Hl2] He. specialize (Hs1 He).
    eapply wp_conseq; [apply (m_listType _ IH); [done|lia]|]. intros r p3 H3. eapply node_or_error_le; [exact H3|lia]. }
  assert (Hsub : forall m k msg, Type' t <> EOF -> wp m (node_or_error (fuel p1)) p1 ->
    wp (r ← st.try m; match r with
                      | inr e => st.fail (PosError (Pos' t) (msg e))
                      | inl node => listType turns lb k (l ++ [node])
                      end) (node_or_error (fuel p)) p1).
  { intros m k msg He Hm. apply wp_bind, wp_try. eapply wp_conseq; [exact Hm|].
    intros [v|e|q] p2; cbn [node_or_error orelse]; [intros [_ Hw]; by apply Hgo| |done].
    intros [? ?]. apply wp_fail. split; [done|lia]. }
  destruct (Type' t) eqn:Et; try (apply wp_fail; split; [done|lia]);
    try (eapply wp_then; [by apply listLiteral_spec|]; intros v p2 [_ Hw]; by apply Hgo).
  - specialize (Hs1 ltac:(done)). apply wp_bind, wp_get. apply Hsub; [done|]. apply (m_listType _ IH); [done|lia].
  - specialize (Hs1 ltac:(done)). apply Hsub; [done|]. apply (m_objectType _ IH); [done|lia].
  - eapply wp_then; [by apply listComma_spec|]. intros v p2 Hw. by apply Hgo.
  - apply wp_bind, wp_get, wp_ret. split; [by eexists|split; [done|lia]].
Qed.

Lemma methods_all turns : methods turns.
Proof.
  induction turns as [|turns IH]; [constructor; lia|]. constructor; intros.
  - by apply objectList_step.
  - by apply objectItem_step.
  - by apply object_step.
  - by apply objectType_step.
  - by apply listType_step.
Qed.

Lemma Parse_decided src : exists r, Parse src = Some r /\
  match r with
  | Ret f => exists items, File_Node f = ObjectList items
  | Err _ => True
  | Panic _ => False
  end.
Proof.
  unfold Parse, parse_. set (p := newParser _).
  pose proof (m_objectList _ (methods_all (turnsFor (bytesLeft p))) false [] p (inv_New _)) as Hw.
  unfold wp in Hw. rewrite fuel_n0 in Hw by done. specialize (Hw ltac:(unfold turnsFor; lia)).
  destruct (objectList _ _ _ p) as [[[[items err]|e|q] p']|]; simpl in Hw; try done.
  eexists. split; [reflexivity|]. destruct (last (scanner.Errors (sc p'))) as [[pos msg]|], err; try done. by exists items.
Qed.
End unicode.
