(* ===== verification/HclPrint.v ===== *)
(** * Printing HCL values and parsing them back

    [hval] are the values a configuration is made of, [render] a reference printer
    of the items of a file: every word is followed by a blank, every element of a
    list by a comma.  Parsing what is printed gives a tree of the same items. *)

From Stdlib Require Import ZArith Lia NArith Ascii Strings.Byte.
From stdpp Require Import base numbers gmap strings list fin_maps pretty.
From coqutil Require Import Datatypes.RecordSetters.
From S2P Require Import Prelude GoNet Utf8 HclStrconv HclToken HclAst StateM HclScanner HclScannerSpec HclLex HclParser HclParserSpec.

Import token ast parser.
Open Scope Z_scope.

(** ** Values and their words *)

#[warnings="-register-all"] Inductive hval :=
| HStr (v : list byte)
| HInt (z : Z)
| HBool (b : bool)
| HList (l : list hval)
| HObj (kvs : list (list byte * hval)).

Section hval_ind.
Context (P : hval -> Prop)
  (Hstr : forall v, P (HStr v)) (Hint : forall z, P (HInt z)) (Hbool : forall b, P (HBool b))
  (Hlist : forall l, Forall P l -> P (HList l))
  (Hobj : forall kvs, Forall (fun kv => P (snd kv)) kvs -> P (HObj kvs)).

Fixpoint hval_ind' (v : hval) : P v :=
  match v with
  | HStr v => Hstr v
  | HInt z => Hint z
  | HBool b => Hbool b
  | HList l =>
      Hlist l ((fix go l : Forall P l :=
                  match l with
                  | [] => Forall_nil_2 P
                  | v :: l => Forall_cons_2 P v l (hval_ind' v) (go l)
                  end) l)
  | HObj kvs =>
      Hobj kvs ((fix go l : Forall (fun kv => P (snd kv)) l :=
                   match l with
                   | [] => Forall_nil_2 _
                   | kv :: l => Forall_cons_2 _ kv l (hval_ind' (snd kv)) (go l)
                   end) kvs)
  end.
End hval_ind.

(** A word with its type. *)
Definition lexeme : Type := Type_ * list byte.

Definition numeral_of (z : Z) : list byte := bytes (strconv.Itoa z).

Fixpoint toks (v : hval) : list lexeme :=
  match v with
  | HStr v => [(STRING, hclstrconv.quote v)]
  | HInt z => [(NUMBER, numeral_of z)]
  | HBool b => [(BOOL, bytes (if b then "true" else "false"))]
  | HList l =>
      (LBRACK, ["["%byte]) :: concat (map (fun v => toks v ++ [(COMMA, [","%byte])]) l) ++ [(RBRACK, ["]"%byte])]
  | HObj kvs =>
      (LBRACE, ["{"%byte]) ::
      concat (map (fun kv => (IDENT, fst kv) :: (ASSIGN, ["="%byte]) :: toks (snd kv)) kvs) ++ [(RBRACE, ["}"%byte])]
  end.

Definition item_toks (kv : list byte * hval) : list lexeme :=
  (IDENT, fst kv) :: (ASSIGN, ["="%byte]) :: toks (snd kv).
Definition items_toks (kvs : list (list byte * hval)) : list lexeme := concat (map item_toks kvs).
Definition elem_toks (v : hval) : list lexeme := toks v ++ [(COMMA, [","%byte])].

Lemma toks_HList l : toks (HList l) = (LBRACK, ["["%byte]) :: concat (map elem_toks l) ++ [(RBRACK, ["]"%byte])].
Proof. done. Qed.
Lemma toks_HObj kvs : toks (HObj kvs) = (LBRACE, ["{"%byte]) :: items_toks kvs ++ [(RBRACE, ["}"%byte])].
Proof. done. Qed.

Definition spell (l : list lexeme) : list byte := concat (map (fun x => snd x ++ [" "%byte]) l).

(** The text of a file with these items. *)
Definition render (kvs : list (list byte * hval)) : list byte := spell (items_toks kvs).

(** ** The words of a value are words of the scanner *)

(** A key: an ASCII name that is not a boolean. *)
Definition key_ok (k : list byte) : bool :=
  match k with
  | b :: w =>
      let letter c := bool_decide (97 <= u8 c <= 122 \/ 65 <= u8 c <= 90 \/ u8 c = 95) in
      letter b && forallb (fun c => letter c || bool_decide (48 <= u8 c <= 57 \/ u8 c = 45 \/ u8 c = 46)) w &&
      bool_decide (k <> bytes "true" /\ k <> bytes "false")
  | [] => false
  end.

Fixpoint keys_ok (v : hval) : bool :=
  match v with
  | HList l => forallb keys_ok l
  | HObj kvs => forallb (fun kv => key_ok (fst kv) && keys_ok (snd kv)) kvs
  | _ => true
  end.

Section unicode.
Context `{Unicode}.

Definition lexeme_ok (x : lexeme) : Prop :=
  exists b w, snd x = b :: w /\ plain_rune b /\ white b = false /\ word (fst x) b w /\
              fst x <> EOF /\ fst x <> COMMENT.

Lemma lexeme_punct ty b : scanner.scanToken (u8 b) = mret ty -> plain_rune b -> white b = false ->
  ty <> EOF -> ty <> COMMENT -> lexeme_ok (ty, [b]).
Proof. intros. exists b, []. split_and!; try done. by apply word_punct. Qed.

Lemma isLetter_ascii b :
  97 <= u8 b <= 122 \/ 65 <= u8 b <= 90 \/ u8 b = 95 -> scanner.isLetter (u8 b) = true.
Proof.
  intros Hb. unfold scanner.isLetter. change (ch "a") with 97; change (ch "z") with 122; change (ch "A") with 65;
    change (ch "Z") with 90; change (ch "_") with 95. rewrite !orb_true_iff, !bool_decide_eq_true. tauto.
Qed.

Lemma lexeme_key k : key_ok k = true -> lexeme_ok (IDENT, k).
Proof.
  destruct k as [|b w]; [done|]. unfold key_ok. rewrite !andb_true_iff, !bool_decide_eq_true, forallb_forall.
  intros [[Hb Hw] Hne]. exists b, w. cbn [fst snd].
  assert (IDENT = name_or_bool (b :: w)) as Hty by (unfold name_or_bool; by rewrite decide_False by tauto).
  split_and!; try done.
  - unfold plain_rune. lia.
  - unfold white, scanner.isWhitespace. rewrite bool_decide_eq_false. change (ch " ") with 32. lia.
  - rewrite Hty. apply word_ident; [by apply isLetter_ascii|]. apply Forall_forall. intros c Hc.
    apply list_elem_of_In in Hc. specialize (Hw c Hc). rewrite orb_true_iff, !bool_decide_eq_true in Hw.
    unfold plain_rune, ident_rune, scanner.isDigit. split; [lia|].
    destruct Hw as [Hw|Hw]; [by rewrite isLetter_ascii|].
    change (ch "0") with 48; change (ch "9") with 57; change (ch "-") with 45; change (ch ".") with 46.
    rewrite !orb_true_iff, !bool_decide_eq_true. destruct Hw as [?|?]; [left; right; by left|right; lia].
Qed.

Lemma lexeme_bool (b : bool) : lexeme_ok (BOOL, bytes (if b then "true" else "false")).
Proof.
  destruct b.
  - exists "t"%byte, (bytes "rue"). split_and!; try done. apply (word_ident "t"%byte (bytes "rue")); [done|].
    repeat constructor.
  - exists "f"%byte, (bytes "alse"). split_and!; try done. apply (word_ident "f"%byte (bytes "alse")); [done|].
    repeat constructor.
Qed.

Lemma lexeme_string v : lexeme_ok (STRING, hclstrconv.quote v).
Proof. exists "034"%byte, (hclstrconv.body v ++ ["034"%byte]). split_and!; try done. apply word_string. Qed.
End unicode.

(** *** Numerals *)

Lemma u8_ascii c : u8 (byte_of_ascii c) = strings.code c.
Proof. by destruct c as [[] [] [] [] [] [] [] []]. Qed.

Lemma bytes_cons c s : bytes (String c s) = byte_of_ascii c :: bytes s.
Proof. done. Qed.

Lemma digit_ascii c v : strconv.digit c = Some v <-> u8 (byte_of_ascii c) = 48 + v /\ 0 <= v <= 9.
Proof. unfold strconv.digit. rewrite u8_ascii. case_decide; (split; [intros [= <-]|]; try done; intros; f_equal; lia). Qed.

Lemma is_digit_ascii c : strconv.is_digit c = true -> digit_byte (byte_of_ascii c).
Proof.
  unfold strconv.is_digit. rewrite bool_decide_eq_true. intros [v Hv]. apply digit_ascii in Hv.
  apply digit_range. lia.
Qed.

Lemma all_digits s : strings.all_chars strconv.is_digit s = true -> Forall digit_byte (bytes s).
Proof.
  induction s as [|c s IH]; [constructor|]. rewrite bytes_cons. simpl. rewrite andb_true_iff.
  intros [Hc Hs]. constructor; [by apply is_digit_ascii|by apply IH].
Qed.

(** The first digit of a positive number is not 0. *)
Lemma pretty_N_go_head x : forall s, (0 < x)%N ->
  exists c t v, pretty_N_go x s = String c t /\ strconv.digit c = Some v /\ v <> 0.
Proof.
  induction (N.lt_wf_0 x) as [x _ IH]. intros s Hx. rewrite pretty_N_go_step by done.
  destruct (decide (x < 10)%N) as [Hs|Hs].
  - rewrite N.div_small, N.mod_small by done. rewrite pretty_N_go_0.
    eexists _, _, _. split; [reflexivity|]. split; [by apply strconv.digit_pretty|lia].
  - apply IH; [apply N.div_lt; lia|apply N.div_str_pos; lia].
Qed.

Lemma Itoa_pos p : strconv.Itoa (Z.pos p) = pretty_N_go (N.pos p) "".
Proof. unfold strconv.Itoa, pretty, pretty_Z, pretty, pretty_positive, pretty, pretty_N. by rewrite decide_False. Qed.

Lemma numeral_nonneg z : 0 <= z -> exists b w, numeral_of z = b :: w /\ numeral b w.
Proof.
  intros Hz. pose proof (all_digits _ (strconv.Itoa_digits z Hz)) as Hd. unfold numeral_of.
  destruct z as [|p|p]; [exists "0"%byte, []; by split_and!| |lia].
  rewrite Itoa_pos in *. destruct (pretty_N_go_head (N.pos p) "" ltac:(lia)) as (c & t & v & E & Hc & Hv).
  rewrite E, bytes_cons in *. apply Forall_cons_1 in Hd as [Hd1 Hd2].
  eexists _, _. split; [reflexivity|]. split_and!; try done. intros E0. apply digit_ascii in Hc. rewrite E0 in Hc.
  change (u8 "0") with 48 in Hc. lia.
Qed.

Lemma numeral_neg p : exists b w, numeral_of (Z.neg p) = "-"%byte :: b :: w /\ numeral b w /\
  numeral_of (Z.pos p) = b :: w.
Proof.
  destruct (numeral_nonneg (Z.pos p) ltac:(lia)) as (b & w & E & Hn). exists b, w.
  split; [|done]. rewrite <- E. done.
Qed.

Lemma digits_ge s : forall n m, 0 <= n -> strconv.digits s n = Some m -> n <= m.
Proof.
  induction s as [|c s IH]; intros n m Hn; simpl; [by intros [= <-]|].
  destruct (strconv.digit c) as [v|] eqn:Hc; [|done]. apply digit_ascii in Hc. simpl.
  intros Hm%IH; lia.
Qed.

Lemma digitOf_ascii c v : strconv.digit c = Some v -> parseint.digitOf (byte_of_ascii c) = Some v.
Proof.
  intros [Hc Hv]%digit_ascii. unfold parseint.digitOf. rewrite Hc. change (ch "0") with 48; change (ch "9") with 57.
  rewrite decide_True by lia. f_equal. lia.
Qed.

Lemma parseDigits_digits s : forall n m, 0 <= n -> strconv.digits s n = Some m -> m < 2 ^ 64 ->
  parseint.parseDigits 10 (bytes s) n = parseint.UOk m.
Proof.
  induction s as [|c s IH]; intros n m Hn; [by intros [= <-]|]. rewrite bytes_cons. cbn [parseint.parseDigits strconv.digits].
  destruct (strconv.digit c) as [v|] eqn:Hc; [|done]. intros Hm Hlt. pose proof Hc as [_ Hv]%digit_ascii.
  change (strconv.digits s (n * 10 + v) = Some m) in Hm.
  pose proof (digits_ge s (n * 10 + v) m ltac:(lia) Hm). rewrite (digitOf_ascii c v Hc).
  rewrite decide_False by lia. rewrite decide_False by lia. by apply IH; [lia|..].
Qed.

Lemma ParseUint_numeral z : 0 <= z < 2 ^ 64 -> parseint.ParseUint (numeral_of z) = parseint.UOk z.
Proof.
  intros Hz. pose proof (parseDigits_digits _ 0 z ltac:(lia) (strconv.digits_Itoa z ltac:(lia)) ltac:(lia)) as Hd.
  fold (numeral_of z) in Hd. destruct (numeral_nonneg z ltac:(lia)) as (b & w & E & Hb & Hw & H0). rewrite E in *.
  cbn [parseint.ParseUint]. case_decide as Hb0; [|done]. rewrite (H0 Hb0) in *. subst b. simpl in *. done.
Qed.

(** Reading a number back. *)
Lemma ParseInt_numeral z : - 2 ^ 63 <= z < 2 ^ 63 -> parseint.ParseInt (numeral_of z) = Ret z.
Proof.
  intros Hz. destruct (decide (0 <= z)) as [Hp|Hp].
  - pose proof (ParseUint_numeral z ltac:(lia)) as Hu. destruct (numeral_nonneg z Hp) as (b & w & E & Hb & _).
    rewrite E in *. apply digit_range in Hb. unfold parseint.ParseInt.
    rewrite decide_False by (intros [->| ->]; [change (u8 "+") with 43 in Hb|change (u8 "-") with 45 in Hb]; lia).
    rewrite (bool_decide_eq_false_2 (b = "-"%byte)) by (intros ->; change (u8 "-") with 45 in Hb; lia).
    rewrite Hu, (bool_decide_eq_false_2 (2 ^ 63 <= z)) by lia. done.
  - destruct z as [|p|p]; [lia..|]. destruct (numeral_neg p) as (b & w & E & _ & E').
    pose proof (ParseUint_numeral (Z.pos p) ltac:(lia)) as Hu. rewrite E' in Hu. rewrite E. unfold parseint.ParseInt.
    rewrite decide_True by auto. rewrite Hu. rewrite (bool_decide_eq_true_2 ("-"%byte = "-"%byte)) by done.
    cbn [negb andb]. rewrite bool_decide_eq_false_2 by lia. done.
Qed.

Lemma digit_not_white b : digit_byte b -> white b = false.
Proof.
  rewrite digit_range. intros Hb. unfold white, scanner.isWhitespace. rewrite bool_decide_eq_false.
  change (ch " ") with 32. lia.
Qed.

Lemma lexeme_number `{Unicode} z : lexeme_ok (NUMBER, numeral_of z).
Proof.
  destruct (decide (0 <= z)) as [Hz|Hz].
  - destruct (numeral_nonneg z Hz) as (b & w & E & Hn). exists b, w. cbn [fst snd].
    split_and!; try done; [by apply digit_plain, Hn|by apply digit_not_white, Hn|by apply word_number].
  - destruct z as [|p|p]; [lia..|]. destruct (numeral_neg p) as (b & w & E & Hn & _).
    exists "-"%byte, (b :: w). cbn [fst snd]. split_and!; try done. by apply word_negative.
Qed.

(** *** All the words of a value *)

Lemma lexemes_ok `{Unicode} v : keys_ok v = true -> Forall lexeme_ok (toks v).
Proof.
  induction v as [v|z|b|l IH|kvs IH] using hval_ind'; intros Hk.
  - constructor; [apply lexeme_string|constructor].
  - constructor; [apply lexeme_number|constructor].
  - constructor; [apply lexeme_bool|constructor].
  - cbn [toks]. constructor; [by apply lexeme_punct|]. apply Forall_app. split; [|constructor; [by apply lexeme_punct|done]].
    cbn [keys_ok] in Hk. rewrite forallb_forall in Hk. apply Forall_concat, Forall_map, Forall_forall.
    intros v Hv. rewrite Forall_forall in IH. apply Forall_app. split; [|constructor; [by apply lexeme_punct|done]].
    apply IH; [done|]. by apply Hk, list_elem_of_In.
  - cbn [toks]. constructor; [by apply lexeme_punct|]. apply Forall_app. split; [|constructor; [by apply lexeme_punct|done]].
    cbn [keys_ok] in Hk. rewrite forallb_forall in Hk. apply Forall_concat, Forall_map, Forall_forall.
    intros kv Hv. rewrite Forall_forall in IH.
    assert (Hkv : key_ok (fst kv) && keys_ok (snd kv) = true) by (by apply Hk, list_elem_of_In).
    apply andb_true_iff in Hkv as [Hkk Hkv].
    constructor; [by apply lexeme_key|]. constructor; [by apply lexeme_punct|]. by apply IH.
Qed.
