(* ===== verification/HclRoundTrip.v ===== *)
(** * Parsing what is printed

    The parser on the words of a value ([HclPrint.toks]): it builds a tree of the
    same shape with the words as its tokens, and stops right after them. *)

From Stdlib Require Import ZArith Lia NArith Ascii Strings.Byte.
From stdpp Require Import base numbers gmap strings list fin_maps.
From coqutil Require Import Datatypes.RecordSetters.
From S2P Require Import Prelude GoNet Utf8 HclStrconv HclToken HclAst StateM HclScanner HclScannerSpec HclLex HclParser HclParserSpec HclPrint.

Import token ast parser.
Open Scope Z_scope.

(** ** Trees of values *)

Definition is_tok (x : lexeme) (t : Token) : Prop :=
  Type' t = fst x /\ Text t = snd x /\ JSON t = false.

Definition literal (v : hval) : option lexeme :=
  match v with
  | HStr v => Some (STRING, hclstrconv.quote v)
  | HInt z => Some (NUMBER, numeral_of z)
  | HBool b => Some (BOOL, bytes (if b then "true" else "false"))
  | _ => None
  end.

(** The tree of a value, positions aside. *)
#[warnings="-register-all"] Inductive same : hval -> Node -> Prop :=
| same_literal v x t : literal v = Some x -> is_tok x t -> same v (LiteralType t None None)
| same_list l nodes lb rb : Forall2 same l nodes -> same (HList l) (ListType lb rb nodes)
| same_object kvs items lb rb :
    Forall2 (fun kv i => exists t a w, is_tok (IDENT, fst kv) t /\ same (snd kv) w /\
                                       i = Item [t] a w None None) kvs items ->
    same (HObj kvs) (ObjectType lb rb items).

Definition same_item (kv : list byte * hval) (i : ObjectItem) : Prop :=
  exists t a w, is_tok (IDENT, fst kv) t /\ same (snd kv) w /\ i = Item [t] a w None None.

Lemma same_placed v nd : same v nd -> placed nd.
Proof. destruct 1; by eexists. Qed.

(** ** The words to come *)

(** The scanner is before the words [l], nothing has been reported. *)
Definition coming `{Unicode} (l : list lexeme) (p : Parser) : Prop :=
  pinv p /\ scanner.Errors (sc p) = [] /\ comments p = [] /\ leadComment p = None /\ lineComment p = None /\
  Forall lexeme_ok l /\
  exists ws, Forall (fun b => white b = true) ws /\ scanner.buf (sc p) = ws ++ spell l.

(** [t] is the first of the words [l], or the end of the text. *)
Definition head_is (l : list lexeme) (t : Token) : Prop :=
  match l with
  | [] => Type' t = EOF
  | x :: _ => is_tok x t
  end.

(** The parser has just read a token, the words [l] follow. *)
Definition at_ `{Unicode} (l : list lexeme) (p : Parser) : Prop := n p = 0 /\ coming l p.

(** The words [l] come next, the first may have been put back. *)
Definition ahead `{Unicode} (l : list lexeme) (p : Parser) : Prop :=
  at_ l p \/ (n p <> 0 /\ head_is l (tok p) /\ coming (tail l) p).

Section unicode.
Context `{Unicode}.

Lemma coming_eq l p p' : coming l p -> sc p' = sc p -> comments p' = comments p -> leadComment p' = leadComment p ->
  lineComment p' = lineComment p -> coming l p'.
Proof. unfold coming, pinv. by intros ? -> -> -> ->. Qed.

Lemma scScan_coming l p : coming l p ->
  wp scScan (returning (fun t p' => head_is l t /\ coming (tail l) p' /\ n p' = n p)) p.
Proof.
  intros (Hi & He & Hc & Hl1 & Hl2 & Hok & ws & Hws & Hb). unfold scScan. apply wp_zoom. unfold pinv in Hi.
  destruct l as [|[ty w] l].
  - eapply wp_conseq; [by apply Scan_scanned|].
    intros [t| |] s'; simpl; [|done..]. intros [Hi' _ _ _ _ _ Hbl].
    destruct Hbl as (Ht & Hb' & He'); [by rewrite Hb, app_nil_r|].
    destruct p as [s0 t0 cs ld ln k]. unfold coming, pinv. fields. rewrite He'.
    split_and!; try done. by exists [].
  - apply Forall_cons_1 in Hok as [(b & r & Ew & Hp & Hwb & Hword & Hne & Hnc) Hok]. cbn [fst snd] in *. subst w.
    unfold spell in Hb. cbn [map concat snd] in Hb. rewrite <- (assoc_L (++)) in Hb.
    eapply wp_conseq; [apply wp_yields; [apply yields_Scan|]; by eapply Scan_word|].
    intros [t| |] s'; cbn [returning]; [|done..]. intros (Hj & Hsc & Ht & Htx & Hb' & He').
    destruct p as [s0 t0 cs ld ln k]. unfold coming, pinv. fields. rewrite He', Hb'.
    split_and!; try done; [apply Hsc|]. exists [" "%byte]. split; [|done]. by constructor.
Qed.

Lemma head_not_comment l t : Forall lexeme_ok l -> head_is l t -> Type' t <> COMMENT.
Proof.
  intros Hok. destruct l as [|x l]; [intros Ht; simpl in Ht; by rewrite Ht|]. intros [-> _].
  apply Forall_cons_1 in Hok as [(? & ? & ? & ? & ? & ? & ? & ?) _]. done.
Qed.

(** Reading the next word. *)
Lemma scan_ahead l p : ahead l p ->
  wp scan (returning (fun t p' => t = tok p' /\ head_is l t /\ at_ (tail l) p')) p.
Proof.
  intros Ha. unfold scan. apply wp_bind, wp_get. destruct Ha as [[Hn Hl]|(Hn & Ht & Hl)].
  - rewrite decide_False by tauto. cbv zeta. eapply wp_then; [by apply scScan_coming|]. intros t p1 (Ht & Hl1 & Hn1).
    apply wp_bind, wp_upd. rewrite decide_False by (eapply head_not_comment; [apply Hl|done]).
    apply wp_bind, wp_ret, wp_bind, wp_get, wp_ret. split_and!; [by destruct p1|by destruct p1|].
    split; [destruct p1; fields; lia|]. eapply coming_eq; [exact Hl1|by destruct p1..].
  - rewrite decide_True by done. apply wp_bind, wp_upd, wp_ret. split_and!; [by destruct p|done|].
    split; [by destruct p|]. eapply coming_eq; [exact Hl|by destruct p..].
Qed.

Lemma unscan_at l p : head_is l (tok p) -> coming (tail l) p ->
  wp unscan (returning (fun _ p' => ahead l p' /\ tok p' = tok p)) p.
Proof.
  intros Ht Hl. apply wp_upd. split; [|by destruct p]. right. split; [by destruct p|]. split; [by destruct p|].
  eapply coming_eq; [exact Hl|by destruct p..].
Qed.

(** ** Keys *)

Lemma objectKeyLoop_key turns k l p : (2 <= turns)%nat ->
  ahead ((IDENT, k) :: (ASSIGN, ["="%byte]) :: l) p ->
  wp (objectKeyLoop turns []) (returning (fun '(keys, e) p' => e = None /\
    (exists t, keys = [t] /\ is_tok (IDENT, k) t) /\ Type' (tok p') = ASSIGN /\ at_ l p')) p.
Proof.
  intros Ht Ha. destruct turns as [|[|turns]]; [lia..|]. cbn [objectKeyLoop].
  eapply wp_then; [by apply scan_ahead|]. intros t p1 (E1 & H1 & Ha1). apply wp_bind, wp_get.
  rewrite (proj1 H1). cbn [fst app]. eapply wp_then; [apply scan_ahead; by left|].
  intros t2 p2 (E2 & H2 & Ha2). apply wp_bind, wp_get. rewrite (proj1 H2). cbn [fst length].
  cbv zeta. rewrite decide_False by lia. rewrite decide_False by lia. apply wp_ret.
  split_and!; [done| |rewrite <- E2; apply H2|done]. exists (tok p1). by rewrite <- E1.
Qed.

Lemma itemKeys_key k l p : ahead ((IDENT, k) :: (ASSIGN, ["="%byte]) :: l) p ->
  wp itemKeys (returning (fun keys p' => (exists t, keys = [t] /\ is_tok (IDENT, k) t) /\
                            Type' (tok p') = ASSIGN /\ at_ l p')) p.
Proof.
  intros Ha. unfold itemKeys, objectKey.
  eapply wp_then; [apply wp_bind, wp_get; apply objectKeyLoop_key; [lia|exact Ha]|].
  intros [keys e] p' (-> & Hk & Ht & Ha'). rewrite decide_False by (by intros [_ ?]). apply wp_bind, wp_get.
  rewrite decide_False by (by intros (_ & ? & _)). by apply wp_bind, wp_ret, wp_ret.
Qed.

(** At the end of the text there is no item. *)
Lemma itemKeys_end p : ahead [] p ->
  wp itemKeys (fun r p' => r = Err errEofToken /\ at_ [] p') p.
Proof.
  intros Ha. unfold itemKeys, objectKey.
  eapply wp_then with (P := fun r p' => r = ([], Some errEofToken) /\ at_ [] p').
  { apply wp_bind, wp_get. rewrite Nat.add_comm. cbn [objectKeyLoop Nat.add].
    eapply wp_then; [by apply scan_ahead|]. intros t p1 (E1 & H1 & Ha1). apply wp_bind, wp_get.
    simpl in H1. rewrite H1. by apply wp_ret. }
  intros ? p' (-> & Ha'). rewrite decide_False by (by intros [? _]). apply wp_bind, wp_get.
  rewrite decide_False by (by intros [? _]). by apply wp_bind, wp_ret, wp_fail.
Qed.

(** ** Items *)

Lemma finishItem_quiet keys a val l p : placed val -> at_ l p ->
  wp (finishItem keys a None val) (returning (fun i p' => i = Item keys a val None None /\ ahead l p')) p.
Proof.
  intros [pos Hpos] Ha. unfold finishItem. apply wp_bind, wp_get, wp_bind, wp_upd.
  assert (Hline : lineComment p = None) by apply Ha. rewrite Hline.
  eapply wp_then; [apply (scan_ahead l)|].
  { left. split; [destruct p; apply Ha|]. eapply coming_eq; [apply Ha|by destruct p..]. }
  intros t p1 (E1 & H1 & Ha1). apply wp_bind. rewrite Hpos. apply wp_lift, wp_bind, wp_get.
  assert (lineComment p1 = None) as -> by apply Ha1. apply wp_bind, wp_ret.
  eapply wp_then; [apply (unscan_at l); [by rewrite <- E1|apply Ha1]|].
  intros ? p2 [Ha2 _]. by apply wp_ret.
Qed.

(** What [object] does with a value. *)
Definition parses (v : hval) : Prop := forall turns l p,
  (4 * length (toks v) <= turns)%nat -> ahead (toks v ++ l) p ->
  wp (object turns) (returning (fun nd p' => same v nd /\ at_ l p')) p.

Lemma objectItem_item kv turns l p : parses (snd kv) -> (4 * length (item_toks kv) <= turns)%nat ->
  ahead (item_toks kv ++ l) p ->
  wp (objectItem turns) (returning (fun i p' => same_item kv i /\ ahead l p')) p.
Proof.
  intros Hv Ht Ha. unfold item_toks in Ht. simpl in Ht. destruct turns as [|turns]; [lia|]. cbn [objectItem]; unfold objectItemBody.
  eapply wp_then; [by apply (itemKeys_key (fst kv) (toks (snd kv) ++ l))|].
  intros keys p1 ((t & -> & Htk) & Hty & Ha1). apply wp_bind, wp_get, wp_bind, wp_upd.
  rewrite Hty. assert (leadComment p1 = None) as -> by apply Ha1.
  eapply wp_then; [apply (Hv turns l); [lia|]|].
  { left. split; [destruct p1; apply Ha1|]. eapply coming_eq; [apply Ha1| | | |]; destruct p1; try done.
    symmetry. apply Ha1. }
  intros nd p2 (Hs & Ha2). eapply wp_returning; [apply (finishItem_quiet _ _ _ l); [by eapply same_placed|done]|].
  intros i p3 (-> & Ha3). split; [|done]. by eexists _, _, _.
Qed.

(** ** Objects *)

Definition type_of (l : list lexeme) : Type_ :=
  match l with
  | [] => EOF
  | x :: _ => fst x
  end.

Lemma head_type l t : head_is l t -> Type' t = type_of l.
Proof. destruct l; [done|by intros [? _]]. Qed.

(** The words after the items of an object, or of the file. *)
Definition closing (obj : bool) (l : list lexeme) : Prop :=
  if obj then exists l', l = (RBRACE, ["}"%byte]) :: l' else l = [].

Lemma closing_type kvs obj l : closing obj l -> type_of (items_toks kvs ++ l) <> COMMA.
Proof. destruct kvs as [|kv kvs]; [|done]. destruct obj; [by intros [l' ->]|by intros ->]. Qed.

Lemma objectList_items kvs : Forall (fun kv => parses (snd kv)) kvs -> forall turns obj l items p,
  (4 * length (items_toks kvs) + 2 <= turns)%nat -> closing obj l -> ahead (items_toks kvs ++ l) p ->
  wp (objectList turns obj items) (returning (fun '(r, e) p' => e = None /\ ahead l p' /\
    exists new, r = items ++ new /\ Forall2 same_item kvs new)) p.
Proof.
  induction 1 as [|kv kvs Hkv _ IH]; intros turns obj l items p Ht Hcl Ha;
    (destruct turns as [|turns]; [lia|]); cbn [objectList]; unfold objectListBody;
    (eapply wp_then with (P := fun b p' => ahead _ p' /\ b = obj && bool_decide (type_of (items_toks _ ++ l) = RBRACE));
     [destruct obj; [|by apply wp_ret]; eapply wp_then; [by apply scan_ahead|];
      intros t p1 (E1 & H1 & Ha1); (eapply wp_then; [apply unscan_at; [by rewrite <- E1|apply Ha1]|]);
      intros ? p2 [Ha2 _]; apply wp_ret; split; [exact Ha2|]; by rewrite (head_type _ _ H1)|]);
    intros b p1 [Ha1 ->].
  - destruct obj; simpl in Hcl.
    + destruct Hcl as [l' ->]. apply wp_ret. split_and!; try done. exists []. by rewrite app_nil_r.
    + subst l. cbn [andb]. destruct turns as [|turns]; [lia|]. apply wp_bind, wp_try. cbn [objectItem]; unfold objectItemBody.
      apply wp_bind. eapply wp_conseq; [by apply itemKeys_end|]. intros r p2 (-> & Ha2).
      rewrite decide_True by done. apply wp_ret. split_and!; [done|by left|]. exists []. by rewrite app_nil_r.
  - assert (bool_decide (type_of (items_toks (kv :: kvs) ++ l) = RBRACE) = false) as -> by done.
    rewrite andb_false_r. unfold items_toks in *. cbn [map concat] in *. rewrite length_app in Ht.
    rewrite <- (assoc_L (++)) in Ha1.
    apply wp_bind, wp_try. eapply wp_conseq; [apply objectItem_item; [exact Hkv| |exact Ha1]; lia|].
    intros [i| |] p2; cbn [returning]; [|done..]. intros (Hi & Ha2).
    eapply wp_then; [by apply scan_ahead|]. intros t p3 (E3 & H3 & Ha3).
    rewrite decide_True by (rewrite (head_type _ _ H3); by eapply (closing_type kvs)).
    eapply wp_then; [apply unscan_at; [by rewrite <- E3|apply Ha3]|]. intros ? p4 [Ha4 _].
    assert (length (item_toks kv) >= 2)%nat by (simpl; lia).
    eapply wp_returning; [apply (IH turns obj l); [lia|done|exact Ha4]|].
    intros [r e] p5 (-> & Ha5 & new & -> & Hn). split_and!; try done. exists (i :: new).
    rewrite <- (assoc_L (++)). split; [done|]. by constructor.
Qed.

Lemma objectType_items kvs turns l p : Forall (fun kv => parses (snd kv)) kvs ->
  (4 * length (items_toks kvs) + 3 <= turns)%nat -> at_ (items_toks kvs ++ (RBRACE, ["}"%byte]) :: l) p ->
  wp (objectType turns) (returning (fun nd p' => same (HObj kvs) nd /\ at_ l p')) p.
Proof.
  intros Hk Ht Ha. destruct turns as [|turns]; [lia|]. cbn [objectType]; unfold objectTypeBody. apply wp_bind, wp_get.
  eapply wp_then; [apply (objectList_items kvs Hk _ true ((RBRACE, ["}"%byte]) :: l)); [lia|by exists l|by left]|].
  intros [r e] p1 (-> & Ha1 & new & -> & Hn). cbn [app]. apply wp_bind, wp_get. unfold closeObject.
  eapply wp_then; [by apply scan_ahead|]. intros t p2 (E2 & H2 & Ha2).
  rewrite decide_False by (rewrite (proj1 H2); tauto). apply wp_bind, wp_get, wp_ret.
  split; [|done]. by constructor.
Qed.

(** ** Lists *)

Lemma listComma_quiet nodes l p : at_ l p ->
  wp (listComma nodes) (returning (fun nodes' p' => nodes' = nodes /\ ahead l p')) p.
Proof.
  intros Ha. unfold listComma. eapply wp_then; [apply (scan_ahead l); by left|].
  intros t p1 (E1 & H1 & Ha1). apply wp_bind, wp_get.
  assert (lineComment p1 = None) as -> by apply Ha1. apply wp_bind, wp_ret.
  eapply wp_then; [apply (unscan_at l); [by rewrite <- E1|apply Ha1]|]. intros ? p2 [Ha2 _]. by apply wp_ret.
Qed.

(** The comma after an element. *)
Lemma listType_comma turns lb (nc : bool) nodes l p Q : at_ ((COMMA, [","%byte]) :: l) p ->
  (forall p', ahead l p' -> wp (listType turns lb false nodes) Q p') ->
  wp (listType (S turns) lb nc nodes) Q p.
Proof.
  intros Ha HQ. cbn [listType]; unfold listTypeBody. eapply wp_then; [apply scan_ahead; by left|].
  intros t p1 (E1 & H1 & Ha1). rewrite (proj1 H1). cbn [fst]. rewrite bool_decide_eq_false_2 by tauto.
  rewrite andb_false_r. eapply wp_then; [apply (listComma_quiet _ l); exact Ha1|].
  intros ? p2 (-> & Ha2). by apply HQ.
Qed.

(** What [object] and [listType] do after the first word of a value. *)
Definition inner (v : hval) : Prop :=
  match v with
  | HObj kvs => forall turns l p, (4 * length (items_toks kvs) + 3 <= turns)%nat ->
      at_ (items_toks kvs ++ (RBRACE, ["}"%byte]) :: l) p ->
      wp (objectType turns) (returning (fun nd p' => same v nd /\ at_ l p')) p
  | HList vs => forall turns lb l p, (4 * length (concat (map elem_toks vs)) + 1 <= turns)%nat ->
      at_ (concat (map elem_toks vs) ++ (RBRACK, ["]"%byte]) :: l) p ->
      wp (listType turns lb false []) (returning (fun nd p' => same v nd /\ at_ l p')) p
  | _ => True
  end.

Lemma inner_parses v : inner v -> parses v.
Proof.
  intros Hv turns l p Ht Ha. destruct turns as [|turns]; [destruct v; simpl in Ht; lia|]. cbn [object]; unfold objectBody.
  destruct v as [v|z|b|vs|kvs]; rewrite ?toks_HList, ?toks_HObj in Ha, Ht; cbn [toks app] in Ha, Ht; cbn [length] in Ht; rewrite <- ?(assoc_L (++)) in Ha;
    rewrite ?length_app in Ht; cbn [length] in Ht; (eapply wp_then; [by apply scan_ahead|]);
    intros t p1 (E1 & H1 & Ha1); rewrite (proj1 H1); cbn [fst].
  1-3: apply wp_bind, wp_get, wp_ret; (split; [|exact Ha1]); rewrite <- E1; by eapply same_literal.
  - apply wp_bind, wp_get. apply Hv; [|exact Ha1]. lia.
  - apply Hv; [|exact Ha1]. lia.
Qed.

(** An element of a list with its comma. *)
Lemma listType_elem v turns lb nodes l p Q : inner v -> (4 * length (elem_toks v) <= turns)%nat ->
  ahead (elem_toks v ++ l) p ->
  (forall nd p', same v nd -> ahead l p' -> wp (listType (turns - 2) lb false (nodes ++ [nd])) Q p') ->
  wp (listType turns lb false nodes) Q p.
Proof.
  intros Hv Ht Ha HQ. unfold elem_toks in *. rewrite length_app in Ht. simpl length in Ht.
  destruct turns as [|turns]; [lia|]. cbn [listType]; unfold listTypeBody. destruct turns as [|turns]; [lia|].
  replace (S (S turns) - 2)%nat with turns in HQ by lia.
  rewrite <- (assoc_L (++)) in Ha. cbn [app] in Ha.
  destruct v as [v|z|b|vs|kvs]; rewrite ?toks_HList, ?toks_HObj in Ha, Ht; cbn [toks app] in Ha, Ht; cbn [length] in Ht; rewrite <- ?(assoc_L (++)) in Ha;
    rewrite ?length_app in Ht; cbn [length] in Ht; (eapply wp_then; [by apply scan_ahead|]);
    intros t p1 (E1 & H1 & Ha1); cbn [andb]; rewrite (proj1 H1); cbn [fst].
  1-3: unfold listLiteral, literalType;
    eapply wp_then with (P := fun nd p' => nd = LiteralType t None None /\ p' = p1);
    [apply wp_bind, wp_bind, wp_get, wp_ret, wp_bind, wp_get;
     (assert (leadComment p1 = None) as -> by apply Ha1); by apply wp_ret; rewrite E1|];
    intros ? ? [-> ->]; eapply listType_comma; [exact Ha1|]; intros p2 Ha2; apply HQ; [by eapply same_literal|done].
  - apply wp_bind, wp_get. apply wp_bind, wp_try. eapply wp_conseq; [apply (Hv (S turns)); [|exact Ha1]|].
    { lia. }
    intros [nd| |] p2; cbn [returning]; [|done..]. intros (Hs & Ha2).
    eapply listType_comma; [exact Ha2|]. intros p3 Ha3. by apply HQ.
  - apply wp_bind, wp_try. eapply wp_conseq; [apply (Hv (S turns)); [|exact Ha1]|].
    { lia. }
    intros [nd| |] p2; cbn [returning]; [|done..]. intros (Hs & Ha2).
    eapply listType_comma; [exact Ha2|]. intros p3 Ha3. by apply HQ.
Qed.

Lemma listType_elems vs : Forall inner vs -> forall turns lb nodes l p,
  (4 * length (concat (map elem_toks vs)) + 1 <= turns)%nat ->
  ahead (concat (map elem_toks vs) ++ (RBRACK, ["]"%byte]) :: l) p ->
  wp (listType turns lb false nodes) (returning (fun nd p' => at_ l p' /\
    exists rb new, nd = ListType lb rb (nodes ++ new) /\ Forall2 same vs new)) p.
Proof.
  induction 1 as [|v vs Hv _ IH]; intros turns lb nodes l p Ht Ha.
  - destruct turns as [|turns]; [lia|]. cbn [listType]; unfold listTypeBody. eapply wp_then; [by apply scan_ahead|].
    intros t p1 (E1 & H1 & Ha1). cbn [andb]. rewrite (proj1 H1). cbn [fst]. apply wp_bind, wp_get, wp_ret.
    split; [done|]. eexists _, []. by rewrite app_nil_r.
  - cbn [map concat] in Ha, Ht. rewrite <- (assoc_L (++)) in Ha. rewrite length_app in Ht.
    assert (length (elem_toks v) >= 1)%nat by (unfold elem_toks; rewrite length_app; simpl; lia).
    eapply (listType_elem v); [done| |exact Ha|]; [lia|].
    intros nd p' Hs Ha'. eapply wp_returning; [apply (IH _ _ _ l); [lia|done]|].
    intros nd' p2 (Ha2 & rb & new & -> & Hn). split; [done|]. exists rb, (nd :: new).
    rewrite <- (assoc_L (++)). split; [done|by constructor].
Qed.

Lemma inner_all v : inner v.
Proof.
  induction v as [v|z|b|vs IH|kvs IH] using hval_ind'; try done.
  - intros turns lb l p Ht Ha. eapply wp_returning; [apply (listType_elems vs IH _ _ _ l); [done|by left]|].
    intros nd p' (Ha' & rb & new & -> & Hn). split; [|done]. by constructor.
  - intros turns l p Ht Ha. apply objectType_items; [|done|done].
    eapply Forall_impl; [exact IH|]. intros kv. apply inner_parses.
Qed.

Lemma parse_items kvs p : at_ (items_toks kvs) p ->
  (4 * length (items_toks kvs) + 2 <= turnsFor (bytesLeft p))%nat ->
  exists items, parse_ p = Some (Ret {| File_Node := ObjectList items; Comments := [] |}) /\
                Forall2 same_item kvs items.
Proof.
  intros Ha Ht.
  assert (Hk : Forall (fun kv => parses (snd kv)) kvs).
  { apply Forall_forall. intros kv _. apply inner_parses, inner_all. }
  pose proof (objectList_items kvs Hk (turnsFor (bytesLeft p)) false [] [] p Ht eq_refl) as Hrun.
  rewrite app_nil_r in Hrun. specialize (Hrun (or_introl Ha)).
  apply wp_run in Hrun as ([r e] & p' & Hrun & -> & Ha' & new & -> & Hn). exists new. split; [|done].
  unfold parse_. rewrite Hrun.
  assert (Hl : exists l, coming l p') by (destruct Ha' as [[_ ?]|(_ & _ & ?)]; by eexists).
  destruct Hl as (l & _ & -> & -> & _). done.
Qed.

(** ** Files *)

(** The number of words is at most the number of bytes. *)
Lemma length_spell l : (length l <= length (spell l))%nat.
Proof.
  induction l as [|x l IH]; [done|]. unfold spell in *. cbn [map concat].
  rewrite length_app, length_app. simpl. lia.
Qed.

Lemma Replace2_id s a b new : a ∉ s -> bstrings.Replace2 s a b new = s.
Proof.
  induction s as [|x s IH]; [done|]. rewrite not_elem_of_cons. intros [Hx Hs].
  destruct s as [|y s]; [done|]. cbn [bstrings.Replace2]. rewrite decide_False by (intros [-> _]; done).
  f_equal. by apply IH.
Qed.

Lemma lexemes_items kvs : keys_ok (HObj kvs) = true -> Forall lexeme_ok (items_toks kvs).
Proof.
  intros Hk%lexemes_ok. rewrite toks_HObj in Hk. apply Forall_cons_1 in Hk as [_ Hk].
  by apply Forall_app in Hk as [? _].
Qed.

Lemma Parse_render_same kvs : keys_ok (HObj kvs) = true -> "013"%byte ∉ render kvs ->
  exists items, Parse (render kvs) = Some (Ret {| File_Node := ObjectList items; Comments := [] |}) /\
                Forall2 same_item kvs items.
Proof.
  intros Hk Hcr. unfold Parse. rewrite Replace2_id by done. apply parse_items.
  - split; [done|]. split_and!; try done; [apply inv_New|by apply lexemes_items|]. by exists [].
  - unfold turnsFor, bytesLeft, newParser. cbn. pose proof (length_spell (items_toks kvs)). unfold render. lia.
Qed.

End unicode.

(** No word has a carriage return. *)
Definition no_cr (l : list lexeme) : Prop := Forall (fun x => "013"%byte ∉ snd x) l.

Lemma spell_no_cr l : no_cr l -> "013"%byte ∉ spell l.
Proof.
  induction 1 as [|x l Hx _ IH]; [apply not_elem_of_nil|]. unfold spell in *. cbn [map concat].
  rewrite !not_elem_of_app. split_and!; try done. rewrite not_elem_of_cons; split; [done|apply not_elem_of_nil].
Qed.

Lemma not_elem_Forall {A} (P : A -> Prop) x l : Forall P l -> ~ P x -> x ∉ l.
Proof. rewrite Forall_forall. intros HP Hx Hin. by apply Hx, HP. Qed.

Lemma numeral_no_cr z : "013"%byte ∉ numeral_of z.
Proof.
  assert (Hn : forall b w, numeral b w -> "013"%byte ∉ b :: w).
  { intros b w (Hb & Hw & _). apply (not_elem_Forall digit_byte); [by constructor|]. rewrite digit_range; change (u8 "013") with 13; lia. }
  destruct (decide (0 <= z)) as [Hz|Hz].
  - destruct (numeral_nonneg z Hz) as (b & w & -> & ?). by apply Hn.
  - destruct z as [|p|p]; [lia..|]. destruct (numeral_neg p) as (b & w & -> & ? & _).
    apply not_elem_of_cons. split; [done|by apply Hn].
Qed.

Lemma quote_no_cr v : "013"%byte ∉ hclstrconv.quote v.
Proof.
  unfold hclstrconv.quote. rewrite not_elem_of_cons, not_elem_of_app. split_and!; [done| |rewrite not_elem_of_cons; split; [done|apply not_elem_of_nil]].
  intros [Hb _]%hclstrconv.body_bytes. change (u8 "013") with 13 in Hb. lia.
Qed.

Lemma key_no_cr k : key_ok k = true -> "013"%byte ∉ k.
Proof.
  destruct k as [|b w]; [done|]. unfold key_ok. rewrite !andb_true_iff, bool_decide_eq_true, forallb_forall.
  intros [[Hb Hw] _]. apply (not_elem_Forall (fun c => 14 <= u8 c)); [|change (u8 "013") with 13; lia].
  constructor; [lia|]. apply Forall_forall. intros c Hc%list_elem_of_In. specialize (Hw c Hc).
  rewrite orb_true_iff, !bool_decide_eq_true in Hw. lia.
Qed.

Lemma toks_no_cr v : keys_ok v = true -> no_cr (toks v).
Proof.
  assert (Hp : forall ty b, b <> "013"%byte -> no_cr [(ty, [b])]).
  { intros ty b Hb. constructor; [|constructor]. simpl. apply not_elem_of_cons. split; [done|apply not_elem_of_nil]. }
  induction v as [v|z|b|l IH|kvs IH] using hval_ind'; intros Hk.
  - constructor; [apply quote_no_cr|constructor].
  - constructor; [apply numeral_no_cr|constructor].
  - constructor; [destruct b; by rewrite <- (bool_decide_spec (_ ∉ _))|constructor].
  - rewrite toks_HList. cbn [keys_ok] in Hk. rewrite forallb_forall in Hk. rewrite Forall_forall in IH.
    apply Forall_cons. split; [by apply (Forall_cons_1 _ _ _ (Hp LBRACK "["%byte ltac:(done)))|].
    apply Forall_app. split; [|by apply Hp]. apply Forall_concat, Forall_map, Forall_forall.
    intros v Hv. apply Forall_app. split; [|by apply Hp]. apply IH; [done|]. by apply Hk, list_elem_of_In.
  - rewrite toks_HObj. cbn [keys_ok] in Hk. rewrite forallb_forall in Hk. rewrite Forall_forall in IH.
    apply Forall_cons. split; [by apply (Forall_cons_1 _ _ _ (Hp LBRACE "{"%byte ltac:(done)))|].
    apply Forall_app. split; [|by apply Hp]. apply Forall_concat, Forall_map, Forall_forall.
    intros kv Hv.
    assert (Hkv : key_ok (fst kv) && keys_ok (snd kv) = true) by (by apply Hk, list_elem_of_In).
    apply andb_true_iff in Hkv as [Hkk Hkv].
    constructor; [by apply key_no_cr|]. apply Forall_cons.
    split; [by apply (Forall_cons_1 _ _ _ (Hp ASSIGN "="%byte ltac:(done)))|]. by apply IH.
Qed.

Lemma Parse_printed `{Unicode} kvs : keys_ok (HObj kvs) = true ->
  exists items, Parse (render kvs) = Some (Ret {| File_Node := ObjectList items; Comments := [] |}) /\
                Forall2 same_item kvs items.
Proof.
  intros Hk. apply Parse_render_same; [done|]. apply spell_no_cr.
  pose proof (toks_no_cr _ Hk) as Hn. rewrite toks_HObj in Hn. apply Forall_cons_1 in Hn as [_ Hn].
  by apply Forall_app in Hn as [? _].
Qed.

(** C13: Printing the items of a file and parsing the text gives a file with the
    same items in the same order and no comments: every key is the identifier that
    was printed, every list and object has the printed elements, and every literal
    is a token of the type and with the text that were printed. *)
Theorem Parse_render `{Unicode} kvs : keys_ok (HObj kvs) = true ->
  exists items, Parse (render kvs) = Some (Ret {| File_Node := ObjectList items; Comments := [] |}) /\
                same (HObj kvs) (ObjectType noPos noPos items).
Proof.
  intros Hk. destruct (Parse_printed kvs Hk) as (items & HP & Hs). exists items. split; [done|]. by constructor.
Qed.

Definition sample_items : list (list byte * hval) :=
  [(bytes "listener", HStr (bytes ":8080"));
   (bytes "network", HObj [(bytes "ports", HList [HInt 22; HInt (-1)]); (bytes "wired", HBool true)])].

Lemma Parse_render_witness :
  keys_ok (HObj sample_items) = true /\
  exists items, Parse (H := ascii_Unicode) (render sample_items) =
                  Some (Ret {| File_Node := ObjectList items; Comments := [] |}) /\
                same (HObj sample_items) (ObjectType noPos noPos items).
Proof.
  split; [vm_compute; reflexivity|].
  exact (Parse_render (H := ascii_Unicode) sample_items ltac:(vm_compute; reflexivity)).
Defined.
