(* ===== verification/HclJson.v ===== *)
(** * hcl/json: the parser of JSON configurations

    json/token, json/scanner and json/parser with flatten.go.  The scanner's
    structure has the fields of the HCL scanner's, so that both are values of the
    same record, and what is textually the same in both files ([unread], [peek],
    [err], the classes of runes) is shared. *)

From Stdlib Require Import ZArith Lia NArith Ascii Strings.Byte.
From stdpp Require Import base numbers gmap strings list fin_maps.
From coqutil Require Import Datatypes.RecordSetters.
From S2P Require Import Prelude GoNet Utf8 HclStrconv HclToken HclAst StateM HclScanner.

Import RecordSetters.TriangleBracketNotations.
Import token ast scanner.
Open Scope Z_scope.

Module json.

(** ** token.go *)

Inductive JType :=
| J_ILLEGAL | J_EOF
| J_NUMBER | J_FLOAT | J_BOOL | J_STRING | J_NULL
| J_LBRACK | J_LBRACE | J_COMMA | J_PERIOD | J_COLON | J_RBRACK | J_RBRACE.

#[export] Instance JType_eq_dec : EqDecision JType.
Proof. solve_decision. Defined.

#[export] Instance Pos_eq_dec : EqDecision Pos.
Proof. solve_decision. Defined.

Record JToken := { JTok : JType; JPos : Pos; JText : list byte }.

Definition JType_String (t : JType) : string :=
  match t with
  | J_ILLEGAL => "ILLEGAL" | J_EOF => "EOF"
  | J_NUMBER => "NUMBER" | J_FLOAT => "FLOAT" | J_BOOL => "BOOL" | J_STRING => "STRING" | J_NULL => "NULL"
  | J_LBRACK => "LBRACK" | J_LBRACE => "LBRACE" | J_COMMA => "COMMA" | J_PERIOD => "PERIOD"
  | J_COLON => "COLON" | J_RBRACK => "RBRACK" | J_RBRACE => "RBRACE"
  end.

Definition JToken_String (t : JToken) : string :=
  token.Pos_String (JPos t) +:+ " " +:+ JType_String (JTok t) +:+ " " +:+ text (JText t).

Definition HCLToken (t : JToken) : outcome token.Token :=
  let mk ty txt js := Ret {| token.Type' := ty; Pos' := noPos; token.Text := txt; token.JSON := js |} in
  match JTok t with
  | J_BOOL => mk token.BOOL (JText t) false
  | J_FLOAT => mk token.FLOAT (JText t) false
  | J_NULL => mk token.STRING [] false
  | J_NUMBER => mk token.NUMBER (JText t) false
  | J_STRING => mk token.STRING (JText t) true
  | ty => Panic (PanicValue ("unimplemented HCLToken for type: " +:+ JType_String ty))
  end.

(** ** scanner.go *)

#[local] Abbreviation M := (ST Scanner).

(** As in the HCL scanner, but an illegal encoding leaves [prevPos] as it was. *)
Definition next : M Z :=
  r ← ReadRune;
  match r with
  | None =>
      _ ← st.upd (fun s => s <| srcPos := advance 0 (srcPos s) |> <| lastCharLen := 0 |>);
      mret eof
  | Some (ch, size) =>
      if decide (ch = RuneError /\ size = 1) then
        _ ← st.upd (fun s => s <| srcPos := advance size (srcPos s) |> <| lastCharLen := size |>);
        _ ← err "illegal UTF-8 encoding"; mret ch
      else
        _ ← st.upd (fun s => s <| prevPos := srcPos s |>);
        _ ← st.upd (fun s => s <| srcPos := advance size (srcPos s) |> <| lastCharLen := size |>);
        _ ← (if decide (ch = 10) then
               st.upd (fun s => s <| srcPos := newline (srcPos s) |>
                                  <| lastLineLen := Column (srcPos s) |>)
             else mret tt);
        mret ch
  end.

Fixpoint nextWhile (turns : nat) (p : Z -> bool) (c : Z) (ran : bool) : M (Z * bool) :=
  match turns with
  | O => st.stuck
  | S turns =>
      if p c then c ← next; nextWhile turns p c true
      else mret (c, ran)
  end.

Definition nextLoop (p : Z -> bool) (c : Z) : M (Z * bool) :=
  s ← st.get; nextWhile (length (buf s) + 2) p c false.

Definition scanMantissa (c : Z) : M Z :=
  '(c, scanned) ← nextLoop isDecimal c;
  _ ← (if (scanned : bool) && bool_decide (c <> eof) then unread else mret tt);
  mret c.

Definition scanFraction (c : Z) : M Z :=
  if decide (c = ch ".") then c ← peek; scanMantissa c else mret c.

Definition scanExponent (c : Z) : M Z :=
  if isExp c then
    c ← next;
    c ← (if decide (c = ch "-" \/ c = ch "+") then next else mret c);
    scanMantissa c
  else mret c.

Definition scanNumber (c : Z) : M JType :=
  let zero := bool_decide (c = ch "0") in
  s ← st.get;
  let pos := srcPos s in
  _ ← scanMantissa c;
  c ← next;
  if isExp c then _ ← scanExponent c; mret J_FLOAT
  else if decide (c = ch ".") then
    c ← scanFraction c;
    _ ← (if isExp c then c ← next; scanExponent c else mret c);
    mret J_FLOAT
  else
    _ ← (if decide (c <> eof) then unread else mret tt);
    s ← st.get;
    _ ← (if zero && bool_decide (pos <> srcPos s) then err "numbers cannot start with 0" else mret tt);
    mret J_NUMBER.

Fixpoint scanDigitsLoop (n : nat) (c base : Z) : M (Z * nat) :=
  match n with
  | O => mret (c, O)
  | S n' => if decide (digitVal c < base) then c ← next; scanDigitsLoop n' c base else mret (c, n)
  end.

(** The last rune is put back whatever it is. *)
Definition scanDigits (c base : Z) (n : nat) : M Z :=
  '(c, n) ← scanDigitsLoop n c base;
  _ ← (if decide (0 < n)%nat then err "illegal char escape" else mret tt);
  _ ← unread;
  mret c.

Definition scanEscape : M Z :=
  c ← next;
  if decide (c = ch "a" \/ c = ch "b" \/ c = ch "f" \/ c = ch "n" \/ c = ch "r" \/ c = ch "t" \/
             c = ch "v" \/ c = ch "\" \/ c = ch "034") then mret c
  else if decide (ch "0" <= c <= ch "7") then scanDigits c 8 3
  else if decide (c = ch "x") then c ← next; scanDigits c 16 2
  else if decide (c = ch "u") then c ← next; scanDigits c 16 4
  else if decide (c = ch "U") then c ← next; scanDigits c 16 8
  else _ ← err "illegal char escape"; mret c.

Fixpoint scanStringLoop (turns : nat) (braces : Z) : M unit :=
  match turns with
  | O => st.stuck
  | S turns =>
      c ← next;
      if decide (c = 10 \/ c < 0 \/ c = eof) then err "literal not terminated"
      else if decide (c = ch "034") then mret tt
      else
        opens ← (if decide (braces = 0 /\ c = ch "$") then p ← peek; mret (bool_decide (p = ch "{"))
                 else mret false);
        braces ← (if opens : bool then _ ← next; mret (braces + 1)
                  else mret (if decide (braces > 0 /\ c = ch "{") then braces + 1 else braces));
        let braces := if decide (braces > 0 /\ c = ch "}") then braces - 1 else braces in
        _ ← (if decide (c = ch "\") then scanEscape else mret c);
        scanStringLoop turns braces
  end.

Definition scanString : M unit :=
  s ← st.get; scanStringLoop (length (buf s) + 1) 0.

Section scan.
Context `{Unicode}.

Definition scanIdentifier : M (list byte) :=
  s ← st.get;
  let offs := Offset (srcPos s) - lastCharLen s in
  c ← next;
  '(c, _) ← nextLoop (fun c => isLetter c || isDigit c || bool_decide (c = ch "-")) c;
  _ ← (if decide (c <> eof) then unread else mret tt);
  s ← st.get;
  st.lift (slice_Z (src s) offs (Offset (srcPos s))).

Definition scanToken (c : Z) : M JType :=
  if isLetter c then
    lit ← scanIdentifier;
    if decide (lit = bytes "true" \/ lit = bytes "false") then mret J_BOOL
    else if decide (lit = bytes "null") then mret J_NULL
    else _ ← err "illegal char"; mret J_ILLEGAL
  else if isDecimal c then scanNumber c
  else if decide (c = eof) then mret J_EOF
  else if decide (c = ch "034") then _ ← scanString; mret J_STRING
  else if decide (c = ch ".") then
    c ← peek;
    if isDecimal c then c ← scanMantissa c; _ ← scanExponent c; mret J_FLOAT
    else mret J_PERIOD
  else if decide (c = ch "[") then mret J_LBRACK
  else if decide (c = ch "]") then mret J_RBRACK
  else if decide (c = ch "{") then mret J_LBRACE
  else if decide (c = ch "}") then mret J_RBRACE
  else if decide (c = ch ",") then mret J_COMMA
  else if decide (c = ch ":") then mret J_COLON
  else if decide (c = ch "-") then
    p ← peek;
    if isDecimal p then c ← next; scanNumber c else _ ← err "illegal char"; mret J_ILLEGAL
  else _ ← err ("illegal char: " +:+ text (EncodeRune c)); mret J_ILLEGAL.

Definition Scan : M JToken :=
  c ← next;
  '(c, _) ← nextLoop isWhitespace c;
  _ ← st.upd markToken;
  tok ← scanToken c;
  _ ← st.upd (fun s => s <| tokEnd := Offset (srcPos s) |>);
  s ← st.get;
  tokenText ← (if decide (tokStart s >= 0) then st.lift (slice_Z (src s) (tokStart s) (tokEnd s))
               else mret []);
  _ ← st.upd (fun s => s <| tokStart := tokEnd s |>);
  mret {| JTok := tok; JPos := tokPos s; JText := tokenText |}.
End scan.

(** ** parser.go *)

(** [unscan] is never called, so that the buffer of one token stays empty. *)
Record JParser := mkJParser { jsc : Scanner; jtok : JToken }.

Definition newParser (s : list byte) : JParser :=
  {| jsc := New s; jtok := {| JTok := J_ILLEGAL; JPos := noPos; JText := [] |} |}.

Definition errEofToken : error := ErrorString "EOF token found".

#[local] Abbreviation P := (ST JParser).

Section parser.
Context `{Unicode}.

Definition scan : P JToken :=
  t ← st.zoom jsc (fun s p => p <| jsc := s |>) Scan;
  _ ← st.upd (fun p => p <| jtok := t |>);
  mret t.

Fixpoint objectKeyLoop (turns : nat) (keys : list ObjectKey) : P (list ObjectKey) :=
  match turns with
  | O => st.stuck
  | S turns =>
      t ← scan;
      match JTok t with
      | J_EOF => st.fail errEofToken
      | J_STRING => k ← st.lift (HCLToken t); objectKeyLoop turns (keys ++ [k])
      | J_COLON =>
          if decide (length keys = 0)%nat then
            st.fail (ErrorString ("expected: STRING got: " +:+ JType_String (JTok t)))
          else mret keys
      | J_ILLEGAL => st.fail (ErrorString "illegal")
      | ty => st.fail (ErrorString ("expected: STRING got: " +:+ JType_String ty))
      end
  end.

Definition objectKey : P (list ObjectKey) :=
  p ← st.get; objectKeyLoop (length (buf (jsc p)) + 2) [].

Definition literalType : P Node :=
  p ← st.get; t ← st.lift (HCLToken (jtok p)); mret (LiteralType t None None).

(** The methods, over the methods they call. *)
Definition objectListBody (objectItem : P ObjectItem)
    (objectList : list ObjectItem -> P (list ObjectItem * option error)) (items : list ObjectItem) :
  P (list ObjectItem * option error) :=
  r ← st.try objectItem;
  match r with
  | inr e => if decide (e = errEofToken) then mret (items, None) else mret (items, Some e)
  | inl i =>
      t ← scan;
      if decide (JTok t <> J_COMMA) then mret (items ++ [i], None)
      else objectList (items ++ [i])
  end.

Definition objectItemBody (objectValue : P Node) : P ObjectItem :=
  keys ← objectKey;
  p ← st.get;
  val ← objectValue;
  mret (Item keys (JPos (jtok p)) val None None).

Definition objectValueBody (objectType : P Node) (listType : list Node -> P Node) : P Node :=
  t ← scan;
  match JTok t with
  | J_NUMBER | J_FLOAT | J_BOOL | J_NULL | J_STRING => literalType
  | J_LBRACE => objectType
  | J_LBRACK => listType []
  | J_EOF => st.fail errEofToken
  | _ => st.fail (ErrorString ("Expected object value, got unknown token: " +:+ JToken_String t))
  end.

Definition objectTypeBody (objectList : list ObjectItem -> P (list ObjectItem * option error)) : P Node :=
  '(l, err) ← objectList [];
  p ← st.get;
  match err with
  | Some e =>
      if decide (JTok (jtok p) <> J_RBRACE) then st.fail e
      else mret (ObjectType noPos noPos l)
  | None => mret (ObjectType noPos noPos l)
  end.

(** A turn of the loop of [listType]. *)
Definition listTypeBody (objectType : P Node) (listType : list Node -> P Node) (l : list Node) : P Node :=
  t ← scan;
  match JTok t with
  | J_NUMBER | J_FLOAT | J_STRING => node ← literalType; listType (l ++ [node])
  | J_COMMA | J_BOOL | J_LBRACK => listType l
  | J_LBRACE => node ← objectType; listType (l ++ [node])
  | J_RBRACK => mret (ListType noPos noPos l)
  | ty => st.fail (ErrorString ("unexpected token while parsing list: " +:+ JType_String ty))
  end.

(** The methods call each other. *)
Fixpoint objectList (turns : nat) (items : list ObjectItem) : P (list ObjectItem * option error) :=
  match turns with
  | O => st.stuck
  | S turns => objectListBody (objectItem turns) (objectList turns) items
  end
with objectItem (turns : nat) : P ObjectItem :=
  match turns with
  | O => st.stuck
  | S turns => objectItemBody (objectValue turns)
  end
with objectValue (turns : nat) : P Node :=
  match turns with
  | O => st.stuck
  | S turns => objectValueBody (objectType turns) (listType turns)
  end
with objectType (turns : nat) : P Node :=
  match turns with
  | O => st.stuck
  | S turns => objectTypeBody (objectList turns)
  end
with listType (turns : nat) (l : list Node) : P Node :=
  match turns with
  | O => st.stuck
  | S turns => listTypeBody (objectType turns) (listType turns) l
  end.

(** [object]: the root of a JSON text. *)
Definition object (turns : nat) : P Node :=
  t ← scan;
  match JTok t with
  | J_LBRACE => objectType turns
  | J_EOF => st.fail errEofToken
  | _ => st.fail (ErrorString ("Expected object, got unknown token: " +:+ JToken_String t))
  end.
End parser.

(** ** flatten.go *)

Definition is_object (n : Node) : bool := match n with ObjectType _ _ _ => true | _ => false end.

(** The keys, position and comments of [item] with another value. *)
Definition with_Val (item : ObjectItem) (keys : list ObjectKey) (v : Node) : ObjectItem :=
  let '(Item _ a _ lead line) := item in Item keys a v lead line.

Definition flattenListType (l : list Node) (item : ObjectItem) (items frontier : list ObjectItem) :
  list ObjectItem * list ObjectItem :=
  if decide (length l = 0)%nat then (items ++ [item], frontier)
  else if forallb is_object l then
    (items, frontier ++ ((fun elem => with_Val item (Keys item) elem) <$> l))
  else (items ++ [item], frontier).

Definition flattenObjectType (l : list ObjectItem) (item : ObjectItem) (items frontier : list ObjectItem) :
  list ObjectItem * list ObjectItem :=
  if decide (length l = 0)%nat then (items ++ [item], frontier)
  else if forallb (fun sub => is_object (Val sub)) l then
    (items, frontier ++ ((fun sub => with_Val item (Keys item ++ Keys sub) (Val sub)) <$> l))
  else (items ++ [item], frontier).

(** The loop over the frontier, which is popped at its end. *)
Fixpoint flattenLoop (turns : nat) (items frontier : list ObjectItem) : option (list ObjectItem) :=
  match turns with
  | O => None
  | S turns =>
      match last frontier with
      | None => Some items
      | Some item =>
          let frontier := take (length frontier - 1) frontier in
          let '(items, frontier) :=
            match Val item with
            | ObjectType _ _ l => flattenObjectType l item items frontier
            | ListType _ _ l => flattenListType l item items frontier
            | _ => (items ++ [item], frontier)
            end in
          flattenLoop turns items frontier
      end
  end.

(** The nodes of a tree, which bound the turns of the loop. *)
Fixpoint size (n : Node) : nat :=
  S match n with
    | LiteralType _ _ _ => 0
    | ListType _ _ l => list_sum (map size l)
    | ObjectType _ _ l | ObjectList l => list_sum (map item_size l)
    | ItemNode i => item_size i
    end
with item_size (i : ObjectItem) : nat :=
  match i with Item _ _ v _ _ => S (size v) end.

Definition sizes (l : list ObjectItem) : nat := list_sum (map item_size l).

(** Rebuilds the items of a list; the loop leaves them in the reverse order. *)
Definition flattenItems (l : list ObjectItem) : option (list ObjectItem) :=
  reverse <$> flattenLoop (S (sizes l)) [] l.

(** [ast.Walk] with the function of [flattenObjects], which rewrites object lists
    before their items are walked. *)
Fixpoint walk (turns : nat) (n : Node) : option Node :=
  match turns with
  | O => None
  | S turns =>
      let walkItem i := v ← walk turns (Val i); Some (with_Val i (Keys i) v) in
      match n with
      | LiteralType _ _ _ => Some n
      | ListType a b l => l ← mapM (walk turns) l; Some (ListType a b l)
      | ObjectType a b l => l ← flattenItems l; l ← mapM walkItem l; Some (ObjectType a b l)
      | ObjectList l => l ← flattenItems l; l ← mapM walkItem l; Some (ObjectList l)
      | ItemNode i => i ← walkItem i; Some (ItemNode i)
      end
  end.

Definition flattenObjects (n : Node) : option Node := walk (size n) n.

(** [Parse]; the error of the scanner that was reported last goes first. *)
Definition Parse `{Unicode} (src : list byte) : option (outcome File) :=
  match object (4 * length src + 8) (newParser src) with
  | None => None
  | Some (r, p) =>
      match last (Errors (jsc p)), r with
      | _, Panic v => Some (Panic v)
      | Some (pos, msg), _ => Some (Err (ErrorString (Pos_String pos +:+ ": " +:+ msg)))
      | None, Err e => Some (Err e)
      | None, Ret o =>
          let root := match o with ObjectType _ _ l => ObjectList l | _ => o end in
          n ← flattenObjects root; Some (Ret {| File_Node := n; Comments := [] |})
      end
  end.

End json.
