(* ===== verification/HclJsonSpec.v ===== *)
(** * The JSON parser ends, and what it flattens

    The loop of [flattenObjects] over its frontier against a definition by
    structural recursion; the walk over the tree, the scanner and the parser end
    for every text (the scanner may panic on some). *)

From Stdlib Require Import ZArith Lia NArith Ascii Strings.Byte.
From stdpp Require Import base numbers gmap strings list fin_maps.
From coqutil Require Import Datatypes.RecordSetters.
From S2P Require Import Prelude GoNet Utf8 HclStrconv HclToken HclAst StateM HclScanner HclScannerSpec HclJson.

Import token ast json.
Open Scope nat_scope.

(** ** Flattening by recursion *)

(** The items that stand for [item] with the keys [keys] and the value [v]: an
    object of objects is one item per member with the keys joined, a list of
    objects one item per element, and anything else is kept. *)
Fixpoint flat (item : ObjectItem) (keys : list ObjectKey) (v : Node) : list ObjectItem :=
  match v with
  | ObjectType _ _ l =>
      if bool_decide (0 < length l) && forallb (fun sub => is_object (Val sub)) l
      then concat (map (fun sub => match sub with Item ks _ w _ _ => flat item (keys ++ ks) w end) l)
      else [with_Val item keys v]
  | ListType _ _ l =>
      if bool_decide (0 < length l) && forallb is_object l then concat (map (flat item keys) l)
      else [with_Val item keys v]
  | _ => [with_Val item keys v]
  end.

Definition flat_item (i : ObjectItem) : list ObjectItem := flat i (Keys i) (Val i).

(** Only the position and the comments of [item] matter. *)
Fixpoint flat_with (v : Node) : forall item ks w keys,
  flat (with_Val item ks w) keys v = flat item keys v.
Proof.
  assert (Hw : forall item ks w keys v, with_Val (with_Val item ks w) keys v = with_Val item keys v) by (by intros []).
  destruct v as [t0 c1 c2|a b l|a b l|l0|i0]; intros item ks w keys; cbn [flat]; rewrite ?Hw; try done.
  - destruct (_ && _); [|done]. f_equal. induction l as [|x l IH]; [done|]. cbn [map]. by rewrite flat_with, IH.
  - destruct (_ && _); [|done]. f_equal. induction l as [|[ks' a' w' c d] l IH]; [done|]. cbn [map]. by rewrite flat_with, IH.
Qed.

Lemma flat_item_with item ks v : flat_item (with_Val item ks v) = flat item ks v.
Proof. unfold flat_item. rewrite <- (flat_with v item ks v ks). by destruct item. Qed.

(** ** The loop *)

(** Nodes below the items of the frontier. *)
Definition nodes (l : list ObjectItem) : nat := list_sum (map (fun i => size (Val i)) l).

Lemma nodes_app l k : nodes (l ++ k) = nodes l + nodes k.
Proof. unfold nodes. rewrite map_app. apply list_sum_app. Qed.

Lemma nodes_sizes l : nodes l <= sizes l.
Proof. unfold nodes, sizes. induction l as [|[] l IH]; [done|]. simpl in *. lia. Qed.

(** One turn: the item that is popped is kept, or its parts go to the frontier. *)
Lemma flatten_turn item items fr :
  exists items' new,
    match Val item with
    | ObjectType _ _ l => flattenObjectType l item items fr
    | ListType _ _ l => flattenListType l item items fr
    | _ => (items ++ [item], fr)
    end = (items ++ items', fr ++ new) /\
    items' ++ reverse (concat (map flat_item new)) = reverse (flat_item item) /\
    nodes new < size (Val item).
Proof.
  assert (Hid : with_Val item (Keys item) (Val item) = item) by (by destruct item).
  assert (Hkeep : flat_item item = [item] -> exists items' new,
    (items ++ [item], fr) = (items ++ items', fr ++ new) /\
    items' ++ reverse (concat (map flat_item new)) = reverse (flat_item item) /\ nodes new < size (Val item)).
  { intros ->. exists [item], []. rewrite app_nil_r. split_and!; try done. unfold nodes. destruct (Val item); simpl; lia. }
  unfold flat_item in *. destruct (Val item) as [t c d|a b l|a b l|l|i] eqn:Ev; cbn [flat] in *;
    try (apply Hkeep; by rewrite Hid).
  - unfold flattenListType. destruct l as [|x l]; [apply Hkeep; by rewrite Hid|].
    rewrite (decide_False (P := length (x :: l) = 0)) in * by done.
    rewrite (bool_decide_eq_true_2 (0 < length (x :: l))) in * by (simpl; lia). cbn [andb] in *.
    destruct (forallb is_object (x :: l)); [|apply Hkeep; by rewrite Hid]. clear Hkeep.
    exists [], ((fun elem => with_Val item (Keys item) elem) <$> (x :: l)). rewrite app_nil_r. split_and!; [done| |].
    + cbn [app]. f_equal. f_equal. change (fmap (M := list)) with (@map Node ObjectItem). rewrite map_map.
      apply map_ext. intros v. apply flat_item_with.
    + unfold nodes. change (fmap (M := list)) with (@map Node ObjectItem). rewrite map_map.
      rewrite (map_ext _ size) by (intros; by destruct item). cbn [size]. lia.
  - unfold flattenObjectType. destruct l as [|x l]; [apply Hkeep; by rewrite Hid|].
    rewrite (decide_False (P := length (x :: l) = 0)) in * by done.
    rewrite (bool_decide_eq_true_2 (0 < length (x :: l))) in * by (simpl; lia). cbn [andb] in *.
    destruct (forallb _ (x :: l)); [|apply Hkeep; by rewrite Hid]. clear Hkeep.
    exists [], ((fun sub => with_Val item (Keys item ++ Keys sub) (Val sub)) <$> (x :: l)). rewrite app_nil_r.
    split_and!; [done| |].
    + cbn [app]. f_equal. f_equal. change (fmap (M := list)) with (@map ObjectItem ObjectItem). rewrite map_map.
      apply map_ext. intros [ks a' v c d]. apply flat_item_with.
    + change (fmap (M := list)) with (@map ObjectItem ObjectItem).
      assert (nodes (map (fun sub => with_Val item (Keys item ++ Keys sub) (Val sub)) (x :: l)) <= sizes (x :: l)); [|cbn [size]; unfold sizes in *; lia].
      clear. unfold nodes, sizes. rewrite map_map. induction (x :: l) as [|[] k IH]; [done|].
      simpl in *. destruct item. simpl in *. lia.
Qed.

Lemma flattenLoop_flat turns : forall items fr, nodes fr < turns ->
  flattenLoop turns items fr = Some (items ++ reverse (concat (map flat_item fr))).
Proof.
  induction turns as [|turns IH]; intros items fr Ht; [lia|]. cbn [flattenLoop].
  destruct fr as [|item fr _] using rev_ind; [by rewrite app_nil_r|].
  rewrite last_snoc, length_app, Nat.add_sub, take_app_length by done.
  destruct (flatten_turn item items fr) as (items' & new & -> & Hf & Hn).
  rewrite nodes_app in Ht. change (nodes [item]) with (size (Val item) + 0) in Ht.
  rewrite IH by (rewrite nodes_app; lia). f_equal.
  rewrite !map_app, !concat_app, !reverse_app, <- !(assoc_L (++)), (assoc_L (++) items'), Hf.
  by rewrite map_cons, concat_cons, app_nil_r.
Qed.

Lemma flattenItems_spec l : flattenItems l = Some (concat (map flat_item l)).
Proof.
  unfold flattenItems. rewrite flattenLoop_flat by (pose proof (nodes_sizes l); lia).
  cbn [fmap option_fmap option_map app]. by rewrite reverse_involutive.
Qed.

(** ** The walk *)

Fixpoint flat_size (v : Node) : forall item keys i, i ∈ flat item keys v -> size (Val i) <= size v.
Proof.
  assert (Hw : forall item keys v i, i ∈ [with_Val item keys v] -> size (Val i) <= size v).
  { intros item keys w i ->%list_elem_of_singleton. by destruct item. }
  destruct v as [t0 c1 c2|a b l|a b l|l0|i0]; intros item keys i; cbn [flat]; try apply Hw.
  - destruct (_ && _); [|apply Hw]. cbn [size].
    induction l as [|x l IH]; cbn [map concat]; [by intros ?%not_elem_of_nil|].
    intros [Hi|Hi]%elem_of_app; [specialize (flat_size x _ _ _ Hi)|specialize (IH Hi)]; unfold list_sum in *; simpl; lia.
  - destruct (_ && _); [|apply Hw]. cbn [size].
    induction l as [|[ks a' w c d] l IH]; cbn [map concat]; [by intros ?%not_elem_of_nil|].
    intros [Hi|Hi]%elem_of_app; [specialize (flat_size w _ _ _ Hi)|specialize (IH Hi)]; unfold list_sum in *; simpl; lia.
Qed.

Lemma concat_flat_size l i : i ∈ concat (map flat_item l) -> size (Val i) <= sizes l.
Proof.
  induction l as [|x l IH]; cbn [map concat]; [by intros ?%not_elem_of_nil|].
  intros [Hi|Hi]%elem_of_app; [apply flat_size in Hi|specialize (IH Hi)]; destruct x; unfold sizes in *; simpl in *; lia.
Qed.

Lemma walk_total turns : forall n, size n <= turns -> is_Some (walk turns n).
Proof.
  induction turns as [|turns IH]; intros n Hn; [destruct n; simpl in Hn; lia|].
  assert (Hitem : forall i, size (Val i) <= turns -> is_Some (v ← walk turns (Val i); Some (with_Val i (Keys i) v))).
  { intros i Hi. destruct (IH (Val i) Hi) as [v ->]. by eexists. }
  assert (Hlist : forall l, sizes l <= turns -> is_Some
    (mapM (fun i => v ← walk turns (Val i); Some (with_Val i (Keys i) v)) (concat (map flat_item l)))).
  { intros l Hl. apply mapM_is_Some_2, Forall_forall. intros i Hi. apply Hitem.
    pose proof (concat_flat_size l i Hi). lia. }
  destruct n as [t c d|a b l|a b l|l|i]; cbn [walk size] in *.
  - by eexists.
  - destruct (mapM_is_Some_2 (walk turns) l) as [l' ->]; [|by eexists]. apply Forall_forall. intros x Hx. apply IH.
    enough (size x <= list_sum (map size l)) by lia. clear -Hx. induction l as [|y l IH]; [by apply not_elem_of_nil in Hx|].
    apply elem_of_cons in Hx as [<-|Hx]; [|specialize (IH Hx)]; simpl; lia.
  - rewrite flattenItems_spec. destruct (Hlist l) as [l' E]; [unfold sizes; lia|]. simpl. rewrite E. by eexists.
  - rewrite flattenItems_spec. destruct (Hlist l) as [l' E]; [unfold sizes; lia|]. simpl. rewrite E. by eexists.
  - destruct (Hitem i) as [i' E]; [destruct i; simpl in *; lia|]. rewrite E. by eexists.
Qed.

(** ** The scanner ends *)

(** The computation ends without an error; when it does not panic, [Q] holds. *)
Definition unless_panic {S A} (Q : A -> S -> Prop) (r : outcome A) (s : S) : Prop :=
  match r with
  | Ret a => Q a s
  | Err _ => False
  | Panic _ => True
  end.

Lemma slice_Z_no_error {A} (l : list A) i j e : slice_Z l i j <> Err e.
Proof. unfold slice_Z, slice. repeat case_decide; done. Qed.

Lemma wp_up {S A B} (m : ST S A) (f : A -> ST S B) (P : A -> S -> Prop) (Q : B -> S -> Prop) s :
  wp m (unless_panic P) s -> (forall a s, P a s -> wp (f a) (unless_panic Q) s) -> wp (m ≫= f) (unless_panic Q) s.
Proof.
  intros Hm Hf. apply wp_bind. eapply wp_conseq; [exact Hm|]. intros [a|e|p] s' HP; [by apply Hf|done..].
Qed.

Lemma wp_up_weaken {S A} (m : ST S A) (P Q : A -> S -> Prop) s :
  wp m (unless_panic P) s -> (forall a s, P a s -> Q a s) -> wp m (unless_panic Q) s.
Proof. intros Hm HQ. eapply wp_conseq; [exact Hm|]. intros [] ? ?; simpl in *; auto. Qed.

(** No more than [k] bytes are left, and with the rune that may be put back. *)
Definition few (k : nat) (s : scanner.Scanner) : Prop := remaining s <= k.
Definition held (k : nat) (s : scanner.Scanner) : Prop := remaining s + length (scanner.lastRead s) <= k.

Lemma held_few k s : held k s -> few k s.
Proof. unfold held, few. lia. Qed.
Lemma few_refl s : few (remaining s) s.
Proof. by unfold few. Qed.
#[local] Hint Resolve held_few few_refl : core.

Lemma next_few k s : few k s -> wp next (unless_panic (fun c s' => held k s' /\
  (remaining s' <= remaining s - 1) /\ (scanner.buf s = [] -> c = scanner.eof))) s.
Proof.
  unfold few, held, remaining. intros Hk. unfold next, scanner.ReadRune. wp_steps.
  destruct (scanner.buf s) as [|c b] eqn:Eb; wp_steps.
  { destruct s. fields. subst. cbn in *. split_and!; try done; lia. }
  destruct (DecodeRune_width (c :: b)) as [Hw1 Hw2]. specialize (Hw2 ltac:(done)).
  destruct (DecodeRune (c :: b)) as [r n] eqn:E. cbn [fst snd] in Hw1, Hw2.
  assert (Hl : length (drop n (c :: b)) + length (take n (c :: b)) = length (c :: b)).
  { rewrite length_drop, length_take. lia. }
  rewrite length_drop in Hl. destruct s. wp_steps.
  destruct (decide (r = RuneError /\ _)); [unfold scanner.err; wp_steps; fields|].
  { rewrite length_drop. split_and!; try done; simpl length in *; lia. }
  wp_steps. destruct (decide (r = 10%Z)); wp_steps; fields; rewrite length_drop; split_and!; try done; simpl length in *; lia.
Qed.

Lemma peek_few k s : few k s -> wp scanner.peek (unless_panic (fun c s' => held k s')) s.
Proof.
  unfold few, held, remaining. intros Hk. unfold scanner.peek, scanner.ReadRune. wp_steps.
  destruct (scanner.buf s) as [|c b] eqn:Eb; wp_steps.
  { destruct s. fields. subst. cbn in *. lia. }
  destruct (DecodeRune_width (c :: b)) as [Hw1 Hw2]. specialize (Hw2 ltac:(done)).
  destruct (DecodeRune (c :: b)) as [r n] eqn:E. cbn [fst snd] in Hw1, Hw2.
  destruct s. unfold scanner.UnreadRune. wp_steps. fields.
  rewrite decide_False by (destruct n; [lia|done]). wp_steps. fields.
  assert (Etd : take n (c :: b) ++ drop n (c :: b) = c :: b) by apply take_drop. rewrite Etd. simpl in *. lia.
Qed.

Lemma unread_held k s : held k s -> wp scanner.unread (unless_panic (fun _ s' => held k s')) s.
Proof.
  unfold held, remaining. intros Hk. unfold scanner.unread, scanner.UnreadRune. wp_steps.
  case_decide; wp_steps; [done|]. destruct s. fields. rewrite length_app. lia.
Qed.

Lemma err_held k msg s : held k s -> wp (scanner.err msg) (unless_panic (fun _ s' => held k s')) s.
Proof. unfold scanner.err. wp_steps. by destruct s. Qed.

Lemma err_few k msg s : few k s -> wp (scanner.err msg) (unless_panic (fun _ s' => few k s')) s.
Proof. unfold scanner.err. wp_steps. by destruct s. Qed.

(** A loop over runes in [p]; if it runs, the last rune may be put back. *)
Lemma nextWhile_few (p : Z -> bool) (before : Prop) turns : forall k s c ran, p scanner.eof = false -> few k s ->
  (before \/ ran = true -> held k s) ->
  remaining s + 2 <= turns \/ (p c = false /\ 1 <= turns) ->
  wp (nextWhile turns p c ran) (unless_panic (fun '(c', ran') s' => few k s' /\ (before \/ ran' = true -> held k s') /\
    remaining s' <= remaining s /\ p c' = false /\ (c = scanner.eof -> c' = scanner.eof))) s.
Proof.
  induction turns as [|turns IH]; intros k s c ran Hp Hk Hb Hn; [lia|]. cbn [nextWhile].
  destruct (p c) eqn:Ec; [|by wp_steps; split_and!; auto].
  destruct Hn as [Hn|[? _]]; [|congruence].
  eapply wp_up; [by apply (next_few k)|]. intros c' s' (Hh & Hl & He). eapply wp_up_weaken; [apply (IH k); auto|].
  - destruct (decide (scanner.buf s = [])) as [E|E]; [right; rewrite He by done; split; [done|lia]|].
    left. assert (remaining s <> 0) by (unfold remaining; by destruct (scanner.buf s)). lia.
  - intros [c2 ran2] s2 (? & ? & ? & ? & ?). split_and!; try done; [lia|]. intros ->. congruence.
Qed.

Lemma nextLoop_few (p : Z -> bool) (before : Prop) k s c : p scanner.eof = false -> few k s -> (before -> held k s) ->
  wp (nextLoop p c) (unless_panic (fun '(c', ran') s' => few k s' /\ (before \/ ran' = true -> held k s') /\
    remaining s' <= remaining s /\ p c' = false /\ (c = scanner.eof -> c' = scanner.eof))) s.
Proof.
  intros Hp Hk Hb. unfold nextLoop. apply wp_bind, wp_get. apply nextWhile_few; try done; [|by left].
  intros [?|?]; [auto|done].
Qed.

(** Methods that end and leave no more bytes than there were. *)
Definition shrinks {A} (m : ST scanner.Scanner A) : Prop :=
  forall k s, few k s -> wp m (unless_panic (fun _ s' => few k s')) s.

Lemma shrinks_bind {A B} (m : ST scanner.Scanner A) (f : A -> ST scanner.Scanner B) :
  shrinks m -> (forall a, shrinks (f a)) -> shrinks (m ≫= f).
Proof. intros Hm Hf k s Hk. eapply wp_up; [by apply Hm|]. intros a s' Hs'. by apply Hf. Qed.

Lemma shrinks_ret {A} (a : A) : shrinks (mret a).
Proof. intros k s Hk. by apply wp_ret. Qed.

Lemma shrinks_next : shrinks next.
Proof. intros k s Hk. eapply wp_up_weaken; [by apply next_few|]. intros c s' [? _]. auto. Qed.

Lemma shrinks_peek : shrinks scanner.peek.
Proof. intros k s Hk. eapply wp_up_weaken; [by apply peek_few|]. auto. Qed.

Lemma shrinks_err msg : shrinks (scanner.err msg).
Proof. intros k s Hk. by apply err_few. Qed.

(** Code after [next], which may put the rune back. *)
Lemma shrinks_held {A} (f : Z -> ST scanner.Scanner A) :
  (forall k s c, held k s -> wp (f c) (unless_panic (fun _ s' => few k s')) s) -> shrinks (next ≫= f).
Proof. intros Hf k s Hk. eapply wp_up; [by apply next_few|]. intros c s' [? _]. by apply Hf. Qed.

Create HintDb shrinks.
#[export] Hint Resolve shrinks_bind shrinks_ret shrinks_next shrinks_peek shrinks_err : shrinks.

Ltac shrinks :=
  repeat first
    [ progress intros
    | solve [eauto with shrinks nocore]
    | apply shrinks_bind
    | match goal with |- shrinks (match ?x with _ => _ end) => destruct x end ].

(** A goal about one part of a method. *)
Ltac by_shrinks :=
  match goal with |- wp ?m _ _ => let Hm := fresh in assert (Hm : shrinks m) by shrinks; apply Hm end.

Lemma unread_then {A} k s (a : A) : held k s -> wp (_ ← scanner.unread; mret a) (unless_panic (fun _ s' => few k s')) s.
Proof. intros Hk. eapply wp_up; [by apply unread_held|]. intros ? s' Hs'. apply wp_ret. simpl. auto. Qed.

Lemma shrinks_scanMantissa c : shrinks (scanMantissa c).
Proof.
  intros k s Hk. unfold scanMantissa. eapply wp_up; [by apply (nextLoop_few scanner.isDecimal False k)|].
  intros [c' ran] s' (Hf & Hh & _). destruct (ran && _) eqn:E.
  - apply andb_true_iff in E as [-> _]. apply unread_then. auto.
  - by apply wp_bind, wp_ret, wp_ret.
Qed.
#[export] Hint Resolve shrinks_scanMantissa : shrinks.

Lemma shrinks_scanFraction c : shrinks (scanFraction c).
Proof. unfold scanFraction. shrinks. Qed.
Lemma shrinks_scanExponent c : shrinks (scanExponent c).
Proof. unfold scanExponent. shrinks. Qed.
#[export] Hint Resolve shrinks_scanFraction shrinks_scanExponent : shrinks.

Lemma shrinks_scanNumber c : shrinks (scanNumber c).
Proof.
  unfold scanNumber. intros k s Hk. apply wp_bind, wp_get. cbv zeta.
  generalize (scanner.srcPos s). intros pos.
  eapply wp_up; [by apply shrinks_scanMantissa|]. intros ? s1 H1.
  eapply wp_up; [by apply (next_few k)|]. intros c1 s2 [H2 _].
  destruct (scanner.isExp c1); [apply (shrinks_bind _ _ (shrinks_scanExponent c1)); [shrinks|auto]|].
  case_decide.
  { assert (Hm : shrinks (c ← scanFraction c1;
      _ ← (if scanner.isExp c then c ← next; scanExponent c else mret c); mret J_FLOAT)) by shrinks.
    apply Hm. auto. }
  eapply wp_up with (P := fun _ s' => held k s').
  { case_decide; [by apply unread_held|by apply wp_ret]. }
  intros ? s3 H3. apply wp_bind, wp_get. eapply wp_up with (P := fun _ s' => held k s').
  { destruct (_ && _); [by apply err_held|by apply wp_ret]. }
  intros ? s4 H4. apply wp_ret. simpl. auto.
Qed.
#[export] Hint Resolve shrinks_scanNumber : shrinks.

(** *** Strings *)

Lemma scanDigitsLoop_held base n : forall k s c, held k s ->
  wp (scanDigitsLoop n c base) (unless_panic (fun _ s' => held k s')) s.
Proof.
  induction n as [|n IH]; intros k s c Hk; cbn [scanDigitsLoop]; [by apply wp_ret|].
  case_decide; [|by apply wp_ret]. eapply wp_up; [apply (next_few k); auto|]. intros c' s' [? _]. by apply IH.
Qed.

Lemma scanDigits_held k s c base n : held k s -> wp (scanDigits c base n) (unless_panic (fun _ s' => few k s')) s.
Proof.
  intros Hk. unfold scanDigits. eapply wp_up; [by apply scanDigitsLoop_held|]. intros [c' n'] s' Hs'.
  eapply wp_up with (P := fun _ s' => held k s'); [case_decide; [by apply err_held|by apply wp_ret]|].
  intros ? s2 H2. by apply unread_then.
Qed.

Lemma shrinks_scanEscape : shrinks scanEscape.
Proof.
  assert (Hd : forall base n, shrinks (c ← next; scanDigits c base n)).
  { intros base n. apply shrinks_held. intros. by apply scanDigits_held. }
  unfold scanEscape. apply shrinks_held. intros k s c Hk.
  case_decide; [apply wp_ret; simpl; auto|]. case_decide; [by apply scanDigits_held|].
  do 3 (case_decide; [apply Hd; auto|]). assert (He : shrinks (_ ← scanner.err "illegal char escape"; mret c)) by shrinks.
  apply He. auto.
Qed.
#[export] Hint Resolve shrinks_scanEscape : shrinks.

Lemma scanStringLoop_few turns : forall k s braces, few k s -> remaining s < turns ->
  wp (scanStringLoop turns braces) (unless_panic (fun _ s' => few k s')) s.
Proof.
  induction turns as [|turns IH]; intros k s braces Hk Ht; [lia|]. cbn [scanStringLoop].
  eapply wp_up; [by apply (next_few (remaining s))|]. intros c s1 (H1 & Hl1 & He).
  assert (Hk1 : few k s1) by (apply held_few in H1; unfold few in *; lia).
  case_decide as Hc; [by apply err_few|]. case_decide; [by apply wp_ret|].
  assert (Hr : remaining s1 < remaining s).
  { destruct (decide (scanner.buf s = [])) as [E|E]; [exfalso; apply Hc; auto|].
    assert (remaining s <> 0) by (unfold remaining; by destruct (scanner.buf s)). lia. }
  eapply wp_up with (P := fun _ s' => few (remaining s1) s'); [by by_shrinks|]. intros opens s2 H2.
  eapply wp_up with (P := fun _ s' => few (remaining s1) s'); [by by_shrinks|]. intros braces1 s3 H3. cbv zeta.
  eapply wp_up with (P := fun _ s' => few (remaining s1) s'); [by by_shrinks|]. intros ? s4 H4.
  unfold few in *. apply IH; unfold few; lia.
Qed.

Lemma shrinks_scanString : shrinks scanString.
Proof. intros k s Hk. unfold scanString. apply wp_bind, wp_get. apply scanStringLoop_few; [done|]. unfold remaining. lia. Qed.
#[export] Hint Resolve shrinks_scanString : shrinks.

Section unicode.
Context `{Unicode}.

Lemma shrinks_scanIdentifier : shrinks scanIdentifier.
Proof.
  intros k s Hk. unfold scanIdentifier. apply wp_bind, wp_get. cbv zeta. generalize (Offset (scanner.srcPos s) - scanner.lastCharLen s)%Z.
  intros offs. eapply wp_up; [by apply (next_few k)|]. intros c s1 [H1 _].
  eapply wp_up; [apply (nextLoop_few _ True k); auto|]. intros [c' ran] s2 (_ & H2 & _).
  eapply wp_up with (P := fun _ s' => held k s'); [case_decide; [apply unread_held|apply wp_ret]; by apply H2; left|].
  intros ? s3 H3. apply wp_bind, wp_get, wp_lift.
  destruct (slice_Z _ _ _) eqn:E; simpl; auto. by apply slice_Z_no_error in E.
Qed.
#[local] Hint Resolve shrinks_scanIdentifier : shrinks.

Lemma shrinks_scanToken c : shrinks (scanToken c).
Proof. unfold scanToken. shrinks. Qed.

Lemma scanToken_eof : scanToken scanner.eof = mret J_EOF.
Proof. done. Qed.

(** A call of [Scan] ends, and a token other than the end of the text takes at
    least one byte. *)
Lemma Scan_few s : wp Scan (unless_panic (fun t s' => remaining s' <= remaining s /\
  (JTok t <> J_EOF -> remaining s' < remaining s))) s.
Proof.
  unfold Scan. eapply wp_up; [by apply (next_few (remaining s))|]. intros c s1 (H1 & Hl1 & He1).
  eapply wp_up; [apply (nextLoop_few scanner.isWhitespace True (remaining s)); auto|].
  intros [c' ran] s2 (H2 & _ & Hl2 & _ & He2). apply wp_bind, wp_upd.
  set (s3 := scanner.markToken s2). assert (Hr3 : remaining s3 = remaining s2) by (by destruct s2). clearbody s3.
  eapply wp_up with (P := fun t s' => remaining s' <= remaining s2 /\ (c' = scanner.eof -> t = J_EOF)).
  { destruct (decide (c' = scanner.eof)) as [->|Hc].
    - rewrite scanToken_eof. apply wp_ret. simpl. split; [lia|done].
    - eapply wp_up_weaken; [apply (shrinks_scanToken c' (remaining s2)); unfold few; lia|]. by intros t s' ?. }
  intros t s4 [H4 Ht]. apply wp_bind, wp_upd, wp_bind, wp_get.
  set (s5 := apply_update _ s4). assert (Hr5 : remaining s5 = remaining s4) by (by destruct s4). clearbody s5.
  apply wp_bind. eapply (wp_conseq _ (unless_panic (fun _ s' => s' = s5))).
  { case_decide; [|by apply wp_ret]. apply wp_lift. destruct (slice_Z _ _ _) eqn:E; try done. by apply slice_Z_no_error in E. }
  intros [txt| |] s' Es; [|done..]. simpl in Es. subst s'. apply wp_bind, wp_upd, wp_ret. cbn [unless_panic JTok].
  set (s6 := apply_update _ s5). assert (Hr6 : remaining s6 = remaining s5) by (by destruct s5). clearbody s6.
  split; [unfold few in *; lia|]. intros Hne.
  assert (scanner.buf s <> []) by (intros E; apply Hne, Ht, He2, He1, E).
  assert (remaining s <> 0) by (unfold remaining; by destruct (scanner.buf s)). lia.
Qed.

(** ** The parser ends *)

Definition jleft (p : JParser) : nat := remaining (jsc p).

(** After a result or an error there are at most [k] bytes left; [P] holds of the
    result. *)
Definition upto {A} (k : nat) (P : A -> JParser -> Prop) (r : outcome A) (p : JParser) : Prop :=
  match r with
  | Ret a => jleft p <= k /\ P a p
  | Err _ => jleft p <= k
  | Panic _ => True
  end.

#[local] Abbreviation any := (fun _ _ => True).

Lemma wp_upto {A B} (m : ST JParser A) (f : A -> ST JParser B) k P Q p :
  wp m (upto k P) p ->
  (forall a p', jleft p' <= k -> P a p' -> wp (f a) (upto k Q) p') -> wp (m ≫= f) (upto k Q) p.
Proof.
  intros Hm Hf. apply wp_bind. eapply wp_conseq; [exact Hm|]. intros [a|e|v] p'; [intros []; by apply Hf|done..].
Qed.

Lemma wp_upto_le {A} (m : ST JParser A) k k' P (Q : A -> JParser -> Prop) p : wp m (upto k P) p -> k <= k' ->
  (forall a p', jleft p' <= k -> P a p' -> Q a p') -> wp m (upto k' Q) p.
Proof.
  intros Hm Hk HQ. eapply wp_conseq; [exact Hm|]. intros [a|e|v] p'; simpl; [|lia|done].
  intros [? ?]. split; [lia|auto].
Qed.

Lemma scan_few p : wp scan (upto (jleft p) (fun t p' => jtok p' = t /\ (JTok t <> J_EOF -> jleft p' < jleft p))) p.
Proof.
  unfold scan. apply wp_bind, wp_zoom. eapply wp_conseq; [apply Scan_few|].
  intros [t|e|v] s' Hs; simpl in Hs; [|done|done]. apply wp_bind, wp_upd, wp_ret. destruct p, Hs as [? ?].
  unfold jleft in *. simpl. fields. split_and!; done || lia.
Qed.

Lemma wp_failed {A} e k (P : A -> JParser -> Prop) p : jleft p <= k -> wp (st.fail e) (upto k P) p.
Proof. done. Qed.

Lemma HCLToken_no_error t e : HCLToken t <> Err e.
Proof. unfold HCLToken. by destruct (JTok t). Qed.

Lemma literalType_few k p : jleft p <= k -> wp literalType (upto k any) p.
Proof.
  intros Hk. unfold literalType. apply wp_bind, wp_get, wp_bind, wp_lift.
  destruct (HCLToken (jtok p)) eqn:E; [by apply wp_ret|by apply HCLToken_no_error in E|done].
Qed.

Lemma objectKeyLoop_few turns : forall keys p, jleft p < turns ->
  wp (objectKeyLoop turns keys) (upto (jleft p) (fun _ p' => jleft p' < jleft p)) p.
Proof.
  induction turns as [|turns IH]; intros keys p Ht; [lia|]. cbn [objectKeyLoop].
  eapply wp_upto; [apply scan_few|]. intros t p1 Hl (_ & Hs). destruct (JTok t); try by apply wp_failed.
  - specialize (Hs ltac:(done)). apply wp_bind, wp_lift.
    destruct (HCLToken t) eqn:E; [|by apply HCLToken_no_error in E|done].
    eapply wp_upto_le; [apply IH; lia|lia|]. intros; simpl in *; lia.
  - case_decide; [by apply wp_failed|]. apply wp_ret. split; [done|]. by apply Hs.
Qed.

(** Enough calls for the bytes that are left. *)
Record jmethods (turns : nat) : Prop := JMethods {
  j_objectList items p : 4 * jleft p + 2 <= turns -> wp (objectList turns items) (upto (jleft p) any) p;
  j_objectItem p : 4 * jleft p + 1 <= turns ->
    wp (objectItem turns) (upto (jleft p) (fun _ p' => jleft p' < jleft p)) p;
  j_objectValue p : 4 * jleft p + 1 <= turns -> wp (objectValue turns) (upto (jleft p) any) p;
  j_objectType p : 4 * jleft p + 3 <= turns -> wp (objectType turns) (upto (jleft p) any) p;
  j_listType l p : 4 * jleft p + 1 <= turns -> wp (listType turns l) (upto (jleft p) any) p
}.

Lemma jobjectList_step turns items p : jmethods turns -> 4 * jleft p + 2 <= S turns ->
  wp (objectList (S turns) items) (upto (jleft p) any) p.
Proof.
  intros Hm Ht. cbn [objectList]; unfold objectListBody. apply wp_bind, wp_try. eapply wp_conseq; [apply (j_objectItem _ Hm); lia|].
  intros [i|e|v] p1; cbn [upto]; [|intros Hl; by case_decide; apply wp_ret|done]. intros [Hl Hlt].
  apply (wp_upto_le _ (jleft p1) _ any); [|lia|done].
  eapply wp_upto; [apply scan_few|]. intros t p2 Hl2 (_ & Hs). case_decide; [by apply wp_ret|].
  eapply wp_upto_le; [apply (j_objectList _ Hm); lia|lia|done].
Qed.

Lemma jobjectItem_step turns p : jmethods turns -> 4 * jleft p + 1 <= S turns ->
  wp (objectItem (S turns)) (upto (jleft p) (fun _ p' => jleft p' < jleft p)) p.
Proof.
  intros Hm Ht. cbn [objectItem]; unfold objectItemBody. unfold objectKey. eapply wp_upto.
  { apply wp_bind, wp_get. apply objectKeyLoop_few. unfold jleft, remaining. lia. }
  intros keys p1 Hl Hlt. apply wp_bind, wp_get. eapply wp_upto with (P := fun _ p' => jleft p' < jleft p).
  { eapply wp_upto_le; [apply (j_objectValue _ Hm); cbv beta in *; lia|lia|]. intros; cbv beta in *; lia. }
  intros v p2 Hl2 Hlt2. by apply wp_ret.
Qed.

Lemma jobjectValue_step turns p : jmethods turns -> 4 * jleft p + 1 <= S turns ->
  wp (objectValue (S turns)) (upto (jleft p) any) p.
Proof.
  intros Hm Ht. cbn [objectValue]; unfold objectValueBody. eapply wp_upto; [apply scan_few|]. intros t p1 Hl (_ & Hs).
  destruct (JTok t); try (by apply wp_failed); try (by apply literalType_few); specialize (Hs ltac:(done)).
  - eapply wp_upto_le; [apply (j_listType _ Hm); lia|lia|done].
  - eapply wp_upto_le; [apply (j_objectType _ Hm); lia|lia|done].
Qed.

Lemma jobjectType_step turns p : jmethods turns -> 4 * jleft p + 3 <= S turns ->
  wp (objectType (S turns)) (upto (jleft p) any) p.
Proof.
  intros Hm Ht. cbn [objectType]; unfold objectTypeBody. eapply wp_upto; [apply (j_objectList _ Hm); lia|].
  intros [l e] p1 Hl _. apply wp_bind, wp_get. destruct e; [case_decide|]; first [by apply wp_failed | by apply wp_ret].
Qed.

Lemma jlistType_step turns l p : jmethods turns -> 4 * jleft p + 1 <= S turns ->
  wp (listType (S turns) l) (upto (jleft p) any) p.
Proof.
  intros Hm Ht. cbn [listType]; unfold listTypeBody. eapply wp_upto; [apply scan_few|]. intros t p1 Hl (_ & Hs).
  assert (Hloop : jleft p1 < jleft p -> forall l' p2, jleft p2 <= jleft p1 ->
            wp (listType turns l') (upto (jleft p) any) p2).
  { intros Hlt l' p2 Hl2. eapply wp_upto_le; [apply (j_listType _ Hm); lia|lia|done]. }
  destruct (JTok t); try (by apply wp_failed); try (by apply wp_ret); specialize (Hs ltac:(done)); try (by apply Hloop).
  1-3: eapply (wp_upto_le _ (jleft p) _ any); [|lia|done];
    (eapply wp_upto; [eapply (wp_upto_le _ (jleft p1)); [by apply literalType_few|lia|intros ? ? Hl' _; exact Hl']|]);
    intros nd p2 _ Hl2; by apply Hloop.
  eapply wp_upto; [eapply (wp_upto_le _ (jleft p1)); [apply (j_objectType _ Hm); lia|lia|intros ? ? Hl' _; exact Hl']|].
  intros nd p2 _ Hl2. by apply Hloop.
Qed.

Lemma jmethods_all turns : jmethods turns.
Proof.
  induction turns as [|turns IH]; [constructor; lia|]. constructor; intros.
  - by apply jobjectList_step.
  - by apply jobjectItem_step.
  - by apply jobjectValue_step.
  - by apply jobjectType_step.
  - by apply jlistType_step.
Qed.

Lemma Parse_ends src : is_Some (Parse src).
Proof.
  unfold Parse. assert (Hw : wp (object (4 * length src + 8)) (upto (length src) any) (newParser src)).
  { unfold object. eapply wp_upto; [apply scan_few|]. intros t p Hl (_ & Hs).
    destruct (JTok t); try by apply wp_failed. specialize (Hs ltac:(done)).
    eapply wp_upto_le; [apply (j_objectType _ (jmethods_all _))|done..]. unfold jleft in *. simpl in *. lia. }
  unfold wp in Hw. destruct (object _ _) as [[[o|e|v] p]|]; [| | |done].
  - destruct (last _) as [[pos msg]|]; [by eexists|].
    destruct (walk_total (size (match o with ObjectType _ _ l => ObjectList l | _ => o end)) _ ltac:(done)) as [nd E].
    unfold flattenObjects. cbv zeta. rewrite E. by eexists.
  - destruct (last _) as [[pos msg]|]; by eexists.
  - destruct (last _) as [[pos msg]|]; by eexists.
Qed.

End unicode.

(** C15: Flattening a JSON tree: the loop of flattenObjects, which pops items off a
    frontier, pushes their parts back and reverses what it has collected, computes
    the flattening that is defined by recursion on the tree, and the walk over the
    whole tree ends. *)
Theorem flatten_equiv :
  (forall l, flattenItems l = Some (concat (map flat_item l))) /\ (forall n, is_Some (flattenObjects n)).
Proof. split; [apply flattenItems_spec|]. intros n. by apply walk_total. Qed.
