(* ===== verification/HclDecoder.v ===== *)
(** * decoder.go, lex.go and parse.go: decoding syntax trees into Go values

    [gotype] is the universe of the Go types the model decodes into, [goval] the
    values of variables of these types; a [reflect.Value] that is set becomes a
    value that is returned.  Every recursive call of [decode] is at a component of
    the type, so that decoding ends by structural recursion.  Interfaces and
    embedded structures are not in the universe. *)

From Stdlib Require Import ZArith Lia NArith Ascii Strings.Byte.
From stdpp Require Import base numbers gmap strings list fin_maps sorting.
From S2P Require Import Prelude GoNet Utf8 HclStrconv HclToken HclAst StateM HclScanner HclParser HclJson.

Import token ast.
Open Scope Z_scope.

Module hcl.

(** ** Go types and values *)

(** A field of a structure: its name and its [hcl] tag. *)
Record fieldInfo := { field_Name : string; field_Tag : string }.

#[warnings="-register-all"] Inductive gotype :=
| TBool
| TInt
| TFloat
| TString
| TSlice (elem : gotype)
| TPtr (elem : gotype)
| TMap (elem : gotype)
| TStruct (fields : list (fieldInfo * gotype)).

Section decoder.
Context `{Unicode, Floats}.

#[warnings="-register-all"] Inductive goval :=
| GBool (b : bool)
| GInt (v : Z)
| GFloat (f : option float64)
| GString (s : list byte)
| GSlice (l : option (list goval))
| GPtr (p : option goval)
| GMap (m : option (list (list byte * goval)))
| GStruct (l : list goval).

(** The zero value of a type; [None] for floats is the number 0. *)
Fixpoint zero (t : gotype) : goval :=
  match t with
  | TBool => GBool false
  | TInt => GInt 0
  | TFloat => GFloat None
  | TString => GString []
  | TSlice _ => GSlice None
  | TPtr _ => GPtr None
  | TMap _ => GMap None
  | TStruct fs => GStruct (map (fun f => zero (snd f)) fs)
  end.

(** ** Errors *)

(** [%T] of a node *)
Definition typeName (n : Node) : string :=
  match n with
  | LiteralType _ _ _ => "*ast.LiteralType"
  | ListType _ _ _ => "*ast.ListType"
  | ObjectType _ _ _ => "*ast.ObjectType"
  | ObjectList _ => "*ast.ObjectList"
  | ItemNode _ => "*ast.ObjectItem"
  end.

(** [&parser.PosError{Pos: node.Pos(), ...}] *)
Definition posError {A} (n : Node) (msg : string) : outcome A :=
  pos ← Node_Pos n; Err (parser.PosError pos msg).

(** ** Scalars *)

Definition ParseBool (s : list byte) : outcome bool :=
  if decide (s ∈ bytes <$> ["1"; "t"; "T"; "true"; "TRUE"; "True"]) then Ret true
  else if decide (s ∈ bytes <$> ["0"; "f"; "F"; "false"; "FALSE"; "False"]) then Ret false
  else Err (NumError (text s) "invalid syntax").

Definition decodeBool (name : string) (node : Node) : outcome goval :=
  match node with
  | LiteralType t _ _ =>
      if decide (Type' t = BOOL) then v ← ParseBool (Text t); Ret (GBool v)
      else posError node (name +:+ ": unknown type " +:+ typeName node)
  | _ => posError node (name +:+ ": unknown type " +:+ typeName node)
  end.

Definition decodeFloat (name : string) (node : Node) : outcome goval :=
  match node with
  | LiteralType t _ _ =>
      if decide (Type' t = FLOAT \/ Type' t = NUMBER) then v ← ParseFloat (Text t); Ret (GFloat (Some v))
      else posError node (name +:+ ": unknown type " +:+ typeName node)
  | _ => posError node (name +:+ ": unknown type " +:+ typeName node)
  end.

Definition decodeInt (name : string) (node : Node) : outcome goval :=
  match node with
  | LiteralType t _ _ =>
      match Type' t with
      | NUMBER => v ← parseint.ParseInt (Text t); Ret (GInt v)
      | STRING => s ← keyString t; v ← parseint.ParseInt s; Ret (GInt v)
      | _ => posError node (name +:+ ": unknown type " +:+ typeName node)
      end
  | _ => posError node (name +:+ ": unknown type " +:+ typeName node)
  end.

Definition decodeString (name : string) (node : Node) : outcome goval :=
  match node with
  | LiteralType t _ _ =>
      match Type' t with
      | NUMBER => Ret (GString (Text t))
      | STRING | HEREDOC => s ← keyString t; Ret (GString s)
      | _ => posError node (name +:+ ": unknown type for string " +:+ typeName node)
      end
  | _ => posError node (name +:+ ": unknown type for string " +:+ typeName node)
  end.

(** ** Slices *)

Definition is_struct (t : gotype) : bool :=
  match t with
  | TStruct _ | TPtr (TStruct _) => true
  | _ => false
  end.

Definition expandObject (node : Node) (t : gotype) : Node :=
  match node with
  | ItemNode item =>
      if is_struct t then
        match Keys item with
        | [k0; k1] =>
            ItemNode (Item [k0] noPos (ObjectType noPos noPos [set_Keys item [k1]]) None None)
        | _ => node
        end
      else node
  | _ => node
  end.

(** The items that are copied into a slice. *)
Definition sliceItems (node : Node) : outcome (list Node) :=
  match node with
  | ObjectList items => Ret (ItemNode <$> items)
  | ObjectType _ _ _ => Ret [node]
  | ListType _ _ l => Ret l
  | _ => posError node ("unknown slice type: " +:+ typeName node)
  end.

(** The loop over the items, with [dec] to decode one. *)
Fixpoint decodeItems (dec : string -> Node -> outcome goval) (t : gotype) (name : string)
  (i : Z) (items : list Node) : outcome (list goval) :=
  match items with
  | [] => Ret []
  | item :: items =>
      v ← dec (name +:+ "[" +:+ strconv.Itoa i +:+ "]") (expandObject item t);
      vs ← decodeItems dec t name (i + 1) items;
      Ret (v :: vs)
  end.

Definition decodeSlice (dec : string -> Node -> outcome goval) (t : gotype) (name : string)
  (node : Node) (cur : goval) : outcome goval :=
  let old := match cur with GSlice (Some l) => l | _ => [] end in
  items ← sliceItems node;
  vs ← decodeItems dec t name 0 items;
  Ret (GSlice (Some (old ++ vs))).

(** ** Maps *)

(** [resultMap[key] = val] *)
Fixpoint setMapIndex (m : list (list byte * goval)) (k : list byte) (v : goval) : list (list byte * goval) :=
  match m with
  | [] => [(k, v)]
  | (k', v') :: m => if decide (k' = k) then (k, v) :: m else (k', v') :: setMapIndex m k v
  end.

Fixpoint mapIndex (m : list (list byte * goval)) (k : list byte) : option goval :=
  match m with
  | [] => None
  | (k', v') :: m => if decide (k' = k) then Some v' else mapIndex m k
  end.

(** The loop over the items of a map; [all] are all of them, [seen] the keys that
    have been processed. *)
Fixpoint decodeMapItems (dec : string -> Node -> goval -> outcome goval) (t : gotype) (name : string)
  (node : Node) (all items : list ObjectItem) (seen : list (list byte)) (m : list (list byte * goval)) :
  outcome (list (list byte * goval)) :=
  match items with
  | [] => Ret m
  | item :: items =>
      match Keys item with
      | [] => posError node (name +:+ ": map must have string keys")
      | k0 :: more =>
          keyStr ← keyString k0;
          if decide (keyStr ∈ seen) then decodeMapItems dec t name node all items seen m
          else
            itemVal ← (if decide (more <> []) then l ← Filter all [keyStr]; Ret (ObjectList l)
                       else Ret (Val item));
            let seen := if decide (more <> []) then keyStr :: seen else seen in
            v ← dec (name +:+ "." +:+ text keyStr) itemVal (default (zero t) (mapIndex m keyStr));
            decodeMapItems dec t name node all items seen (setMapIndex m keyStr v)
      end
  end.

Definition decodeMap (dec : string -> Node -> goval -> outcome goval) (t : gotype) (name : string)
  (node : Node) (cur : goval) : outcome goval :=
  let node := match node with ItemNode i => ObjectList [i] | _ => node end in
  let node := match node with ObjectType _ _ l => ObjectList l | _ => node end in
  match node with
  | ObjectList items =>
      let m := match cur with GMap (Some m) => m | _ => [] end in
      m ← decodeMapItems dec t name node items items [] m;
      Ret (GMap (Some m))
  | _ => posError node (name +:+ ": not an object type for map (" +:+ typeName node +:+ ")")
  end.

(** ** Structures *)

(** [strings.SplitN(tagValue, ",", 2)]: the name and, if there is one, the rest. *)
Definition tagParts (tag : string) : string * option string :=
  match strings.IndexByte "," tag with
  | Some i => (strings.prefix_to i tag, Some (strings.suffix_from (S i) tag))
  | None => (tag, None)
  end.

(** What the decoder does with a field. *)
Variant fieldUse :=
| Ignored
| DecodedFields
| KeyField
| UnusedKeys
| Normal (name : string).

Definition fieldUseOf (f : fieldInfo) : fieldUse :=
  let '(nm, rest) := tagParts (field_Tag f) in
  if decide (nm = "-") then Ignored
  else
    let normal := Normal (if decide (nm = EmptyString) then field_Name f else nm) in
    match rest with
    | Some r =>
        if decide (r = "decodedFields") then DecodedFields
        else if decide (r = "key") then KeyField
        else if decide (r = "unusedKeys") then UnusedKeys
        else normal
    | None => normal
    end.

(** The value of an item as [decodeStruct] decodes it. *)
Definition matchNode (m : ObjectItem) : Node :=
  match Val m with
  | ObjectType _ _ l => ObjectList l
  | v => v
  end.

(** The loop over the elements that match a field. *)
Fixpoint decodeMatches (dec : string -> Node -> goval -> outcome goval) (name : string)
  (ms : list ObjectItem) (v : goval) : outcome goval :=
  match ms with
  | [] => Ret v
  | m :: ms => v ← dec name (matchNode m) v; decodeMatches dec name ms v
  end.

(** A normal field: the new value, and whether the field was decoded. *)
Definition decodeField (dec : string -> Node -> goval -> outcome goval) (name fieldName : string)
  (items : list ObjectItem) (v : goval) : outcome (goval * bool) :=
  f ← Filter items [bytes fieldName];
  let prefixMatches := Children f in
  let matches := Elem f in
  if decide (length matches = 0 /\ length prefixMatches = 0)%nat then Ret (v, false)
  else
    let full := name +:+ "." +:+ fieldName in
    v ← (if decide (0 < length prefixMatches)%nat then dec full (ObjectList prefixMatches) v else Ret v);
    v ← decodeMatches dec full matches v;
    Ret (v, true).

(** The list a structure is decoded from, and the item it is the value of. *)
Definition structList (name : string) (node : Node) : outcome (list ObjectItem * option ObjectItem) :=
  let item := match node with ItemNode i => Some i | _ => None end in
  let node := match node with ItemNode i => Val i | _ => node end in
  let node := match node with ObjectType _ _ l => ObjectList l | _ => node end in
  let node := match node, item with
              | LiteralType _ _ _, Some i => ObjectList [i]
              | _, _ => node
              end in
  match node with
  | ObjectList l => Ret (l, item)
  | _ => posError node (name +:+ ": not an object type for struct (" +:+ typeName node +:+ ")")
  end.

(** [fieldValue.SetString(s)]: reflect panics when the field is no string. *)
Definition SetString (t : gotype) (s : list byte) : outcome goval :=
  match t with
  | TString => Ret (GString s)
  | _ => Panic (PanicValue "reflect: call of reflect.Value.SetString")
  end.

(** A field that asks for the key of the structure. *)
Definition keyField (name : string) (f : fieldInfo) (t : gotype) (l : list ObjectItem) (item : option ObjectItem) :
  outcome goval :=
  match item with
  | None => posError (ObjectList l) (name +:+ ": " +:+ field_Name f +:+ " asked for 'key', impossible")
  | Some i => k ← index (Keys i) 0; s ← keyString k; SetString t s
  end.

(** [v.Set(reflect.ValueOf(decodedFields))] with the names of the decoded fields,
    sorted: reflect panics when the field is no slice of strings. *)
Definition setNames (t : gotype) (names : list string) : outcome goval :=
  match t with
  | TSlice TString =>
      Ret (GSlice (Some (GString ∘ bytes <$> merge_sort (fun a b => Is_true (String.leb a b)) names)))
  | _ => Panic (PanicValue "reflect.Set: value of type []string is not assignable")
  end.

Fixpoint setDecodedFields (names : list string) (fs : list (fieldInfo * gotype)) (vs : list goval) :
  outcome (list goval) :=
  match fs, vs with
  | f :: fs, v :: vs =>
      v ← match fieldUseOf (fst f) with
          | DecodedFields => setNames (snd f) names
          | _ => Ret v
          end;
      vs ← setDecodedFields names fs vs;
      Ret (v :: vs)
  | _, _ => Ret vs
  end.

(** The loop over the fields, each with the decoder of its type: their values and
    the names of those that were decoded. *)
Fixpoint decodeFields (name : string) (l : list ObjectItem) (item : option ObjectItem)
  (fs : list (fieldInfo * gotype * (string -> Node -> goval -> outcome goval))) (vs : list goval) :
  outcome (list goval * list string) :=
  match fs, vs with
  | (f, t, dec) :: fs, v :: vs =>
      '(v, names) ←
        match fieldUseOf f with
        | Ignored | DecodedFields | UnusedKeys => Ret (v, [])
        | KeyField => v ← keyField name f t l item; Ret (v, [])
        | Normal fieldName =>
            '(v, decoded) ← decodeField dec name fieldName l v;
            Ret (v, if decoded : bool then [field_Name f] else [])
        end;
      '(vs, names') ← decodeFields name l item fs vs;
      Ret (v :: vs, names ++ names')
  | _, _ => Ret ([], [])
  end.

(** ** decode *)

Fixpoint decode (t : gotype) (name : string) (node : Node) (cur : goval) : outcome goval :=
  match t with
  | TBool => decodeBool name node
  | TInt => decodeInt name node
  | TFloat => decodeFloat name node
  | TString => decodeString name node
  | TSlice e => decodeSlice (fun name node => decode e name node (zero e)) e name node cur
  | TPtr e => v ← decode e name node (zero e); Ret (GPtr (Some v))
  | TMap e => decodeMap (decode e) e name node cur
  | TStruct fs =>
      '(l, item) ← structList name node;
      let vs := match cur with GStruct vs => vs | _ => [] end in
      '(vs, names) ← decodeFields name l item (map (fun f => (fst f, snd f, decode (snd f))) fs) vs;
      vs ← setDecodedFields names fs vs;
      Ret (GStruct vs)
  end.

(** [DecodeObject(&v, n)] for a variable [v] of type [t] with value [cur]. *)
Definition DecodeObject (t : gotype) (f : File) (cur : goval) : outcome goval :=
  decode t "root" (File_Node f) cur.

End decoder.

(** ** lex.go and parse.go *)

Variant lexModeValue := lexModeUnknown | lexModeHcl | lexModeJson.

(** Skips white space; the turns are bounded by the length of [v]. *)
Fixpoint lexModeLoop (turns : nat) (v : list byte) : lexModeValue :=
  match turns with
  | O => lexModeHcl
  | S turns =>
      let '(r, w) := DecodeRune v in
      if IsSpace r then lexModeLoop turns (drop w v)
      else if decide (r = ch "{") then lexModeJson
      else lexModeHcl
  end.

Definition lexMode (v : list byte) : lexModeValue := lexModeLoop (S (length v)) v.

(** [hcl.ParseBytes] *)
Definition ParseBytes `{Unicode} (input : list byte) : option (outcome File) :=
  match lexMode input with
  | lexModeHcl => parser.Parse input
  | lexModeJson => json.Parse input
  | lexModeUnknown => Some (Err (ErrorString "unknown config format"))
  end.

End hcl.
