(* ===== verification/HclDecoderSpec.v ===== *)
(** * What the decoder promises

    Decoding the tree of a printed value of a Go type gives the value back. *)

From Stdlib Require Import ZArith Lia NArith Ascii Strings.Byte.
From stdpp Require Import base numbers gmap strings list fin_maps sorting.
From S2P Require Import Prelude GoNet Utf8 HclStrconv HclToken HclAst StateM HclScanner HclParser HclParserSpec HclLex HclPrint HclRoundTrip HclJson HclDecoder.

Import token ast hcl.
Open Scope Z_scope.

(** ** Induction over Go types *)

Section gotype_ind.
Context (P : gotype -> Prop)
  (Hbool : P TBool) (Hint : P TInt) (Hfloat : P TFloat) (Hstring : P TString)
  (Hslice : forall e, P e -> P (TSlice e)) (Hptr : forall e, P e -> P (TPtr e)) (Hmap : forall e, P e -> P (TMap e))
  (Hstruct : forall fs, Forall (fun f => P (snd f)) fs -> P (TStruct fs)).

Fixpoint gotype_ind' (t : gotype) : P t :=
  match t with
  | TBool => Hbool
  | TInt => Hint
  | TFloat => Hfloat
  | TString => Hstring
  | TSlice e => Hslice e (gotype_ind' e)
  | TPtr e => Hptr e (gotype_ind' e)
  | TMap e => Hmap e (gotype_ind' e)
  | TStruct fs =>
      Hstruct fs ((fix go l : Forall (fun f => P (snd f)) l :=
                     match l with
                     | [] => Forall_nil_2 _
                     | f :: l => Forall_cons_2 _ f l (gotype_ind' (snd f)) (go l)
                     end) fs)
  end.
End gotype_ind.

(** ** Well-typed values *)

Section decoder.
Context `{UC : Unicode, FL : Floats}.

Definition int64_range (z : Z) : Prop := - 2 ^ 63 <= z < 2 ^ 63.

(** [fs] and [vs] pairwise. *)
Fixpoint fields_typed (fs : list (goval -> Prop)) (vs : list goval) : Prop :=
  match fs, vs with
  | [], [] => True
  | f :: fs, v :: vs => f v /\ fields_typed fs vs
  | _, _ => False
  end.

(** The values a variable of type [t] can have. *)
Fixpoint typed (t : gotype) (v : goval) : Prop :=
  match t, v with
  | TBool, GBool _ | TFloat, GFloat _ | TString, GString _ => True
  | TInt, GInt z => int64_range z
  | TSlice e, GSlice l => match l with None => True | Some l => Forall (typed e) l end
  | TPtr e, GPtr p => match p with None => True | Some v => typed e v end
  | TMap e, GMap m => match m with
                      | None => True
                      | Some m => NoDup (fst <$> m) /\ Forall (fun kv => typed e (snd kv)) m
                      end
  | TStruct fs, GStruct vs => fields_typed (map (fun f => typed (snd f)) fs) vs
  | _, _ => False
  end.

(** ** Printing Go values *)

(** The key of a field. *)
Definition hcl_name (f : fieldInfo) : list byte :=
  match fieldUseOf f with
  | Normal nm => bytes nm
  | _ => []
  end.

Fixpoint encode_fields (fs : list (list byte * (goval -> hval))) (vs : list goval) : list (list byte * hval) :=
  match fs, vs with
  | (k, enc) :: fs, v :: vs => (k, enc v) :: encode_fields fs vs
  | _, _ => []
  end.

Fixpoint encode (t : gotype) (v : goval) : hval :=
  match t, v with
  | TBool, GBool b => HBool b
  | TInt, GInt z => HInt z
  | TString, GString s => HStr s
  | TSlice e, GSlice (Some l) => HList (map (encode e) l)
  | TStruct fs, GStruct vs => HObj (encode_fields (map (fun f => (hcl_name (fst f), encode (snd f))) fs) vs)
  | _, _ => HBool false
  end.

(** Types of which the values can be printed: the keys of the fields of a
    structure are names that differ even when case is ignored. *)
Fixpoint printable (t : gotype) : bool :=
  match t with
  | TBool | TInt | TString => true
  | TSlice e => printable e
  | TStruct fs =>
      forallb (fun f => key_ok (hcl_name (fst f)) && printable (snd f)) fs &&
      bool_decide (NoDup (map (fun f => fold_byte <$> hcl_name (fst f)) fs))
  | _ => false
  end.

(** Slices that are not nil. *)
Fixpoint no_nil (v : goval) : bool :=
  match v with
  | GSlice None => false
  | GSlice (Some l) | GStruct l => forallb no_nil l
  | _ => true
  end.

Lemma encode_keys t : printable t = true -> forall v, keys_ok (encode t v) = true.
Proof.
  induction t as [| | | |e IH|e IH|e IH|fs IH] using gotype_ind'; intros Hp v; try (by destruct v); cbn [printable] in Hp.
  - destruct v as [| | | |[l|]| | |]; try done. cbn [encode keys_ok]. apply forallb_forall.
    intros x (g & <- & _)%in_map_iff. by apply IH.
  - destruct v as [| | | | | | |vs]; try done. cbn [encode keys_ok].
    apply andb_true_iff in Hp as [Hp _]. revert vs.
    induction IH as [|f fs Hf _ IHfs]; intros vs; [done|]. cbn [forallb] in Hp.
    apply andb_true_iff in Hp as [[Hk Hpf]%andb_true_iff Hp]. destruct vs as [|g vs]; [done|].
    cbn [map encode_fields forallb fst snd]. rewrite Hk, Hf by done. by apply IHfs.
Qed.

(** ** Finding a field *)

(** [EqualFold] on ASCII texts compares them with the case of letters ignored. *)
Class FoldsAscii : Prop := EqualFold_ascii (s t : list byte) :
  Forall (fun b => u8 b < 128) s -> Forall (fun b => u8 b < 128) t ->
  EqualFold s t = bool_decide (fold_byte <$> s = fold_byte <$> t).

Lemma key_ascii k : key_ok k = true -> Forall (fun b => u8 b < 128) k.
Proof.
  destruct k as [|b w]; [done|]. unfold key_ok. rewrite !andb_true_iff, bool_decide_eq_true, forallb_forall.
  intros [[Hb Hw] _]. constructor; [lia|]. apply Forall_forall. intros c Hc%list_elem_of_In. specialize (Hw c Hc).
  rewrite orb_true_iff, !bool_decide_eq_true in Hw. lia.
Qed.

(** ** Slices *)

Lemma decodeItems_length dec t name : forall items i vs, decodeItems dec t name i items = Ret vs -> length vs = length items.
Proof.
  induction items as [|item items IH]; intros i vs; cbn [decodeItems]; [by intros [= <-]|].
  intros (v & _ & (vs' & Hvs & [= <-])%bind_Ret_inv)%bind_Ret_inv. simpl. f_equal. by eapply IH.
Qed.

(** A block for a field that is a slice of structures is not one element: the
    decoder makes one element of each of its attributes. *)
Theorem block_splits e name fname k a lb rb attrs lead line vs d :
  matchKeys [k] [bytes fname] = Ret true ->
  decodeField (decode (TSlice e)) name fname [Item [k] a (ObjectType lb rb attrs) lead line] (GSlice None) =
    Ret (GSlice (Some vs), d) ->
  length vs = length attrs.
Proof.
  intros Hk. unfold decodeField. cbn [Filter Keys length]. rewrite decide_False by lia. cbn [take]. rewrite Hk, !bind_ret.
  cbn [set_Keys drop]. change (Children [Item [] a (ObjectType lb rb attrs) lead line]) with (@nil ObjectItem).
  change (Elem [Item [] a (ObjectType lb rb attrs) lead line]) with [Item [] a (ObjectType lb rb attrs) lead line].
  rewrite decide_False by (intros [? _]; done). rewrite decide_False by (cbn [length]; lia). rewrite bind_ret.
  cbn [decodeMatches matchNode Val]. intros (v & Hv & [= -> <-])%bind_Ret_inv.
  apply bind_Ret_inv in Hv as (v1 & Hv & E). injection E as ->. cbn [decode] in Hv. unfold decodeSlice in Hv.
  cbn [sliceItems] in Hv. rewrite bind_ret in Hv. apply bind_Ret_inv in Hv as (ws & Hw & E). injection E as <-.
  apply decodeItems_length in Hw. rewrite Hw. apply length_fmap.
Qed.

Context `{FA : !FoldsAscii}.

Lemma matchKeys_one t k want : is_tok (IDENT, k) t -> key_ok k = true -> key_ok want = true ->
  matchKeys [t] [want] = Ret (bool_decide (fold_byte <$> k = fold_byte <$> want)).
Proof.
  intros (Ht & Htx & _) Hk Hw. cbn [matchKeys]. unfold keyString, Value. rewrite Ht. cbn [fst]. rewrite !bind_ret, Htx.
  cbn [snd]. destruct (decide (k = want)) as [->|Hne].
  - rewrite decide_False by tauto. by rewrite bool_decide_eq_true_2.
  - rewrite decide_True by done. rewrite EqualFold_ascii by (by apply key_ascii). by case_bool_decide.
Qed.

Lemma Filter_cons kv i items want : same_item kv i -> key_ok (fst kv) = true -> key_ok want = true ->
  exists a w, same (snd kv) w /\
    Filter (i :: items) [want] =
      (rest ← Filter items [want];
       Ret (if decide (fold_byte <$> fst kv = fold_byte <$> want) then Item [] a w None None :: rest else rest)).
Proof.
  intros (t & a & w & Ht & Hs & ->) Hk Hw. exists a, w. split; [done|]. cbn [Filter Keys length].
  rewrite decide_False by lia. cbn [take]. rewrite (matchKeys_one t (fst kv)) by done. rewrite bind_ret.
  destruct (decide (fold_byte <$> fst kv = fold_byte <$> want)) as [E|E];
    [by rewrite (bool_decide_eq_true_2 _ E)|by rewrite (bool_decide_eq_false_2 _ E)].
Qed.

Lemma Filter_none kvs items want : Forall2 same_item kvs items -> Forall (fun kv => key_ok (fst kv) = true) kvs ->
  key_ok want = true -> (fold_byte <$> want) ∉ map (fun kv => fold_byte <$> fst kv) kvs -> Filter items [want] = Ret [].
Proof.
  intros Hs Hk Hw. induction Hs as [|kv i kvs items Hi _ IH]; [done|]. cbn [map]. rewrite not_elem_of_cons. intros [Hne Hni].
  apply Forall_cons_1 in Hk as [Hk1 Hk]. destruct (Filter_cons kv i items want Hi Hk1 Hw) as (a & w & _ & ->).
  rewrite IH by done. rewrite bind_ret. by rewrite decide_False by congruence.
Qed.

Lemma Filter_found kvs items want v : Forall2 same_item kvs items -> Forall (fun kv => key_ok (fst kv) = true) kvs ->
  NoDup (map (fun kv => fold_byte <$> fst kv) kvs) -> (want, v) ∈ kvs ->
  exists a w, same v w /\ Filter items [want] = Ret [Item [] a w None None].
Proof.
  intros Hs Hk Hnd Hin.
  assert (Hw : key_ok want = true) by (rewrite Forall_forall in Hk; exact (Hk _ Hin)).
  induction Hs as [|kv i kvs items Hi Hs IH]; [by apply not_elem_of_nil in Hin|].
  apply Forall_cons_1 in Hk as [Hk1 Hk]. cbn [map] in Hnd. apply NoDup_cons in Hnd as [Hni Hnd].
  destruct (Filter_cons kv i items want Hi Hk1 Hw) as (a & w & Hsw & ->).
  apply elem_of_cons in Hin as [<-|Hin].
  - exists a, w. split; [done|]. rewrite (Filter_none kvs) by done. rewrite bind_ret. by rewrite decide_True.
  - destruct (IH Hk Hnd Hin) as (a' & w' & Hs' & ->). exists a', w'. split; [done|]. rewrite bind_ret.
    rewrite decide_False; [done|]. intros E. apply Hni. rewrite E.
    apply list_elem_of_In, in_map_iff. exists (want, v). split; [done|]. by apply list_elem_of_In.
Qed.

(** The value of a field, as [decodeStruct] passes it on. *)
Definition as_list (n : Node) : Node :=
  match n with
  | ObjectType _ _ l => ObjectList l
  | _ => n
  end.

Lemma decodeField_found dec name nm kvs items v g z : Forall2 same_item kvs items ->
  Forall (fun kv => key_ok (fst kv) = true) kvs -> NoDup (map (fun kv => fold_byte <$> fst kv) kvs) ->
  (bytes nm, v) ∈ kvs -> (forall nd nm, same v nd -> dec nm (as_list nd) z = Ret g) ->
  decodeField dec name nm items z = Ret (g, true).
Proof.
  intros Hs Hk Hnd Hin Hdec. destruct (Filter_found _ _ _ _ Hs Hk Hnd Hin) as (a & w & Hw & HF).
  unfold decodeField. rewrite HF, bind_ret. cbn [Children Elem].
  change (Children [Item [] a w None None]) with (@nil ObjectItem).
  change (Elem [Item [] a w None None]) with [Item [] a w None None].
  rewrite decide_False by (intros [? _]; done). rewrite decide_False by (cbn [length]; lia). rewrite bind_ret.
  cbn [decodeMatches]. assert (matchNode (Item [] a w None None) = as_list w) as -> by (by destruct w).
  by rewrite Hdec, bind_ret, bind_ret.
Qed.

(** ** Decoding printed values *)

(** [dec] reads [v] back as [g]. *)
Definition reads_back (v : hval) (dec : string -> Node -> outcome goval) (g : goval) : Prop :=
  forall nd name, same v nd -> dec name nd = Ret g /\ dec name (as_list nd) = Ret g.

Lemma decodeItems_back dec t name l : forall gs nodes i, Forall2 same l nodes ->
  Forall2 (fun v g => reads_back v dec g) l gs -> decodeItems dec t name i nodes = Ret gs.
Proof.
  induction l as [|v l IH]; intros gs nodes i Hn Hg; inversion Hn as [|? nd ? nodes' Hs Hn']; inversion Hg as [|? g ? gs' Hb Hg'];
    subst; [done|]. cbn [decodeItems].
  assert (expandObject nd t = nd) as -> by (destruct Hs; done).
  rewrite (proj1 (Hb _ _ Hs)), bind_ret. by rewrite (IH gs' nodes' (i + 1) Hn' Hg').
Qed.

Lemma decodeFields_back name items item fs vs :
  Forall2 (fun f v => exists nm, fieldUseOf (fst f) = Normal nm /\
             decodeField (decode (snd f)) name nm items (zero (snd f)) = Ret (v, true)) fs vs ->
  exists names, decodeFields name items item (map (fun f => (fst f, snd f, decode (snd f))) fs)
                  (map (fun f => zero (snd f)) fs) = Ret (vs, names).
Proof.
  induction 1 as [|f v fs vs (nm & Hu & Hd) _ (names & IH)]; [by eexists|].
  cbn [map decodeFields]. rewrite Hu, Hd, !bind_ret, IH, bind_ret. by eexists.
Qed.

Lemma setDecodedFields_none names fs : forall vs, Forall (fun f => exists nm, fieldUseOf (fst f) = Normal nm) fs ->
  setDecodedFields names fs vs = Ret vs.
Proof.
  induction fs as [|f fs IH]; intros [|v vs] Hf; try done. apply Forall_cons_1 in Hf as [[nm Hf] Hfs].
  cbn [setDecodedFields]. by rewrite Hf, bind_ret, IH.
Qed.

Lemma normal_name f : key_ok (hcl_name f) = true -> exists nm, fieldUseOf f = Normal nm /\ hcl_name f = bytes nm.
Proof. unfold hcl_name. destruct (fieldUseOf f); try done. by eexists. Qed.

(** The fields of a printed structure. *)
Lemma encode_fields_spec fs : forall vs, fields_typed (map (fun f => typed (snd f)) fs) vs ->
  map fst (encode_fields (map (fun f => (hcl_name (fst f), encode (snd f))) fs) vs) = map (fun f => hcl_name (fst f)) fs /\
  Forall2 (fun f v => typed (snd f) v /\
             (hcl_name (fst f), encode (snd f) v) ∈ encode_fields (map (fun f => (hcl_name (fst f), encode (snd f))) fs) vs)
          fs vs.
Proof.
  induction fs as [|f fs IH]; intros [|v vs] Ht; try done. destruct Ht as [Hv Ht].
  destruct (IH vs Ht) as [Ek Hf]. cbn [map encode_fields fst snd]. split; [by f_equal|].
  constructor; [split; [done|by apply elem_of_cons; left]|]. eapply Forall2_impl; [exact Hf|].
  intros f' v' [? ?]. split; [done|]. apply elem_of_cons. by right.
Qed.

Lemma decode_struct_back fs vs : printable (TStruct fs) = true -> typed (TStruct fs) (GStruct vs) ->
  Forall2 (fun f v => typed (snd f) v ->
             reads_back (encode (snd f) v) (fun name nd => decode (snd f) name nd (zero (snd f))) v) fs vs ->
  reads_back (encode (TStruct fs) (GStruct vs)) (fun name nd => decode (TStruct fs) name nd (zero (TStruct fs))) (GStruct vs).
Proof.
  intros Hp Ht IH nd name Hs. pose proof (encode_keys _ Hp (GStruct vs)) as Hkeys. cbn [encode keys_ok] in Hkeys, Hs.
  destruct (encode_fields_spec fs vs Ht) as [Ek Hf]. set (kvs := encode_fields _ vs) in *.
  cbn [printable] in Hp. rewrite andb_true_iff, bool_decide_eq_true, forallb_forall in Hp. destruct Hp as [Hp Hnd].
  rewrite forallb_forall in Hkeys.
  assert (Hk : Forall (fun kv => key_ok (fst kv) = true) kvs).
  { apply Forall_forall. intros kv Hin%list_elem_of_In. specialize (Hkeys kv Hin). by apply andb_true_iff in Hkeys as [? _]. }
  assert (Hnd' : NoDup (map (fun kv => fold_byte <$> fst kv) kvs)).
  { rewrite <- (map_map fst (fmap fold_byte)), Ek, map_map. exact Hnd. }
  inversion Hs as [|  |kvs' items lb rb Hi]; subst; [done|].
  assert (HF : Forall2 (fun f v => exists nm, fieldUseOf (fst f) = Normal nm /\
             decodeField (decode (snd f)) name nm items (zero (snd f)) = Ret (v, true)) fs vs).
  { apply Forall2_same_length_lookup. split; [by eapply Forall2_length|]. intros i f v Hfi Hvi.
    destruct (Forall2_lookup_lr _ _ _ _ _ _ Hf Hfi Hvi) as [Htv Hin].
    pose proof (Forall2_lookup_lr _ _ _ _ _ _ IH Hfi Hvi Htv) as Hback.
    assert (Hin' : In f fs) by (by apply list_elem_of_In; eapply list_elem_of_lookup_2).
    specialize (Hp f Hin'). apply andb_true_iff in Hp as [Hkf _].
    destruct (normal_name _ Hkf) as (nm & Hu & En). exists nm. split; [done|]. rewrite En in Hin.
    eapply (decodeField_found _ _ _ kvs items); [exact Hi|done|done|exact Hin|].
    intros nd nm' Hsn. apply (Hback nd nm' Hsn). }
  destruct (decodeFields_back name items None fs vs HF) as (names & Hdf).
  assert (Hnone : Forall (fun f => exists nm, fieldUseOf (fst f) = Normal nm) fs).
  { apply Forall_forall. intros f Hin%list_elem_of_In. specialize (Hp f Hin). apply andb_true_iff in Hp as [Hkf _].
    destruct (normal_name _ Hkf) as (nm & ? & _). by exists nm. }
  cbn [decode as_list structList zero]. rewrite !bind_ret, Hdf, bind_ret.
  by rewrite setDecodedFields_none.
Qed.

Lemma decode_back t : printable t = true -> forall v, typed t v -> no_nil v = true ->
  reads_back (encode t v) (fun name nd => decode t name nd (zero t)) v.
Proof.
  induction t as [| | | |e IH|e IH|e IH|fs IH] using gotype_ind'; intros Hp v Ht Hn; try done; destruct v as [b|z|fl|s|l|p|m|vs]; try done.
  - intros nd name Hs. inversion Hs as [v x t Hl (Hty & Htx & _)| |]; subst. injection Hl as <-.
    assert (decodeBool name (LiteralType t None None) = Ret (GBool b)) as E; [|done].
    unfold decodeBool. rewrite Hty, decide_True by done. rewrite Htx. by destruct b.
  - intros nd name Hs. inversion Hs as [v x t Hl (Hty & Htx & _)| |]; subst. injection Hl as <-.
    assert (decodeInt name (LiteralType t None None) = Ret (GInt z)) as E; [|done].
    unfold decodeInt. rewrite Hty, Htx. cbn [fst snd]. by rewrite ParseInt_numeral.
  - intros nd name Hs. inversion Hs as [v x t Hl (Hty & Htx & Hj)| |]; subst. injection Hl as <-.
    assert (decodeString name (LiteralType t None None) = Ret (GString s)) as E; [|done].
    unfold decodeString, keyString, Value. rewrite Hty, Htx, Hj. cbn [fst snd].
    rewrite decide_False by done. by rewrite hclstrconv.Unquote_quote_lemma.
  - destruct l as [l|]; [|done]. intros nd name Hs. cbn [encode] in Hs. inversion Hs as [| l' nodes lb rb Hnodes|]; subst; [done|].
    assert (decodeSlice (fun name node => decode e name node (zero e)) e name (ListType lb rb nodes) (GSlice None) = Ret (GSlice (Some l))) as E; [|done].
    unfold decodeSlice. cbn [sliceItems]. rewrite bind_ret.
    rewrite (decodeItems_back _ _ _ _ l nodes 0 Hnodes); [done|].
    cbn [typed] in Ht. cbn [no_nil] in Hn. rewrite forallb_forall in Hn. rewrite Forall_forall in Ht.
    apply Forall2_same_length_lookup. split; [apply length_map|]. intros i v g Hv Hg.
    rewrite list_lookup_fmap, Hg in Hv. injection Hv as <-.
    pose proof (list_elem_of_lookup_2 _ _ _ Hg) as Hin. apply IH; [done|by apply Ht|]. by apply Hn, list_elem_of_In.
  - apply decode_struct_back; [done|done|]. cbn [no_nil] in Hn. rewrite forallb_forall in Hn.
    cbn [printable] in Hp. rewrite andb_true_iff, forallb_forall in Hp. destruct Hp as [Hp _].
    destruct (encode_fields_spec fs vs Ht) as [_ Hf].
    apply Forall2_same_length_lookup. split; [by eapply Forall2_length|]. intros i f v Hfi Hvi Htv.
    rewrite Forall_forall in IH. pose proof (list_elem_of_lookup_2 _ _ _ Hfi) as Hin.
    pose proof (list_elem_of_lookup_2 _ _ _ Hvi) as Hinv.
    apply IH; [done| |done|by apply Hn, list_elem_of_In].
    specialize (Hp f). rewrite <- list_elem_of_In in Hp. by apply andb_true_iff in Hp as [_ ?].
Qed.

End decoder.

(** An instance for numbers: the text of a number stands for its value. *)
Definition text_Floats : Floats := {| float64 := list byte; ParseFloat s := Ret s |}.

#[export] Instance ascii_FoldsAscii : FoldsAscii (UC := ascii_Unicode).
Proof. by intros s t _ _. Qed.

Definition ident (k : string) : Token := {| Type' := IDENT; Pos' := noPos; Text := bytes k; JSON := false |}.
Definition number (k : string) : Node :=
  LiteralType {| Type' := NUMBER; Pos' := noPos; Text := bytes k; JSON := false |} None None.
Definition rule_type : gotype :=
  TStruct [({| field_Name := "Port"; field_Tag := "port" |}, TInt); ({| field_Name := "Proto"; field_Tag := "proto" |}, TInt)].

Lemma block_splits_witness :
  length [GStruct (H0 := text_Floats) [GInt 22; GInt 0]; GStruct [GInt 0; GInt 6]] = 2%nat.
Proof.
  apply (block_splits (UC := ascii_Unicode) (FL := text_Floats) rule_type "root" "rules" (ident "rules") noPos noPos noPos
           [Item [ident "port"] noPos (number "22") None None; Item [ident "proto"] noPos (number "6") None None]
           None None [GStruct [GInt 22; GInt 0]; GStruct [GInt 0; GInt 6]] true);
    vm_compute; reflexivity.
Defined.
