(* ===== verification/HclConfig.v ===== *)
(** * Loading the daemon's configuration

    config.go with the HCL library in place of the arguments of [loadConfig]: the
    type of the configuration with its tags, and what texts load to. *)

From Stdlib Require Import ZArith Lia NArith Ascii Strings.Byte.
From stdpp Require Import base numbers gmap strings list fin_maps.
From S2P Require Import Prelude GoNet OS Config Utf8 HclStrconv HclToken HclAst StateM HclScanner HclParser HclJson HclDecoder.

Import token ast hcl.
Open Scope Z_scope.

(** ** The Go types of config.go *)

Definition field (name tag : string) (t : gotype) : fieldInfo * gotype :=
  ({| field_Name := name; field_Tag := tag |}, t).

Definition VPNOpt_type : gotype :=
  TStruct [field "Name" "name" TString; field "Path" "path" TString; field "Icon" "icon" TString;
           field "Username" "username" TString; field "Password" "password" TString].

Definition Wireless_type : gotype :=
  TStruct [field "Interface" "interface" TString; field "SSID" "SSID" TString;
           field "Password" "password" TString; field "HostapdDriver" "hostapd_driver" TString].

Definition Network_type : gotype :=
  TStruct [field "InterfaceIdent" "interface_ident" TString; field "Subnet" "subnet" TString;
           field "Wireless" "wireless" Wireless_type].

Definition Config_type : gotype :=
  TStruct [field "Name" "name" TString; field "Listener" "listener" TString;
           field "Network" "network" Network_type;
           field "Debug" "debug" (TStruct [field "DHCP" "dhcp" TBool; field "Hostapd" "hostapd" TBool]);
           field "VPNConfigurations" "vpn_configs" (TSlice VPNOpt_type);
           field "Firewall" "firewall"
             (TStruct [field "VPNBoxBlockedPorts" "vpnbox_blocked_ports" (TSlice TInt);
                       field "BlockedSubnets" "blocked_subnets" (TSlice TString)])].

Section load.
Context `{Unicode, Floats}.

(** ** The variable [c] of type [Config] as a record *)

Definition the_string (v : goval) : string := match v with GString s => text s | _ => EmptyString end.
Definition the_int (v : goval) : Z := match v with GInt n => n | _ => 0 end.
Definition the_bool (v : goval) : bool := match v with GBool b => b | _ => false end.
Definition the_slice (v : goval) : list goval := match v with GSlice (Some l) => l | _ => [] end.
Definition the_fields (v : goval) : list goval := match v with GStruct l => l | _ => [] end.

(** The [i]-th field of a structure. *)
Definition fld (i : nat) (v : goval) : goval := nth i (the_fields v) (GBool false).

Definition the_VPNOpt (v : goval) : VPNOpt :=
  {| VPN_Name := the_string (fld 0 v); VPN_Path := the_string (fld 1 v); VPN_Icon := the_string (fld 2 v);
     VPN_Username := the_string (fld 3 v); VPN_Password := the_string (fld 4 v) |}.

Definition the_Wireless (v : goval) : WirelessConfig :=
  {| Wireless_Interface := the_string (fld 0 v); SSID := the_string (fld 1 v);
     Wireless_Password := the_string (fld 2 v); HostapdDriver := the_string (fld 3 v) |}.

Definition the_Config (v : goval) : Config :=
  {| Config_Name := the_string (fld 0 v); Listener := the_string (fld 1 v);
     Network := {| InterfaceIdent := the_string (fld 0 (fld 2 v)); Subnet := the_string (fld 1 (fld 2 v));
                   Wireless := the_Wireless (fld 2 (fld 2 v)) |};
     Debug := {| Debug_DHCP := the_bool (fld 0 (fld 3 v)); Debug_Hostapd := the_bool (fld 1 (fld 3 v)) |};
     VPNConfigurations := the_VPNOpt <$> the_slice (fld 4 v);
     Firewall := {| VPNBoxBlockedPorts := the_int <$> the_slice (fld 0 (fld 5 v));
                    BlockedSubnets := the_string <$> the_slice (fld 1 (fld 5 v)) |} |}.

(** ** loadConfig with the HCL library *)

(** [None], a parser that does not end, is shown not to happen for HCL texts. *)
Definition parseConfig (data : list byte) : outcome File :=
  default (Panic (PanicValue "the parser does not end")) (ParseBytes data).

Definition is_ObjectList (f : File) : bool :=
  match File_Node f with ObjectList _ => true | _ => false end.

Definition decodeConfig (f : File) : outcome Config :=
  the_Config <$> DecodeObject Config_type f (zero Config_type).

Definition loadConfigHcl : list byte -> outcome Config := loadConfig parseConfig is_ObjectList decodeConfig.

End load.
