(* ===== verification/HclConfigSpec.v ===== *)
(** * What configuration files load to

    Printing a configuration and loading the text gives the configuration back;
    the sample files of the repository load to what they say; and what happens to
    files with the mistakes an operator can make. *)

From Stdlib Require Import ZArith Lia NArith Ascii Strings.Byte.
From stdpp Require Import base numbers gmap strings list fin_maps.
From S2P Require Import Prelude GoNet OS Config Utf8 HclStrconv HclToken HclAst StateM HclScanner HclParser HclParserSpec HclLex HclPrint HclRoundTrip HclJson HclJsonSpec HclDecoder HclDecoderSpec HclConfig.

Import token ast hcl.
Open Scope Z_scope.

(** ** Printing a configuration *)

Section print.
Context `{UC : Unicode, FL : Floats}.

Definition of_string (s : string) : goval := GString (bytes s).

Definition of_VPNOpt (v : VPNOpt) : goval :=
  GStruct [of_string (VPN_Name v); of_string (VPN_Path v); of_string (VPN_Icon v);
           of_string (VPN_Username v); of_string (VPN_Password v)].

Definition of_Wireless (w : WirelessConfig) : goval :=
  GStruct [of_string (Wireless_Interface w); of_string (SSID w); of_string (Wireless_Password w);
           of_string (HostapdDriver w)].

(** The variable of type [Config] with the value [c]. *)
Definition of_Config (c : Config) : goval :=
  GStruct [of_string (Config_Name c); of_string (Listener c);
           GStruct [of_string (InterfaceIdent (Network c)); of_string (Subnet (Network c));
                    of_Wireless (Wireless (Network c))];
           GStruct [GBool (Debug_DHCP (Debug c)); GBool (Debug_Hostapd (Debug c))];
           GSlice (Some (map of_VPNOpt (VPNConfigurations c)));
           GStruct [GSlice (Some (map GInt (VPNBoxBlockedPorts (Firewall c))));
                    GSlice (Some (map of_string (BlockedSubnets (Firewall c))))]].

Definition config_items (c : Config) : list (list byte * hval) :=
  match encode Config_type (of_Config c) with
  | HObj kvs => kvs
  | _ => []
  end.

(** The text of a configuration file for [c]. *)
Definition print_config (c : Config) : list byte := render (config_items c).


Lemma the_of_string s : the_string (of_string s) = s.
Proof. apply text_bytes. Qed.

Lemma map_id_ext {A B} (f : A -> B) (g : B -> A) l : (forall x, g (f x) = x) -> g <$> map f l = l.
Proof. intros E. induction l as [|x l IH]; [done|]. cbn [map]. by rewrite fmap_cons, E, IH. Qed.

Lemma the_of_Config c : the_Config (of_Config c) = c.
Proof.
  destruct c as [nm li [ii su [wi ss wp hd]] [dd dh] vs [ps bs]].
  unfold the_Config, of_Config, the_Wireless, of_Wireless, fld. cbn [the_fields nth the_slice the_bool Config_Name
    Listener Network Debug VPNConfigurations Firewall InterfaceIdent Subnet Wireless Wireless_Interface SSID
    Wireless_Password HostapdDriver Debug_DHCP Debug_Hostapd VPNBoxBlockedPorts BlockedSubnets].
  rewrite !the_of_string. f_equal; [|f_equal].
  - apply map_id_ext. intros [n p i u w]. unfold the_VPNOpt, of_VPNOpt, fld. cbn [the_fields nth VPN_Name VPN_Path VPN_Icon
      VPN_Username VPN_Password]. by rewrite !the_of_string.
  - by apply map_id_ext.
  - apply map_id_ext, the_of_string.
Qed.

Lemma of_Config_typed c : Forall int64_range (VPNBoxBlockedPorts (Firewall c)) ->
  typed Config_type (of_Config c) /\ no_nil (of_Config c) = true.
Proof.
  intros Hp. split.
  - cbn. split_and!; try done; [apply Forall_map, Forall_forall; intros v _; by split_and!|by apply Forall_map|].
    apply Forall_map, Forall_forall. by intros s _.
  - cbn [of_Config no_nil forallb of_string of_Wireless]. rewrite !andb_true_r. cbn [andb].
    rewrite !andb_true_iff, !forallb_forall. split_and!; intros x (y & <- & _)%in_map_iff; done.
Qed.

Lemma config_items_spec c : encode Config_type (of_Config c) = HObj (config_items c) /\
  exists v kvs, config_items c = (bytes "name", v) :: kvs.
Proof. by split; [|eexists _, _]. Qed.

Lemma lexMode_print c : lexMode (print_config c) = lexModeHcl.
Proof.
  destruct (config_items_spec c) as (_ & v & kvs & E). unfold print_config, render, items_toks. rewrite E.
  cbn [map concat item_toks app fst spell snd]. unfold spell. cbn [map concat snd app]. unfold lexMode.
  cbn [lexModeLoop bytes]. change (bytes "name" ++ [" "%byte]) with ("n"%byte :: bytes "ame "). cbn [app].
  cbn [lexModeLoop]. rewrite DecodeRune_ascii by done. done.
Qed.

Context `{FA : !FoldsAscii}.

Lemma decodeConfig_print c : Forall int64_range (VPNBoxBlockedPorts (Firewall c)) ->
  exists f, parseConfig (print_config c) = Ret f /\ is_ObjectList f = true /\ decodeConfig f = Ret c.
Proof.
  intros Hp. destruct (of_Config_typed c Hp) as [Ht Hn].
  assert (Hpr : printable Config_type = true) by (by vm_compute).
  pose proof (encode_keys Config_type Hpr (of_Config c)) as Hk.
  pose proof (decode_back Config_type Hpr (of_Config c) Ht Hn) as Hb.
  destruct (config_items_spec c) as [E _]. rewrite E in Hk, Hb.
  destruct (Parse_printed (config_items c) Hk) as (items & HP & Hi).
  exists {| File_Node := ObjectList items; Comments := [] |}. split_and!; [|done|].
  - unfold parseConfig, ParseBytes. rewrite lexMode_print. unfold print_config. by rewrite HP.
  - unfold decodeConfig, DecodeObject. cbn [File_Node].
    destruct (Hb (ObjectType noPos noPos items) "root" ltac:(by constructor)) as [_ Hd]. cbn [as_list] in Hd. rewrite Hd.
    change (Ret (the_Config (of_Config c)) = Ret c). by rewrite the_of_Config.
Qed.

(** What [loadConfig] makes of a configuration it has decoded. *)
Definition with_driver (c : Config) : Config :=
  if decide (HostapdDriver (Wireless (Network c)) = EmptyString) then set_HostapdDriver c "nl80211" else c.

Lemma load_printed c : usable c -> Forall int64_range (VPNBoxBlockedPorts (Firewall c)) ->
  loadConfigHcl (print_config c) = Ret (with_driver c).
Proof.
  intros Hu%validate_usable Hp. destruct (decodeConfig_print c Hp) as (f & HP & Hl & Hd).
  unfold loadConfigHcl, loadConfig, with_driver. rewrite HP, bind_ret, Hl, Hd, bind_ret, Hu, bind_ret. by case_decide.
Qed.

(** C11: Loading a configuration file is the inverse of printing one: for every
    usable configuration whose ports are machine integers, the text of the
    configuration is accepted and loads to that configuration, with the driver
    filled in when it is empty.  Strings may hold any bytes. *)
Theorem load_print c : usable c -> Forall int64_range (VPNBoxBlockedPorts (Firewall c)) ->
  loadConfigHcl (print_config c) =
    Ret (if decide (HostapdDriver (Wireless (Network c)) = EmptyString) then set_HostapdDriver c "nl80211" else c).
Proof. apply load_printed. Qed.

End print.

(** ** The sample files of the repository *)

(** A text with ' for the double quote. *)
Definition quoted (s : string) : list byte :=
  map (fun b => if decide (b = "'"%byte) then "034"%byte else b) (bytes s).

Definition loads (s : string) : outcome Config :=
  loadConfigHcl (H := ascii_Unicode) (H0 := text_Floats) (quoted s).

(** config.hcl *)
Definition sample_file : string := "listener = ':8080'

network = {
  interface_ident = 'ops'
  subnet = '192.168.48.1/24'
}
".

(** The example of README.md *)
Definition readme_file : string := "
name = 'VPN Controller'
listener = ':1234'

network = {
  interface_ident = 'vpn'
  subnet = '192.168.101.1/24'
  wireless = {
    interface = 'wlan0'
    SSID = 'my_network_name'
    password = 'my_password'
  }
}

vpn_configs = [
  {
    name = 'USA config 1'
    icon = 'flag-icon flag-icon-us'
    path = 'us1.ovpn'
    username = '...'
    password = '...'
  },
  {
    name = 'USA Config 2'
    icon = 'flag-icon flag-icon-us'
    path = 'us2.ovpn'
    username = '...'
    password = '...'
  }
]

firewall = {
  vpnbox_blocked_ports = [22, 80]
  blocked_subnets = [
    '192.168.1.1/24'
  ]
}
".

Definition readme_config : Config :=
  {| Config_Name := "VPN Controller"; Listener := ":1234";
     Network := {| InterfaceIdent := "vpn"; Subnet := "192.168.101.1/24";
                   Wireless := {| Wireless_Interface := "wlan0"; SSID := "my_network_name";
                                  Wireless_Password := "my_password"; HostapdDriver := "" |} |};
     Debug := {| Debug_DHCP := false; Debug_Hostapd := false |};
     VPNConfigurations :=
       [{| VPN_Name := "USA config 1"; VPN_Path := "us1.ovpn"; VPN_Icon := "flag-icon flag-icon-us";
           VPN_Username := "..."; VPN_Password := "..." |};
        {| VPN_Name := "USA Config 2"; VPN_Path := "us2.ovpn"; VPN_Icon := "flag-icon flag-icon-us";
           VPN_Username := "..."; VPN_Password := "..." |}];
     Firewall := {| VPNBoxBlockedPorts := [22; 80]; BlockedSubnets := ["192.168.1.1/24"] |} |}.

Lemma load_print_witness :
  usable readme_config /\
  loadConfigHcl (H := ascii_Unicode) (H0 := text_Floats) (print_config (FL := text_Floats) readme_config) =
    Ret (set_HostapdDriver readme_config "nl80211").
Proof.
  split; [by split_and!|].
  apply (load_print (UC := ascii_Unicode) (FL := text_Floats) readme_config); [by split_and!|].
  repeat constructor; discriminate.
Defined.

(** The two configuration files the repository ships load to what they say:
    config.hcl and the example of the README, blanks, commas and line ends as
    they are in the files, the wireless driver defaulted. *)
Theorem load_samples :
  loads sample_file = Ret (ConfigExample.sample "nl80211") /\
  loads readme_file = Ret (set_HostapdDriver readme_config "nl80211").
Proof. split; vm_compute; reflexivity. Qed.

(** ** Every text is decided *)

(** C14: The parsers are total: for every text, HCL or JSON, hcl.ParseBytes returns
    within the bounds of its loops.  For an HCL text it does not panic, and what
    it returns has an object list as its root, so that a configuration is never
    rejected as a malformed schema. *)
Theorem ParseBytes_total `{Unicode} data : exists r, ParseBytes data = Some r /\
  (lexMode data = lexModeHcl ->
   match r with
   | Ret f => is_ObjectList f = true
   | Err _ => True
   | Panic _ => False
   end).
Proof.
  unfold ParseBytes. destruct (lexMode data).
  - by eexists.
  - destruct (Parse_decided data) as (r & -> & Hr). exists r. split; [done|]. intros _.
    destruct r as [f|e|v]; try done. destruct Hr as [items E]. unfold is_ObjectList. by rewrite E.
  - destruct (HclJsonSpec.Parse_ends data) as [r ->]. by exists r.
Qed.

(** ** Mistakes in a configuration file *)

(** Mistakes that crash the daemon instead of being reported: a block without
    items where a scalar is expected (its position is that of its first item), an
    escape that the scanner accepts and the decoder does not, and in JSON a text
    that ends within an escape. *)
Theorem load_panics :
  (forall `{Unicode, Floats} t name cur, t ∈ [TBool; TInt; TFloat; TString] ->
     decode t name (ObjectList []) cur = Panic IndexOutOfRange) /\
  loads "listener {}" = Panic IndexOutOfRange /\
  (exists msg, loads "listener = '\400'" = Panic (PanicValue msg)) /\
  (exists v, loads "{ 'listener': '\x" = Panic v).
Proof.
  split_and!; [|by vm_compute|eexists; by vm_compute|eexists; by vm_compute].
  intros ? ? t name cur Ht. repeat (apply elem_of_cons in Ht as [->|Ht]; [done|]). by apply not_elem_of_nil in Ht.
Qed.

Definition VPN (name path : string) : VPNOpt :=
  {| VPN_Name := name; VPN_Path := path; VPN_Icon := ""; VPN_Username := ""; VPN_Password := "" |}.

Definition base (rest : string) : string :=
  "listener = ':1' network { interface_ident = 'a' subnet = 'b' " +:+ rest.

(** The VPNs a file describes; [None] when it does not load. *)
Definition vpns (s : string) : option (list VPNOpt) :=
  match loads s with
  | Ret c => Some (VPNConfigurations c)
  | _ => None
  end.

(** Mistakes that are not reported.  A VPN that is written as a block, as HCL
    files usually are, becomes one VPN per attribute, none of which has both a
    name and a path, while a list of one object is one VPN; an assignment without
    a value is dropped together with the closing brace after it, so that a text
    with a brace too many is accepted; and a JSON text may end before its objects
    are closed. *)
Theorem load_unreported :
  vpns (base "} vpn_configs { name = 'x' path = 'y' }") = Some [VPN "x" ""; VPN "" "y"] /\
  vpns (base "} vpn_configs = [{ name = 'x' path = 'y' }]") = Some [VPN "x" "y"] /\
  vpns (base "wireless = } }") = Some [] /\
  vpns "{ 'listener': ':1', 'network': { 'interface_ident': 'a', 'subnet': 'b'" = Some [].
Proof. split_and!; vm_compute; reflexivity. Qed.
