(* ===== verification/Daemon.v ===== *)
(** * The daemon on its configuration file

    [main] with the HCL library in place of its parameters: from the bytes of the
    configuration file to the controller that runs. *)

From Stdlib Require Import ZArith Lia NArith Ascii Strings.Byte.
From stdpp Require Import base numbers gmap strings list fin_maps.
From coqutil Require Import Datatypes.RecordSetters.
From S2P Require Import Prelude GoNet Dhcp4 OS Config NetUtil Iptables Hostapd Controller ControllerSpec SimOS Startup Server Utf8 HclToken HclDecoder HclDecoderSpec HclConfig HclConfigSpec.
Import RecordSetters.TriangleBracketNotations.

Open Scope Z_scope.

Section daemon.
Context `{UC : Unicode, FL : token.Floats} {W : Type} `{Forwarding W} (w : Z) (turns : nat).

Definition start (arg : string) : GM W Controller main_start :=
  mainStart w turns parseConfig is_ObjectList decodeConfig arg.

(** The file [main] reads. *)
Definition config_path (arg : string) : string := if decide (arg = EmptyString) then "config.hcl" else arg.

Lemma bind_run {C A B} (m : GM W C A) (f : A -> GM W C B) s :
  (m ≫= f) s = match m s with
               | Some (Ret a, s) => f a s
               | Some (Err e, s) => Some (Err e, s)
               | Some (Panic p, s) => Some (Panic p, s)
               | None => None
               end.
Proof. done. Qed.

(** Reading and loading the file is the first thing [main] does. *)
Lemma start_loads arg (s : sys W Controller) data : fst (os_ReadFile (config_path arg) (world s)) = Ret data ->
  exists s1, ctl s1 = ctl s /\ world s1 = snd (os_ReadFile (config_path arg) (world s)) /\
    trace s1 = trace s ++ [EvReadFile (config_path arg) (Ret data)] /\
    start arg s =
      match loadConfigHcl data with
      | Ret c =>
          (ctr ← try (NewController w turns c);
           match ctr with
           | inr _ => mret ControllerFailed
           | inl _ =>
               match VPNConfigurations c with
               | [] => mret Started
               | vpn :: _ =>
                   r ← try (SetVPN turns vpn);
                   match r with
                   | inr _ => mret VPNFailed
                   | inl _ => mret Started
                   end
               end
           end) s1
      | Err _ => Some (Ret ConfigFailed, s1)
      | Panic p => Some (Panic p, s1)
      end.
Proof.
  intros Hr. unfold start, mainStart. cbv zeta.
  change (if decide (arg = EmptyString) then "config.hcl" else arg) with (config_path arg).
  destruct (os_ReadFile (config_path arg) (world s)) as [r wd] eqn:E. cbn [fst snd] in *. subst r.
  set (s1 := Sys (ctl s) wd (trace s ++ [EvReadFile (config_path arg) (Ret data)])).
  assert (HL : LoadConfigFile parseConfig is_ObjectList decodeConfig (config_path arg) s = Some (loadConfigHcl data, s1)).
  { unfold LoadConfigFile. rewrite bind_run. unfold call. rewrite E. reflexivity. }
  exists s1. split_and!; try done. rewrite bind_run. unfold try at 1. rewrite HL. by destruct (loadConfigHcl data).
Qed.

(** A configuration that does not load is refused before anything is done: the
    only call of the system is the one that read the file, and no controller is
    made. *)
Theorem start_refuses arg (s : sys W Controller) data e :
  fst (os_ReadFile (config_path arg) (world s)) = Ret data -> loadConfigHcl data = Err e ->
  exists s', start arg s = Some (Ret ConfigFailed, s') /\ ctl s' = ctl s /\
    trace s' = trace s ++ [EvReadFile (config_path arg) (Ret data)].
Proof.
  intros Hr Hl. destruct (start_loads arg s data Hr) as (s1 & Hc & _ & Ht & E). rewrite Hl in E. by exists s1.
Qed.

Context `{FA : !FoldsAscii}.

(** C12: From the file to the tunnel: when the configuration file is the printed
    form of a usable configuration and [main] gets as far as waiting for signals,
    the subnet was one, and the daemon runs the first VPN of that configuration
    with forwarding on, or none if the configuration has none. *)
Theorem start_runs_config arg c (s s' : sys W Controller) :
  fst (os_ReadFile (config_path arg) (world s)) = Ret (print_config c) ->
  usable c -> Forall int64_range (VPNBoxBlockedPorts (Firewall c)) ->
  start arg s = Some (Ret Started, s') ->
  (exists ip sub, net.ParseCIDR (Subnet (Network c)) = Ret (ip, sub)) /\
  match VPNConfigurations c with
  | [] => vpnConf (ctl s') = None
  | v :: _ => vpnConf (ctl s') = Some v /\ forwarding (world s') = true
  end.
Proof.
  intros Hr Hu Hp. destruct (start_loads arg s _ Hr) as (s1 & _ & _ & _ & ->). rewrite load_printed by done.
  assert (VPNConfigurations (with_driver c) = VPNConfigurations c /\
          Subnet (Network (with_driver c)) = Subnet (Network c)) as [Hv Hs] by (unfold with_driver; by case_decide).
  rewrite Hv. intros (r & s2 & Hn & E)%bind_returns. unfold try in Hn.
  destruct (NewController w turns (with_driver c) s1) as [[[[]|e|p] s3]|] eqn:En; try done; injection Hn as <- <-; [|done].
  apply NewController_fields in En as (ip & sub & wl & Hip & _ & Hi & _). rewrite Hs in Hip.
  split; [by eexists _, _|]. unfold idle_fields in Hi. injection Hi as ? ? ? ? Hconf ? ?.
  destruct (VPNConfigurations c) as [|v vs]; [by injection E as <-|].
  apply bind_returns in E as (r & s4 & Ev & E). unfold try in Ev.
  destruct (SetVPN turns v s3) as [[[[]|e|p] s5]|] eqn:Es; try done; injection Ev as <- <-; [|done]. injection E as <-.
  destruct (SetVPN_succeeds turns (config (ctl s3)) v s3 _ _ eq_refl Es eq_refl) as [(_ & Hc & _) _].
  split; [done|]. destruct (SetVPN_on_success turns v s3 _ _ Es) as (l & _ & Hon). apply Hon. by left.
Qed.

End daemon.

(** ** On the simulated system *)

(** The simulated system with the configuration file of [c]. *)
Definition world_with (c : Config) : sim :=
  sim_world <| files := [("config.hcl", print_config (FL := text_Floats) c)] |>.

Definition home_config : Config :=
  {| Config_Name := Config_Name sim_config; Listener := Listener sim_config;
     Network := Network sim_config; Debug := Debug sim_config;
     VPNConfigurations := [sim_vpn]; Firewall := Firewall sim_config |}.

Definition start_home : GM sim Controller main_start := start (UC := ascii_Unicode) (FL := text_Floats) 64 300 "".

Lemma start_runs_config_witness :
  forwarding (world (final start_home (sim_start_state (world_with home_config)))) = true.
Proof.
  destruct (start_runs_config (UC := ascii_Unicode) (FL := text_Floats) 64 300 "" home_config
    (sim_start_state (world_with home_config)) (final start_home (sim_start_state (world_with home_config))))
    as (_ & _ & Hf).
  - vm_compute. reflexivity.
  - split; [discriminate|split; discriminate].
  - constructor.
  - vm_compute. reflexivity.
  - exact Hf.
Defined.

Lemma start_refuses_witness :
  exists s', start_home (sim_start_state (sim_world <| files := [("config.hcl", bytes "name = 1 2")] |>)) =
    Some (Ret ConfigFailed, s').
Proof.
  destruct (start_refuses (UC := ascii_Unicode) (FL := text_Floats) 64 300 ""
    (sim_start_state (sim_world <| files := [("config.hcl", bytes "name = 1 2")] |>)) (bytes "name = 1 2")
    (match loadConfigHcl (H := ascii_Unicode) (H0 := text_Floats) (bytes "name = 1 2") with
     | Err e => e | _ => ErrorString "" end)) as (s' & E & _).
  - vm_compute. reflexivity.
  - vm_compute. reflexivity.
  - exact (ex_intro _ s' E).
Defined.
