(* ===== verification/IptablesList.v ===== *)
(** * Listing chains and counters

    [ListChains] and [Stats] of go-iptables, which take apart what the [iptables]
    program prints, with the functions of package strings they use. *)

From Stdlib Require Import ZArith Lia NArith Ascii Strings.Byte Strings.String.
From stdpp Require Import base numbers gmap strings list fin_maps.
From S2P Require Import Prelude GoNet OS Utf8 Iptables.

Open Scope Z_scope.

(** ** White space *)

Module fields.
(** A string as runes with their encodings. *)
Fixpoint runes (fuel : nat) (p : list byte) : list (Z * list byte) :=
  match fuel, p with
  | S fuel, _ :: _ =>
      let '(r, n) := DecodeRune p in
      (r, take n p) :: runes fuel (drop n p)
  | _, _ => []
  end.

Fixpoint trimLeft (l : list (Z * list byte)) : list (Z * list byte) :=
  match l with
  | (r, b) :: l' => if IsSpace r then trimLeft l' else l
  | [] => []
  end.

(** [strings.TrimSpace] *)
Definition TrimSpace (s : string) : string :=
  let l := runes (length (bytes s)) (bytes s) in
  text (concat (reverse (trimLeft (reverse (trimLeft l)))).*2).

(** The words, behind the bytes [cur] of a word that has begun. *)
Fixpoint split (cur : list byte) (l : list (Z * list byte)) : list (list byte) :=
  match l with
  | [] => if decide (cur = []) then [] else [cur]
  | (r, b) :: l =>
      if IsSpace r then (if decide (cur = []) then [] else [cur]) ++ split [] l
      else split (cur ++ b) l
  end.

(** [strings.Fields] *)
Definition Fields (s : string) : list string :=
  text <$> split [] (runes (length (bytes s)) (bytes s)).
End fields.

Definition index (l : list string) (i : nat) : outcome string :=
  match l !! i with Some x => Ret x | None => Panic IndexOutOfRange end.

(** ** Chains *)

(** The loop of [ListChains]. *)
Fixpoint chainNames (result : list string) : outcome (list string) :=
  match result with
  | [] => Ret []
  | val :: result =>
      if strings.HasPrefix val "-P" || strings.HasPrefix val "-N" then
        name ← index (fields.Fields val) 1;
        chains ← chainNames result;
        Ret (name :: chains)
      else Ret []
  end.

(** ** Counters *)

Definition appendSubnet (addr : string) : string :=
  match strings.IndexByte "/" addr with
  | Some _ => addr
  | None =>
      match strings.IndexByte "." addr with
      | None => addr +:+ "/128"
      | Some _ => addr +:+ "/32"
      end
  end.

(** [net.ParseCIDR], then [net.ParseIP], for the address alone. *)
Definition isAddress (dest : string) : bool :=
  let ip := match net.ParseCIDR dest with Ret (ip, _) => ip | _ => [] end in
  negb (net.is_nil (if net.is_nil ip then net.ParseIP dest else ip)).

(** A line of the listing. *)
Definition statsRow (ipv6 : bool) (line : string) : outcome (list string) :=
  let l := fields.Fields (fields.TrimSpace line) in
  l ← (if ipv6 then
         dest ← index l 6;
         Ret (if isAddress dest then take 4 l ++ ["  "] ++ drop 4 l else l)
       else Ret l);
  source ← index l 7;
  destination ← index l 8;
  Ret (take 7 l ++ [appendSubnet source; appendSubnet destination; strings.Join " " (drop 9 l)]).

Fixpoint statsRows (ipv6 : bool) (lines : list string) : outcome (list (list string)) :=
  match lines with
  | [] => Ret []
  | line :: lines =>
      row ← statsRow ipv6 line;
      rows ← statsRows ipv6 lines;
      Ret (row :: rows)
  end.

Section iptables.
Context {W C : Type} `{OS W}.

Definition Proto (ipt : IPTables) : Protocol := proto ipt.

Definition ListChains (ipt : IPTables) (table : string) : GM W C (list string) :=
  result ← executeList ipt ["-t"; table; "-S"];
  pure (chainNames result).

Definition Stats (ipt : IPTables) (table chain : string) : GM W C (list (list string)) :=
  lines ← executeList ipt ["-t"; table; "-L"; chain; "-n"; "-v"; "-x"];
  pure (statsRows (bool_decide (proto ipt = ProtocolIPv6)) (drop 2 lines)).
End iptables.

(** [IsNotExist], of an error with its exit status and what was printed. *)
Definition IsNotExist (status : Z) (msg : string) : bool :=
  bool_decide (status = 1) &&
  (bool_decide (msg = "iptables: Bad rule (does a matching rule exist in that chain?)." +:+ String newline EmptyString) ||
   bool_decide (msg = "iptables: No chain/target/match by that name." +:+ String newline EmptyString)).

(** ** Words between blanks *)

Definition blank (n : nat) : list byte := replicate n " "%byte.

Definition is_word (w : list byte) : Prop := w <> [] /\ Forall (fun b => 33 <= u8 b < 127) w.

(** Words, each behind some blanks. *)
Fixpoint layout (ws : list (nat * list byte)) : list byte :=
  match ws with
  | [] => []
  | (g, w) :: ws => blank g ++ w ++ layout ws
  end.

Definition spaced (ws : list (nat * list byte)) : Prop :=
  Forall (fun x => is_word x.2) ws /\ Forall (fun x => (0 < x.1)%nat) (tail ws).

Definition one_each (p : list byte) : list (Z * list byte) := (fun b => (u8 b, [b])) <$> p.

Lemma runes_ascii p : Forall (fun b => u8 b < 128) p -> fields.runes (length p) p = one_each p.
Proof.
  induction 1 as [|b p Hb Hp IH]; [done|]. cbn [fields.runes length].
  rewrite DecodeRune_ascii by done. simpl. by rewrite drop_0, IH.
Qed.

Lemma blank_ascii n : Forall (fun b => u8 b < 128) (blank n).
Proof. apply Forall_replicate. done. Qed.

Lemma word_ascii w : is_word w -> Forall (fun b => u8 b < 128) w.
Proof. intros [_ Hw]. eapply Forall_impl; [exact Hw|]. simpl. intros. lia. Qed.

Lemma layout_ascii ws : Forall (fun x => is_word x.2) ws -> Forall (fun b => u8 b < 128) (layout ws).
Proof.
  induction 1 as [|[g w] ws Hw _ IH]; [constructor|]. simpl.
  apply Forall_app. split; [apply blank_ascii|]. apply Forall_app. split; [by apply word_ascii|done].
Qed.

Lemma one_each_app p q : one_each (p ++ q) = one_each p ++ one_each q.
Proof. apply fmap_app. Qed.

Lemma word_byte b : 33 <= u8 b < 127 -> IsSpace (u8 b) = false.
Proof. intros H. apply bool_decide_eq_false. lia. Qed.

Lemma split_blank cur n l :
  cur <> [] -> (0 < n)%nat -> fields.split cur (one_each (blank n) ++ l) = cur :: fields.split [] (one_each (blank (n - 1)) ++ l).
Proof. intros Hc Hn. destruct n as [|n]; [lia|]. simpl. rewrite decide_False by done. by rewrite Nat.sub_0_r. Qed.

Lemma split_blanks n l : fields.split [] (one_each (blank n) ++ l) = fields.split [] l.
Proof. induction n as [|n IH]; [done|]. simpl. apply IH. Qed.

Lemma split_word cur w l :
  Forall (fun b => 33 <= u8 b < 127) w -> fields.split cur (one_each w ++ l) = fields.split (cur ++ w) l.
Proof.
  intros Hw. revert cur. induction Hw as [|b w Hb Hw IH]; intros cur; [by rewrite app_nil_r|]. simpl.
  rewrite word_byte by done. rewrite IH. by rewrite <- app_assoc.
Qed.

Lemma split_layout cur ws :
  Forall (fun x => is_word x.2) ws -> Forall (fun x => (0 < x.1)%nat) ws -> cur <> [] ->
  fields.split cur (one_each (layout ws)) = cur :: ws.*2.
Proof.
  intros Hw. revert cur. induction Hw as [|[g w] ws [Hne Hf] Hw IH]; intros cur Hg Hcur; simpl.
  - by rewrite decide_False.
  - simpl in Hne, Hf. apply Forall_cons in Hg as [Hg Hgs]. rewrite !one_each_app, split_blank by done.
    rewrite split_blanks, split_word by done. by rewrite IH.
Qed.

(** [Fields] inverts laying out words. *)
Lemma Fields_layout ws : spaced ws -> fields.Fields (text (layout ws)) = text <$> ws.*2.
Proof.
  intros [Hw Hg]. unfold fields.Fields. rewrite bytes_text, runes_ascii by by apply layout_ascii. f_equal.
  destruct Hw as [|[g w] ws [Hne Hf] Hw]; [done|]. simpl in *.
  rewrite !one_each_app, split_blanks, split_word by done. by apply split_layout.
Qed.

Lemma trimLeft_blank n l : fields.trimLeft (one_each (blank n) ++ l) = fields.trimLeft l.
Proof. induction n as [|n IH]; [done|]. simpl. apply IH. Qed.

Lemma trimLeft_word b l : 33 <= u8 b < 127 -> fields.trimLeft ((u8 b, [b]) :: l) = (u8 b, [b]) :: l.
Proof. intros Hb. simpl. by rewrite word_byte. Qed.

Lemma concat_one_each p : concat (one_each p).*2 = p.
Proof. induction p as [|b p IH]; [done|]. simpl. by f_equal. Qed.

(** The last byte of a layout belongs to a word. *)
Lemma layout_last ws :
  Forall (fun x => is_word x.2) ws -> ws <> [] -> exists p b, layout ws = p ++ [b] /\ 33 <= u8 b < 127.
Proof.
  intros Hw Hne. induction Hw as [|[g w] ws [Hn Hf] Hw IH]; [done|]. simpl.
  destruct ws as [|x ws].
  - simpl in Hn, Hf. destruct (exists_last Hn) as (p & b & ->). apply Forall_app in Hf as [_ Hf]. inversion Hf; subst.
    exists (blank g ++ p), b. simpl. by rewrite app_nil_r, app_assoc.
  - destruct (IH ltac:(done)) as (p & b & -> & Hb). exists (blank g ++ w ++ p), b. by rewrite <- !app_assoc.
Qed.

Lemma TrimSpace_layout g w ws n :
  Forall (fun x => is_word x.2) ((g, w) :: ws) ->
  fields.TrimSpace (text (layout ((g, w) :: ws) ++ blank n)) = text (layout ((0%nat, w) :: ws)).
Proof.
  intros Hw. unfold fields.TrimSpace. rewrite bytes_text, runes_ascii.
  2: { apply Forall_app. split; [by apply layout_ascii|apply blank_ascii]. }
  assert (Forall (fun x => is_word x.2) ((0%nat, w) :: ws)) as Hw0 by (inversion Hw; by constructor).
  destruct (layout_last _ Hw0 ltac:(done)) as (p & b & Hp & Hb).
  change (layout ((g, w) :: ws)) with (blank g ++ layout ((0%nat, w) :: ws)).
  rewrite !one_each_app, <- app_assoc, trimLeft_blank.
  assert (forall l, fields.trimLeft (one_each (layout ((0%nat, w) :: ws)) ++ l) =
    one_each (layout ((0%nat, w) :: ws)) ++ l) as ->.
  { intros l. simpl. inversion Hw as [|? ? [Hne Hf] _]; subst. simpl in *. destruct w as [|c w]; [done|].
    inversion Hf; subst. simpl. by rewrite word_byte. }
  rewrite reverse_app, Hp, one_each_app, reverse_app. unfold one_each at 1. rewrite <- fmap_reverse.
  unfold blank. rewrite reverse_replicate. fold (blank n). fold (one_each (blank n)). rewrite trimLeft_blank.
  simpl. rewrite word_byte by done. rewrite reverse_cons, reverse_involutive.
  change ([(u8 b, [b])]) with (one_each [b]). by rewrite <- one_each_app, concat_one_each.
Qed.

(** ** Lines *)

Definition unlines (ls : list string) : string :=
  foldr (fun l rest => l +:+ String newline rest) EmptyString ls.

Definition is_line (l : string) : Prop := strings.IndexByte newline l = None.

Lemma Split_line l rest :
  is_line l -> strings.Split newline (l +:+ String newline rest) = l :: strings.Split newline rest.
Proof.
  unfold is_line. induction l as [|c l IH]; intros Hl.
  - done.
  - cbn [strings.IndexByte] in Hl. change (String c l +:+ ?r) with (String c (l +:+ r)). cbn [strings.Split].
    destruct (decide (c = newline)); [done|].
    rewrite IH; [done|]. by destruct (strings.IndexByte newline l).
Qed.

Lemma lines_unlines ls :
  Forall is_line ls -> drop_last_empty (strings.Split newline (unlines ls)) = ls.
Proof.
  intros Hls. assert (strings.Split newline (unlines ls) = ls ++ [EmptyString]) as ->.
  { induction Hls as [|l ls Hl Hls IH]; [done|]. cbn [unlines foldr]. rewrite Split_line by done. simpl. by f_equal. }
  unfold drop_last_empty. rewrite last_snoc, length_app. simpl. by rewrite Nat.add_sub, take_app_length.
Qed.

Lemma word_line p : Forall (fun b => 32 <= u8 b) p -> is_line (text p).
Proof.
  unfold is_line, text. induction 1 as [|b p Hb Hp IH]; [done|].
  change (string_of_list_byte (b :: p)) with (String (ascii_of_byte b) (string_of_list_byte p)). cbn [strings.IndexByte].
  rewrite decide_False; [by rewrite IH|]. intros E. apply (f_equal byte_of_ascii) in E.
  rewrite byte_of_ascii_of_byte in E. subst b. vm_compute in Hb. by apply Hb.
Qed.

Lemma layout_line ws n : Forall (fun x => is_word x.2) ws -> is_line (text (layout ws ++ blank n)).
Proof.
  intros Hw. apply word_line. apply Forall_app. split.
  - induction Hw as [|[g w] ws [_ Hf] _ IH]; [constructor|]. simpl in *. apply Forall_app. split.
    + apply Forall_replicate. done.
    + apply Forall_app. split; [|done]. eapply Forall_impl; [exact Hf|]. simpl. intros. lia.
  - apply Forall_replicate. done.
Qed.

(** ** Listing chains *)

(** How the program prints the chains of a table. *)
Inductive chainDecl :=
  | Policy (name target : list byte)
  | UserChain (name : list byte).

Definition decl_words (d : chainDecl) : list (nat * list byte) :=
  match d with
  | Policy name target => [(0%nat, bytes "-P"); (1%nat, name); (1%nat, target)]
  | UserChain name => [(0%nat, bytes "-N"); (1%nat, name)]
  end.

Definition decl_line (d : chainDecl) : string := text (layout (decl_words d) ++ blank 0).

Definition decl_name (d : chainDecl) : list byte :=
  match d with Policy name _ | UserChain name => name end.

Definition wf_decl (d : chainDecl) : Prop :=
  match d with Policy name target => is_word name /\ is_word target | UserChain name => is_word name end.

Definition rule_line (r : string) : string := "-A " +:+ r.

Lemma rule_is_line r : is_line r -> is_line (rule_line r).
Proof. unfold is_line, rule_line. intros H. simpl. change ("" +:+ r) with r. by rewrite H. Qed.

Lemma decl_spaced d : wf_decl d -> spaced (decl_words d).
Proof.
  assert (forall s, (forallb (fun b => (33 <=? u8 b) && (u8 b <? 127)) (bytes s) && negb (bool_decide (bytes s = [])) = true) ->
    is_word (bytes s)) as H.
  { intros s [Hs Hn]%andb_true_iff. split.
    - apply negb_true_iff, bool_decide_eq_false in Hn. done.
    - apply Forall_forall. intros b Hb. pose proof (proj1 (forallb_forall _ _) Hs b (proj1 (list_elem_of_In _ _) Hb)) as E.
      simpl in E. lia. }
  pose proof (H "-P" ltac:(reflexivity)). pose proof (H "-N" ltac:(reflexivity)).
  destruct d; intros Hd; simpl in Hd; split; repeat constructor; simpl; try apply Hd; try done; try lia.
Qed.

Lemma chainNames_spec ds rs :
  Forall wf_decl ds ->
  chainNames ((decl_line <$> ds) ++ (rule_line <$> rs)) = Ret (text ∘ decl_name <$> ds).
Proof.
  induction 1 as [|d ds Hd Hds IH]; [by destruct rs|]. rewrite fmap_cons, <- app_comm_cons. cbn [chainNames].
  assert (strings.HasPrefix (decl_line d) "-P" || strings.HasPrefix (decl_line d) "-N" = true) as ->
    by (destruct d; reflexivity).
  assert (index (fields.Fields (decl_line d)) 1 = Ret (text (decl_name d))) as ->.
  { unfold decl_line. rewrite app_nil_r, Fields_layout by by apply decl_spaced. by destruct d. }
  by rewrite bind_ret, IH.
Qed.

Section listing.
Context {W C : Type} `{OS W} (ipt : IPTables).
Implicit Types s : sys W C.

Lemma executeList_lines args s s' ls :
  runWithOutput ipt args s = Some (Ret (unlines ls), s') -> Forall is_line ls ->
  executeList ipt args s = Some (Ret ls, s').
Proof.
  intros Hr Hls. unfold executeList, mbind, GM_bind. rewrite Hr. simpl.
  unfold mret, GM_ret. by rewrite lines_unlines.
Qed.

(** [ListChains] gives the chains of a table in the order they are printed:
    those with a policy and those of the user, and none of the rules behind them. *)
Theorem ListChains_spec table ds rs s s' :
  runWithOutput ipt ["-t"; table; "-S"] s = Some (Ret (unlines ((decl_line <$> ds) ++ (rule_line <$> rs))), s') ->
  Forall wf_decl ds -> Forall is_line rs ->
  ListChains ipt table s = Some (Ret (text ∘ decl_name <$> ds), s').
Proof.
  intros Hr Hds Hrs. unfold ListChains, mbind, GM_bind. rewrite (executeList_lines _ _ _ _ Hr).
  - unfold pure. by rewrite chainNames_spec.
  - apply Forall_app. split; apply Forall_fmap.
    + eapply Forall_impl; [exact Hds|]. intros d Hd. by apply layout_line, decl_spaced.
    + eapply Forall_impl; [exact Hrs|]. exact rule_is_line.
Qed.

(** ** Listing counters *)

(** A line of the listing: its words, without the options field where it is
    empty, and blanks around them. *)
Record counted := {
  row_words : list (nat * list byte);
  row_tail : nat
}.

Definition row_line (r : counted) : string := text (layout (row_words r) ++ blank (row_tail r)).

Definition row_fields (r : counted) : list string := text <$> (row_words r).*2.

Lemma row_Fields r : spaced (row_words r) -> fields.Fields (fields.TrimSpace (row_line r)) = row_fields r.
Proof.
  intros [Hw Hg]. unfold row_line, row_fields. destruct (row_words r) as [|[g w] ws] eqn:E.
  - unfold fields.TrimSpace, layout. rewrite bytes_text, runes_ascii by apply blank_ascii.
    rewrite (app_nil_l (blank _)). rewrite <- (app_nil_r (one_each _)), trimLeft_blank. done.
  - rewrite TrimSpace_layout by done. rewrite Fields_layout; [done|]. split; [|done]. inversion Hw; by constructor.
Qed.

(** What is made of the fields of a row. *)
Definition row_of (l : list string) : option (list string) :=
  match l with
  | pkts :: bytes :: target :: prot :: opt :: inIf :: outIf :: source :: destination :: options =>
      Some [pkts; bytes; target; prot; opt; inIf; outIf; appendSubnet source; appendSubnet destination;
            strings.Join " " options]
  | _ => None
  end.

(** The fields, with the options field that the listing for IPv6 leaves empty. *)
Definition with_opt (ipv6 : bool) (l : list string) : list string :=
  if ipv6 && match l !! 6%nat with Some dest => isAddress dest | None => false end
  then take 4 l ++ ["  "] ++ drop 4 l else l.

Lemma statsRow_spec ipv6 r :
  spaced (row_words r) ->
  statsRow ipv6 (row_line r) =
    match row_of (with_opt ipv6 (row_fields r)) with Some row => Ret row | None => Panic IndexOutOfRange end.
Proof.
  intros Hr. unfold statsRow. rewrite row_Fields by done. generalize (row_fields r) as l. intros l. clear.
  unfold with_opt. destruct ipv6; simpl andb.
  - unfold index at 1. destruct l as [|a [|b [|c [|d [|e [|f [|g l]]]]]]]; try done. simpl.
    destruct (isAddress g); simpl; by destruct l as [|h [|i l]].
  - rewrite bind_ret. by destruct l as [|a [|b [|c [|d [|e [|f [|g [|h [|i l]]]]]]]]].
Qed.

Lemma statsRows_spec ipv6 rs rows :
  Forall (fun r => spaced (row_words r)) rs ->
  mapM (fun r => row_of (with_opt ipv6 (row_fields r))) rs = Some rows ->
  statsRows ipv6 (row_line <$> rs) = Ret rows.
Proof.
  intros Hrs. revert rows. induction Hrs as [|r rs Hr Hrs IH]; intros rows; cbn [mapM]; [by intros [= <-]|].
  rewrite fmap_cons. cbn [statsRows]. intros (row & Hrow & (rest & Hrest & [= <-])%bind_Some)%bind_Some.
  rewrite statsRow_spec, Hrow, bind_ret, (IH rest) by done. done.
Qed.
End listing.

Section stats.
Context {W C : Type} `{OS W} (ipt : IPTables).
Implicit Types s : sys W C.

(** [Stats] gives one row of ten fields for each line below the two header
    lines, whatever blanks are between the words: the addresses with a prefix
    length, the words behind the ninth joined, and for IPv6 an empty fifth field
    where the listing has none. *)
Theorem Stats_spec table chain h1 h2 rs rows s s' :
  runWithOutput ipt ["-t"; table; "-L"; chain; "-n"; "-v"; "-x"] s =
    Some (Ret (unlines (h1 :: h2 :: (row_line <$> rs))), s') ->
  is_line h1 -> is_line h2 -> Forall (fun r => spaced (row_words r)) rs ->
  mapM (fun r => row_of (with_opt (bool_decide (proto ipt = ProtocolIPv6)) (row_fields r))) rs = Some rows ->
  Stats ipt table chain s = Some (Ret rows, s').
Proof.
  intros Hr H1 H2 Hrs Hrows. unfold Stats, mbind, GM_bind. rewrite (executeList_lines _ _ _ _ _ Hr).
  - change (drop 2 (h1 :: h2 :: ?l)) with l. unfold pure. do 2 f_equal. by apply statsRows_spec.
  - do 2 (constructor; [done|]). apply Forall_fmap. eapply Forall_impl; [exact Hrs|]. intros r [Hw _].
    by apply layout_line.
Qed.
End stats.

(** ** Runs *)

Example chainNames_example :
  chainNames ["-P INPUT ACCEPT"; "-P FORWARD DROP"; "-N rnd"; "-A INPUT -p tcp -j DROP"; "-N late"] =
    Ret ["INPUT"; "FORWARD"; "rnd"].
Proof. vm_compute. reflexivity. Qed.

Example statsRows_example :
  statsRows false ["   12   3400 DROP  tcp  --  wlan0  *  0.0.0.0/0  10.0.0.1  tcp dpt:80 "] =
    Ret [["12"; "3400"; "DROP"; "tcp"; "--"; "wlan0"; "*"; "0.0.0.0/0"; "10.0.0.1/32"; "tcp dpt:80"]] /\
  statsRows true ["  12 3400 DROP  tcp   wlan0  *  ::/0  fd00::1 "] =
    Ret [["12"; "3400"; "DROP"; "tcp"; "  "; "wlan0"; "*"; "::/0"; "fd00::1/128"; ""]] /\
  statsRows false [""] = Panic IndexOutOfRange.
Proof. vm_compute. auto. Qed.
