(* ===== verification/Netlink.v ===== *)
(** * github.com/vishvananda/netlink/nl

    The low level of netlink (nl_linux.go, addr_linux.go, route_linux.go of package
    nl): the headers of the kernel's messages, attributes with their padding,
    requests, and the exchange of messages with the kernel.

    A struct is read from and written to memory as the machine lays it out; the
    byte order is a parameter.  A slice keeps the bytes up to its capacity, since
    [b[0:4]] reaches beyond the length of [b]. *)

From Stdlib Require Import ZArith Lia NArith Ascii Strings.Byte Strings.String.
From stdpp Require Import base numbers gmap strings list fin_maps.
From S2P Require Import Prelude GoNet Endian OS.

Open Scope Z_scope.

(** ** Slices *)

Record slice := Slice { elems : list byte; spare : list byte }.

Definition len (s : slice) : nat := length (elems s).
Definition memory (s : slice) : list byte := elems s ++ spare s.

(** [s[i:j]] and [s[i:]] *)
Definition reslice (s : slice) (i j : nat) : outcome slice :=
  if decide (i <= j <= length (memory s))%nat
  then Ret (Slice (take (j - i) (drop i (memory s))) (drop j (memory s)))
  else Panic SliceOutOfRange.

Definition sliceFrom (s : slice) (i : nat) : outcome slice := reslice s i (len s).

(** [s[i]] *)
Definition at_ (s : slice) (i : nat) : outcome byte :=
  match elems s !! i with Some b => Ret b | None => Panic IndexOutOfRange end.

(** [copy(buf[next:], src)], and a store at [buf[next:next+len(src)]]. *)
Definition copyTo (buf : list byte) (next : nat) (src : list byte) : outcome (list byte) :=
  if decide (next <= length buf)%nat
  then let src := take (length buf - next) src in
       Ret (take next buf ++ src ++ drop (next + length src) buf)
  else Panic SliceOutOfRange.

Definition store (buf : list byte) (next : nat) (src : list byte) : outcome (list byte) :=
  if decide (next + length src <= length buf)%nat
  then Ret (take next buf ++ src ++ drop (next + length src) buf)
  else Panic SliceOutOfRange.

(** ** Constants *)

Definition FAMILY_ALL : Z := 0.
Definition FAMILY_V4 : Z := 2.
Definition FAMILY_V6 : Z := 10.
Definition FAMILY_MPLS : Z := 28.

Definition RTA_ALIGNTO : nat := 4.
Definition SizeofRtAttr : nat := 4.
Definition SizeofIfInfomsg : nat := 16.
Definition SizeofIfAddrmsg : nat := 8.
Definition SizeofIfaCacheInfo : nat := 16.
Definition SizeofRtMsg : nat := 12.
Definition SizeofRtNexthop : nat := 8.
Definition SizeofNlMsghdr : nat := 16.
Definition NLMSG_HDRLEN : nat := 16.

Definition NLMSG_ERROR : Z := 2.
Definition NLMSG_DONE : Z := 3.
Definition NLM_F_REQUEST : Z := 0x1.
Definition NLM_F_MULTI : Z := 0x2.
Definition NLM_F_ACK : Z := 0x4.
Definition NLM_F_REPLACE : Z := 0x100.
Definition NLM_F_EXCL : Z := 0x200.
Definition NLM_F_CREATE : Z := 0x400.
Definition NLM_F_DUMP : Z := 0x300.

Definition RTM_NEWADDR : Z := 20.
Definition RTM_DELADDR : Z := 21.
Definition RTM_GETADDR : Z := 22.
Definition RTM_NEWROUTE : Z := 24.
Definition RTM_DELROUTE : Z := 25.
Definition RTM_GETROUTE : Z := 26.
Definition NETLINK_ROUTE : Z := 0.

Definition GetIPFamily (ip : list byte) : Z :=
  if decide (length ip <= 4)%nat then FAMILY_V4
  else if negb (net.is_nil (net.To4 ip)) then FAMILY_V4
  else FAMILY_V6.

(** [(attrlen + RTA_ALIGNTO - 1) & ^(RTA_ALIGNTO - 1)] *)
Definition rtaAlignOf (attrlen : nat) : nat :=
  Z.to_nat (Z.land (Z.of_nat (attrlen + RTA_ALIGNTO - 1)) (Z.lnot (Z.of_nat (RTA_ALIGNTO - 1)))).

(** ** The structures of the kernel *)

Record NlMsghdr := { Nl_Len : Z; Nl_Type : Z; Nl_Flags : Z; Nl_Seq : Z; Nl_Pid : Z }.

Record IfInfomsg := {
  Ifi_Family : Z; Ifi_Type : Z; Ifi_Index : Z; Ifi_Flags : Z; Ifi_Change : Z
}.

Record IfAddrmsg := {
  Ifa_Family : Z; Ifa_Prefixlen : Z; Ifa_Flags : Z; Ifa_Scope : Z; Ifa_Index : Z
}.

Record IfaCacheInfo := { IfaPrefered : Z; IfaValid : Z; Cstamp : Z; Tstamp : Z }.

Record RtMsg := {
  Rtm_Family : Z; Dst_len : Z; Src_len : Z; Rtm_Tos : Z; Rtm_Table : Z;
  Rtm_Protocol : Z; Rtm_Scope : Z; Rtm_Type : Z; Rtm_Flags : Z
}.

Record RtNexthop := { Rtnh_Len : Z; Rtnh_Flags : Z; Rtnh_Hops : Z; Rtnh_Ifindex : Z }.

Definition NewIfInfomsg (family : Z) : IfInfomsg :=
  {| Ifi_Family := family; Ifi_Type := 0; Ifi_Index := 0; Ifi_Flags := 0; Ifi_Change := 0 |}.

Definition NewIfAddrmsg (family : Z) : IfAddrmsg :=
  {| Ifa_Family := family; Ifa_Prefixlen := 0; Ifa_Flags := 0; Ifa_Scope := 0; Ifa_Index := 0 |}.

(** [RT_TABLE_MAIN], [RT_SCOPE_UNIVERSE], [RTPROT_BOOT] and [RTN_UNICAST] *)
Definition NewRtMsg : RtMsg :=
  {| Rtm_Family := 0; Dst_len := 0; Src_len := 0; Rtm_Tos := 0; Rtm_Table := 254;
     Rtm_Protocol := 3; Rtm_Scope := 0; Rtm_Type := 1; Rtm_Flags := 0 |}.

Definition NewRtDelMsg : RtMsg :=
  {| Rtm_Family := 0; Dst_len := 0; Src_len := 0; Rtm_Tos := 0; Rtm_Table := 254;
     Rtm_Protocol := 0; Rtm_Scope := 255; Rtm_Type := 0; Rtm_Flags := 0 |}.

Definition zeroRtMsg : RtMsg :=
  {| Rtm_Family := 0; Dst_len := 0; Src_len := 0; Rtm_Tos := 0; Rtm_Table := 0;
     Rtm_Protocol := 0; Rtm_Scope := 0; Rtm_Type := 0; Rtm_Flags := 0 |}.

Section structs.
Context `{NativeEndian}.

(** The unsigned field of [n] bytes at offset [i]. *)
Definition field (w : list byte) (i n : nat) : Z := ofBytes (take n (drop i w)).

Definition NlMsghdr_bytes (h : NlMsghdr) : list byte :=
  toBytes 4 (Nl_Len h) ++ toBytes 2 (Nl_Type h) ++ toBytes 2 (Nl_Flags h) ++
  toBytes 4 (Nl_Seq h) ++ toBytes 4 (Nl_Pid h).

Definition NlMsghdr_of (w : list byte) : NlMsghdr :=
  {| Nl_Len := field w 0 4; Nl_Type := field w 4 2; Nl_Flags := field w 6 2;
     Nl_Seq := field w 8 4; Nl_Pid := field w 12 4 |}.

Definition IfInfomsg_Serialize (m : IfInfomsg) : list byte :=
  toBytes 1 (Ifi_Family m) ++ toBytes 1 0 ++ toBytes 2 (Ifi_Type m) ++ toBytes 4 (Ifi_Index m) ++
  toBytes 4 (Ifi_Flags m) ++ toBytes 4 (Ifi_Change m).

Definition DeserializeIfInfomsg (b : slice) : outcome IfInfomsg :=
  s ← reslice b 0 SizeofIfInfomsg;
  let w := elems s in
  Ret {| Ifi_Family := field w 0 1; Ifi_Type := field w 2 2; Ifi_Index := sint 32 (field w 4 4);
         Ifi_Flags := field w 8 4; Ifi_Change := field w 12 4 |}.

Definition IfAddrmsg_Serialize (m : IfAddrmsg) : list byte :=
  toBytes 1 (Ifa_Family m) ++ toBytes 1 (Ifa_Prefixlen m) ++ toBytes 1 (Ifa_Flags m) ++
  toBytes 1 (Ifa_Scope m) ++ toBytes 4 (Ifa_Index m).

Definition DeserializeIfAddrmsg (b : slice) : outcome IfAddrmsg :=
  s ← reslice b 0 SizeofIfAddrmsg;
  let w := elems s in
  Ret {| Ifa_Family := field w 0 1; Ifa_Prefixlen := field w 1 1; Ifa_Flags := field w 2 1;
         Ifa_Scope := field w 3 1; Ifa_Index := field w 4 4 |}.

Definition IfaCacheInfo_Serialize (m : IfaCacheInfo) : list byte :=
  toBytes 4 (IfaPrefered m) ++ toBytes 4 (IfaValid m) ++ toBytes 4 (Cstamp m) ++ toBytes 4 (Tstamp m).

Definition DeserializeIfaCacheInfo (b : slice) : outcome IfaCacheInfo :=
  s ← reslice b 0 SizeofIfaCacheInfo;
  let w := elems s in
  Ret {| IfaPrefered := field w 0 4; IfaValid := field w 4 4; Cstamp := field w 8 4; Tstamp := field w 12 4 |}.

Definition RtMsg_Serialize (m : RtMsg) : list byte :=
  toBytes 1 (Rtm_Family m) ++ toBytes 1 (Dst_len m) ++ toBytes 1 (Src_len m) ++ toBytes 1 (Rtm_Tos m) ++
  toBytes 1 (Rtm_Table m) ++ toBytes 1 (Rtm_Protocol m) ++ toBytes 1 (Rtm_Scope m) ++ toBytes 1 (Rtm_Type m) ++
  toBytes 4 (Rtm_Flags m).

Definition DeserializeRtMsg (b : slice) : outcome RtMsg :=
  s ← reslice b 0 SizeofRtMsg;
  let w := elems s in
  Ret {| Rtm_Family := field w 0 1; Dst_len := field w 1 1; Src_len := field w 2 1; Rtm_Tos := field w 3 1;
         Rtm_Table := field w 4 1; Rtm_Protocol := field w 5 1; Rtm_Scope := field w 6 1;
         Rtm_Type := field w 7 1; Rtm_Flags := field w 8 4 |}.

Definition RtNexthop_bytes (m : RtNexthop) : list byte :=
  toBytes 2 (Rtnh_Len m) ++ toBytes 1 (Rtnh_Flags m) ++ toBytes 1 (Rtnh_Hops m) ++ toBytes 4 (Rtnh_Ifindex m).

Definition DeserializeRtNexthop (b : slice) : outcome RtNexthop :=
  s ← reslice b 0 SizeofRtNexthop;
  let w := elems s in
  Ret {| Rtnh_Len := field w 0 2; Rtnh_Flags := field w 2 1; Rtnh_Hops := field w 3 1;
         Rtnh_Ifindex := sint 32 (field w 4 4) |}.
End structs.

(** ** Requests *)

(** [NetlinkRequestData], with the types that implement it. *)
Inductive NetlinkRequestData :=
| DIfInfomsg (m : IfInfomsg)
| DIfAddrmsg (m : IfAddrmsg)
| DRtMsg (m : RtMsg)
| DRtAttr (type : Z) (data : list byte) (children : list NetlinkRequestData)
| DRtNexthop (m : RtNexthop) (children : list NetlinkRequestData).

Definition NewRtAttr (attrType : Z) (data : list byte) : NetlinkRequestData := DRtAttr attrType data [].

Definition AddChild (a attr : NetlinkRequestData) : NetlinkRequestData :=
  match a with
  | DRtAttr type data children => DRtAttr type data (children ++ [attr])
  | _ => a
  end.

Fixpoint Len (d : NetlinkRequestData) : nat :=
  match d with
  | DIfInfomsg _ => SizeofIfInfomsg
  | DIfAddrmsg _ => SizeofIfAddrmsg
  | DRtMsg _ => SizeofRtMsg
  | DRtAttr _ data [] => SizeofRtAttr + length data
  | DRtAttr _ data children =>
      rtaAlignOf (sum_list_with (fun child => rtaAlignOf (Len child)) children + SizeofRtAttr + length data)
  | DRtNexthop _ [] => SizeofRtNexthop
  | DRtNexthop _ children =>
      rtaAlignOf (sum_list_with (fun child => rtaAlignOf (Len child)) children + SizeofRtNexthop)
  end.

Section requests.
Context `{NativeEndian}.

Definition zeroBytes (n : nat) : list byte := replicate n Byte.x00.

(** The loop over the children. *)
Definition copyChildren (Serialize : NetlinkRequestData -> outcome (list byte)) :
    list NetlinkRequestData -> list byte -> nat -> outcome (list byte) :=
  fix go children buf next :=
    match children with
    | [] => Ret buf
    | child :: children =>
        childBuf ← Serialize child;
        buf ← copyTo buf next childBuf;
        go children buf (next + rtaAlignOf (length childBuf))%nat
    end.

Fixpoint Serialize (d : NetlinkRequestData) : outcome (list byte) :=
  match d with
  | DIfInfomsg m => Ret (IfInfomsg_Serialize m)
  | DIfAddrmsg m => Ret (IfAddrmsg_Serialize m)
  | DRtMsg m => Ret (RtMsg_Serialize m)
  | DRtAttr type data children =>
      let length_ := Len d in
      buf ← copyTo (zeroBytes (rtaAlignOf length_)) 4 data;
      buf ← copyChildren Serialize children buf (4 + rtaAlignOf (length data));
      buf ← (if decide (Z.of_nat length_ mod 2 ^ 16 <> 0) then store buf 0 (toBytes 2 (Z.of_nat length_)) else Ret buf);
      store buf 2 (toBytes 2 type)
  | DRtNexthop m children =>
      let length_ := Len d in
      let m := {| Rtnh_Len := Z.of_nat length_; Rtnh_Flags := Rtnh_Flags m; Rtnh_Hops := Rtnh_Hops m;
                  Rtnh_Ifindex := Rtnh_Ifindex m |} in
      buf ← copyTo (zeroBytes length_) 0 (RtNexthop_bytes m);
      copyChildren Serialize children buf (rtaAlignOf SizeofRtNexthop)
  end.

Record NetlinkRequest := {
  Req_Header : NlMsghdr;
  Req_Data : list NetlinkRequestData;
  Req_RawData : list byte
}.

(** [NewNetlinkRequest]: [seq] is the next value of the counter. *)
Definition NewNetlinkRequest (proto flags seq : Z) : NetlinkRequest :=
  {| Req_Header := {| Nl_Len := Z.of_nat SizeofNlMsghdr; Nl_Type := proto; Nl_Flags := Z.lor NLM_F_REQUEST flags;
                      Nl_Seq := seq; Nl_Pid := 0 |};
     Req_Data := []; Req_RawData := [] |}.

Definition AddData (req : NetlinkRequest) (data : NetlinkRequestData) : NetlinkRequest :=
  {| Req_Header := Req_Header req; Req_Data := Req_Data req ++ [data]; Req_RawData := Req_RawData req |}.

Definition AddRawData (req : NetlinkRequest) (data : list byte) : NetlinkRequest :=
  {| Req_Header := Req_Header req; Req_Data := Req_Data req; Req_RawData := Req_RawData req ++ data |}.

Fixpoint serializeAll (data : list NetlinkRequestData) : outcome (list (list byte)) :=
  match data with
  | [] => Ret []
  | d :: data => b ← Serialize d; rest ← serializeAll data; Ret (b :: rest)
  end.

Definition NetlinkRequest_Serialize (req : NetlinkRequest) : outcome (list byte) :=
  dataBytes ← serializeAll (Req_Data req);
  let length_ := (SizeofNlMsghdr + length (concat dataBytes) + length (Req_RawData req))%nat in
  let h := Req_Header req in
  let hdr := NlMsghdr_bytes {| Nl_Len := Z.of_nat length_; Nl_Type := Nl_Type h; Nl_Flags := Nl_Flags h;
                               Nl_Seq := Nl_Seq h; Nl_Pid := Nl_Pid h |} in
  Ret (hdr ++ concat dataBytes ++ Req_RawData req).

(** ** Attributes *)

(** [syscall.NetlinkRouteAttr] *)
Record NetlinkRouteAttr := { A_Len : Z; A_Type : Z; A_Value : slice }.

Definition EINVAL : error := SysError "invalid argument".

Definition netlinkRouteAttrAndValue (b : slice) : outcome (Z * Z * slice * nat) :=
  let a_Len := field (memory b) 0 2 in
  let a_Type := field (memory b) 2 2 in
  if decide (a_Len < Z.of_nat SizeofRtAttr \/ Z.of_nat (len b) < a_Len) then Err EINVAL
  else
    vbuf ← sliceFrom b SizeofRtAttr;
    Ret (a_Len, a_Type, vbuf, rtaAlignOf (Z.to_nat a_Len)).

(** A turn takes at least four bytes, so there are never more turns than bytes. *)
Fixpoint parseAttrs (turns : nat) (b : slice) (attrs : list NetlinkRouteAttr) : outcome (list NetlinkRouteAttr) :=
  match turns with
  | O => Ret attrs
  | S turns =>
      if decide (SizeofRtAttr <= len b)%nat then
        '(a_Len, a_Type, vbuf, alen) ← netlinkRouteAttrAndValue b;
        value ← reslice vbuf 0 (Z.to_nat a_Len - SizeofRtAttr);
        b ← sliceFrom b alen;
        parseAttrs turns b (attrs ++ [{| A_Len := a_Len; A_Type := a_Type; A_Value := value |}])
      else Ret attrs
  end.

Definition ParseRouteAttr (b : slice) : outcome (list NetlinkRouteAttr) := parseAttrs (len b) b [].

(** [native.Uint32(value[0:4])] and the like *)
Definition uintAt (value : slice) (n : nat) : outcome Z :=
  s ← reslice value 0 n; Ret (ofBytes (elems s)).

(** ** Values of attributes *)

Definition ZeroTerminated (s : string) : list byte := bytes s ++ [Byte.x00].
Definition NonZeroTerminated (s : string) : list byte := bytes s.

(** [bytes.Index(b, []byte{0})] *)
Fixpoint indexZero (b : list byte) : option nat :=
  match b with
  | [] => None
  | x :: b => if decide (x = Byte.x00) then Some 0%nat else S <$> indexZero b
  end.

Definition BytesToString (b : list byte) : outcome string :=
  match indexZero b with
  | Some n => Ret (text (take n b))
  | None => Panic SliceOutOfRange
  end.

Definition Uint8Attr (v : Z) : list byte := [byte_of_Z v].
Definition Uint16Attr (v : Z) : list byte := toBytes 2 v.
Definition Uint32Attr (v : Z) : list byte := toBytes 4 v.
Definition Uint64Attr (v : Z) : list byte := toBytes 8 v.

Definition Swap16 (i : Z) : Z :=
  match native with
  | BigEndian => i
  | LittleEndian => Z.lor (Z.shiftr (Z.land i 0xff00) 8) (Z.shiftl (Z.land i 0xff) 8)
  end.

Definition Swap32 (i : Z) : Z :=
  match native with
  | BigEndian => i
  | LittleEndian =>
      Z.lor (Z.lor (Z.lor (Z.shiftr (Z.land i 0xff000000) 24) (Z.shiftr (Z.land i 0xff0000) 8))
                   (Z.shiftl (Z.land i 0xff00) 8)) (Z.shiftl (Z.land i 0xff) 24)
  end.

(** ** Messages *)

(** [syscall.NetlinkMessage] *)
Record NetlinkMessage := { M_Header : NlMsghdr; M_Data : slice }.

(** [syscall.ParseNetlinkMessage]: a turn takes at least the header. *)
Fixpoint parseMessages (turns : nat) (b : slice) (msgs : list NetlinkMessage) : outcome (list NetlinkMessage) :=
  match turns with
  | O => Ret msgs
  | S turns =>
      if decide (NLMSG_HDRLEN <= len b)%nat then
        let h := NlMsghdr_of (memory b) in
        let l := rtaAlignOf (Z.to_nat (Nl_Len h)) in
        if decide (Nl_Len h < Z.of_nat NLMSG_HDRLEN \/ (len b < l)%nat) then Err EINVAL
        else
          dbuf ← sliceFrom b NLMSG_HDRLEN;
          data ← reslice dbuf 0 (Z.to_nat (Nl_Len h) - NLMSG_HDRLEN);
          b ← sliceFrom b l;
          parseMessages turns b (msgs ++ [{| M_Header := h; M_Data := data |}])
      else Ret msgs
  end.

Definition ParseNetlinkMessage (b : slice) : outcome (list NetlinkMessage) := parseMessages (len b) b [].

(** The messages of a datagram in the loop of [Execute]: those to return, and
    whether the exchange is over.  [errno] is the text of the system's error. *)
Section execute.
Context (errno : Z -> string) (sharedSocket : bool) (seq pid resType : Z).

Fixpoint handleMessages (msgs : list NetlinkMessage) (res : list slice) : outcome (list slice * bool) :=
  match msgs with
  | [] => Ret (res, false)
  | m :: msgs =>
      let h := M_Header m in
      if decide (Nl_Seq h <> seq) then
        if sharedSocket then handleMessages msgs res
        else Err (ErrorString ("Wrong Seq nr " +:+ strconv.Itoa (Nl_Seq h) +:+ ", expected " +:+ strconv.Itoa seq))
      else if decide (Nl_Pid h <> pid) then
        Err (ErrorString ("Wrong pid " +:+ strconv.Itoa (Nl_Pid h) +:+ ", expected " +:+ strconv.Itoa pid))
      else if decide (Nl_Type h = NLMSG_DONE) then Ret (res, true)
      else if decide (Nl_Type h = NLMSG_ERROR) then
        v ← uintAt (M_Data m) 4;
        let error := sint 32 v in
        if decide (error = 0) then Ret (res, true) else Err (SysError (errno (- error)))
      else if decide (resType <> 0 /\ Nl_Type h <> resType) then handleMessages msgs res
      else if decide (Z.land (Nl_Flags h) NLM_F_MULTI = 0) then Ret (res ++ [M_Data m], true)
      else handleMessages msgs (res ++ [M_Data m])
  end.
End execute.
End requests.

(** ** The exchange with the kernel *)

(** The calls on the socket; a datagram is cut at the size of the buffer. *)
Class NetlinkSockets (W : Type) := {
  sk_Socket : Z -> W -> outcome Z * W;
  sk_Bind : Z -> W -> outcome unit * W;
  sk_Sendto : Z -> list byte -> W -> outcome unit * W;
  sk_Getsockname : Z -> W -> outcome (option Z) * W;
  sk_Recvfrom : Z -> W -> outcome (list byte) * W;
  sk_Close : Z -> W -> outcome unit * W;
  sk_errno : Z -> string;
  sk_pagesize : nat
}.

Section sockets.
Context {W C : Type} `{NativeEndian} `{NetlinkSockets W}.

Definition syscall {A} (op : W -> outcome A * W) : GM W C A := call op (fun _ => EvOther).

Definition getNetlinkSocket (protocol : Z) : GM W C Z :=
  fd ← syscall (sk_Socket protocol);
  r ← try (syscall (sk_Bind fd));
  match r with
  | inr e => _ ← try (syscall (sk_Close fd)); fail e
  | inl _ => mret fd
  end.

Definition Send (fd : Z) (req : NetlinkRequest) : GM W C unit :=
  if decide (fd < 0) then fail (ErrorString "Send called on a closed socket")
  else
    b ← pure (NetlinkRequest_Serialize req);
    syscall (sk_Sendto fd b).

Definition GetPid (fd : Z) : GM W C Z :=
  lsa ← syscall (sk_Getsockname fd);
  match lsa with
  | Some pid => mret pid
  | None => fail (ErrorString "Wrong socket type")
  end.

Definition Receive (fd : Z) : GM W C (list NetlinkMessage) :=
  if decide (fd < 0) then fail (ErrorString "Receive called on a closed socket")
  else
    d ← syscall (sk_Recvfrom fd);
    let rb := take sk_pagesize d in
    if decide (length rb < NLMSG_HDRLEN)%nat then fail (ErrorString "Got short response from netlink")
    else pure (ParseNetlinkMessage (Slice rb (zeroBytes (sk_pagesize - length rb)))).

Fixpoint receiveLoop (turns : nat) (sharedSocket : bool) (fd seq pid resType : Z) (res : list slice) :
    GM W C (list slice) :=
  match turns with
  | O => out_of_turns
  | S turns =>
      msgs ← Receive fd;
      '(res, done) ← pure (handleMessages sk_errno sharedSocket seq pid resType msgs res);
      if done : bool then mret res else receiveLoop turns sharedSocket fd seq pid resType res
  end.

(** [Execute] for a request without sockets of its own, as the package's
    functions make them: it opens a socket and closes it. *)
Definition Execute (turns : nat) (req : NetlinkRequest) (sockType resType : Z) : GM W C (list slice) :=
  s ← getNetlinkSocket sockType;
  deferred (
    _ ← Send s req;
    pid ← GetPid s;
    receiveLoop turns false s (Nl_Seq (Req_Header req)) pid resType [])
    (syscall (sk_Close s)).
End sockets.
