(* ===== verification/NetlinkSpec.v ===== *)
(** * What the serialization of netlink requests writes

    [Serialize] fills a buffer child by child; [wire] is what it writes, and
    parsing the attributes of a message gives them back. *)

From Stdlib Require Import ZArith Lia NArith Ascii Strings.Byte Strings.String.
From stdpp Require Import base numbers gmap strings list fin_maps.
From S2P Require Import Prelude GoNet Endian OS Netlink.

Open Scope Z_scope.

(** ** Padding *)

Lemma rtaAlignOf_eq n : rtaAlignOf n = (4 * ((n + 3) / 4))%nat.
Proof.
  unfold rtaAlignOf, RTA_ALIGNTO. replace (n + 4 - 1)%nat with (n + 3)%nat by lia.
  change (Z.of_nat (4 - 1)) with (Z.ones 2). rewrite <- Z.ldiff_land, Z.ldiff_ones_r by lia.
  rewrite Z.shiftr_div_pow2, Z.shiftl_mul_pow2 by lia. change (2 ^ 2) with 4.
  change 4 with (Z.of_nat 4). rewrite <- Nat2Z.inj_div. lia.
Qed.

Lemma rtaAlignOf_bounds n : (n <= rtaAlignOf n < n + 4)%nat.
Proof. rewrite rtaAlignOf_eq. pose proof (Nat.div_mod (n + 3) 4). pose proof (Nat.mod_upper_bound (n + 3) 4). lia. Qed.

Lemma rtaAlignOf_aligned k : rtaAlignOf (4 * k) = (4 * k)%nat.
Proof.
  rewrite rtaAlignOf_eq. replace (4 * k + 3)%nat with (3 + k * 4)%nat by lia.
  by rewrite Nat.div_add.
Qed.

Lemma rtaAlignOf_add n k : rtaAlignOf (n + 4 * k) = (rtaAlignOf n + 4 * k)%nat.
Proof.
  rewrite !rtaAlignOf_eq. replace (n + 4 * k + 3)%nat with (n + 3 + k * 4)%nat by lia.
  rewrite Nat.div_add by lia. lia.
Qed.

Definition aligned (n : nat) : Prop := exists k, n = (4 * k)%nat.

Lemma rtaAlignOf_id n : aligned n -> rtaAlignOf n = n.
Proof. intros [k ->]. apply rtaAlignOf_aligned. Qed.

Lemma aligned_rtaAlignOf n : aligned (rtaAlignOf n).
Proof. rewrite rtaAlignOf_eq. by eexists. Qed.

Lemma aligned_add n m : aligned n -> aligned m -> aligned (n + m).
Proof. intros [k ->] [l ->]. exists (k + l)%nat. lia. Qed.

Lemma rtaAlignOf_plus n m : aligned m -> rtaAlignOf (n + m) = (rtaAlignOf n + m)%nat.
Proof. intros [k ->]. apply rtaAlignOf_add. Qed.

Definition pad (w : list byte) : list byte := w ++ zeroBytes (rtaAlignOf (length w) - length w).

Lemma length_pad w : length (pad w) = rtaAlignOf (length w).
Proof. unfold pad, zeroBytes. rewrite length_app, length_replicate. pose proof (rtaAlignOf_bounds (length w)). lia. Qed.

Lemma pad_aligned w : aligned (length w) -> pad w = w.
Proof. intros H. unfold pad. by rewrite rtaAlignOf_id, Nat.sub_diag, app_nil_r. Qed.

Lemma length_zeroBytes n : length (zeroBytes n) = n.
Proof. apply length_replicate. Qed.

(** ** What is written *)

(** Induction through the children. *)
Fixpoint data_ind' (P : NetlinkRequestData -> Prop)
    (Hinfo : forall m, P (DIfInfomsg m)) (Haddr : forall m, P (DIfAddrmsg m)) (Hrt : forall m, P (DRtMsg m))
    (Hattr : forall t w cs, Forall P cs -> P (DRtAttr t w cs))
    (Hnh : forall m cs, Forall P cs -> P (DRtNexthop m cs)) (d : NetlinkRequestData) : P d :=
  let go := fix go (cs : list NetlinkRequestData) : Forall P cs :=
    match cs with
    | [] => Forall_nil_2 P
    | c :: cs => Forall_cons_2 P c cs (data_ind' P Hinfo Haddr Hrt Hattr Hnh c) (go cs)
    end in
  match d with
  | DIfInfomsg m => Hinfo m
  | DIfAddrmsg m => Haddr m
  | DRtMsg m => Hrt m
  | DRtAttr t w cs => Hattr t w cs (go cs)
  | DRtNexthop m cs => Hnh m cs (go cs)
  end.

Section wire.
Context `{NativeEndian}.

Fixpoint wire (d : NetlinkRequestData) : list byte :=
  match d with
  | DIfInfomsg m => IfInfomsg_Serialize m
  | DIfAddrmsg m => IfAddrmsg_Serialize m
  | DRtMsg m => RtMsg_Serialize m
  | DRtAttr type data children =>
      toBytes 2 (Z.of_nat (Len d)) ++ toBytes 2 type ++ pad data ++ concat (map wire children)
  | DRtNexthop m children =>
      toBytes 2 (Z.of_nat (Len d)) ++ toBytes 1 (Rtnh_Flags m) ++ toBytes 1 (Rtnh_Hops m) ++
      toBytes 4 (Rtnh_Ifindex m) ++ concat (map wire children)
  end.

Lemma length_concat_wire cs :
  Forall (fun d => length (wire d) = rtaAlignOf (Len d)) cs ->
  length (concat (map wire cs)) = sum_list_with (fun c => rtaAlignOf (Len c)) cs.
Proof. induction 1 as [|c cs Hc _ IH]; [done|]. simpl. by rewrite length_app, Hc, IH. Qed.

Lemma aligned_sum cs : aligned (sum_list_with (fun c => rtaAlignOf (Len c)) cs).
Proof.
  induction cs as [|c cs IH]; [by exists 0%nat|]. simpl. apply aligned_add; [apply aligned_rtaAlignOf|done].
Qed.

Lemma Len_attr t w cs :
  rtaAlignOf (Len (DRtAttr t w cs)) = (4 + rtaAlignOf (length w) + sum_list_with (fun c => rtaAlignOf (Len c)) cs)%nat.
Proof.
  pose proof (aligned_sum cs) as Hs. destruct cs as [|c cs]; cbn [Len]; unfold SizeofRtAttr.
  - rewrite Nat.add_comm, (rtaAlignOf_plus _ 4) by (by exists 1%nat). simpl. lia.
  - rewrite rtaAlignOf_id by apply aligned_rtaAlignOf. set (s := sum_list_with _ _) in *.
    replace (s + 4 + length w)%nat with (length w + (s + 4))%nat by lia.
    rewrite rtaAlignOf_plus; [lia|]. apply aligned_add; [done|by exists 1%nat].
Qed.

Lemma Len_nexthop m cs :
  Len (DRtNexthop m cs) = (8 + sum_list_with (fun c => rtaAlignOf (Len c)) cs)%nat.
Proof.
  pose proof (aligned_sum cs) as Hs. destruct cs as [|c cs]; cbn [Len]; unfold SizeofRtNexthop; [done|].
  rewrite rtaAlignOf_id; [lia|]. apply aligned_add; [done|by exists 2%nat].
Qed.

Lemma length_dataWire d : length (wire d) = rtaAlignOf (Len d).
Proof.
  induction d as [m|m|m|t w cs IH|m cs IH] using data_ind'.
  - unfold wire, IfInfomsg_Serialize. by rewrite !length_app, !length_toBytes.
  - unfold wire, IfAddrmsg_Serialize. by rewrite !length_app, !length_toBytes.
  - unfold wire, RtMsg_Serialize. by rewrite !length_app, !length_toBytes.
  - rewrite Len_attr. cbn [wire]. rewrite !length_app, !length_toBytes, length_pad, length_concat_wire by done. lia.
  - rewrite Len_nexthop. cbn [wire]. rewrite !length_app, !length_toBytes, length_concat_wire by done.
    rewrite (Nat.add_comm 8), rtaAlignOf_plus by (by exists 2%nat). rewrite rtaAlignOf_id by apply aligned_sum. lia.
Qed.

Lemma aligned_wire d : aligned (length (wire d)).
Proof. rewrite length_dataWire. apply aligned_rtaAlignOf. Qed.

(** Writing behind what has been written. *)
Lemma copyTo_zeros pre n w :
  (length w <= n)%nat -> copyTo (pre ++ zeroBytes n) (length pre) w = Ret ((pre ++ w) ++ zeroBytes (n - length w)).
Proof.
  intros Hw. unfold copyTo. rewrite decide_True by (rewrite length_app; lia).
  rewrite (take_ge w) by (rewrite length_app, length_zeroBytes; lia). unfold zeroBytes.
  by rewrite take_app_length, <- drop_drop, drop_app_length, drop_replicate, <- app_assoc.
Qed.

Lemma store_prefix old w rest : length old = length w -> store (old ++ rest) 0 w = Ret (w ++ rest).
Proof.
  intros Hl. unfold store. rewrite decide_True by (rewrite length_app; lia).
  cbn [take app]. simpl (0 + _)%nat. by rewrite <- Hl, drop_app_length.
Qed.

Lemma store_middle pre old w rest :
  length old = length w -> store (pre ++ old ++ rest) (length pre) w = Ret (pre ++ w ++ rest).
Proof.
  intros Hl. unfold store. rewrite decide_True by (rewrite !length_app; lia).
  by rewrite take_app_length, <- drop_drop, drop_app_length, <- Hl, drop_app_length.
Qed.

Lemma copyChildren_wire cs pre n :
  Forall (fun d => Serialize d = Ret (wire d)) cs -> length (concat (map wire cs)) = n ->
  copyChildren Serialize cs (pre ++ zeroBytes n) (length pre) = Ret (pre ++ concat (map wire cs)).
Proof.
  intros Hcs. revert pre n. induction Hcs as [|c cs Hc _ IH]; intros pre n Hn; simpl in *.
  - subst n. done.
  - rewrite length_app in Hn. rewrite Hc, bind_ret, copyTo_zeros, bind_ret by lia.
    rewrite rtaAlignOf_id by apply aligned_wire. rewrite <- length_app, IH by lia. by rewrite <- app_assoc.
Qed.

Lemma toBytes_zero n v : v mod 256 ^ Z.of_nat n = 0 -> toBytes n v = zeroBytes n.
Proof.
  assert (forall n v, v mod 256 ^ Z.of_nat n = 0 -> be n v = zeroBytes n) as Hbe.
  { clear. induction n as [|n IH]; intros v Hv; [done|].
    assert (0 < 256 ^ Z.of_nat n) as Hp by lia.
    rewrite Nat2Z.inj_succ, Z.pow_succ_r, Z.mul_comm, Z.rem_mul_r in Hv by lia.
    pose proof (Z.mod_pos_bound v (256 ^ Z.of_nat n) Hp). pose proof (Z.mod_pos_bound (v / 256 ^ Z.of_nat n) 256 ltac:(lia)).
    simpl be. rewrite IH by nia. change (zeroBytes (S n)) with (Byte.x00 :: zeroBytes n). f_equal.
    apply (inj u8). rewrite u8_byte_of_Z, Z.shiftr_div_pow2 by lia.
    replace (2 ^ (8 * Z.of_nat n)) with (256 ^ Z.of_nat n) by (rewrite Z.pow_mul_r by lia; done).
    change (u8 Byte.x00) with 0. nia. }
  intros Hv. unfold toBytes. destruct native; rewrite Hbe by done; [done|]. unfold zeroBytes. by rewrite reverse_replicate.
Qed.

(** [Serialize] never writes out of range, and writes [wire]. *)
Lemma Serialize_wire d : Serialize d = Ret (wire d).
Proof.
  induction d as [m|m|m|t w cs IH|m cs IH] using data_ind'; try done.
  - cbn [Serialize]. rewrite Len_attr. set (s := sum_list_with _ _).
    assert (length (concat (map wire cs)) = s) as Hs.
    { apply length_concat_wire, Forall_forall. intros. apply length_dataWire. }
    pose proof (rtaAlignOf_bounds (length w)) as Hb.
    assert (copyTo (zeroBytes (4 + rtaAlignOf (length w) + s)) 4 w =
      Ret ((zeroBytes 4 ++ pad w) ++ zeroBytes s)) as ->.
    { replace (zeroBytes (4 + _ + s)) with (zeroBytes 4 ++ zeroBytes (rtaAlignOf (length w) + s)).
      2: { unfold zeroBytes. by rewrite <- replicate_add, Nat.add_assoc. }
      pose proof (copyTo_zeros (zeroBytes 4) (rtaAlignOf (length w) + s) w ltac:(lia)) as E.
      rewrite length_zeroBytes in E. rewrite E. unfold pad. f_equal. rewrite <- !app_assoc. do 2 f_equal.
      unfold zeroBytes. rewrite <- replicate_add. f_equal. lia. }
    rewrite bind_ret.
    replace (4 + rtaAlignOf (length w))%nat with (length (zeroBytes 4 ++ pad w))
      by (rewrite length_app, length_zeroBytes, length_pad; done).
    rewrite copyChildren_wire, bind_ret by done.
    change (zeroBytes 4) with (zeroBytes 2 ++ zeroBytes 2). rewrite <- !app_assoc.
    set (l := Z.of_nat (Len (DRtAttr t w cs))).
    assert ((if decide (l mod 2 ^ 16 <> 0)
      then store (zeroBytes 2 ++ zeroBytes 2 ++ pad w ++ concat (map wire cs)) 0 (toBytes 2 l)
      else Ret (zeroBytes 2 ++ zeroBytes 2 ++ pad w ++ concat (map wire cs))) =
      Ret (toBytes 2 l ++ zeroBytes 2 ++ pad w ++ concat (map wire cs))) as ->.
    { case_decide as Hl; [by rewrite store_prefix by (by rewrite length_toBytes)|].
      rewrite (toBytes_zero 2 l); [done|]. change (256 ^ Z.of_nat 2) with (2 ^ 16). lia. }
    rewrite bind_ret.
    pose proof (store_middle (toBytes 2 l) (zeroBytes 2) (toBytes 2 t) (pad w ++ concat (map wire cs))) as E.
    rewrite !length_toBytes in E. by rewrite E.
  - cbn [Serialize]. rewrite Len_nexthop. set (s := sum_list_with _ _).
    assert (length (concat (map wire cs)) = s) as Hs.
    { apply length_concat_wire, Forall_forall. intros. apply length_dataWire. }
    set (hdr := RtNexthop_bytes _).
    assert (length hdr = 8%nat) as Hh by (unfold hdr, RtNexthop_bytes; by rewrite !length_app, !length_toBytes).
    pose proof (copyTo_zeros [] (8 + s) hdr ltac:(lia)) as E. cbn [app length] in E. rewrite E, bind_ret.
    replace (8 + s - length hdr)%nat with s by lia. change (rtaAlignOf SizeofRtNexthop) with 8%nat. rewrite <- Hh.
    rewrite copyChildren_wire by done. unfold hdr, RtNexthop_bytes. cbn [Rtnh_Len Rtnh_Flags Rtnh_Hops Rtnh_Ifindex wire].
    rewrite Len_nexthop. fold s. by rewrite <- !app_assoc.
Qed.
End wire.

(** ** Reading *)

Lemma reslice_middle pre w post sp :
  reslice (Slice (pre ++ w ++ post) sp) (length pre) (length pre + length w) = Ret (Slice w (post ++ sp)).
Proof.
  unfold reslice, memory. cbn [elems spare]. rewrite decide_True by (rewrite !length_app; lia).
  replace (length pre + length w - length pre)%nat with (length w) by lia.
  rewrite <- !app_assoc, drop_app_length, take_app_length.
  by rewrite <- drop_drop, drop_app_length, drop_app_length.
Qed.

Lemma reslice_prefix w post sp : reslice (Slice (w ++ post) sp) 0 (length w) = Ret (Slice w (post ++ sp)).
Proof. apply (reslice_middle [] w post sp). Qed.

Lemma sliceFrom_app pre w sp : sliceFrom (Slice (pre ++ w) sp) (length pre) = Ret (Slice w sp).
Proof.
  unfold sliceFrom, len. cbn [elems]. pose proof (reslice_middle pre w [] sp) as E.
  rewrite app_nil_r in E. by rewrite length_app.
Qed.

Section parse.
Context `{NativeEndian}.

Lemma field_at pre w post : field (pre ++ w ++ post) (length pre) (length w) = ofBytes w.
Proof. unfold field. by rewrite drop_app_length, take_app_length. Qed.

(** The field of [n] bytes behind [k] others. *)
Lemma field_toBytes pre n v post k :
  length pre = k -> field (pre ++ toBytes n v ++ post) k n = v mod 256 ^ Z.of_nat n.
Proof.
  intros <-. rewrite <- (length_toBytes n v) at 2. by rewrite field_at, ofBytes_toBytes.
Qed.

Lemma uintAt_value n v sp : uintAt (Slice (toBytes n v) sp) n = Ret (v mod 256 ^ Z.of_nat n).
Proof.
  unfold uintAt. pose proof (reslice_prefix (toBytes n v) [] sp) as E. rewrite app_nil_r, length_toBytes in E.
  by rewrite E, bind_ret, <- ofBytes_toBytes.
Qed.

Definition attr_type (d : NetlinkRequestData) : Z := match d with DRtAttr t _ _ => t | _ => 0 end.

Definition payload (d : NetlinkRequestData) : list byte :=
  match d with
  | DRtAttr _ data [] => data
  | DRtAttr _ data children => pad data ++ concat (map wire children)
  | _ => []
  end.

(** An attribute whose type and length fit their fields. *)
Definition is_attr (d : NetlinkRequestData) : Prop :=
  match d with DRtAttr t _ _ => in_width 2 t /\ Z.of_nat (Len d) < 2 ^ 16 | _ => False end.

Lemma Len_payload d : is_attr d -> Len d = (4 + length (payload d))%nat.
Proof.
  destruct d as [| | |t w cs|]; try done. intros _. destruct cs as [|c cs]; [done|].
  pose proof (Len_attr t w (c :: cs)) as E. cbn [Len payload] in *. rewrite (rtaAlignOf_id (rtaAlignOf _)) in E by apply aligned_rtaAlignOf.
  rewrite length_app, length_pad, length_concat_wire, E; [lia|]. apply Forall_forall. intros. apply length_dataWire.
Qed.

Lemma wire_attr d :
  is_attr d ->
  wire d = (toBytes 2 (Z.of_nat (Len d)) ++ toBytes 2 (attr_type d)) ++ payload d ++ zeroBytes (rtaAlignOf (Len d) - Len d).
Proof.
  intros Hd. pose proof (Len_payload d Hd) as Hl. destruct d as [| | |t w cs|]; try done.
  cbn [wire attr_type]. rewrite <- app_assoc. do 2 f_equal. destruct cs as [|c cs].
  - cbn [payload map concat]. rewrite app_nil_r. unfold pad. do 2 f_equal. cbn [Len]. unfold SizeofRtAttr.
    rewrite (Nat.add_comm 4), rtaAlignOf_plus by (by exists 1%nat). lia.
  - cbn [payload]. rewrite <- app_assoc. f_equal. cbn [Len]. rewrite (rtaAlignOf_id (rtaAlignOf _)) by apply aligned_rtaAlignOf.
    by rewrite Nat.sub_diag, app_nil_r.
Qed.

(** What is read of an attribute. *)
Definition reads_as (d : NetlinkRequestData) (a : NetlinkRouteAttr) : Prop :=
  A_Type a = attr_type d /\ elems (A_Value a) = payload d.

Lemma parseAttrs_step d rest sp turns attrs :
  is_attr d -> exists a, reads_as d a /\
    parseAttrs (S turns) (Slice (wire d ++ rest) sp) attrs = parseAttrs turns (Slice rest sp) (attrs ++ [a]).
Proof.
  intros Hd. pose proof (wire_attr d Hd) as Hw. pose proof (Len_payload d Hd) as Hl.
  pose proof (length_dataWire d) as Hlen. pose proof (rtaAlignOf_bounds (Len d)) as Hb.
  assert (in_width 2 (attr_type d) /\ Z.of_nat (Len d) < 2 ^ 16) as [Ht Hmax] by (by destruct d).
  set (p := zeroBytes (rtaAlignOf (Len d) - Len d)) in *.
  set (hd := toBytes 2 (Z.of_nat (Len d)) ++ toBytes 2 (attr_type d)) in *.
  assert (length hd = 4%nat) as Hh by (unfold hd; by rewrite length_app, !length_toBytes).
  assert (field (memory (Slice (wire d ++ rest) sp)) 0 2 = Z.of_nat (Len d)) as F0.
  { unfold memory. cbn [elems spare]. rewrite Hw. unfold hd. rewrite <- !app_assoc.
    pose proof (field_toBytes [] 2 (Z.of_nat (Len d))) as E. cbn [app] in E. rewrite E by done. apply Z.mod_small. change (256 ^ Z.of_nat 2) with (2 ^ 16). lia. }
  assert (field (memory (Slice (wire d ++ rest) sp)) 2 2 = attr_type d) as F1.
  { unfold memory. cbn [elems spare]. rewrite Hw. unfold hd. rewrite <- !app_assoc.
    rewrite field_toBytes by by rewrite length_toBytes. by apply Z.mod_small. }
  exists {| A_Len := Z.of_nat (Len d); A_Type := attr_type d; A_Value := Slice (payload d) ((p ++ rest) ++ sp) |}.
  split; [done|]. cbn [parseAttrs]. rewrite decide_True by (unfold len; cbn [elems]; rewrite length_app; unfold SizeofRtAttr; lia).
  unfold netlinkRouteAttrAndValue. rewrite F0, F1.
  rewrite decide_False by (unfold len; cbn [elems]; rewrite length_app; unfold SizeofRtAttr; lia).
  assert (sliceFrom (Slice (wire d ++ rest) sp) SizeofRtAttr = Ret (Slice ((payload d ++ p) ++ rest) sp)) as ->.
  { rewrite Hw, <- (app_assoc hd). change SizeofRtAttr with 4%nat. rewrite <- Hh. apply sliceFrom_app. }
  rewrite !bind_ret, Nat2Z.id.
  replace (Len d - SizeofRtAttr)%nat with (length (payload d)) by (unfold SizeofRtAttr; lia).
  rewrite <- app_assoc, reslice_prefix, bind_ret. rewrite <- Hlen, sliceFrom_app, bind_ret. done.
Qed.

Lemma parseAttrs_wire ds turns sp attrs :
  Forall is_attr ds -> (length (concat (map wire ds)) <= turns)%nat ->
  exists as_, parseAttrs turns (Slice (concat (map wire ds)) sp) attrs = Ret (attrs ++ as_) /\ Forall2 reads_as ds as_.
Proof.
  intros Hds. revert turns attrs. induction Hds as [|d ds Hd _ IH]; intros turns attrs Ht.
  - exists []. split; [|done]. rewrite app_nil_r. by destruct turns.
  - cbn [map concat] in *. rewrite length_app in Ht. pose proof (length_dataWire d). pose proof (rtaAlignOf_bounds (Len d)).
    pose proof (Len_payload d Hd). destruct turns as [|turns]; [lia|].
    destruct (parseAttrs_step d (concat (map wire ds)) sp turns attrs Hd) as (a & Ha & ->).
    destruct (IH turns (attrs ++ [a]) ltac:(lia)) as (as_ & -> & Has). exists (a :: as_).
    split; [by rewrite <- app_assoc|by constructor].
Qed.

Lemma ParseRouteAttr_wire ds sp :
  Forall is_attr ds ->
  exists as_, ParseRouteAttr (Slice (concat (map wire ds)) sp) = Ret as_ /\ Forall2 reads_as ds as_.
Proof. intros Hds. by apply (parseAttrs_wire ds (length (concat (map wire ds))) sp []). Qed.

Lemma field_skip n v w k m : (n <= k)%nat -> field (toBytes n v ++ w) k m = field w (k - n) m.
Proof.
  intros Hk. unfold field. f_equal. f_equal. rewrite drop_app_ge by (by rewrite length_toBytes). by rewrite length_toBytes.
Qed.

Lemma field_here n v w : in_width n v -> field (toBytes n v ++ w) 0 n = v.
Proof. intros Hv. pose proof (field_toBytes [] n v w 0 eq_refl) as E. cbn [app] in E. by rewrite E, Z.mod_small. Qed.

Lemma field_last n v : in_width n v -> field (toBytes n v) 0 n = v.
Proof. intros Hv. rewrite <- (app_nil_r (toBytes n v)). by apply field_here. Qed.
End parse.

(** Reads the fields of a structure one by one. *)
Ltac read_fields :=
  repeat first [rewrite field_here by done | rewrite field_last by done | rewrite field_skip by lia; cbn [Nat.sub]].
