(* ===== verification/NetlinkBounds.v ===== *)
(** * Attributes of any message

    [ParseRouteAttr] on bytes that need not be a message of the library's: what it
    returns lies in the buffer, and when it panics. *)

From Stdlib Require Import ZArith Lia NArith Ascii Strings.Byte Strings.String.
From stdpp Require Import base numbers gmap strings list fin_maps.
From S2P Require Import Prelude GoNet Endian OS Netlink NetlinkSpec.

Open Scope Z_scope.

Section bounds.
Context `{NativeEndian}.

(** The attribute at offset [i] of the buffer. *)
Definition attr_at (b : slice) (i : nat) (a : NetlinkRouteAttr) : Prop :=
  A_Len a = field (elems b) i 2 /\ A_Type a = field (elems b) (i + 2) 2 /\
  (i + Z.to_nat (A_Len a) <= len b)%nat /\ (4 <= A_Len a) /\
  elems (A_Value a) = take (Z.to_nat (A_Len a) - 4) (drop (i + 4) (elems b)).

(** The attributes one after the other, each at the next multiple of four. *)
Fixpoint attrs_from (b : slice) (i : nat) (attrs : list NetlinkRouteAttr) : Prop :=
  match attrs with
  | [] => (len b < i + 4)%nat
  | a :: attrs => attr_at b i a /\ attrs_from b (i + rtaAlignOf (Z.to_nat (A_Len a))) attrs
  end.

Lemma sliceFrom_drop w sp k : (k <= length w)%nat -> sliceFrom (Slice w sp) k = Ret (Slice (drop k w) sp).
Proof.
  intros Hk. pose proof (sliceFrom_app (take k w) (drop k w) sp) as E.
  rewrite take_drop, length_take, Nat.min_l in E by lia. done.
Qed.

Lemma reslice_take w sp k : (k <= length w)%nat -> reslice (Slice w sp) 0 k = Ret (Slice (take k w) (drop k w ++ sp)).
Proof.
  intros Hk. pose proof (reslice_prefix (take k w) (drop k w) sp) as E.
  rewrite take_drop, length_take, Nat.min_l in E by lia. done.
Qed.

Lemma field_memory w sp i n : (i + n <= length w)%nat -> field (w ++ sp) i n = field w i n.
Proof. intros Hi. unfold field. rewrite drop_app_le, take_app_le by (rewrite ?length_drop; lia). done. Qed.

Lemma field_drop w k i n : field (drop k w) i n = field w (k + i) n.
Proof. unfold field. by rewrite drop_drop. Qed.

(** Where one attribute is taken. *)
Lemma parseAttrs_turn turns w sp acc :
  (4 <= length w)%nat -> aligned (length w) ->
  let l := field w 0 2 in
  (l < 4 \/ Z.of_nat (length w) < l) /\ parseAttrs (S turns) (Slice w sp) acc = Err EINVAL \/
  (4 <= l <= Z.of_nat (length w)) /\ (rtaAlignOf (Z.to_nat l) <= length w)%nat /\
  exists v, parseAttrs (S turns) (Slice w sp) acc =
    parseAttrs turns (Slice (drop (rtaAlignOf (Z.to_nat l)) w) sp)
      (acc ++ [{| A_Len := l; A_Type := field w 2 2; A_Value := v |}]) /\
    elems v = take (Z.to_nat l - 4) (drop 4 w).
Proof.
  intros H4 [k Hk] l. cbn [parseAttrs]. rewrite decide_True by (unfold len; cbn [elems]; unfold SizeofRtAttr; lia).
  unfold netlinkRouteAttrAndValue, memory. cbn [elems spare]. rewrite !field_memory by lia. fold l. unfold len. cbn [elems].
  unfold SizeofRtAttr. case_decide as Hl; [left; split; [lia|done]|]. right. split; [lia|].
  assert (rtaAlignOf (Z.to_nat l) <= length w)%nat as Ha.
  { rewrite rtaAlignOf_eq, Hk in *. assert ((Z.to_nat l + 3) / 4 < k + 1)%nat; [|lia]. apply Nat.Div0.div_lt_upper_bound. lia. }
  split; [done|]. rewrite sliceFrom_drop, bind_ret by lia. rewrite bind_ret, reslice_take, bind_ret by (rewrite length_drop; lia).
  rewrite sliceFrom_drop, bind_ret by done. eexists. split; done.
Qed.

Lemma parseAttrs_bounds turns b i acc :
  aligned (len b) -> aligned i -> (i <= len b)%nat -> (len b - i <= turns)%nat ->
  parseAttrs turns (Slice (drop i (elems b)) (spare b)) acc = Err EINVAL \/
  exists attrs, parseAttrs turns (Slice (drop i (elems b)) (spare b)) acc = Ret (acc ++ attrs) /\ attrs_from b i attrs.
Proof.
  intros Hb. revert i acc. induction turns as [|turns IH]; intros i acc Hi Hle Ht.
  - right. exists []. rewrite app_nil_r. split; [done|]. cbn. lia.
  - destruct (decide (i + 4 <= len b)%nat) as [H4|H4].
    2: { right. exists []. rewrite app_nil_r. cbn [parseAttrs]. rewrite decide_False; [split; [done|cbn; lia]|].
         unfold len in *. cbn [elems]. rewrite length_drop. unfold SizeofRtAttr. lia. }
    unfold len in *. destruct (parseAttrs_turn turns (drop i (elems b)) (spare b) acc) as [[_ E]|(Hl & Ha & v & E & Hv)].
    + rewrite length_drop. lia.
    + rewrite length_drop. destruct Hb as [k Hk], Hi as [j Hj]. exists (k - j)%nat. lia.
    + by left.
    + rewrite E, drop_drop. rewrite length_drop in Ha, Hl. rewrite field_drop, Nat.add_0_r in *.
      set (l := field (elems b) i 2) in *. pose proof (rtaAlignOf_bounds (Z.to_nat l)).
      destruct (IH (i + rtaAlignOf (Z.to_nat l))%nat (acc ++ [{| A_Len := l; A_Type := field (drop i (elems b)) 2 2; A_Value := v |}]))
        as [Ee|(attrs & Er & Hat)]; [apply aligned_add; [done|apply aligned_rtaAlignOf]|lia|lia|by left|].
      right. eexists (_ :: attrs). rewrite Er, <- app_assoc. split; [done|]. split; [|exact Hat].
      rewrite field_drop. unfold attr_at, len. cbn [A_Len A_Type A_Value]. rewrite Hv, drop_drop. split_and!; [done..|lia|lia|done].
Qed.

(** C32: Reading attributes stays within the message: on any buffer whose length is a
    multiple of four, which every netlink message has, [ParseRouteAttr] ends with
    [EINVAL] or with a list of attributes that lie one after the other in the
    buffer, each at the next multiple of four, its length and type being the two
    16-bit words there, its value the bytes that follow up to that length, which is
    at least four and never reaches beyond the buffer; it does not panic. *)
Theorem ParseRouteAttr_bounds b :
  aligned (len b) ->
  ParseRouteAttr b = Err EINVAL \/ exists attrs, ParseRouteAttr b = Ret attrs /\ attrs_from b 0 attrs.
Proof.
  intros Hb. destruct (parseAttrs_bounds (len b) b 0 [] Hb) as [E|(attrs & E & Ha)]; [by exists 0%nat|lia|lia| |];
    rewrite drop_0 in E; destruct b as [w sp]; [by left|]. right. exists attrs. done.
Qed.
End bounds.

Lemma ParseRouteAttr_bounds_witness :
  exists attrs, @ParseRouteAttr LittleEndian (Slice (map byte_of_Z [8; 0; 4; 0; 3; 0; 0; 0; 5; 0; 3; 0; 120; 0; 0; 0]) []) = Ret attrs /\
    @attrs_from LittleEndian (Slice (map byte_of_Z [8; 0; 4; 0; 3; 0; 0; 0; 5; 0; 3; 0; 120; 0; 0; 0]) []) 0 attrs /\ length attrs = 2%nat.
Proof.
  destruct (@ParseRouteAttr_bounds LittleEndian (Slice (map byte_of_Z [8; 0; 4; 0; 3; 0; 0; 0; 5; 0; 3; 0; 120; 0; 0; 0]) []))
    as [E|(attrs & E & Ha)]; [by exists 4%nat|vm_compute in E; discriminate E|].
  exists attrs. split; [done|]. split; [done|]. vm_compute in E. by injection E as <-.
Defined.
