(* ===== verification/NetlinkRoute.v ===== *)
(** * Routes of github.com/vishvananda/netlink

    route.go, route_linux.go, and mpls_linux.go, seg6_linux.go and
    seg6local_linux.go of package nl: routes as Go values, as requests to the
    kernel and as its answers.  A nil address is the empty list. *)

From Stdlib Require Import ZArith Lia NArith Ascii Strings.Byte Strings.String.
From stdpp Require Import base numbers gmap strings list fin_maps.
From coqutil Require Import Datatypes.RecordSetters.
From S2P Require Import Prelude GoNet Endian OS Netlink.

Import RecordSetters.TriangleBracketNotations.
Open Scope Z_scope.

(** ** Addresses and masks *)

(** [IP.To16] *)
Definition To16 (ip : list byte) : list byte :=
  if decide (length ip = 4%nat) then net.v4InV6Prefix ++ ip
  else if decide (length ip = 16%nat) then ip
  else [].

(** [net.CIDRMask(ones, 8*len)] *)
Definition CIDRMaskOf (ones : Z) (l : nat) : list byte :=
  if decide ((l = 4%nat \/ l = 16%nat) /\ 0 <= ones <= 8 * Z.of_nat l) then net.CIDRMask ones l else [].

(** [IPMask.Size] *)
Definition maskSize (m : list byte) : Z * Z :=
  match net.simpleMaskLength m with
  | Some ones => (ones, 8 * Z.of_nat (length m))
  | None => (0, 0)
  end.

(** The four or sixteen bytes sent for an address. *)
Definition ipData (family : Z) (ip : list byte) : list byte :=
  if decide (family = FAMILY_V4) then net.To4 ip else To16 ip.

(** ** Constants *)

Definition RTA_DST : Z := 1.
Definition RTA_IIF : Z := 3.
Definition RTA_OIF : Z := 4.
Definition RTA_GATEWAY : Z := 5.
Definition RTA_PRIORITY : Z := 6.
Definition RTA_PREFSRC : Z := 7.
Definition RTA_METRICS : Z := 8.
Definition RTA_MULTIPATH : Z := 9.
Definition RTA_TABLE : Z := 15.
Definition RTA_NEWDST : Z := 0x13.
Definition RTA_ENCAP_TYPE : Z := 0x15.
Definition RTA_ENCAP : Z := 0x16.
Definition RTAX_MTU : Z := 2.
Definition RTAX_ADVMSS : Z := 8.
Definition RTM_F_CLONED : Z := 0x200.
Definition RT_TABLE_UNSPEC : Z := 0.
Definition RT_TABLE_MAIN : Z := 254.
Definition RTN_UNICAST : Z := 1.

Definition MPLS_IPTUNNEL_DST : Z := 1.
Definition LWTUNNEL_ENCAP_MPLS : Z := 1.
Definition LWTUNNEL_ENCAP_SEG6 : Z := 5.
Definition LWTUNNEL_ENCAP_SEG6_LOCAL : Z := 7.
Definition SEG6_IPTUNNEL_SRH : Z := 1.
Definition IPV6_SRCRT_TYPE_4 : Z := 4.

Definition SEG6_LOCAL_ACTION : nat := 1.
Definition SEG6_LOCAL_SRH : nat := 2.
Definition SEG6_LOCAL_TABLE : nat := 3.
Definition SEG6_LOCAL_NH4 : nat := 4.
Definition SEG6_LOCAL_NH6 : nat := 5.
Definition SEG6_LOCAL_IIF : nat := 6.
Definition SEG6_LOCAL_OIF : nat := 7.
Definition SEG6_LOCAL_MAX : nat := 8.

(** ** Data *)

Record SEG6LocalEncap := {
  S_Flags : list bool;
  S_Action : Z;
  S_Segments : list (list byte);
  S_Table : Z;
  S_InAddr : list byte;
  S_In6Addr : list byte;
  S_Iif : Z;
  S_Oif : Z
}.

(** The types that implement [Encap]; [Destination] has [MPLSDestination] only,
    given by its labels. *)
Inductive Encap :=
| MPLSEncap (Labels : list Z)
| SEG6Encap (Mode : Z) (Segments : list (list byte))
| SEG6Local (e : SEG6LocalEncap).

Record NexthopInfo := {
  NH_LinkIndex : Z;
  NH_Hops : Z;
  NH_Gw : list byte;
  NH_Flags : Z;
  NH_NewDst : option (list Z);
  NH_Encap : option Encap
}.

Record Route := {
  R_LinkIndex : Z;
  R_ILinkIndex : Z;
  R_Scope : Z;
  R_Dst : option net.IPNet;
  R_Src : list byte;
  R_Gw : list byte;
  R_MultiPath : list NexthopInfo;
  R_Protocol : Z;
  R_Priority : Z;
  R_Table : Z;
  R_Type : Z;
  R_Tos : Z;
  R_Flags : Z;
  R_MPLSDst : option Z;
  R_NewDst : option (list Z);
  R_Encap : option Encap;
  R_MTU : Z;
  R_AdvMSS : Z
}.

Definition zeroRoute : Route :=
  {| R_LinkIndex := 0; R_ILinkIndex := 0; R_Scope := 0; R_Dst := None; R_Src := []; R_Gw := [];
     R_MultiPath := []; R_Protocol := 0; R_Priority := 0; R_Table := 0; R_Type := 0; R_Tos := 0;
     R_Flags := 0; R_MPLSDst := None; R_NewDst := None; R_Encap := None; R_MTU := 0; R_AdvMSS := 0 |}.

(** ** Label stacks *)

Definition MPLS_LS_LABEL_SHIFT : Z := 12.
Definition MPLS_LS_S_SHIFT : Z := 8.

Fixpoint EncodeMPLSStack (labels : list Z) : list byte :=
  match labels with
  | [] => []
  | label :: rest =>
      let l := Z.shiftl label MPLS_LS_LABEL_SHIFT in
      let l := match rest with [] => Z.lor l (Z.shiftl 1 MPLS_LS_S_SHIFT) | _ => l end in
      be 4 l ++ EncodeMPLSStack rest
  end.

(** The loop; a turn takes four bytes. *)
Fixpoint mplsLabels (turns : nat) (buf : list byte) : list Z :=
  match turns, buf with
  | S turns, _ :: _ =>
      let l := bigEndian (take 4 buf) in
      Z.shiftr l MPLS_LS_LABEL_SHIFT ::
      (if decide (0 < Z.land (Z.shiftr l MPLS_LS_S_SHIFT) 1) then [] else mplsLabels turns (drop 4 buf))
  | _, _ => []
  end.

Definition DecodeMPLSStack (buf : list byte) : list Z :=
  if decide (length buf mod 4 <> 0)%nat then [] else mplsLabels (length buf) buf.

(** ** Encapsulations *)

(** A loop whose turns may fail. *)
Fixpoint foldAttrs {A S : Type} (f : A -> S -> outcome S) (attrs : list A) (st : S) : outcome S :=
  match attrs with
  | [] => Ret st
  | attr :: attrs => st ← f attr st; foldAttrs f attrs st
  end.

Section encap.
Context `{NativeEndian}.

Definition lack_of_bytes : error := ErrorString "lack of bytes".

(** [native.Uint16(b)] and [native.Uint32(b)] of a slice. *)
Definition uintOf (b : slice) (n : nat) : outcome Z :=
  if decide (n <= len b)%nat then Ret (ofBytes (take n (elems b))) else Panic IndexOutOfRange.

(** The sixteen-byte segments of a list. *)
Fixpoint segments (turns : nat) (buf : list byte) : list (list byte) :=
  match turns, buf with
  | S turns, _ :: _ => take 16 buf :: segments turns (drop 16 buf)
  | _, _ => []
  end.

(** The header of the list, read and dropped, and the segments behind it. *)
Definition srhSegments (what : string) (hdr : nat) (buf : slice) : outcome (list (list byte)) :=
  _ ← at_ buf (hdr - 3);
  _ ← reslice buf (hdr - 2) hdr;
  buf ← sliceFrom buf hdr;
  if decide (len buf mod 16 <> 0)%nat
  then Err (ErrorString (what +:+ ": error parsing Segment List (buf len: " +:+
                         strconv.Itoa (Z.of_nat (len buf)) +:+ ")" +:+ String "010" EmptyString))
  else Ret (segments (len buf) (elems buf)).

Definition DecodeSEG6Encap (buf : slice) : outcome (Z * list (list byte)) :=
  mode ← uintOf buf 4;
  segs ← srhSegments "DecodeSEG6Encap" 12 buf;
  Ret (mode, segs).

Definition DecodeSEG6Srh (buf : slice) : outcome (list (list byte)) := srhSegments "DecodeSEG6Srh" 8 buf.

Definition srhHeader (nsegs : nat) : list byte :=
  [byte_of_Z 0; byte_of_Z (Z.shiftr (16 * Z.of_nat nsegs) 3); byte_of_Z IPV6_SRCRT_TYPE_4;
   byte_of_Z (Z.of_nat nsegs - 1); byte_of_Z (Z.of_nat nsegs - 1); byte_of_Z 0] ++ toBytes 2 0.

Definition EncodeSEG6Encap (mode : Z) (segs : list (list byte)) : outcome (list byte) :=
  if decide (length segs = 0%nat) then Err (ErrorString "EncodeSEG6Encap: No Segment in srh")
  else Ret (toBytes 4 mode ++ srhHeader (length segs) ++ concat segs).

Definition EncodeSEG6Srh (segs : list (list byte)) : outcome (list byte) :=
  if decide (length segs = 0%nat)
  then Err (ErrorString ("EncodeSEG6Srh: No Segments" +:+ String "010" EmptyString))
  else Ret (srhHeader (length segs) ++ concat segs).

(** The length and type in front of an encapsulation. *)
Definition encapHeader (type : Z) (s : list byte) : list byte :=
  toBytes 2 (Z.of_nat (length s + 4)) ++ toBytes 2 type ++ s.

(** The checks of the length and type, and what is behind them. *)
Definition encapBody (what : string) (type : Z) (buf : slice) : outcome slice :=
  if decide (len buf < 4)%nat then Err lack_of_bytes
  else
    l ← uintOf buf 2;
    if decide (Z.of_nat (len buf) < l) then Err lack_of_bytes
    else
      buf ← reslice buf 0 (Z.to_nat l);
      b2 ← sliceFrom buf 2;
      typ ← uintOf b2 2;
      if decide (typ <> type) then Err (ErrorString ("unknown " +:+ what +:+ " Type: " +:+ strconv.Itoa typ))
      else sliceFrom buf 4.

Definition MPLSEncap_Decode (buf : slice) : outcome Encap :=
  b ← encapBody "MPLS Encap" MPLS_IPTUNNEL_DST buf; Ret (MPLSEncap (DecodeMPLSStack (elems b))).

Definition SEG6Encap_Decode (buf : slice) : outcome Encap :=
  b ← encapBody "SEG6" SEG6_IPTUNNEL_SRH buf;
  '(mode, segs) ← DecodeSEG6Encap b; Ret (SEG6Encap mode segs).

Definition zeroSEG6Local : SEG6LocalEncap :=
  {| S_Flags := replicate SEG6_LOCAL_MAX false; S_Action := 0; S_Segments := []; S_Table := 0;
     S_InAddr := []; S_In6Addr := []; S_Iif := 0; S_Oif := 0 |}.

Definition setFlag (e : SEG6LocalEncap) (i : nat) : SEG6LocalEncap := e <| S_Flags := <[i := true]> (S_Flags e) |>.

(** An attribute of [SEG6LocalEncap.Decode]; [err] is that of the last list of segments. *)
Definition seg6LocalAttr (attr : NetlinkRouteAttr) (st : SEG6LocalEncap * option error) :
    outcome (SEG6LocalEncap * option error) :=
  let '(e, err) := st in
  if decide (A_Type attr = Z.of_nat SEG6_LOCAL_ACTION) then v ← uintAt (A_Value attr) 4; Ret (setFlag (e <| S_Action := v |>) SEG6_LOCAL_ACTION, err)
  else if decide (A_Type attr = Z.of_nat SEG6_LOCAL_SRH) then
    match DecodeSEG6Srh (A_Value attr) with
    | Ret segs => Ret (setFlag (e <| S_Segments := segs |>) SEG6_LOCAL_SRH, None)
    | Err x => Ret (setFlag (e <| S_Segments := [] |>) SEG6_LOCAL_SRH, Some x)
    | Panic p => Panic p
    end
  else if decide (A_Type attr = Z.of_nat SEG6_LOCAL_TABLE) then v ← uintAt (A_Value attr) 4; Ret (setFlag (e <| S_Table := v |>) SEG6_LOCAL_TABLE, err)
  else if decide (A_Type attr = Z.of_nat SEG6_LOCAL_NH4) then s ← reslice (A_Value attr) 0 4; Ret (setFlag (e <| S_InAddr := elems s |>) SEG6_LOCAL_NH4, err)
  else if decide (A_Type attr = Z.of_nat SEG6_LOCAL_NH6) then s ← reslice (A_Value attr) 0 16; Ret (setFlag (e <| S_In6Addr := elems s |>) SEG6_LOCAL_NH6, err)
  else if decide (A_Type attr = Z.of_nat SEG6_LOCAL_IIF) then v ← uintAt (A_Value attr) 4; Ret (setFlag (e <| S_Iif := v |>) SEG6_LOCAL_IIF, err)
  else if decide (A_Type attr = Z.of_nat SEG6_LOCAL_OIF) then v ← uintAt (A_Value attr) 4; Ret (setFlag (e <| S_Oif := v |>) SEG6_LOCAL_OIF, err)
  else Ret (e, err).

Definition SEG6LocalEncap_Decode (buf : slice) : outcome Encap :=
  attrs ← ParseRouteAttr buf;
  '(e, err) ← foldAttrs seg6LocalAttr attrs (zeroSEG6Local, None);
  match err with Some x => Err x | None => Ret (SEG6Local e) end.

Definition hasFlag (e : SEG6LocalEncap) (i : nat) : bool := default false (S_Flags e !! i).

(** An attribute of [SEG6LocalEncap.Encode], with the length that is written. *)
Definition seg6Attr (length_ : Z) (i : nat) (s : list byte) : list byte :=
  toBytes 2 length_ ++ toBytes 2 (Z.of_nat i) ++ s.

Definition SEG6LocalEncap_Encode (e : SEG6LocalEncap) : outcome (list byte) :=
  let opt (i : nat) (s : list byte) := if hasFlag e i then s else [] in
  srh ← (if hasFlag e SEG6_LOCAL_SRH then
           srh ← EncodeSEG6Srh (S_Segments e); Ret (seg6Attr (Z.of_nat (length srh + 4)) SEG6_LOCAL_SRH srh)
         else Ret []);
  nh4 ← (if hasFlag e SEG6_LOCAL_NH4 then
           let ipv4 := net.To4 (S_InAddr e) in
           if net.is_nil ipv4 then Err (ErrorString "SEG6_LOCAL_NH4 has invalid IPv4 address")
           else Ret (seg6Attr 8 SEG6_LOCAL_NH4 ipv4)
         else Ret []);
  Ret (seg6Attr 8 SEG6_LOCAL_ACTION (toBytes 4 (S_Action e)) ++ srh ++
       opt SEG6_LOCAL_TABLE (seg6Attr 8 SEG6_LOCAL_TABLE (toBytes 4 (S_Table e))) ++ nh4 ++
       opt SEG6_LOCAL_NH6 (seg6Attr 20 SEG6_LOCAL_NH6 (S_In6Addr e)) ++
       opt SEG6_LOCAL_IIF (seg6Attr 8 SEG6_LOCAL_IIF (toBytes 4 (S_Iif e))) ++
       opt SEG6_LOCAL_OIF (seg6Attr 8 SEG6_LOCAL_OIF (toBytes 4 (S_Oif e)))).

(** [Type()] and [Encode()] *)
Definition encapType (e : Encap) : Z :=
  match e with
  | MPLSEncap _ => LWTUNNEL_ENCAP_MPLS
  | SEG6Encap _ _ => LWTUNNEL_ENCAP_SEG6
  | SEG6Local _ => LWTUNNEL_ENCAP_SEG6_LOCAL
  end.

Definition encapEncode (e : Encap) : outcome (list byte) :=
  match e with
  | MPLSEncap labels => Ret (encapHeader MPLS_IPTUNNEL_DST (EncodeMPLSStack labels))
  | SEG6Encap mode segs => s ← EncodeSEG6Encap mode segs; Ret (encapHeader SEG6_IPTUNNEL_SRH s)
  | SEG6Local e => SEG6LocalEncap_Encode e
  end.
End encap.

(** ** Requests *)

Section request.
Context `{NativeEndian}.

(** The check against the family known so far; -1 is none. *)
Definition sameFamily (family f : Z) (what : string) : outcome unit :=
  if decide (family <> -1 /\ family <> f) then Err (ErrorString what) else Ret tt.

Definition newDst_family : string := "new destination and destination are not the same address family".
Definition gateway_family : string := "gateway, source, and destination ip are not the same IP family".

(** The destination: the family, the header and the attribute. *)
Definition dstAttrs (route : Route) (msg : RtMsg) : Z * RtMsg * list NetlinkRequestData :=
  match R_Dst route with
  | Some (net.Build_IPNet (b :: ip) mask) =>
      let ip := b :: ip in
      let family := GetIPFamily ip in
      (family, msg <| Dst_len := fst (maskSize mask) |>, [NewRtAttr RTA_DST (ipData family ip)])
  | _ =>
      match R_MPLSDst route with
      | Some label => (FAMILY_MPLS, msg <| Dst_len := 20 |> <| Rtm_Type := RTN_UNICAST |>,
                       [NewRtAttr RTA_DST (EncodeMPLSStack [label])])
      | None => (-1, msg, [])
      end
  end.

Definition newDstAttrs (family : Z) (d : option (list Z)) : outcome (list NetlinkRequestData) :=
  match d with
  | None => Ret []
  | Some labels =>
      _ ← sameFamily family FAMILY_MPLS newDst_family;
      Ret [NewRtAttr RTA_NEWDST (EncodeMPLSStack labels)]
  end.

(** The attribute with the type and that with the encapsulation. *)
Definition encapAttrs (e : option Encap) : outcome (list NetlinkRequestData * list NetlinkRequestData) :=
  match e with
  | None => Ret ([], [])
  | Some e =>
      buf ← encapEncode e;
      Ret ([NewRtAttr RTA_ENCAP_TYPE (toBytes 2 (encapType e))], [NewRtAttr RTA_ENCAP buf])
  end.

(** The source and the gateway. *)
Definition addrAttrs (family type : Z) (what : string) (ip : list byte) : outcome (Z * list NetlinkRequestData) :=
  if net.is_nil ip then Ret (family, [])
  else
    let f := GetIPFamily ip in
    _ ← sameFamily family f what;
    Ret (f, [NewRtAttr type (ipData f ip)]).

(** A next hop: the attributes it adds to the route, and its bytes. *)
Definition nexthopAttrs (family : Z) (nh : NexthopInfo) : outcome (list NetlinkRequestData * list byte) :=
  '(_, gw) ← addrAttrs family RTA_GATEWAY gateway_family (NH_Gw nh);
  newDst ← newDstAttrs family (NH_NewDst nh);
  '(typ, encap) ← encapAttrs (NH_Encap nh);
  b ← Serialize (DRtNexthop {| Rtnh_Len := 0; Rtnh_Flags := NH_Flags nh; Rtnh_Hops := NH_Hops nh;
                               Rtnh_Ifindex := NH_LinkIndex nh |} (gw ++ newDst ++ encap));
  Ret (typ, b).

Fixpoint nexthopsAttrs (family : Z) (nhs : list NexthopInfo) : outcome (list NetlinkRequestData * list byte) :=
  match nhs with
  | [] => Ret ([], [])
  | nh :: nhs =>
      '(typ, b) ← nexthopAttrs family nh;
      '(typs, buf) ← nexthopsAttrs family nhs;
      Ret (typ ++ typs, b ++ buf)
  end.

Definition multipathAttrs (family : Z) (nhs : list NexthopInfo) : outcome (list NetlinkRequestData) :=
  match nhs with
  | [] => Ret []
  | _ => '(typs, buf) ← nexthopsAttrs family nhs; Ret (typs ++ [NewRtAttr RTA_MULTIPATH buf])
  end.

(** The table, in the header or in an attribute. *)
Definition tableAttrs (route : Route) (msg : RtMsg) : RtMsg * list NetlinkRequestData :=
  if decide (0 < R_Table route) then
    if decide (256 <= R_Table route)
    then (msg <| Rtm_Table := RT_TABLE_UNSPEC |>, [NewRtAttr RTA_TABLE (toBytes 4 (R_Table route))])
    else (msg <| Rtm_Table := R_Table route |>, [])
  else (msg, []).

(** A four-byte attribute for a positive number. *)
Definition positiveAttr (type v : Z) : list NetlinkRequestData :=
  if decide (0 < v) then [NewRtAttr type (toBytes 4 v)] else [].

Definition metricsAttrs (route : Route) : list NetlinkRequestData :=
  match positiveAttr RTAX_MTU (R_MTU route) ++ positiveAttr RTAX_ADVMSS (R_AdvMSS route) with
  | [] => []
  | metrics => [fold_left AddChild metrics (NewRtAttr RTA_METRICS [])]
  end.

(** The fields of the header that follow the attributes. *)
Definition headerFields (route : Route) (family : Z) (msg : RtMsg) : RtMsg :=
  let msg := if decide (0 < R_Tos route) then msg <| Rtm_Tos := R_Tos route |> else msg in
  let msg := if decide (0 < R_Protocol route) then msg <| Rtm_Protocol := R_Protocol route |> else msg in
  let msg := if decide (0 < R_Type route) then msg <| Rtm_Type := R_Type route |> else msg in
  msg <| Rtm_Flags := R_Flags route |> <| Rtm_Scope := R_Scope route |> <| Rtm_Family := family |>.

(** [routeHandle] up to [Execute] *)
Definition routeRequest (route : Route) (req : NetlinkRequest) (msg : RtMsg) : outcome NetlinkRequest :=
  if match R_Dst route with Some d => net.is_nil (net.IPNet_IP d) | None => true end && net.is_nil (R_Src route) &&
     net.is_nil (R_Gw route) && bool_decide (R_MPLSDst route = None)
  then Err (ErrorString "one of Dst.IP, Src, or Gw must not be nil")
  else
    let '(family, msg, dst) := dstAttrs route msg in
    newDst ← newDstAttrs family (R_NewDst route);
    '(typ, encap) ← encapAttrs (R_Encap route);
    '(family, src) ← addrAttrs family RTA_PREFSRC "source and destination ip are not the same IP family" (R_Src route);
    '(family, gw) ← addrAttrs family RTA_GATEWAY gateway_family (R_Gw route);
    multipath ← multipathAttrs family (R_MultiPath route);
    let '(msg, table) := tableAttrs route msg in
    let msg := headerFields route family msg in
    let rtAttrs := dst ++ newDst ++ typ ++ encap ++ src ++ gw ++ multipath ++ table ++
                   positiveAttr RTA_PRIORITY (R_Priority route) ++ metricsAttrs route in
    Ret (fold_left AddData (DRtMsg msg :: rtAttrs ++ [NewRtAttr RTA_OIF (toBytes 4 (R_LinkIndex route))]) req).
End request.

(** ** Answers *)

Section answer.
Context `{NativeEndian}.

Definition nilSlice : slice := Slice [] [].

(** What a loop over attributes keeps besides its result: the values of the last
    [RTA_ENCAP] and [RTA_ENCAP_TYPE]. *)
Record encapValues := { E_encap : slice; E_encapType : slice }.
Definition noEncap : encapValues := {| E_encap := nilSlice; E_encapType := nilSlice |}.

(** [RTA_NEWDST]: only MPLS has a [Destination] to decode it. *)
Definition decodeNewDst (family : Z) (value : slice) : outcome (list Z) :=
  if decide (family = FAMILY_MPLS) then Ret (DecodeMPLSStack (elems value)) else Panic NilDereference.

(** The encapsulation, once the attributes are read; [decode] has the types the
    function knows. *)
Definition decodeEncap (decode : Z -> slice -> outcome (option Encap)) (v : encapValues) (old : option Encap) :
    outcome (option Encap) :=
  if decide (len (E_encap v) <> 0 /\ len (E_encapType v) <> 0)%nat
  then typ ← uintAt (E_encapType v) 2; decode typ (E_encap v)
  else Ret old.

Definition decodeHopEncap (typ : Z) (value : slice) : outcome (option Encap) :=
  if decide (typ = LWTUNNEL_ENCAP_MPLS) then e ← MPLSEncap_Decode value; Ret (Some e) else Ret None.

Definition decodeRouteEncap (typ : Z) (value : slice) : outcome (option Encap) :=
  if decide (typ = LWTUNNEL_ENCAP_MPLS) then e ← MPLSEncap_Decode value; Ret (Some e)
  else if decide (typ = LWTUNNEL_ENCAP_SEG6) then e ← SEG6Encap_Decode value; Ret (Some e)
  else if decide (typ = LWTUNNEL_ENCAP_SEG6_LOCAL) then e ← SEG6LocalEncap_Decode value; Ret (Some e)
  else Ret None.

Definition nexthopAttr (family : Z) (attr : NetlinkRouteAttr) (st : NexthopInfo * encapValues) :
    outcome (NexthopInfo * encapValues) :=
  let '(info, v) := st in
  let t := A_Type attr in
  if decide (t = RTA_GATEWAY) then Ret (info <| NH_Gw := elems (A_Value attr) |>, v)
  else if decide (t = RTA_NEWDST) then
    d ← decodeNewDst family (A_Value attr); Ret (info <| NH_NewDst := Some d |>, v)
  else if decide (t = RTA_ENCAP_TYPE) then Ret (info, v <| E_encapType := A_Value attr |>)
  else if decide (t = RTA_ENCAP) then Ret (info, v <| E_encap := A_Value attr |>)
  else Ret st.

Definition parseRtNexthop (family : Z) (value : slice) : outcome (NexthopInfo * slice) :=
  if decide (len value < SizeofRtNexthop)%nat then Err lack_of_bytes
  else
    nh ← DeserializeRtNexthop value;
    if decide (Z.of_nat (len value) < Rtnh_Len nh) then Err lack_of_bytes
    else
      let info := {| NH_LinkIndex := Rtnh_Ifindex nh; NH_Hops := Rtnh_Hops nh; NH_Gw := [];
                     NH_Flags := Rtnh_Flags nh; NH_NewDst := None; NH_Encap := None |} in
      b ← reslice value SizeofRtNexthop (Z.to_nat (Rtnh_Len nh));
      attrs ← ParseRouteAttr b;
      '(info, v) ← foldAttrs (nexthopAttr family) attrs (info, noEncap);
      e ← decodeEncap decodeHopEncap v (NH_Encap info);
      rest ← sliceFrom value (Z.to_nat (Rtnh_Len nh));
      Ret (info <| NH_Encap := e |>, rest).

(** A turn takes at least eight bytes. *)
Fixpoint parseNexthops (turns : nat) (family : Z) (rest : slice) (route : Route) : outcome Route :=
  match turns with
  | O => Ret route
  | S turns =>
      if decide (0 < len rest)%nat then
        '(info, buf) ← parseRtNexthop family rest;
        parseNexthops turns family buf (route <| R_MultiPath := R_MultiPath route ++ [info] |>)
      else Ret route
  end.

Definition metricAttr (metric : NetlinkRouteAttr) (route : Route) : outcome Route :=
  if decide (A_Type metric = RTAX_MTU) then v ← uintAt (A_Value metric) 4; Ret (route <| R_MTU := v |>)
  else if decide (A_Type metric = RTAX_ADVMSS) then v ← uintAt (A_Value metric) 4; Ret (route <| R_AdvMSS := v |>)
  else Ret route.

(** The destination. *)
Definition dstAttr (msg : RtMsg) (value : slice) (route : Route) : outcome Route :=
  if decide (Rtm_Family msg = FAMILY_MPLS) then
    match DecodeMPLSStack (elems value) with
    | [label] => Ret (route <| R_MPLSDst := Some label |>)
    | _ => Err (ErrorString "invalid MPLS RTA_DST")
    end
  else Ret (route <| R_Dst := Some {| net.IPNet_IP := elems value;
                                      net.IPNet_Mask := CIDRMaskOf (Dst_len msg) (len value) |} |>).

Definition routeAttr (msg : RtMsg) (attr : NetlinkRouteAttr) (st : Route * encapValues) :
    outcome (Route * encapValues) :=
  let '(route, v) := st in
  let t := A_Type attr in
  let value := A_Value attr in
  if decide (t = RTA_GATEWAY) then Ret (route <| R_Gw := elems value |>, v)
  else if decide (t = RTA_PREFSRC) then Ret (route <| R_Src := elems value |>, v)
  else if decide (t = RTA_DST) then route ← dstAttr msg value route; Ret (route, v)
  else if decide (t = RTA_OIF) then n ← uintAt value 4; Ret (route <| R_LinkIndex := n |>, v)
  else if decide (t = RTA_IIF) then n ← uintAt value 4; Ret (route <| R_ILinkIndex := n |>, v)
  else if decide (t = RTA_PRIORITY) then n ← uintAt value 4; Ret (route <| R_Priority := n |>, v)
  else if decide (t = RTA_TABLE) then n ← uintAt value 4; Ret (route <| R_Table := n |>, v)
  else if decide (t = RTA_MULTIPATH) then
    route ← parseNexthops (len value) (Rtm_Family msg) value route; Ret (route, v)
  else if decide (t = RTA_NEWDST) then
    d ← decodeNewDst (Rtm_Family msg) value; Ret (route <| R_NewDst := Some d |>, v)
  else if decide (t = RTA_ENCAP_TYPE) then Ret (route, v <| E_encapType := value |>)
  else if decide (t = RTA_ENCAP) then Ret (route, v <| E_encap := value |>)
  else if decide (t = RTA_METRICS) then
    metrics ← ParseRouteAttr value; route ← foldAttrs metricAttr metrics route; Ret (route, v)
  else Ret st.

Definition headerRoute (msg : RtMsg) : Route :=
  zeroRoute <| R_Scope := Rtm_Scope msg |> <| R_Protocol := Rtm_Protocol msg |> <| R_Table := Rtm_Table msg |>
            <| R_Type := Rtm_Type msg |> <| R_Tos := Rtm_Tos msg |> <| R_Flags := Rtm_Flags msg |>.

(** An error comes without the route read so far, which no caller uses. *)
Definition deserializeRoute (m : slice) : outcome Route :=
  msg ← DeserializeRtMsg m;
  b ← sliceFrom m SizeofRtMsg;
  attrs ← ParseRouteAttr b;
  '(route, v) ← foldAttrs (routeAttr msg) attrs (headerRoute msg, noEncap);
  e ← decodeEncap decodeRouteEncap v (R_Encap route);
  Ret (route <| R_Encap := e |>).

Fixpoint deserializeRoutes (ms : list slice) : outcome (list Route) :=
  match ms with
  | [] => Ret []
  | m :: ms => route ← deserializeRoute m; res ← deserializeRoutes ms; Ret (route :: res)
  end.

(** *** Filters *)

Definition RT_FILTER_PROTOCOL : Z := 2.
Definition RT_FILTER_SCOPE : Z := 4.
Definition RT_FILTER_TYPE : Z := 8.
Definition RT_FILTER_TOS : Z := 16.
Definition RT_FILTER_IIF : Z := 32.
Definition RT_FILTER_OIF : Z := 64.
Definition RT_FILTER_DST : Z := 128.
Definition RT_FILTER_SRC : Z := 256.
Definition RT_FILTER_GW : Z := 512.
Definition RT_FILTER_TABLE : Z := 1024.

Definition ipNetEqual (ipn1 ipn2 : option net.IPNet) : bool :=
  match ipn1, ipn2 with
  | None, None => true
  | Some n1, Some n2 =>
      bool_decide (fst (maskSize (net.IPNet_Mask n1)) = fst (maskSize (net.IPNet_Mask n2))) &&
      net.Equal (net.IPNet_IP n1) (net.IPNet_IP n2)
  | _, _ => false
  end.

(** Whether the [switch] skips the route. *)
Definition skips (filter : Route) (filterMask : Z) (route : Route) : bool :=
  let on (f : Z) := negb (bool_decide (Z.land filterMask f = 0)) in
  let ne (x y : Z) := negb (bool_decide (x = y)) in
  (on RT_FILTER_TABLE && ne (R_Table filter) RT_TABLE_UNSPEC && ne (R_Table route) (R_Table filter)) ||
  (on RT_FILTER_PROTOCOL && ne (R_Protocol route) (R_Protocol filter)) ||
  (on RT_FILTER_SCOPE && ne (R_Scope route) (R_Scope filter)) ||
  (on RT_FILTER_TYPE && ne (R_Type route) (R_Type filter)) ||
  (on RT_FILTER_TOS && ne (R_Tos route) (R_Tos filter)) ||
  (on RT_FILTER_OIF && ne (R_LinkIndex route) (R_LinkIndex filter)) ||
  (on RT_FILTER_IIF && ne (R_ILinkIndex route) (R_ILinkIndex filter)) ||
  (on RT_FILTER_GW && negb (net.Equal (R_Gw route) (R_Gw filter))) ||
  (on RT_FILTER_SRC && negb (net.Equal (R_Src route) (R_Src filter))) ||
  (on RT_FILTER_DST &&
   match R_MPLSDst filter, R_MPLSDst route with
   | Some x, Some y => ne x y && negb (ipNetEqual (R_Dst route) (R_Dst filter))
   | _, _ => negb (ipNetEqual (R_Dst route) (R_Dst filter))
   end).

Fixpoint filterRoutes (filter : option Route) (filterMask : Z) (msgs : list slice) : outcome (list Route) :=
  match msgs with
  | [] => Ret []
  | m :: msgs =>
      msg ← DeserializeRtMsg m;
      if decide (Z.land (Rtm_Flags msg) RTM_F_CLONED <> 0) then filterRoutes filter filterMask msgs
      else if bool_decide (Rtm_Table msg <> RT_TABLE_MAIN) &&
              match filter with Some _ => bool_decide (Z.land filterMask RT_FILTER_TABLE = 0) | None => true end
      then filterRoutes filter filterMask msgs
      else
        route ← deserializeRoute m;
        res ← filterRoutes filter filterMask msgs;
        Ret (if match filter with Some f => skips f filterMask route | None => false end then res else route :: res)
  end.
End answer.

(** ** Calls *)

Section calls.
Context {W C : Type} `{NativeEndian} `{NetlinkSockets W}.

(** [turns] bounds the datagrams of the answer, [seq] numbers the request. *)
Context (turns : nat) (seq : Z).

Definition routeHandle (route : Route) (req : NetlinkRequest) (msg : RtMsg) : GM W C unit :=
  req ← pure (routeRequest route req msg);
  _ ← Execute turns req NETLINK_ROUTE 0;
  mret tt.

Definition RouteAdd (route : Route) : GM W C unit :=
  routeHandle route (NewNetlinkRequest RTM_NEWROUTE (Z.lor (Z.lor NLM_F_CREATE NLM_F_EXCL) NLM_F_ACK) seq) NewRtMsg.

Definition RouteReplace (route : Route) : GM W C unit :=
  routeHandle route (NewNetlinkRequest RTM_NEWROUTE (Z.lor (Z.lor NLM_F_CREATE NLM_F_REPLACE) NLM_F_ACK) seq) NewRtMsg.

Definition RouteDel (route : Route) : GM W C unit :=
  routeHandle route (NewNetlinkRequest RTM_DELROUTE NLM_F_ACK seq) NewRtDelMsg.

Definition RouteListFiltered (family : Z) (filter : option Route) (filterMask : Z) : GM W C (list Route) :=
  let req := AddData (NewNetlinkRequest RTM_GETROUTE NLM_F_DUMP seq) (DIfInfomsg (NewIfInfomsg family)) in
  msgs ← Execute turns req NETLINK_ROUTE RTM_NEWROUTE;
  pure (filterRoutes filter filterMask msgs).

(** The link is given by its index. *)
Definition RouteList (link : option Z) (family : Z) : GM W C (list Route) :=
  RouteListFiltered family ((fun i => zeroRoute <| R_LinkIndex := i |>) <$> link) RT_FILTER_OIF.

(** The request of [RouteGet] *)
Definition getRequest (destination : list byte) : NetlinkRequest :=
  let family := GetIPFamily destination in
  let bitlen := if decide (family = FAMILY_V4) then 32 else 128 in
  let req := NewNetlinkRequest RTM_GETROUTE NLM_F_REQUEST seq in
  let req := AddData req (DRtMsg (zeroRtMsg <| Rtm_Family := family |> <| Dst_len := bitlen |>)) in
  AddData req (NewRtAttr RTA_DST (ipData family destination)).

Definition RouteGet (destination : list byte) : GM W C (list Route) :=
  msgs ← Execute turns (getRequest destination) NETLINK_ROUTE RTM_NEWROUTE;
  pure (deserializeRoutes msgs).
End calls.
