(* ===== verification/NetlinkRouteSpec.v ===== *)
(** * What is read of a route that was written

    The round trips of label stacks and encapsulations, and that the kernel's copy
    of a route request reads as the route. *)

From Stdlib Require Import ZArith Lia NArith Ascii Strings.Byte Strings.String.
From stdpp Require Import base numbers gmap strings list fin_maps.
From coqutil Require Import Datatypes.RecordSetters.
From S2P Require Import Prelude GoNet Endian OS Netlink NetlinkSpec NetlinkRoute.

Import RecordSetters.TriangleBracketNotations.
Open Scope Z_scope.

(** Decides which constant a type is. *)
Ltac decide_consts := repeat first [rewrite decide_True by done | rewrite decide_False by done].

(** ** Masks *)

Lemma leading_ones_CIDR k : 0 <= k < 8 -> net.leading_ones 8 (u8 (byte_of_Z (255 - Z.shiftr 255 k))) = (k, 0).
Proof. intros Hk. assert (k = 0 \/ k = 1 \/ k = 2 \/ k = 3 \/ k = 4 \/ k = 5 \/ k = 6 \/ k = 7) as Hc by lia. destruct_or! Hc; subst k; done. Qed.

Lemma CIDR_not_ff k : 0 <= k < 8 -> byte_of_Z (255 - Z.shiftr 255 k) <> net.ff.
Proof. intros Hk. assert (k = 0 \/ k = 1 \/ k = 2 \/ k = 3 \/ k = 4 \/ k = 5 \/ k = 6 \/ k = 7) as Hc by lia. destruct_or! Hc; subst k; done. Qed.

Lemma CIDRMask_zeros l : forallb (fun x => bool_decide (x = Byte.x00)) (net.CIDRMask 0 l) = true.
Proof. induction l as [|l IH]; [done|]. cbn [net.CIDRMask]. rewrite decide_False by lia. exact IH. Qed.

Lemma simpleMaskLength_CIDRMask ones l :
  0 <= ones <= 8 * Z.of_nat l -> net.simpleMaskLength (net.CIDRMask ones l) = Some ones.
Proof.
  revert ones. induction l as [|l IH]; intros ones Ho; [simpl; f_equal; lia|].
  cbn [net.CIDRMask]. case_decide as H8.
  - cbn [net.simpleMaskLength]. rewrite decide_True by done. rewrite IH by lia. simpl. f_equal. lia.
  - cbn [net.simpleMaskLength]. rewrite decide_False by (apply CIDR_not_ff; lia).
    rewrite leading_ones_CIDR by lia. by rewrite CIDRMask_zeros.
Qed.

Lemma length_CIDRMask ones l : length (net.CIDRMask ones l) = l.
Proof. revert ones. induction l as [|l IH]; intros ones; [done|]. cbn [net.CIDRMask]. case_decide; simpl; by rewrite IH. Qed.

Lemma maskSize_CIDRMaskOf ones l :
  l = 4%nat \/ l = 16%nat -> 0 <= ones <= 8 * Z.of_nat l -> maskSize (CIDRMaskOf ones l) = (ones, 8 * Z.of_nat l).
Proof.
  intros Hl Ho. unfold maskSize, CIDRMaskOf. rewrite decide_True by done.
  by rewrite simpleMaskLength_CIDRMask, length_CIDRMask by done.
Qed.

(** ** Label stacks *)

Definition label_ok (l : Z) : Prop := 0 <= l < 2 ^ 20.

(** The label and the bit of the last entry. *)
Lemma entry_label label s :
  label_ok label -> 0 <= s < 2 -> Z.shiftr ((Z.lor (Z.shiftl label 12) (Z.shiftl s 8)) mod 2 ^ 32) 12 = label.
Proof.
  intros [H0 H1] Hs. apply Z.bits_inj'. intros n Hn.
  rewrite Z.shiftr_spec by lia. destruct (decide (n + 12 < 32)) as [Hb|Hb].
  - rewrite Z.mod_pow2_bits_low, Z.lor_spec, !Z.shiftl_spec by lia.
    rewrite (Z.bits_above_log2 s (n + 12 - 8)); [rewrite orb_false_r; f_equal; lia|lia|].
    assert (s = 0 \/ s = 1) as [-> | ->] by lia; simpl; lia.
  - rewrite Z.mod_pow2_bits_high by lia. symmetry. apply Z.bits_above_log2; [lia|].
    destruct (decide (label = 0)) as [->|]; [simpl; lia|]. apply Z.log2_lt_pow2; [lia|].
    apply Z.lt_le_trans with (2 ^ 20); [done|]. apply Z.pow_le_mono_r; lia.
Qed.

Lemma entry_last label s :
  0 <= s < 2 -> Z.land (Z.shiftr ((Z.lor (Z.shiftl label 12) (Z.shiftl s 8)) mod 2 ^ 32) 8) 1 = s.
Proof.
  intros Hs. change 1 with (Z.ones 1) at 1. rewrite Z.land_ones by lia. change (2 ^ 1) with 2.
  rewrite <- Z.bit0_mod, Z.shiftr_spec, Z.mod_pow2_bits_low, Z.lor_spec, !Z.shiftl_spec by lia.
  simpl (0 + 8 - 12). rewrite Z.testbit_neg_r by lia. simpl (0 + 8 - 8).
  assert (s = 0 \/ s = 1) as [-> | ->] by lia; done.
Qed.

Lemma mplsLabels_entry turns label s rest :
  label_ok label -> 0 <= s < 2 ->
  mplsLabels (S turns) (be 4 (Z.lor (Z.shiftl label 12) (Z.shiftl s 8)) ++ rest) =
  label :: (if decide (0 < s) then [] else mplsLabels turns rest).
Proof.
  intros Hl Hs. set (v := Z.lor _ _). pose proof (length_be 4 v) as Hlen.
  assert (bigEndian (take 4 (be 4 v ++ rest)) = v mod 2 ^ 32) as E.
  { rewrite take_app_le, take_ge, bigEndian_be by lia. done. }
  assert (drop 4 (be 4 v ++ rest) = rest) as Ed by (apply drop_app_length'; lia).
  assert (exists b w, be 4 v ++ rest = b :: w) as (b & w & Ew) by by eexists _, _.
  rewrite Ew in *. cbn [mplsLabels]. rewrite E, Ed. unfold MPLS_LS_LABEL_SHIFT, MPLS_LS_S_SHIFT, v.
  by rewrite entry_label, entry_last.
Qed.

Lemma length_EncodeMPLSStack labels : length (EncodeMPLSStack labels) = (4 * length labels)%nat.
Proof. induction labels as [|l labels IH]; [done|]. cbn [EncodeMPLSStack length]. rewrite length_app, length_be, IH. lia. Qed.

Lemma mplsLabels_Encode labels turns :
  Forall label_ok labels -> (length labels <= turns)%nat -> mplsLabels turns (EncodeMPLSStack labels) = labels.
Proof.
  intros Hl. revert turns. induction Hl as [|label labels Hlab Hls IH]; intros turns Ht; [by destruct turns|].
  cbn [length] in Ht. destruct turns as [|turns]; [lia|]. cbn [EncodeMPLSStack]. destruct labels as [|l2 labels].
  - pose proof (mplsLabels_entry turns label 1 [] Hlab ltac:(lia)) as E. exact E.
  - pose proof (mplsLabels_entry turns label 0 (EncodeMPLSStack (l2 :: labels)) Hlab ltac:(lia)) as E.
    rewrite Z.shiftl_0_l, Z.lor_0_r in E. unfold MPLS_LS_LABEL_SHIFT. rewrite E, decide_False by lia. f_equal. apply IH. lia.
Qed.

Lemma DecodeMPLSStack_Encode labels : Forall label_ok labels -> DecodeMPLSStack (EncodeMPLSStack labels) = labels.
Proof.
  intros Hl. unfold DecodeMPLSStack. rewrite length_EncodeMPLSStack.
  rewrite decide_False by (rewrite Nat.mul_comm, Nat.Div0.mod_mul; lia). apply mplsLabels_Encode; [done|lia].
Qed.

(** ** Encapsulations *)

Section encap.
Context `{NativeEndian}.

Lemma uintOf_toBytes n v rest sp : uintOf (Slice (toBytes n v ++ rest) sp) n = Ret (v mod 256 ^ Z.of_nat n).
Proof.
  unfold uintOf, len. cbn [elems]. pose proof (length_toBytes n v) as Hl.
  rewrite decide_True by (rewrite length_app; lia).
  by rewrite take_app_le, take_ge, ofBytes_toBytes by lia.
Qed.

Lemma encapBody_prefix what type s rest sp :
  in_width 2 type -> Z.of_nat (length s + 4) < 2 ^ 16 ->
  encapBody what type (Slice (encapHeader type s ++ rest) sp) = Ret (Slice s (rest ++ sp)).
Proof.
  intros Ht Hs. unfold encapBody, len. cbn [elems].
  assert (length (encapHeader type s) = length s + 4)%nat as Hh.
  { unfold encapHeader. rewrite !length_app, !length_toBytes. lia. }
  rewrite length_app, Hh, decide_False by lia. set (l := Z.of_nat (length s + 4)).
  assert (uintOf (Slice (encapHeader type s ++ rest) sp) 2 = Ret l) as ->.
  { unfold encapHeader. rewrite <- app_assoc, uintOf_toBytes. f_equal. apply Z.mod_small.
    change (256 ^ Z.of_nat 2) with (2 ^ 16). lia. }
  rewrite bind_ret, decide_False by lia.
  assert (reslice (Slice (encapHeader type s ++ rest) sp) 0 (Z.to_nat l) = Ret (Slice (encapHeader type s) (rest ++ sp))) as ->.
  { rewrite <- reslice_prefix. f_equal. lia. }
  rewrite bind_ret. unfold encapHeader. fold l.
  pose proof (sliceFrom_app (toBytes 2 l) (toBytes 2 type ++ s) (rest ++ sp)) as E. rewrite length_toBytes in E.
  rewrite E, bind_ret, uintOf_toBytes, bind_ret. clear E. rewrite Z.mod_small, decide_False by auto.
  rewrite app_assoc. pose proof (sliceFrom_app (toBytes 2 l ++ toBytes 2 type) s (rest ++ sp)) as E.
  by rewrite length_app, !length_toBytes in E.
Qed.

Lemma encapBody_header what type s sp :
  in_width 2 type -> Z.of_nat (length s + 4) < 2 ^ 16 ->
  encapBody what type (Slice (encapHeader type s) sp) = Ret (Slice s sp).
Proof. intros Ht Hs. pose proof (encapBody_prefix what type s [] sp Ht Hs) as E. by rewrite app_nil_r in E. Qed.

Definition segment_ok (s : list byte) : Prop := length s = 16%nat.

Lemma length_segments segs : Forall segment_ok segs -> length (concat segs) = (16 * length segs)%nat.
Proof. induction 1 as [|s segs Hs _ IH]; [done|]. cbn [concat length]. rewrite length_app, Hs, IH. lia. Qed.

Lemma segments_concat segs turns :
  Forall segment_ok segs -> (length segs <= turns)%nat -> segments turns (concat segs) = segs.
Proof.
  intros Hs. revert turns. induction Hs as [|s segs Hs Hss IH]; intros turns Ht; [by destruct turns|].
  cbn [length] in Ht. destruct turns as [|turns]; [lia|]. cbn [concat].
  assert (exists b w, s ++ concat segs = b :: w) as (b & w & Ew).
  { destruct s as [|b s]; [done|]. by eexists _, _. }
  rewrite Ew. cbn [segments]. rewrite <- Ew. rewrite take_app_length', drop_app_length' by done.
  f_equal. apply IH. lia.
Qed.

Lemma length_srhHeader n : length (srhHeader n) = 8%nat.
Proof. unfold srhHeader. by rewrite length_app, length_toBytes. Qed.

(** [hdr] is the length of what is in front of the segments. *)
Lemma srhSegments_list what hdr h segs sp :
  length h = hdr -> (3 <= hdr)%nat -> Forall segment_ok segs ->
  srhSegments what hdr (Slice (h ++ concat segs) sp) = Ret segs.
Proof.
  intros Hh H3 Hs. unfold srhSegments.
  assert (exists b, at_ (Slice (h ++ concat segs) sp) (hdr - 3) = Ret b) as [b ->].
  { unfold at_. cbn [elems]. destruct (lookup_lt_is_Some_2 (h ++ concat segs) (hdr - 3)) as [b Hb].
    - rewrite length_app. lia.
    - rewrite Hb. by exists b. }
  rewrite bind_ret.
  assert (exists s, reslice (Slice (h ++ concat segs) sp) (hdr - 2) hdr = Ret s) as [s ->].
  { unfold reslice, memory. cbn [elems spare]. rewrite decide_True by (rewrite !length_app; lia). by eexists. }
  rewrite bind_ret, <- Hh, sliceFrom_app, bind_ret. unfold len. cbn [elems]. pose proof (length_segments segs Hs) as Hl.
  rewrite Hl, decide_False by (rewrite Nat.mul_comm, Nat.Div0.mod_mul; lia).
  rewrite segments_concat by (done || lia). done.
Qed.
End encap.

(** ** Local segment routing *)

Lemma foldAttrs_app {A S : Type} (f : A -> S -> outcome S) xs ys st :
  foldAttrs f (xs ++ ys) st = (st ← foldAttrs f xs st; foldAttrs f ys st).
Proof. revert st. induction xs as [|x xs IH]; intros st; [done|]. cbn [foldAttrs app]. destruct (f x st); [apply IH|done..]. Qed.

Section decodes.
Context `{NativeEndian} {S : Type} (f : NetlinkRouteAttr -> S -> outcome S).

(** Reading the attributes [ds] takes the state from [st] to [st']. *)
Definition decodes (ds : list NetlinkRequestData) (st st' : S) : Prop :=
  forall as_, Forall2 reads_as ds as_ -> foldAttrs f as_ st = Ret st'.

Lemma decodes_nil st : decodes [] st st.
Proof. intros as_ Has. by inversion Has. Qed.

Lemma decodes_app ds1 ds2 st1 st2 st3 : decodes ds1 st1 st2 -> decodes ds2 st2 st3 -> decodes (ds1 ++ ds2) st1 st3.
Proof.
  intros D1 D2 as_ (as1 & as2 & H1 & H2 & ->)%Forall2_app_inv_l.
  by rewrite foldAttrs_app, (D1 as1 H1), bind_ret, (D2 as2 H2).
Qed.

Lemma decodes_one d st st' :
  (forall l sp, f {| A_Len := l; A_Type := attr_type d; A_Value := Slice (payload d) sp |} st = Ret st') ->
  decodes [d] st st'.
Proof.
  intros Hd as_ (a & as2 & [Ht Hv] & H2 & ->)%Forall2_cons_inv_l. apply Forall2_nil_inv_l in H2 as ->.
  destruct a as [l t [w sp]]. cbn [A_Type A_Value elems] in *. subst t w. cbn [foldAttrs]. by rewrite Hd, bind_ret.
Qed.

Lemma decodes_eq ds st st1 st2 : st1 = st2 -> decodes ds st st1 -> decodes ds st st2.
Proof. by intros ->. Qed.
End decodes.

(** An optional attribute, and what [upd] makes of the state. *)
Lemma decodes_opt `{NativeEndian} {X Y : Type} (f : NetlinkRouteAttr -> X * Y -> outcome (X * Y)) (b : bool) t s (upd : X -> X) y :
  (b = true -> forall l sp x, f {| A_Len := l; A_Type := t; A_Value := Slice s sp |} (x, y) = Ret (upd x, y)) ->
  forall x, decodes f (if b then [NewRtAttr t s] else []) (x, y) (if b then upd x else x, y).
Proof. intros Hu x. destruct b; [|apply decodes_nil]. apply decodes_one. intros l sp. by apply Hu. Qed.

Section local.
Context `{NativeEndian}.

Lemma wire_seg6Attr i s n :
  n = Z.of_nat (length s + 4) -> aligned (length s) -> wire (NewRtAttr (Z.of_nat i) s) = seg6Attr n i s.
Proof.
  intros -> Ha. unfold NewRtAttr, seg6Attr. cbn [wire Len map concat]. rewrite app_nil_r, pad_aligned by done.
  unfold SizeofRtAttr. by rewrite Nat.add_comm.
Qed.

(** The attributes of an encapsulation, all flags but the first two being free. *)
Definition localAttrs (e : SEG6LocalEncap) : list NetlinkRequestData :=
  let attr (i : nat) (s : list byte) := if hasFlag e i then [NewRtAttr (Z.of_nat i) s] else [] in
  [NewRtAttr (Z.of_nat SEG6_LOCAL_ACTION) (toBytes 4 (S_Action e))] ++
  attr SEG6_LOCAL_SRH (srhHeader (length (S_Segments e)) ++ concat (S_Segments e)) ++
  attr SEG6_LOCAL_TABLE (toBytes 4 (S_Table e)) ++ attr SEG6_LOCAL_NH4 (S_InAddr e) ++
  attr SEG6_LOCAL_NH6 (S_In6Addr e) ++ attr SEG6_LOCAL_IIF (toBytes 4 (S_Iif e)) ++
  attr SEG6_LOCAL_OIF (toBytes 4 (S_Oif e)).

(** The flag of the action is set, that of the unspecified parameter is not, and
    a parameter without its flag has the zero value. *)
Record local_ok (e : SEG6LocalEncap) : Prop := {
  lo_flags : length (S_Flags e) = SEG6_LOCAL_MAX /\ hasFlag e 0 = false /\ hasFlag e SEG6_LOCAL_ACTION = true;
  lo_action : in_width 4 (S_Action e);
  lo_srh : if hasFlag e SEG6_LOCAL_SRH
           then S_Segments e <> [] /\ Forall segment_ok (S_Segments e) /\ Z.of_nat (16 * length (S_Segments e)) < 2 ^ 16 - 16
           else S_Segments e = [];
  lo_table : if hasFlag e SEG6_LOCAL_TABLE then in_width 4 (S_Table e) else S_Table e = 0;
  lo_nh4 : if hasFlag e SEG6_LOCAL_NH4 then length (S_InAddr e) = 4%nat else S_InAddr e = [];
  lo_nh6 : if hasFlag e SEG6_LOCAL_NH6 then length (S_In6Addr e) = 16%nat else S_In6Addr e = [];
  lo_iif : if hasFlag e SEG6_LOCAL_IIF then in_width 4 (S_Iif e) else S_Iif e = 0;
  lo_oif : if hasFlag e SEG6_LOCAL_OIF then in_width 4 (S_Oif e) else S_Oif e = 0
}.

Lemma aligned_toBytes n v : aligned n -> aligned (length (toBytes n v)).
Proof. by rewrite length_toBytes. Qed.

Lemma wire_optional (b : bool) i s n :
  (b = true -> n = Z.of_nat (length s + 4) /\ aligned (length s)) ->
  concat (map wire (if b then [NewRtAttr (Z.of_nat i) s] else [])) = if b then seg6Attr n i s else [].
Proof. intros Hb. destruct b; [|done]. destruct (Hb eq_refl). cbn [map concat]. rewrite app_nil_r. by apply wire_seg6Attr. Qed.

Lemma aligned_4 : aligned 4.
Proof. by exists 1%nat. Qed.

(** What is encoded is the attributes, one after the other. *)
Lemma SEG6LocalEncap_Encode_wire e :
  local_ok e -> SEG6LocalEncap_Encode e = Ret (concat (map wire (localAttrs e))).
Proof.
  intros [_ _ Hsrh _ H4 H6 _ _]. unfold SEG6LocalEncap_Encode, localAttrs.
  rewrite !map_app, !concat_app.
  assert (forall i v, concat (map wire (if hasFlag e i then [NewRtAttr (Z.of_nat i) (toBytes 4 v)] else [])) =
    if hasFlag e i then seg6Attr 8 i (toBytes 4 v) else []) as Hnum.
  { intros i v. apply wire_optional. intros _. rewrite length_toBytes. split; [done|apply aligned_4]. }
  rewrite !Hnum.
  rewrite (wire_optional (hasFlag e SEG6_LOCAL_NH6) _ _ 20).
  2: { intros E. rewrite E in H6. rewrite H6. split; [done|by exists 4%nat]. }
  rewrite (wire_optional (hasFlag e SEG6_LOCAL_NH4) _ _ 8).
  2: { intros E. rewrite E in H4. rewrite H4. split; [done|apply aligned_4]. }
  rewrite (wire_optional (hasFlag e SEG6_LOCAL_SRH) _ _
    (Z.of_nat (length (srhHeader (length (S_Segments e)) ++ concat (S_Segments e)) + 4))).
  2: { intros E. rewrite E in Hsrh. destruct Hsrh as (_ & Hs & _). split; [done|].
       rewrite length_app, length_srhHeader, length_segments by done. exists (2 + 4 * length (S_Segments e))%nat. lia. }
  cbn [map concat]. rewrite app_nil_r, (wire_seg6Attr _ _ 8); [|by rewrite length_toBytes|rewrite length_toBytes; apply aligned_4].
  assert ((if hasFlag e SEG6_LOCAL_NH4 then
      if net.is_nil (net.To4 (S_InAddr e)) then Err (ErrorString "SEG6_LOCAL_NH4 has invalid IPv4 address")
      else Ret (seg6Attr 8 SEG6_LOCAL_NH4 (net.To4 (S_InAddr e))) else Ret []) =
    Ret (if hasFlag e SEG6_LOCAL_NH4 then seg6Attr 8 SEG6_LOCAL_NH4 (S_InAddr e) else [])) as ->.
  { destruct (hasFlag e SEG6_LOCAL_NH4); [|done]. rewrite net.To4_of_4 by done. by destruct (S_InAddr e). }
  destruct (hasFlag e SEG6_LOCAL_SRH); [|done]. unfold EncodeSEG6Srh.
  destruct Hsrh as (Hne & _). rewrite decide_False by (by destruct (S_Segments e)). done.
Qed.

Lemma is_attr_local e : local_ok e -> Forall is_attr (localAttrs e).
Proof.
  intros [_ _ Hsrh _ H4 H6 _ _]. unfold localAttrs.
  assert (forall (b : bool) i s, (i < 8)%nat -> (b = true -> Z.of_nat (4 + length s) < 2 ^ 16) ->
    Forall is_attr (if b then [NewRtAttr (Z.of_nat i) s] else [])) as Hopt.
  { intros b i s Hi Hb. destruct b; [|done]. constructor; [|done]. split; [|by apply Hb].
    unfold in_width. change (256 ^ Z.of_nat 2) with 65536. lia. }
  assert (forall v, Z.of_nat (4 + length (toBytes 4 v)) < 2 ^ 16) as Hnum by (intros v; by rewrite length_toBytes).
  rewrite !Forall_app. split_and!; try (apply Hopt; [unfold SEG6_LOCAL_TABLE, SEG6_LOCAL_IIF, SEG6_LOCAL_OIF; lia|done]).
  - apply (Hopt true); [unfold SEG6_LOCAL_ACTION; lia|done].
  - apply Hopt; [unfold SEG6_LOCAL_SRH; lia|]. intros E. rewrite E in Hsrh. destruct Hsrh as (_ & Hs & Hn).
    rewrite length_app, length_srhHeader, length_segments by done. lia.
  - apply Hopt; [unfold SEG6_LOCAL_NH4; lia|]. intros E. rewrite E in H4. by rewrite H4.
  - apply Hopt; [unfold SEG6_LOCAL_NH6; lia|]. intros E. rewrite E in H6. by rewrite H6.
Qed.

(** A number with its flag. *)
Lemma uintAt_width n v sp : in_width n v -> uintAt (Slice (toBytes n v) sp) n = Ret v.
Proof. intros Hv. by rewrite uintAt_value, Z.mod_small. Qed.

Lemma reslice_all w sp n : length w = n -> reslice (Slice w sp) 0 n = Ret (Slice w sp).
Proof. intros <-. pose proof (reslice_prefix w [] sp) as E. by rewrite app_nil_r in E. Qed.

Lemma local_decodes e :
  local_ok e -> decodes seg6LocalAttr (localAttrs e) (zeroSEG6Local, None) (e, None).
Proof.
  intros [(Hlen & H0 & H1) Ha Hsrh Htab H4 H6 Hiif Hoif]. unfold localAttrs.
  eapply decodes_app.
  { apply (decodes_opt _ true _ _ (fun x => setFlag (x <| S_Action := S_Action e |>) SEG6_LOCAL_ACTION)).
    intros _ l sp x. unfold seg6LocalAttr. cbn [A_Type A_Value]. decide_consts. by rewrite uintAt_width. }
  eapply decodes_app.
  { apply (decodes_opt _ _ _ _ (fun x => setFlag (x <| S_Segments := S_Segments e |>) SEG6_LOCAL_SRH)).
    intros E l sp x. rewrite E in Hsrh. destruct Hsrh as (Hne & Hs & Hn). unfold seg6LocalAttr, DecodeSEG6Srh. cbn [A_Type A_Value].
    decide_consts. rewrite srhSegments_list; [done|apply length_srhHeader|lia|done]. }
  eapply decodes_app.
  { apply (decodes_opt _ _ _ _ (fun x => setFlag (x <| S_Table := S_Table e |>) SEG6_LOCAL_TABLE)).
    intros E l sp x. rewrite E in Htab. unfold seg6LocalAttr. cbn [A_Type A_Value]. decide_consts. by rewrite uintAt_width. }
  eapply decodes_app.
  { apply (decodes_opt _ _ _ _ (fun x => setFlag (x <| S_InAddr := S_InAddr e |>) SEG6_LOCAL_NH4)).
    intros E l sp x. rewrite E in H4. unfold seg6LocalAttr. cbn [A_Type A_Value]. decide_consts. by rewrite reslice_all. }
  eapply decodes_app.
  { apply (decodes_opt _ _ _ _ (fun x => setFlag (x <| S_In6Addr := S_In6Addr e |>) SEG6_LOCAL_NH6)).
    intros E l sp x. rewrite E in H6. unfold seg6LocalAttr. cbn [A_Type A_Value]. decide_consts. by rewrite reslice_all. }
  eapply decodes_app.
  { apply (decodes_opt _ _ _ _ (fun x => setFlag (x <| S_Iif := S_Iif e |>) SEG6_LOCAL_IIF)).
    intros E l sp x. rewrite E in Hiif. unfold seg6LocalAttr. cbn [A_Type A_Value]. decide_consts. by rewrite uintAt_width. }
  eapply decodes_eq; [|apply (decodes_opt _ _ _ _ (fun x => setFlag (x <| S_Oif := S_Oif e |>) SEG6_LOCAL_OIF))].
  - f_equal. destruct e as [fl act segs tab in4 in6 iif oif]. unfold hasFlag in *.
    cbn [S_Flags S_Action S_Segments S_Table S_InAddr S_In6Addr S_Iif S_Oif] in *.
    destruct fl as [|f0 [|f1 [|srh [|table [|nh4 [|nh6 [|fi [|fo [|]]]]]]]]]; try discriminate. cbn in H0, H1. subst f0 f1.
    cbn in Hsrh, Htab, H4, H6, Hiif, Hoif.
    cbn [lookup list_lookup default from_option id SEG6_LOCAL_SRH SEG6_LOCAL_TABLE SEG6_LOCAL_NH4 SEG6_LOCAL_NH6
         SEG6_LOCAL_IIF SEG6_LOCAL_OIF].
    destruct srh, table, nh4, nh6, fi, fo; subst; reflexivity.
  - intros E l sp x. rewrite E in Hoif. unfold seg6LocalAttr. cbn [A_Type A_Value]. decide_consts. by rewrite uintAt_width.
Qed.

Lemma SEG6LocalEncap_roundtrip e :
  local_ok e -> exists w, SEG6LocalEncap_Encode e = Ret w /\ w <> [] /\
    forall sp, SEG6LocalEncap_Decode (Slice w sp) = Ret (SEG6Local e).
Proof.
  intros He. eexists. split; [by apply SEG6LocalEncap_Encode_wire|]. split.
  - intros E%(f_equal length). unfold localAttrs in E. cbn [app map concat] in E. rewrite length_app, length_dataWire in E.
    pose proof (rtaAlignOf_bounds (Len (NewRtAttr (Z.of_nat SEG6_LOCAL_ACTION) (toBytes 4 (S_Action e))))) as Hb.
    cbn [NewRtAttr Len length] in Hb, E. unfold SizeofRtAttr in *. lia.
  - intros sp. unfold SEG6LocalEncap_Decode.
    destruct (ParseRouteAttr_wire (localAttrs e) sp (is_attr_local e He)) as (as_ & -> & Has).
    by rewrite bind_ret, (local_decodes e He as_ Has), bind_ret.
Qed.

Definition encap_ok (e : Encap) : Prop :=
  match e with
  | MPLSEncap labels => Forall label_ok labels /\ Z.of_nat (4 * length labels) < 2 ^ 16 - 4
  | SEG6Encap mode segs =>
      in_width 4 mode /\ segs <> [] /\ Forall segment_ok segs /\ Z.of_nat (16 * length segs) < 2 ^ 16 - 16
  | SEG6Local e => local_ok e
  end.

(** The round trip of an encapsulation, as a route carries it. *)
Lemma encap_roundtrip e :
  encap_ok e -> exists w, encapEncode e = Ret w /\ w <> [] /\
    forall sp, decodeRouteEncap (encapType e) (Slice w sp) = Ret (Some e).
Proof.
  destruct e as [labels|mode segs|e]; cbn [encap_ok encapEncode encapType].
  - intros [Hl Hn]. eexists. split_and!; [done| |].
    + unfold encapHeader. intros E%(f_equal length). rewrite !length_app, !length_toBytes in E. simpl in E. lia.
    + intros sp. unfold decodeRouteEncap. rewrite decide_True by done. unfold MPLSEncap_Decode.
      rewrite encapBody_header; [|done|rewrite length_EncodeMPLSStack; lia]. rewrite !bind_ret. cbn [elems].
      by rewrite DecodeMPLSStack_Encode.
  - intros (Hm & Hne & Hs & Hn). unfold EncodeSEG6Encap. rewrite decide_False by (destruct segs; done).
    rewrite bind_ret. eexists. split_and!; [done| |].
    + unfold encapHeader. intros E%(f_equal length). rewrite !length_app, !length_toBytes in E. simpl in E. lia.
    + intros sp. unfold decodeRouteEncap. decide_consts. unfold SEG6Encap_Decode.
      pose proof (length_segments segs Hs) as Hl.
      rewrite encapBody_header; [|done|rewrite !length_app, length_toBytes, length_srhHeader; lia].
      rewrite !bind_ret. unfold DecodeSEG6Encap. rewrite uintOf_toBytes, bind_ret, app_assoc.
      rewrite srhSegments_list; [|by rewrite length_app, length_toBytes, length_srhHeader|lia|done].
      rewrite !bind_ret. by rewrite Z.mod_small.
  - intros He. destruct (SEG6LocalEncap_roundtrip e He) as (w & Hw & Hne & Hd). exists w. split_and!; [done..|].
    intros sp. unfold decodeRouteEncap. decide_consts. by rewrite Hd.
Qed.
End local.
