(* ===== verification/NetlinkRouteTrip.v ===== *)
(** * Routes there and back

    What [routeHandle] sends for a route is read by [deserializeRoute] as that
    route, with the defaults filled in. *)

From Stdlib Require Import ZArith Lia NArith Ascii Strings.Byte Strings.String.
From stdpp Require Import base numbers gmap strings list fin_maps.
From coqutil Require Import Datatypes.RecordSetters.
From S2P Require Import Prelude GoNet Endian OS Netlink NetlinkSpec NetlinkRoute NetlinkRouteSpec.

Import RecordSetters.TriangleBracketNotations.
Open Scope Z_scope.

(** ** Routes that can be sent *)

(** An address of the family, in the form the kernel has. *)
Definition ip_ok (family : Z) (ip : list byte) : Prop :=
  (family = FAMILY_V4 /\ length ip = 4%nat) \/ (family = FAMILY_V6 /\ length ip = 16%nat /\ net.To4 ip = []).

Definition optional_ip (family : Z) (ip : list byte) : Prop := ip = [] \/ ip_ok family ip.

Definition net_ok (family : Z) (n : net.IPNet) : Prop :=
  ip_ok family (net.IPNet_IP n) /\
  exists ones, 0 <= ones <= 8 * Z.of_nat (length (net.IPNet_IP n)) /\
    net.IPNet_Mask n = CIDRMaskOf ones (length (net.IPNet_IP n)).

(** A next hop; one with an encapsulation does not come back. *)
Record hop_ok (family : Z) (nh : NexthopInfo) : Prop := {
  ho_index : 0 <= NH_LinkIndex nh < 2 ^ 31;
  ho_hops : in_width 1 (NH_Hops nh);
  ho_gw : optional_ip family (NH_Gw nh);
  ho_flags : in_width 1 (NH_Flags nh);
  ho_newDst : forall labels, NH_NewDst nh = Some labels -> family = FAMILY_MPLS /\ Forall label_ok labels;
  ho_encap : NH_Encap nh = None
}.

Record route_ok (family : Z) (r : Route) : Prop := {
  ro_family : family = FAMILY_V4 \/ family = FAMILY_V6 \/ family = FAMILY_MPLS;
  ro_index : in_width 4 (R_LinkIndex r);
  ro_iif : R_ILinkIndex r = 0;
  ro_scope : in_width 1 (R_Scope r);
  ro_dst : match R_Dst r, R_MPLSDst r with
           | Some n, None => net_ok family n
           | None, Some label => family = FAMILY_MPLS /\ label_ok label
           | None, None => R_Src r <> [] \/ R_Gw r <> []
           | Some _, Some _ => False
           end;
  ro_src : optional_ip family (R_Src r);
  ro_gw : optional_ip family (R_Gw r);
  ro_multipath : Forall (hop_ok family) (R_MultiPath r);
  ro_protocol : in_width 1 (R_Protocol r);
  ro_priority : in_width 4 (R_Priority r);
  ro_table : in_width 4 (R_Table r);
  ro_type : in_width 1 (R_Type r);
  ro_tos : in_width 1 (R_Tos r);
  ro_flags : in_width 4 (R_Flags r);
  ro_newDst : forall labels, R_NewDst r = Some labels -> family = FAMILY_MPLS /\ Forall label_ok labels;
  ro_encap : forall e, R_Encap r = Some e -> encap_ok e;
  ro_mtu : in_width 4 (R_MTU r);
  ro_advmss : in_width 4 (R_AdvMSS r)
}.

(** [NewRtMsg] has values for the fields a route leaves at zero. *)
Definition withDefaults (r : Route) : Route :=
  r <| R_Table := if decide (0 < R_Table r) then R_Table r else RT_TABLE_MAIN |>
    <| R_Protocol := if decide (0 < R_Protocol r) then R_Protocol r else 3 |>
    <| R_Type := if decide (0 < R_Type r) then R_Type r else RTN_UNICAST |>.

Lemma GetIPFamily_ok family ip : ip_ok family ip -> GetIPFamily ip = family.
Proof.
  unfold GetIPFamily. intros [[-> Hl] | (-> & Hl & H4)]; [by rewrite decide_True by lia|].
  rewrite decide_False, H4 by lia. done.
Qed.

Lemma ipData_ok family ip : ip_ok family ip -> ipData family ip = ip.
Proof.
  unfold ipData. intros [[-> Hl] | (-> & Hl & _)].
  - rewrite decide_True by done. by apply net.To4_of_4.
  - rewrite decide_False by done. unfold To16. rewrite decide_False, decide_True by lia. done.
Qed.

Lemma ip_ok_cons family ip : ip_ok family ip -> exists b w, ip = b :: w.
Proof. destruct ip as [|b w]; [|by eexists _, _]. intros [[_ E] | (_ & E & _)]; discriminate E. Qed.

(** The family so far agrees. *)
Definition known (family f : Z) : Prop := f = -1 \/ f = family.

Lemma sameFamily_known family f what : known family f -> sameFamily f family what = Ret tt.
Proof. unfold sameFamily, known. intros Hk. rewrite decide_False by lia. done. Qed.

Section request.
Context `{NativeEndian}.

Definition ipAttr (t : Z) (ip : list byte) : list NetlinkRequestData := if negb (net.is_nil ip) then [NewRtAttr t ip] else [].

Definition labelsAttr (d : option (list Z)) : list NetlinkRequestData :=
  match d with Some labels => [NewRtAttr RTA_NEWDST (EncodeMPLSStack labels)] | None => [] end.

Lemma addrAttrs_ok family f t what ip :
  known family f -> optional_ip family ip ->
  addrAttrs f t what ip = Ret (if negb (net.is_nil ip) then family else f, ipAttr t ip).
Proof.
  intros Hk Hip. unfold addrAttrs, ipAttr. destruct (net.is_nil ip) eqn:En; [done|].
  destruct Hip as [->|Hip]; [done|]. cbn [negb].
  by rewrite (GetIPFamily_ok family), sameFamily_known, bind_ret, ipData_ok by done.
Qed.

Lemma newDstAttrs_ok family f d :
  known family f -> (forall labels, d = Some labels -> family = FAMILY_MPLS /\ Forall label_ok labels) ->
  newDstAttrs f d = Ret (labelsAttr d).
Proof.
  intros Hk Hd. destruct d as [labels|]; [|done]. destruct (Hd labels eq_refl) as [-> _]. cbn [newDstAttrs labelsAttr].
  by rewrite sameFamily_known, bind_ret.
Qed.

(** *** Next hops *)

Definition hopData (nh : NexthopInfo) : NetlinkRequestData :=
  DRtNexthop {| Rtnh_Len := 0; Rtnh_Flags := NH_Flags nh; Rtnh_Hops := NH_Hops nh; Rtnh_Ifindex := NH_LinkIndex nh |}
    (ipAttr RTA_GATEWAY (NH_Gw nh) ++ labelsAttr (NH_NewDst nh)).

Lemma nexthopAttrs_ok family f nh :
  known family f -> hop_ok family nh -> nexthopAttrs f nh = Ret ([], wire (hopData nh)).
Proof.
  intros Hk [_ _ Hgw _ Hnd He]. unfold nexthopAttrs.
  rewrite (addrAttrs_ok family), bind_ret, (newDstAttrs_ok family), bind_ret, He by done. cbn [encapAttrs].
  rewrite bind_ret, app_nil_r, Serialize_wire, bind_ret. done.
Qed.

Definition hopsBytes (nhs : list NexthopInfo) : list byte := concat (map (fun nh => wire (hopData nh)) nhs).

Lemma nexthopsAttrs_ok family f nhs :
  known family f -> Forall (hop_ok family) nhs -> nexthopsAttrs f nhs = Ret ([], hopsBytes nhs).
Proof.
  intros Hk. induction 1 as [|nh nhs Hnh _ IH]; [done|]. cbn [nexthopsAttrs].
  by rewrite (nexthopAttrs_ok family), bind_ret, IH, bind_ret by done.
Qed.

Definition multipathAttr (nhs : list NexthopInfo) : list NetlinkRequestData :=
  if negb (bool_decide (nhs = [])) then [NewRtAttr RTA_MULTIPATH (hopsBytes nhs)] else [].

Lemma multipathAttrs_ok family f nhs :
  known family f -> Forall (hop_ok family) nhs -> multipathAttrs f nhs = Ret (multipathAttr nhs).
Proof.
  intros Hk Hn. destruct nhs as [|nh nhs]; [done|]. unfold multipathAttrs.
  by rewrite (nexthopsAttrs_ok family), bind_ret by done.
Qed.
End request.

(** ** The request *)

Section sent.
Context `{NativeEndian}.

Definition dstLen (r : Route) : Z :=
  match R_Dst r with
  | Some n => fst (maskSize (net.IPNet_Mask n))
  | None => if bool_decide (R_MPLSDst r = None) then 0 else 20
  end.

Definition dstData (r : Route) : list NetlinkRequestData :=
  match R_Dst r, R_MPLSDst r with
  | Some n, _ => [NewRtAttr RTA_DST (net.IPNet_IP n)]
  | None, Some label => [NewRtAttr RTA_DST (EncodeMPLSStack [label])]
  | None, None => []
  end.

(** The header that is sent. *)
Definition sentMsg (family : Z) (r : Route) : RtMsg :=
  {| Rtm_Family := family; Dst_len := dstLen r; Src_len := 0; Rtm_Tos := R_Tos r;
     Rtm_Table := if decide (0 < R_Table r) then if decide (256 <= R_Table r) then 0 else R_Table r else RT_TABLE_MAIN;
     Rtm_Protocol := R_Protocol (withDefaults r); Rtm_Scope := R_Scope r; Rtm_Type := R_Type (withDefaults r);
     Rtm_Flags := R_Flags r |}.

(** The attributes that are sent; [w] is the encoding of the encapsulation. *)
Definition encapData (e : option Encap) (w : list byte) : list NetlinkRequestData :=
  match e with
  | Some e => [NewRtAttr RTA_ENCAP_TYPE (toBytes 2 (encapType e)); NewRtAttr RTA_ENCAP w]
  | None => []
  end.

Definition tableData (r : Route) : list NetlinkRequestData :=
  if bool_decide (256 <= R_Table r) then [NewRtAttr RTA_TABLE (toBytes 4 (R_Table r))] else [].

(** What is in front of the encapsulation, and what is behind it. *)
Definition headAttrs (r : Route) : list NetlinkRequestData := dstData r ++ labelsAttr (R_NewDst r).

Definition tailAttrs (r : Route) : list NetlinkRequestData :=
  ipAttr RTA_PREFSRC (R_Src r) ++ ipAttr RTA_GATEWAY (R_Gw r) ++ multipathAttr (R_MultiPath r) ++ tableData r ++
  positiveAttr RTA_PRIORITY (R_Priority r) ++ metricsAttrs r ++ [NewRtAttr RTA_OIF (toBytes 4 (R_LinkIndex r))].

Lemma dstAttrs_ok family r msg :
  route_ok family r -> exists f,
    dstAttrs r msg = (f, msg <| Dst_len := if bool_decide (dstData r = []) then Dst_len msg else dstLen r |>
                             <| Rtm_Type := match R_MPLSDst r with Some _ => RTN_UNICAST | None => Rtm_Type msg end |>, dstData r) /\
    known family f /\ (dstData r <> [] -> f = family).
Proof.
  intros Hr. pose proof (ro_dst family r Hr) as Hd. unfold dstAttrs, dstData, dstLen.
  destruct (R_Dst r) as [n|], (R_MPLSDst r) as [label|]; try done.
  - destruct Hd as [Hip _]. destruct (ip_ok_cons _ _ Hip) as (b & w & E). destruct n as [ip mask]. cbn [net.IPNet_IP] in *.
    subst ip. exists family. rewrite (GetIPFamily_ok family), ipData_ok by done. split_and!; [|by right|done].
    by destruct msg.
  - destruct Hd as [-> _]. exists FAMILY_MPLS. split_and!; [|by right|done]. by destruct msg.
  - exists (-1). split_and!; [|by left|done]. by destruct msg.
Qed.

Lemma tableAttrs_ok r msg :
  tableAttrs r msg = (msg <| Rtm_Table := if decide (0 < R_Table r) then if decide (256 <= R_Table r) then 0 else R_Table r
                                          else Rtm_Table msg |>, tableData r).
Proof.
  unfold tableAttrs, tableData. destruct (decide (0 < R_Table r)) as [Hp|Hp].
  - case_decide; [rewrite bool_decide_true by done|rewrite bool_decide_false by done]; by destruct msg.
  - rewrite bool_decide_false by lia. by destruct msg.
Qed.

Lemma headerFields_eq r family msg :
  headerFields r family msg =
  msg <| Rtm_Tos := if decide (0 < R_Tos r) then R_Tos r else Rtm_Tos msg |>
      <| Rtm_Protocol := if decide (0 < R_Protocol r) then R_Protocol r else Rtm_Protocol msg |>
      <| Rtm_Type := if decide (0 < R_Type r) then R_Type r else Rtm_Type msg |>
      <| Rtm_Flags := R_Flags r |> <| Rtm_Scope := R_Scope r |> <| Rtm_Family := family |>.
Proof. unfold headerFields. by destruct msg, (decide (0 < R_Tos r)), (decide (0 < R_Protocol r)), (decide (0 < R_Type r)). Qed.

Lemma encapAttrs_ok e :
  (forall e', e = Some e' -> encap_ok e') ->
  exists w typ encap, encapAttrs e = Ret (typ, encap) /\ typ ++ encap = encapData e w /\
    (forall e', e = Some e' -> w <> [] /\ forall sp, decodeRouteEncap (encapType e') (Slice w sp) = Ret (Some e')).
Proof.
  intros He. destruct e as [e|]; [|by exists [], [], []].
  destruct (encap_roundtrip e (He e eq_refl)) as (w & Hw & Hne & Hd).
  exists w. eexists _, _. cbn [encapAttrs]. rewrite Hw, bind_ret. split_and!; [done..|]. by intros e' [= <-].
Qed.

(** The family after an optional address. *)
Lemma family_after family f (ip : list byte) :
  known family f -> known family (if negb (net.is_nil ip) then family else f) /\
  (f = family \/ ip <> [] -> (if negb (net.is_nil ip) then family else f) = family).
Proof. intros Hk. destruct ip; simpl; split_and!; [done|by intros [-> | ?]|by right|done]. Qed.

(** The header after all the assignments to its fields. *)
Lemma sentMsg_eq family r :
  route_ok family r ->
  (NewRtMsg <| Dst_len := if bool_decide (dstData r = []) then Dst_len NewRtMsg else dstLen r |>
            <| Rtm_Type := match R_MPLSDst r with Some _ => RTN_UNICAST | None => Rtm_Type NewRtMsg end |>)
            <| Rtm_Table := if decide (0 < R_Table r) then if decide (256 <= R_Table r) then 0 else R_Table r else 254 |>
            <| Rtm_Tos := if decide (0 < R_Tos r) then R_Tos r else 0 |>
            <| Rtm_Protocol := if decide (0 < R_Protocol r) then R_Protocol r else 3 |>
            <| Rtm_Type := if decide (0 < R_Type r) then R_Type r
                           else match R_MPLSDst r with Some _ => RTN_UNICAST | None => Rtm_Type NewRtMsg end |>
            <| Rtm_Flags := R_Flags r |> <| Rtm_Scope := R_Scope r |> <| Rtm_Family := family |> = sentMsg family r.
Proof.
  intros Hr. pose proof (ro_tos family r Hr) as [Ht _].
  assert ((if bool_decide (dstData r = []) then 0 else dstLen r) = dstLen r) as Ed.
  { unfold dstData, dstLen. by destruct (R_Dst r), (R_MPLSDst r). }
  assert ((if decide (0 < R_Tos r) then R_Tos r else 0) = R_Tos r) as Et by (case_decide; lia).
  cbn [NewRtMsg Dst_len Rtm_Type] in *. rewrite Ed, Et. unfold sentMsg, withDefaults. by destruct (R_MPLSDst r).
Qed.

(** What is sent, and the encoding in it. *)
Lemma routeRequest_sent family r req :
  route_ok family r -> exists w,
    routeRequest r req NewRtMsg =
      Ret (fold_left AddData (DRtMsg (sentMsg family r) :: headAttrs r ++ encapData (R_Encap r) w ++ tailAttrs r) req) /\
    (forall e, R_Encap r = Some e -> w <> [] /\ forall sp, decodeRouteEncap (encapType e) (Slice w sp) = Ret (Some e)).
Proof.
  intros Hr. destruct (encapAttrs_ok (R_Encap r) (ro_encap _ _ Hr)) as (w & typ & encap & Henc & Happ & Hdec).
  exists w. split; [|done]. unfold routeRequest.
  destruct (dstAttrs_ok family r NewRtMsg Hr) as (f & -> & Hk & Hf).
  assert (match R_Dst r with Some d => net.is_nil (net.IPNet_IP d) | None => true end && net.is_nil (R_Src r) &&
    net.is_nil (R_Gw r) && bool_decide (R_MPLSDst r = None) = false) as ->.
  { pose proof (ro_dst family r Hr) as Hd. destruct (R_Dst r) as [n|], (R_MPLSDst r); try done.
    - destruct Hd as [Hip _]. destruct (ip_ok_cons _ _ Hip) as (b & ip & ->). done.
    - by rewrite !andb_false_r.
    - destruct (R_Src r), (R_Gw r); try done. by destruct Hd. }
  rewrite (newDstAttrs_ok family), bind_ret, Henc, bind_ret by (done || apply (ro_newDst _ _ Hr)).
  rewrite (addrAttrs_ok family), bind_ret by (done || apply (ro_src _ _ Hr)).
  destruct (family_after family f (R_Src r) Hk) as [Hk1 Hf1]. set (f1 := if negb (net.is_nil (R_Src r)) then family else f) in *.
  rewrite (addrAttrs_ok family), bind_ret by (done || apply (ro_gw _ _ Hr)).
  destruct (family_after family f1 (R_Gw r) Hk1) as [Hk2 Hf2]. set (f2 := if negb (net.is_nil (R_Gw r)) then family else f1) in *.
  assert (f2 = family) as ->.
  { apply Hf2. destruct (decide (R_Gw r = [])) as [Eg|]; [|by right]. left. apply Hf1.
    destruct (decide (R_Src r = [])) as [Es|]; [|by right]. left. apply Hf. unfold dstData.
    pose proof (ro_dst family r Hr) as Hd. destruct (R_Dst r), (R_MPLSDst r); try done. by destruct Hd. }
  rewrite (multipathAttrs_ok family), bind_ret by (done || apply (ro_multipath _ _ Hr)).
  rewrite tableAttrs_ok, headerFields_eq. f_equal. f_equal.
  f_equal.
  - f_equal. by apply sentMsg_eq.
  - unfold headAttrs, tailAttrs. rewrite <- Happ, <- !app_assoc. done.
Qed.
End sent.

(** ** The answer *)

Section read.
Context `{NativeEndian}.

Record msg_ok (m : RtMsg) : Prop := {
  mo_family : in_width 1 (Rtm_Family m);
  mo_dst : in_width 1 (Dst_len m);
  mo_src : in_width 1 (Src_len m);
  mo_tos : in_width 1 (Rtm_Tos m);
  mo_table : in_width 1 (Rtm_Table m);
  mo_protocol : in_width 1 (Rtm_Protocol m);
  mo_scope : in_width 1 (Rtm_Scope m);
  mo_type : in_width 1 (Rtm_Type m);
  mo_flags : in_width 4 (Rtm_Flags m)
}.

Lemma length_RtMsg m : length (RtMsg_Serialize m) = SizeofRtMsg.
Proof. unfold RtMsg_Serialize. by rewrite !length_app, !length_toBytes. Qed.

Lemma DeserializeRtMsg_Serialize m rest sp :
  msg_ok m -> DeserializeRtMsg (Slice (RtMsg_Serialize m ++ rest) sp) = Ret m.
Proof.
  intros [? ? ? ? ? ? ? ? ?]. unfold DeserializeRtMsg. rewrite <- (length_RtMsg m), reslice_prefix, bind_ret.
  cbn [elems]. unfold RtMsg_Serialize. read_fields. by destruct m.
Qed.

Lemma sint32_small v : 0 <= v < 2 ^ 31 -> sint 32 v = v.
Proof. intros Hv. unfold sint. rewrite Z.mod_small by lia. lia. Qed.

(** *** Next hops *)

Lemma optional_ip_attr family t ip :
  in_width 2 t -> optional_ip family ip -> Forall is_attr (ipAttr t ip).
Proof.
  intros Ht Hip. unfold ipAttr. destruct (net.is_nil ip) eqn:E; [done|]. constructor; [|done]. split; [done|].
  cbn [NewRtAttr Len]. unfold SizeofRtAttr. destruct Hip as [-> | [[_ Hl] | (_ & Hl & _)]]; [done|rewrite Hl; done..].
Qed.

(** The children of a part that fits, fit. *)
Lemma Len_child d ds : In d ds -> (Len d <= sum_list_with (fun c => rtaAlignOf (Len c)) ds)%nat.
Proof.
  induction ds as [|c ds IH]; [done|]. intros [->|Hd]; cbn [sum_list_with].
  - pose proof (rtaAlignOf_bounds (Len d)). lia.
  - specialize (IH Hd). lia.
Qed.

Definition hopAttrs (nh : NexthopInfo) : list NetlinkRequestData := ipAttr RTA_GATEWAY (NH_Gw nh) ++ labelsAttr (NH_NewDst nh).

Lemma is_attr_hop family nh :
  hop_ok family nh -> Z.of_nat (Len (hopData nh)) < 2 ^ 16 -> Forall is_attr (hopAttrs nh).
Proof.
  intros [_ _ Hgw _ Hnd _] Hl. unfold hopData in Hl. rewrite Len_nexthop in Hl. apply Forall_app. split.
  - by apply (optional_ip_attr family).
  - destruct (NH_NewDst nh) as [labels|]; [|done]. constructor; [|done]. split; [done|].
    pose proof (Len_child (NewRtAttr RTA_NEWDST (EncodeMPLSStack labels))
      (ipAttr RTA_GATEWAY (NH_Gw nh) ++ labelsAttr (Some labels))) as Hc.
    cbn [labelsAttr NewRtAttr] in *. lapply Hc; [lia|]. apply in_or_app. right. by left.
Qed.

Lemma hop_decodes family nh :
  hop_ok family nh ->
  decodes (nexthopAttr family) (hopAttrs nh)
    ({| NH_LinkIndex := NH_LinkIndex nh; NH_Hops := NH_Hops nh; NH_Gw := []; NH_Flags := NH_Flags nh;
        NH_NewDst := None; NH_Encap := None |}, noEncap) (nh, noEncap).
Proof.
  intros [_ _ Hgw _ Hnd He]. destruct nh as [i h gw fl nd e]. cbn [NH_LinkIndex NH_Hops NH_Gw NH_Flags NH_NewDst NH_Encap] in *.
  subst e. unfold hopAttrs. cbn [NH_Gw NH_NewDst].
  eapply decodes_app.
  - apply (decodes_opt _ _ _ _ (fun x => x <| NH_Gw := gw |>)). intros _ l sp x. unfold nexthopAttr.
    cbn [A_Type A_Value]. by decide_consts.
  - eapply (decodes_eq _ _ _ (_, noEncap)); [by destruct gw|].
    destruct nd as [labels|]; cbn [labelsAttr]; [|by destruct gw; apply decodes_nil].
    apply decodes_one. intros l sp. destruct (Hnd labels eq_refl) as [-> Hls]. unfold nexthopAttr, decodeNewDst.
    cbn [A_Type A_Value NewRtAttr attr_type payload elems]. decide_consts. rewrite DecodeMPLSStack_Encode, bind_ret by done.
    by destruct gw.
Qed.

Lemma aligned_hop nh : rtaAlignOf (Len (hopData nh)) = Len (hopData nh).
Proof.
  unfold hopData. rewrite Len_nexthop, Nat.add_comm, rtaAlignOf_plus, rtaAlignOf_id; [done|apply aligned_sum|by exists 2%nat].
Qed.

Lemma parseRtNexthop_wire family nh rest sp :
  hop_ok family nh -> Z.of_nat (Len (hopData nh)) < 2 ^ 16 ->
  parseRtNexthop family (Slice (wire (hopData nh) ++ rest) sp) = Ret (nh, Slice rest sp).
Proof.
  intros Hok Hl. destruct (ParseRouteAttr_wire (hopAttrs nh) (rest ++ sp) (is_attr_hop family nh Hok Hl)) as (as_ & Hp & Has).
  pose proof (hop_decodes family nh Hok as_ Has) as Hd. destruct Hok as [Hi Hh _ Hf _ He].
  pose proof (length_dataWire (hopData nh)) as Hlen. rewrite aligned_hop in Hlen.
  set (n := Len (hopData nh)) in *. set (cs := concat (map wire (hopAttrs nh))) in *.
  set (hd := toBytes 2 (Z.of_nat n) ++ toBytes 1 (NH_Flags nh) ++ toBytes 1 (NH_Hops nh) ++ toBytes 4 (NH_LinkIndex nh)).
  assert (length hd = 8%nat) as Hhd by (unfold hd; by rewrite !length_app, !length_toBytes).
  assert (wire (hopData nh) = hd ++ cs) as Hw by (unfold hd; by rewrite <- !app_assoc).
  assert (DeserializeRtNexthop (Slice (wire (hopData nh) ++ rest) sp) = Ret {| Rtnh_Len := Z.of_nat n;
    Rtnh_Flags := NH_Flags nh; Rtnh_Hops := NH_Hops nh; Rtnh_Ifindex := NH_LinkIndex nh |}) as Hde.
  { unfold DeserializeRtNexthop, SizeofRtNexthop. rewrite Hw, <- app_assoc, <- Hhd, reslice_prefix, bind_ret. cbn [elems].
    assert (in_width 2 (Z.of_nat n)) by (unfold in_width; change (256 ^ Z.of_nat 2) with (2 ^ 16); lia).
    assert (in_width 4 (NH_LinkIndex nh)) by (unfold in_width; change (256 ^ Z.of_nat 4) with (2 ^ 32); lia).
    unfold hd. read_fields. by rewrite sint32_small. }
  assert (n = length hd + length cs)%nat as Hn by (by rewrite <- Hlen, Hw, length_app).
  unfold parseRtNexthop, len. cbn [elems]. rewrite length_app, decide_False by (unfold SizeofRtNexthop; lia).
  rewrite Hde, bind_ret. cbn [Rtnh_Len Rtnh_Flags Rtnh_Hops Rtnh_Ifindex]. rewrite decide_False by lia. rewrite Nat2Z.id.
  assert (reslice (Slice (wire (hopData nh) ++ rest) sp) SizeofRtNexthop n = Ret (Slice cs (rest ++ sp))) as ->.
  { rewrite Hw, <- app_assoc, Hn. change SizeofRtNexthop with 8%nat. rewrite <- Hhd at 1. apply reslice_middle. }
  rewrite bind_ret, Hp, bind_ret, Hd, bind_ret. unfold decodeEncap. rewrite decide_False by (intros [? _]; done).
  rewrite bind_ret, <- Hlen, sliceFrom_app, bind_ret, He. by destruct nh; cbn in *; subst.
Qed.

Lemma parseNexthops_wire family nhs turns sp r :
  Forall (hop_ok family) nhs -> Z.of_nat (length (hopsBytes nhs)) < 2 ^ 16 -> (length (hopsBytes nhs) <= turns)%nat ->
  parseNexthops turns family (Slice (hopsBytes nhs) sp) r = Ret (r <| R_MultiPath := R_MultiPath r ++ nhs |>).
Proof.
  intros Hn. revert turns r. induction Hn as [|nh nhs Hnh _ IH]; intros turns r Hl Ht.
  - rewrite app_nil_r. destruct turns; by destruct r.
  - unfold hopsBytes in *. cbn [map concat] in *. rewrite length_app, length_dataWire, aligned_hop in Hl, Ht.
    assert (8 <= Len (hopData nh))%nat as H8 by (unfold hopData; rewrite Len_nexthop; lia).
    destruct turns as [|turns]; [lia|]. cbn [parseNexthops].
    set (w := wire (hopData nh) ++ _).
    assert (0 < len (Slice w sp))%nat as Hw by (unfold len, w; cbn [elems]; rewrite length_app, length_dataWire, aligned_hop; lia).
    rewrite decide_True by done. unfold w.
    rewrite parseRtNexthop_wire, bind_ret, IH by (done || lia). destruct r. cbn. by rewrite <- app_assoc.
Qed.

(** *** Routes *)

Lemma msg_ok_sent family r : route_ok family r -> msg_ok (sentMsg family r).
Proof.
  intros Hr. constructor; cbn [sentMsg Rtm_Family Dst_len Src_len Rtm_Tos Rtm_Table Rtm_Protocol Rtm_Scope Rtm_Type Rtm_Flags].
  - destruct (ro_family _ _ Hr) as [-> | [-> | ->]]; done.
  - unfold dstLen. pose proof (ro_dst _ _ Hr) as Hd. destruct (R_Dst r) as [n|]; [|by destruct (R_MPLSDst r)].
    destruct (R_MPLSDst r); [done|]. destruct Hd as [Hip (ones & Ho & ->)].
    rewrite maskSize_CIDRMaskOf by (done || destruct Hip as [[_ ->] | (_ & -> & _)]; auto). cbn [fst].
    unfold in_width. change (256 ^ Z.of_nat 1) with 256. destruct Hip as [[_ E] | (_ & E & _)]; rewrite E in Ho; lia.
  - done.
  - apply (ro_tos _ _ Hr).
  - destruct (ro_table _ _ Hr). unfold in_width. change (256 ^ Z.of_nat 1) with 256. repeat case_decide; unfold RT_TABLE_MAIN; lia.
  - pose proof (ro_protocol _ _ Hr). unfold withDefaults. cbn. by case_decide.
  - apply (ro_scope _ _ Hr).
  - pose proof (ro_type _ _ Hr). unfold withDefaults. cbn. by case_decide.
  - apply (ro_flags _ _ Hr).
Qed.

(** The destination and the new destination. *)
Lemma head_decodes family r x v :
  route_ok family r -> R_Dst x = None -> R_MPLSDst x = None -> R_NewDst x = None ->
  decodes (routeAttr (sentMsg family r)) (headAttrs r) (x, v)
    (x <| R_Dst := R_Dst r |> <| R_MPLSDst := R_MPLSDst r |> <| R_NewDst := R_NewDst r |>, v).
Proof.
  intros Hr Hd Hm Hn. unfold headAttrs.
  apply (decodes_app _ _ _ _ (x <| R_Dst := R_Dst r |> <| R_MPLSDst := R_MPLSDst r |>, v)).
  - unfold dstData. pose proof (ro_dst _ _ Hr) as Hdst.
    destruct (R_Dst r) as [[ip mask]|] eqn:Ed, (R_MPLSDst r) as [label|] eqn:Em; try done.
    + apply decodes_one. intros l sp. destruct Hdst as [Hip (ones & Ho & Emask)]. cbn [net.IPNet_IP net.IPNet_Mask] in *.
      unfold routeAttr, dstAttr. cbn [A_Type A_Value NewRtAttr attr_type payload elems len sentMsg Rtm_Family Dst_len].
      decide_consts. rewrite decide_False by (destruct Hip as [[-> _] | (-> & _)]; done). rewrite bind_ret.
      unfold dstLen. rewrite Ed. cbn [net.IPNet_Mask]. rewrite Emask.
      rewrite maskSize_CIDRMaskOf by (done || destruct Hip as [[_ ->] | (_ & -> & _)]; auto). destruct x. by cbn in *; subst.
    + apply decodes_one. intros l sp. destruct Hdst as [-> Hl].
      unfold routeAttr, dstAttr. cbn [A_Type A_Value NewRtAttr attr_type payload elems sentMsg Rtm_Family].
      decide_consts. rewrite DecodeMPLSStack_Encode by (by constructor). destruct x. by cbn in *; subst.
    + eapply decodes_eq; [|apply decodes_nil]. destruct x. by cbn in *; subst.
  - destruct (R_NewDst r) as [labels|] eqn:En; cbn [labelsAttr].
    + apply decodes_one. intros l sp. destruct (ro_newDst _ _ Hr labels En) as [-> Hls].
      unfold routeAttr, decodeNewDst. cbn [A_Type A_Value NewRtAttr attr_type payload elems sentMsg Rtm_Family].
      decide_consts. by rewrite DecodeMPLSStack_Encode, bind_ret.
    + eapply decodes_eq; [|apply decodes_nil]. destruct x. by cbn in *; subst.
Qed.

(** The encapsulation is kept for the end. *)
Lemma encap_read msg e w as_ x :
  (forall e', e = Some e' -> w <> [] /\ forall sp, decodeRouteEncap (encapType e') (Slice w sp) = Ret (Some e')) ->
  Forall2 reads_as (encapData e w) as_ ->
  exists v, foldAttrs (routeAttr msg) as_ (x, noEncap) = Ret (x, v) /\ decodeEncap decodeRouteEncap v None = Ret e.
Proof.
  intros Hw Has. destruct e as [e|].
  - destruct (Hw e eq_refl) as [Hne Hdec]. apply Forall2_cons_inv_l in Has as (a1 & as1 & [Ht1 Hv1] & Has & ->).
    apply Forall2_cons_inv_l in Has as (a2 & as2 & [Ht2 Hv2] & Has & ->). apply Forall2_nil_inv_l in Has as ->.
    destruct a1 as [l1 t1 [w1 sp1]], a2 as [l2 t2 [w2 sp2]].
    cbn [A_Type A_Value elems NewRtAttr attr_type payload] in *. subst.
    exists {| E_encap := Slice w sp2; E_encapType := Slice (toBytes 2 (encapType e)) sp1 |}. split.
    + assert (forall l s v, routeAttr msg {| A_Len := l; A_Type := RTA_ENCAP_TYPE; A_Value := s |} (x, v) =
        Ret (x, v <| E_encapType := s |>)) as E1 by (intros; unfold routeAttr; cbn [A_Type A_Value]; by decide_consts).
      assert (forall l s v, routeAttr msg {| A_Len := l; A_Type := RTA_ENCAP; A_Value := s |} (x, v) =
        Ret (x, v <| E_encap := s |>)) as E2 by (intros; unfold routeAttr; cbn [A_Type A_Value]; by decide_consts).
      cbn [foldAttrs]. by rewrite E1, bind_ret, E2, bind_ret.
    + unfold decodeEncap. cbn [E_encap E_encapType]. unfold len. cbn [elems].
      rewrite decide_True by (rewrite length_toBytes; destruct w; done). rewrite uintAt_width by (by destruct e).
      rewrite bind_ret. apply Hdec.
  - apply Forall2_nil_inv_l in Has as ->. exists noEncap. done.
Qed.

Definition metrics (r : Route) : list NetlinkRequestData :=
  positiveAttr RTAX_MTU (R_MTU r) ++ positiveAttr RTAX_ADVMSS (R_AdvMSS r).

Lemma is_attr_positive t v : in_width 2 t -> Forall is_attr (positiveAttr t v).
Proof.
  intros Ht. unfold positiveAttr. case_decide; [|done]. constructor; [|done]. split; [done|].
  cbn [NewRtAttr Len]. by rewrite length_toBytes.
Qed.

Lemma fold_AddChild t w cs ds : fold_left AddChild ds (DRtAttr t w cs) = DRtAttr t w (cs ++ ds).
Proof.
  revert cs. induction ds as [|d ds IH]; intros cs; cbn [fold_left AddChild]; [by rewrite app_nil_r|].
  by rewrite IH, <- app_assoc.
Qed.

Lemma metricsAttrs_eq r : metricsAttrs r = if negb (bool_decide (metrics r = [])) then [DRtAttr RTA_METRICS [] (metrics r)] else [].
Proof.
  unfold metricsAttrs. fold (metrics r). destruct (metrics r) as [|m ms]; [done|].
  unfold NewRtAttr. by rewrite fold_AddChild.
Qed.

(** An optional number, where the zero value stands for none. *)
Lemma positive_decodes {S : Type} (f : NetlinkRouteAttr -> S -> outcome S) t v st st' :
  in_width 4 v ->
  (forall l sp, f {| A_Len := l; A_Type := t; A_Value := Slice (toBytes 4 v) sp |} st = Ret st') ->
  (v = 0 -> st = st') -> decodes f (positiveAttr t v) st st'.
Proof.
  intros [Hv _] Hf H0. unfold positiveAttr. case_decide.
  - apply decodes_one. intros l sp. apply Hf.
  - rewrite H0 by lia. apply decodes_nil.
Qed.

Lemma metrics_decodes family r x :
  route_ok family r -> R_MTU x = 0 -> R_AdvMSS x = 0 ->
  decodes metricAttr (metrics r) x (x <| R_MTU := R_MTU r |> <| R_AdvMSS := R_AdvMSS r |>).
Proof.
  intros Hr Hm Ha. apply (decodes_app _ _ _ _ (x <| R_MTU := R_MTU r |>)).
  - apply positive_decodes; [apply (ro_mtu _ _ Hr)| |].
    + intros l sp. unfold metricAttr. cbn [A_Type A_Value]. decide_consts. by rewrite uintAt_width by apply (ro_mtu _ _ Hr).
    + intros ->. destruct x. by cbn in *; subst.
  - apply positive_decodes; [apply (ro_advmss _ _ Hr)| |].
    + intros l sp. unfold metricAttr. cbn [A_Type A_Value]. decide_consts. by rewrite uintAt_width by apply (ro_advmss _ _ Hr).
    + intros ->. destruct x. by cbn in *; subst.
Qed.

Lemma metricsAttrs_decodes family r msg x v :
  route_ok family r -> R_MTU x = 0 -> R_AdvMSS x = 0 ->
  decodes (routeAttr msg) (metricsAttrs r) (x, v) (x <| R_MTU := R_MTU r |> <| R_AdvMSS := R_AdvMSS r |>, v).
Proof.
  intros Hr Hm Ha. rewrite metricsAttrs_eq. destruct (metrics r) as [|d ds] eqn:Ed.
  - pose proof (metrics_decodes family r x Hr Hm Ha) as D. rewrite Ed in D. specialize (D [] ltac:(done)).
    injection D as D. eapply decodes_eq; [|apply decodes_nil]. by f_equal.
  - rewrite bool_decide_false by done. cbn [negb]. apply decodes_one. intros l sp. unfold routeAttr.
    cbn [A_Type A_Value attr_type payload]. decide_consts.
    change (pad []) with (@nil byte). cbn [app]. rewrite <- Ed.
    destruct (ParseRouteAttr_wire (metrics r) sp) as (as_ & -> & Has).
    { apply Forall_app. split; by apply is_attr_positive. }
    rewrite bind_ret, (metrics_decodes family r x Hr Hm Ha as_ Has), bind_ret. done.
Qed.

(** An address that is there if it is not nil. *)
Lemma ipAttr_decodes {Y : Type} (f : NetlinkRouteAttr -> Route * Y -> outcome (Route * Y)) t ip x x' y :
  (forall l sp, f {| A_Len := l; A_Type := t; A_Value := Slice ip sp |} (x, y) = Ret (x', y)) ->
  (ip = [] -> x = x') -> decodes f (ipAttr t ip) (x, y) (x', y).
Proof.
  intros Hf H0. unfold ipAttr. destruct ip as [|b ip]; cbn [net.is_nil negb].
  - rewrite H0 by done. apply decodes_nil.
  - apply decodes_one. intros l sp. apply Hf.
Qed.

(** What the attributes behind the encapsulation set. *)
Definition tailRoute (r x : Route) : Route :=
  x <| R_Src := R_Src r |> <| R_Gw := R_Gw r |> <| R_MultiPath := R_MultiPath r |>
    <| R_Table := if bool_decide (256 <= R_Table r) then R_Table r else R_Table x |> <| R_Priority := R_Priority r |>
    <| R_MTU := R_MTU r |> <| R_AdvMSS := R_AdvMSS r |> <| R_LinkIndex := R_LinkIndex r |>.

Lemma multipath_decodes family r x v :
  route_ok family r -> Forall is_attr (multipathAttr (R_MultiPath r)) -> R_MultiPath x = [] ->
  decodes (routeAttr (sentMsg family r)) (multipathAttr (R_MultiPath r)) (x, v) (x <| R_MultiPath := R_MultiPath r |>, v).
Proof.
  intros Hr Ha Hx. unfold multipathAttr in *. case_bool_decide as Hn; cbn [negb] in *.
  - rewrite Hn. eapply decodes_eq; [|apply decodes_nil]. destruct x. by cbn in *; subst.
  - apply Forall_cons in Ha as [[_ Hl] _]. cbn [NewRtAttr Len] in Hl. apply decodes_one. intros l sp. unfold routeAttr.
    cbn [A_Type A_Value NewRtAttr attr_type payload]. decide_consts. unfold len. cbn [elems sentMsg Rtm_Family].
    rewrite parseNexthops_wire, bind_ret, Hx by (lia || apply (ro_multipath _ _ Hr)). done.
Qed.

Lemma tail_decodes family r x v :
  route_ok family r -> Forall is_attr (tailAttrs r) ->
  R_Src x = [] -> R_Gw x = [] -> R_MultiPath x = [] -> R_Priority x = 0 -> R_MTU x = 0 -> R_AdvMSS x = 0 ->
  decodes (routeAttr (sentMsg family r)) (tailAttrs r) (x, v) (tailRoute r x, v).
Proof.
  intros Hr Ha Hs Hg Hm Hp Hmtu Hadv. unfold tailAttrs in *. rewrite !Forall_app in Ha. destruct Ha as (_ & _ & Ham & _).
  eapply (decodes_app _ _ _ _ (x <| R_Src := R_Src r |>, v)).
  { apply ipAttr_decodes; [intros l sp; unfold routeAttr; cbn [A_Type A_Value]; by decide_consts|].
    intros ->. destruct x. by cbn in *; subst. }
  eapply (decodes_app _ _ _ _ (x <| R_Src := R_Src r |> <| R_Gw := R_Gw r |>, v)).
  { apply ipAttr_decodes; [intros l sp; unfold routeAttr; cbn [A_Type A_Value]; by decide_consts|].
    intros ->. destruct x. by cbn in *; subst. }
  eapply decodes_app; [by apply multipath_decodes; [| |destruct x]|].
  eapply decodes_app.
  { apply (decodes_opt _ _ _ _ (fun x => x <| R_Table := R_Table r |>)). intros _ l sp y. unfold routeAttr.
    cbn [A_Type A_Value]. decide_consts. by rewrite uintAt_width by apply (ro_table _ _ Hr). }
  match goal with |- decodes _ _ (?y, v) _ => set (x1 := y) end.
  assert (R_Priority x1 = 0 /\ R_MTU x1 = 0 /\ R_AdvMSS x1 = 0) as (Hp1 & Hm1 & Ha1).
  { unfold x1. by destruct (bool_decide _), x. }
  eapply (decodes_app _ _ _ _ (x1 <| R_Priority := R_Priority r |>, v)).
  { apply positive_decodes; [apply (ro_priority _ _ Hr)| |].
    - intros l sp. unfold routeAttr. cbn [A_Type A_Value]. decide_consts. by rewrite uintAt_width by apply (ro_priority _ _ Hr).
    - intros ->. destruct x1. by cbn in *; subst. }
  eapply decodes_app; [apply (metricsAttrs_decodes family r _ _ _ Hr); by destruct x1|].
  apply decodes_one. intros l sp. unfold routeAttr. cbn [A_Type A_Value NewRtAttr attr_type payload]. decide_consts.
  rewrite uintAt_width by apply (ro_index _ _ Hr). rewrite bind_ret. unfold tailRoute, x1. by destruct (bool_decide _), x.
Qed.
End read.

(** ** There and back *)

Section trip.
Context `{NativeEndian}.

Lemma serializeAll_wire ds : serializeAll ds = Ret (map wire ds).
Proof. induction ds as [|d ds IH]; [done|]. cbn [serializeAll map]. by rewrite Serialize_wire, bind_ret, IH, bind_ret. Qed.

Lemma fold_AddData ds req :
  fold_left AddData ds req = {| Req_Header := Req_Header req; Req_Data := Req_Data req ++ ds; Req_RawData := Req_RawData req |}.
Proof.
  revert req. induction ds as [|d ds IH]; intros req; cbn [fold_left].
  - rewrite app_nil_r. by destruct req.
  - rewrite IH. cbn [AddData Req_Header Req_Data Req_RawData]. by rewrite <- app_assoc.
Qed.

Lemma length_NlMsghdr h : length (NlMsghdr_bytes h) = NLMSG_HDRLEN.
Proof. unfold NlMsghdr_bytes. by rewrite !length_app, !length_toBytes. Qed.

(** The bytes of a request without raw data. *)
Lemma NetlinkRequest_Serialize_wire req :
  Req_RawData req = [] -> exists h, length h = NLMSG_HDRLEN /\
    NetlinkRequest_Serialize req = Ret (h ++ concat (map wire (Req_Data req))).
Proof.
  intros Hr. unfold NetlinkRequest_Serialize. rewrite serializeAll_wire, bind_ret, Hr, app_nil_r.
  eexists. split; [apply length_NlMsghdr|done].
Qed.

Definition fits (d : NetlinkRequestData) : Prop := Z.of_nat (Len d) < 2 ^ 16.

Definition typed (d : NetlinkRequestData) : Prop := match d with DRtAttr t _ _ => in_width 2 t | _ => False end.

Lemma is_attr_typed ds : Forall typed ds -> Forall fits ds -> Forall is_attr ds.
Proof. intros Ht Hf. apply Forall_forall. intros d Hd. rewrite Forall_forall in Ht, Hf. specialize (Ht d Hd). specialize (Hf d Hd). by destruct d. Qed.

Lemma typed_attrs r w : Forall typed (headAttrs r ++ encapData (R_Encap r) w ++ tailAttrs r).
Proof.
  assert (forall t ip, in_width 2 t -> Forall typed (ipAttr t ip)) as Hip.
  { intros t ip Ht. unfold ipAttr. destruct (net.is_nil ip); [done|]. by constructor. }
  assert (forall t v, in_width 2 t -> Forall typed (positiveAttr t v)) as Hpos.
  { intros t v Ht. unfold positiveAttr. case_decide; [by constructor|done]. }
  unfold headAttrs, tailAttrs. rewrite metricsAttrs_eq, !Forall_app. split_and!; try (by apply Hip); try (by apply Hpos).
  - unfold dstData. destruct (R_Dst r), (R_MPLSDst r); by try constructor.
  - destruct (R_NewDst r); by try constructor.
  - destruct (R_Encap r); [by repeat constructor|done].
  - unfold multipathAttr. case_bool_decide; by try constructor.
  - unfold tableData. case_bool_decide; by try constructor.
  - case_bool_decide; by try constructor.
  - by constructor.
Qed.

(** The route that is read: the header, the head and the tail, and the encapsulation. *)
Lemma sent_route family r :
  route_ok family r ->
  (tailRoute r ((headerRoute (sentMsg family r)) <| R_Dst := R_Dst r |> <| R_MPLSDst := R_MPLSDst r |> <| R_NewDst := R_NewDst r |>))
    <| R_Encap := R_Encap r |> = withDefaults r.
Proof.
  intros Hr. pose proof (ro_iif _ _ Hr) as Hi. destruct (ro_table _ _ Hr) as [Ht _]. unfold tailRoute, headerRoute, withDefaults.
  assert ((if bool_decide (256 <= R_Table r) then R_Table r
    else if decide (0 < R_Table r) then if decide (256 <= R_Table r) then 0 else R_Table r else RT_TABLE_MAIN) =
    if decide (0 < R_Table r) then R_Table r else RT_TABLE_MAIN) as E.
  { case_bool_decide; repeat case_decide; lia. }
  destruct r. cbn in *. subst. by rewrite E.
Qed.

Lemma deserializeRoute_sent family r w sp :
  route_ok family r ->
  (forall e, R_Encap r = Some e -> w <> [] /\ forall sp, decodeRouteEncap (encapType e) (Slice w sp) = Ret (Some e)) ->
  Forall fits (headAttrs r ++ encapData (R_Encap r) w ++ tailAttrs r) ->
  deserializeRoute (Slice (RtMsg_Serialize (sentMsg family r) ++
    concat (map wire (headAttrs r ++ encapData (R_Encap r) w ++ tailAttrs r))) sp) = Ret (withDefaults r).
Proof.
  intros Hr Hw Hf. pose proof (is_attr_typed _ (typed_attrs r w) Hf) as Ha.
  unfold deserializeRoute. rewrite DeserializeRtMsg_Serialize, bind_ret by (by apply msg_ok_sent).
  rewrite <- (length_RtMsg (sentMsg family r)), sliceFrom_app, bind_ret.
  destruct (ParseRouteAttr_wire _ sp Ha) as (as_ & -> & Has). rewrite bind_ret.
  apply Forall2_app_inv_l in Has as (as1 & as_' & H1 & Has & ->). apply Forall2_app_inv_l in Has as (as2 & as3 & H2 & H3 & ->).
  rewrite !Forall_app in Ha. destruct Ha as (_ & _ & Ha3).
  rewrite foldAttrs_app, (head_decodes family r (headerRoute (sentMsg family r)) noEncap Hr eq_refl eq_refl eq_refl as1 H1), bind_ret, foldAttrs_app.
  set (x := (headerRoute (sentMsg family r)) <| R_Dst := R_Dst r |> <| R_MPLSDst := R_MPLSDst r |> <| R_NewDst := R_NewDst r |>).
  destruct (encap_read (sentMsg family r) (R_Encap r) w as2 x Hw H2) as (v & -> & Hv).
  rewrite bind_ret, (tail_decodes family r x v Hr Ha3 eq_refl eq_refl eq_refl eq_refl eq_refl eq_refl as3 H3), bind_ret.
  replace (R_Encap (tailRoute _ _)) with (@None Encap) by done. rewrite Hv, bind_ret. f_equal. by apply sent_route.
Qed.

(** C28: A route the kernel can represent survives the trip: [routeHandle] builds a
    request for it, the request serializes, and [deserializeRoute] reads the body of
    that message, whatever lies behind it in memory, as the same route, table,
    protocol and type being the defaults where the route leaves them at zero.  The
    route may have a destination network or an MPLS label, source, gateway, next
    hops, a table of more than eight bits, priority, metrics and any of the three
    encapsulations; its attributes must fit the sixteen-bit length. *)
Theorem route_roundtrip family r proto flags seq :
  route_ok family r ->
  exists req w,
    routeRequest r (NewNetlinkRequest proto flags seq) NewRtMsg = Ret req /\
    NetlinkRequest_Serialize req = Ret w /\
    (Forall fits (Req_Data req) ->
     forall sp, deserializeRoute (Slice (drop NLMSG_HDRLEN w) sp) = Ret (withDefaults r)).
Proof.
  intros Hr. destruct (routeRequest_sent family r (NewNetlinkRequest proto flags seq) Hr) as (e & Hreq & He).
  rewrite fold_AddData in Hreq. cbn [NewNetlinkRequest Req_Header Req_Data Req_RawData app] in Hreq.
  set (req := Build_NetlinkRequest _ _ _) in Hreq.
  destruct (NetlinkRequest_Serialize_wire req eq_refl) as (h & Hh & Hs). exists req. eexists. split_and!; [done..|].
  intros Hf sp. rewrite <- Hh, drop_app_length. cbn [req Req_Data] in *. apply Forall_cons in Hf as [_ Hf].
  by apply deserializeRoute_sent.
Qed.
End trip.

(** A route with two next hops, a table of more than eight bits and a segment
    routing encapsulation. *)
Definition demoHop (i g : Z) : NexthopInfo :=
  {| NH_LinkIndex := i; NH_Hops := 1; NH_Gw := map byte_of_Z [10; 0; 0; g]; NH_Flags := 4; NH_NewDst := None; NH_Encap := None |}.
Definition demoRoute : Route :=
  zeroRoute <| R_Dst := Some {| net.IPNet_IP := map byte_of_Z [10; 1; 0; 0]; net.IPNet_Mask := CIDRMaskOf 16 4 |} |>
            <| R_Src := map byte_of_Z [10; 0; 0; 5] |> <| R_MultiPath := [demoHop 3 1; demoHop 4 2] |> <| R_Table := 1337 |>
            <| R_Priority := 50 |> <| R_MTU := 1400 |> <| R_Encap := Some (SEG6Encap 1 [replicate 16 Byte.x2a]) |>.

Lemma route_roundtrip_witness :
  exists req w, @routeRequest LittleEndian demoRoute (NewNetlinkRequest RTM_NEWROUTE NLM_F_ACK 1) NewRtMsg = Ret req /\
    @NetlinkRequest_Serialize LittleEndian req = Ret w /\
    forall sp, @deserializeRoute LittleEndian (Slice (drop NLMSG_HDRLEN w) sp) =
      Ret (demoRoute <| R_Protocol := 3 |> <| R_Type := RTN_UNICAST |>).
Proof.
  destruct (@route_roundtrip LittleEndian FAMILY_V4 demoRoute RTM_NEWROUTE NLM_F_ACK 1) as (req & w & Hreq & Hw & Hd).
  - constructor; try done.
    + by left.
    + split; [by left|]. by exists 16.
    + by right; left.
    + by left.
    + repeat constructor; try done; by right; left.
    + intros e [= <-]. split_and!; [done..|by repeat constructor|done].
  - exists req, w. split_and!; [done..|]. intros sp. apply Hd. vm_compute in Hreq. injection Hreq as <-.
    by repeat constructor.
Defined.
