(* ===== verification/NetlinkRouteRead.v ===== *)
(** * What the kernel says of a route, and what is read of it

    The messages of the kernel on a route, by what rtnetlink documents of them: a
    header, then attributes in any order, each type once at most, unknown ones
    among them.  [deserializeRoute] returns the route that such a message
    describes. *)

From Stdlib Require Import ZArith Lia NArith Ascii Strings.Byte Strings.String.
From stdpp Require Import base numbers gmap strings list fin_maps.
From coqutil Require Import Datatypes.RecordSetters.
From S2P Require Import Prelude GoNet Endian OS Netlink NetlinkSpec NetlinkRoute NetlinkRouteSpec NetlinkRouteTrip.

Import RecordSetters.TriangleBracketNotations.
Open Scope Z_scope.

(** The next case of a [switch] on the type of an attribute [x], which [Hx] looks up. *)
Ltac of_type Hx :=
  let Hty := fresh "Hty" in
  match goal with |- context [if decide (A_Type ?x = ?t) then _ else _] => destruct (decide (A_Type x = t)) as [Hty|Hty] end;
  [rewrite Hty in Hx |- *; try match goal with Hs : _ (A_Type _) = false |- _ => rewrite Hty in Hs end|].

(** ** Attributes *)

(** A type and a value. *)
Definition attribute : Type := Z * list byte.

(** The value of the attribute of type [t]. *)
Definition attr (t : Z) (attrs : list attribute) : option (list byte) :=
  snd <$> List.find (fun a => fst a =? t) attrs.

Definition attrs_ok (attrs : list attribute) : Prop :=
  NoDup attrs.*1 /\ Forall (fun a => in_width 2 a.1 /\ Z.of_nat (4 + length a.2) < 2 ^ 16) attrs.

Section attributes.
Context `{NativeEndian}.

(** The length, the type and the value, up to a multiple of four bytes. *)
Definition attrBytes (a : attribute) : list byte :=
  toBytes 2 (Z.of_nat (4 + length a.2)) ++ toBytes 2 a.1 ++ pad a.2.

Definition attrsBytes (attrs : list attribute) : list byte := concat (map attrBytes attrs).

(** A number of four bytes, 0 where there is none. *)
Definition number (t : Z) (attrs : list attribute) (n : Z) : Prop :=
  match attr t attrs with Some w => in_width 4 n /\ w = toBytes 4 n | None => n = 0 end.

Definition carries (a : attribute) (x : NetlinkRouteAttr) : Prop := A_Type x = a.1 /\ elems (A_Value x) = a.2.

Lemma attrsBytes_wire attrs : attrsBytes attrs = concat (map wire (map (fun a => NewRtAttr a.1 a.2) attrs)).
Proof.
  unfold attrsBytes. rewrite map_map. f_equal. apply map_ext. intros [t w].
  unfold attrBytes. cbn [NewRtAttr wire Len map concat fst snd]. by rewrite app_nil_r.
Qed.

Lemma aligned_attrsBytes attrs : aligned (length (attrsBytes attrs)).
Proof.
  induction attrs as [|[t w] attrs IH]; [by exists 0%nat|]. unfold attrsBytes in *. cbn [map concat].
  unfold attrBytes at 1. cbn [fst snd]. rewrite !length_app, !length_toBytes, length_pad.
  destruct IH as [k ->], (aligned_rtaAlignOf (length w)) as [j ->]. exists (1 + j + k)%nat. lia.
Qed.

Lemma ParseRouteAttr_attrs attrs sp :
  attrs_ok attrs -> exists xs, ParseRouteAttr (Slice (attrsBytes attrs) sp) = Ret xs /\ Forall2 carries attrs xs.
Proof.
  intros [_ Hw]. rewrite attrsBytes_wire. destruct (ParseRouteAttr_wire (map (fun a => NewRtAttr a.1 a.2) attrs) sp) as (xs & -> & Hxs).
  - apply Forall_map. eapply Forall_impl; [exact Hw|]. intros [t w] [Ht Hl]. split; [done|]. cbn [NewRtAttr Len]. exact Hl.
  - exists xs. split; [done|]. apply (Forall2_fmap_l (fun a => NewRtAttr a.1 a.2)) in Hxs.
    eapply Forall2_impl; [exact Hxs|]. by intros [t w] x Hx.
Qed.

Lemma attr_cons t a attrs : attr t (a :: attrs) = if a.1 =? t then Some a.2 else attr t attrs.
Proof. unfold attr. cbn [List.find]. by destruct (a.1 =? t). Qed.

Lemma attr_fresh t attrs : t ∉ attrs.*1 -> attr t attrs = None.
Proof.
  induction attrs as [|a attrs IH]; [done|]. rewrite fmap_cons, not_elem_of_cons, attr_cons. intros [Hne Hn].
  destruct (Z.eqb_spec a.1 t); [by subst|]. by apply IH.
Qed.

(** The types that were seen. *)
Definition has (seen : list Z) (t : Z) : bool := existsb (Z.eqb t) seen.

Lemma has_other seen t x : t <> x -> has (t :: seen) x = has seen x.
Proof. intros Hne. unfold has. cbn [existsb]. by rewrite (proj2 (Z.eqb_neq x t)). Qed.

(** A loop over the attributes, with what is known of the state once those of the
    types [seen] are read. *)
Lemma foldAttrs_reads {S : Type} (f : NetlinkRouteAttr -> S -> outcome S) (I : list Z -> S -> Prop) attrs xs st :
  NoDup attrs.*1 -> Forall2 carries attrs xs -> I [] st ->
  (forall seen x s, attr (A_Type x) attrs = Some (elems (A_Value x)) -> has seen (A_Type x) = false -> I seen s ->
     exists s', f x s = Ret s' /\ I (A_Type x :: seen) s') ->
  exists seen st', foldAttrs f xs st = Ret st' /\ I seen st' /\ forall t, has seen t = bool_decide (is_Some (attr t attrs)).
Proof.
  intros Hnd Hxs HI Hf.
  assert (forall a, a ∈ attrs -> attr a.1 attrs = Some a.2) as Hall.
  { intros a Ha. clear Hf HI Hxs. induction attrs as [|b attrs IH]; [by apply not_elem_of_nil in Ha|].
    rewrite attr_cons. apply NoDup_cons in Hnd as [Hb Hnd]. apply elem_of_cons in Ha as [<-|Ha]; [by rewrite Z.eqb_refl|].
    destruct (Z.eqb_spec b.1 a.1) as [E|]; [|by apply IH]. exfalso. apply Hb. rewrite E. by apply list_elem_of_fmap_2. }
  assert (forall a, a ∈ attrs -> has [] a.1 = false) as Hseen by done.
  enough (exists seen st', foldAttrs f xs st = Ret st' /\ I seen st' /\
    forall t, has seen t = has [] t || bool_decide (is_Some (attr t attrs))) as (seen & st' & ? & ? & ?) by by exists seen, st'.
  revert Hall Hseen HI. generalize (@nil Z) as seen. revert Hf. generalize attrs at 1 3 as all. intros all Hf.
  revert st Hnd. induction Hxs as [|a x attrs xs [Ht Hv] _ IH]; intros st Hnd seen Hall Hseen HI.
  - exists seen, st. split_and!; [done..|]. intros t. by rewrite orb_false_r.
  - apply NoDup_cons in Hnd as [Ha Hnd].
    destruct (Hf seen x st) as (s' & Hs' & HI'); [by rewrite Ht, Hv, Hall by by left|rewrite Ht; apply Hseen; by left|done|].
    destruct (IH s' Hnd (A_Type x :: seen)) as (seen' & st' & Hst' & Hi & Hh); [..|done|].
    + intros b Hb. apply Hall. by right.
    + intros b Hb. rewrite has_other; [apply Hseen; by right|]. rewrite Ht. intros E. apply Ha. rewrite E. by apply list_elem_of_fmap_2.
    + exists seen', st'. cbn [foldAttrs]. rewrite Hs', bind_ret. split_and!; [done..|]. intros t. rewrite Hh, attr_cons, Ht.
      unfold has. cbn [existsb]. rewrite (Z.eqb_sym t). destruct (Z.eqb_spec a.1 t); [|done].
      rewrite (bool_decide_true (is_Some (Some _))) by done. by rewrite orb_true_r.
Qed.
End attributes.

(** ** Label stacks *)

(** An entry: the label over the class, the bottom of the stack and the time to live. *)
Inductive stack : list Z -> list byte -> Prop :=
| stack_last label low :
    label_ok label -> 0 <= low < 2 ^ 12 -> Z.testbit low 8 = true -> stack [label] (be 4 (label * 2 ^ 12 + low))
| stack_cons label low labels w :
    label_ok label -> 0 <= low < 2 ^ 12 -> Z.testbit low 8 = false -> stack labels w ->
    stack (label :: labels) (be 4 (label * 2 ^ 12 + low) ++ w).

Lemma mplsLabels_read turns label low rest :
  label_ok label -> 0 <= low < 2 ^ 12 ->
  mplsLabels (S turns) (be 4 (label * 2 ^ 12 + low) ++ rest) =
  label :: (if Z.testbit low 8 then [] else mplsLabels turns rest).
Proof.
  intros [H0 H1] Hlow. set (v := label * 2 ^ 12 + low). pose proof (length_be 4 v) as Hlen.
  assert (bigEndian (take 4 (be 4 v ++ rest)) = v) as E.
  { rewrite take_app_le, take_ge, bigEndian_be by lia. apply Z.mod_small. change (256 ^ Z.of_nat 4) with (2 ^ 20 * 2 ^ 12). unfold v. nia. }
  assert (drop 4 (be 4 v ++ rest) = rest) as Ed by (apply drop_app_length'; lia).
  assert (Z.shiftr v 12 = label) as Es.
  { rewrite Z.shiftr_div_pow2 by lia. unfold v. rewrite Z.div_add_l by lia. rewrite Z.div_small by lia. lia. }
  assert (Z.land (Z.shiftr v 8) 1 = Z.b2z (Z.testbit low 8)) as Eb.
  { change 1 with (Z.ones 1). rewrite Z.land_ones by lia. change (2 ^ 1) with 2. rewrite <- Z.bit0_mod. f_equal.
    rewrite Z.shiftr_spec by lia. change (0 + 8) with 8.
    rewrite <- (Z.mod_pow2_bits_low v 12 8) by lia. f_equal. unfold v.
    rewrite Z.add_comm, Z.mod_add by lia. by apply Z.mod_small. }
  assert (exists b w, be 4 v ++ rest = b :: w) as (b & w & Ew) by by eexists _, _.
  rewrite Ew in *. cbn [mplsLabels]. rewrite E, Ed. unfold MPLS_LS_LABEL_SHIFT, MPLS_LS_S_SHIFT. rewrite Es, Eb.
  by destruct (Z.testbit low 8).
Qed.

Lemma length_stack labels w : stack labels w -> length w = (4 * length labels)%nat.
Proof. induction 1 as [|label low labels w _ _ _ _ IH]; cbn [length]; rewrite ?length_app, length_be; lia. Qed.

Lemma mplsLabels_stack labels w turns : stack labels w -> (length labels <= turns)%nat -> mplsLabels turns w = labels.
Proof.
  intros Hs. revert turns. induction Hs as [label low Hl Hlow Hb|label low labels w Hl Hlow Hb _ IH]; intros turns Ht;
    cbn [length] in Ht; (destruct turns as [|turns]; [lia|]).
  - pose proof (mplsLabels_read turns label low [] Hl Hlow) as E. by rewrite app_nil_r, Hb in E.
  - rewrite mplsLabels_read, Hb, IH by (done || lia). done.
Qed.

Lemma DecodeMPLSStack_stack labels w : stack labels w -> DecodeMPLSStack w = labels.
Proof.
  intros Hs. unfold DecodeMPLSStack. rewrite (length_stack _ _ Hs).
  rewrite decide_False by (rewrite Nat.mul_comm, Nat.Div0.mod_mul; lia). apply mplsLabels_stack; [done|lia].
Qed.

(** ** Encapsulations *)

Section encapsulations.
Context `{NativeEndian}.

(** The value holds an attribute of the type [t], and perhaps others behind it. *)
Definition encapsulated (t : Z) (s w : list byte) : Prop :=
  exists rest, w = (toBytes 2 (Z.of_nat (length s + 4)) ++ toBytes 2 t ++ s) ++ rest.

(** A list of segments behind its header of eight bytes. *)
Definition segment_list (segs : list (list byte)) (w : list byte) : Prop :=
  exists h, length h = 8%nat /\ Forall segment_ok segs /\ w = h ++ concat segs.

Record local_read (attrs : list attribute) (e : SEG6LocalEncap) : Prop := {
  lr_flags : S_Flags e = map (fun i => negb (i =? 0)%nat && bool_decide (is_Some (attr (Z.of_nat i) attrs))) (seq 0 SEG6_LOCAL_MAX);
  lr_action : number (Z.of_nat SEG6_LOCAL_ACTION) attrs (S_Action e);
  lr_srh : match attr (Z.of_nat SEG6_LOCAL_SRH) attrs with Some w => segment_list (S_Segments e) w | None => S_Segments e = [] end;
  lr_table : number (Z.of_nat SEG6_LOCAL_TABLE) attrs (S_Table e);
  lr_nh4 : match attr (Z.of_nat SEG6_LOCAL_NH4) attrs with Some w => length w = 4%nat /\ S_InAddr e = w | None => S_InAddr e = [] end;
  lr_nh6 : match attr (Z.of_nat SEG6_LOCAL_NH6) attrs with Some w => length w = 16%nat /\ S_In6Addr e = w | None => S_In6Addr e = [] end;
  lr_iif : number (Z.of_nat SEG6_LOCAL_IIF) attrs (S_Iif e);
  lr_oif : number (Z.of_nat SEG6_LOCAL_OIF) attrs (S_Oif e)
}.

(** The values of the types that are decoded. *)
Definition mpls_read (w : list byte) (e : option Encap) : Prop :=
  exists labels s, e = Some (MPLSEncap labels) /\ stack labels s /\ encapsulated MPLS_IPTUNNEL_DST s w.

Definition seg6_read (w : list byte) (e : option Encap) : Prop :=
  exists mode segs s, e = Some (SEG6Encap mode segs) /\ in_width 4 mode /\ segment_list segs s /\
    encapsulated SEG6_IPTUNNEL_SRH (toBytes 4 mode ++ s) w.

Definition seg6local_read (w : list byte) (e : option Encap) : Prop :=
  exists attrs l, e = Some (SEG6Local l) /\ attrs_ok attrs /\ w = attrsBytes attrs /\ local_read attrs l.

(** The encapsulation of a route; those of other types are not told. *)
Definition route_encap (type : Z) (w : list byte) (e : option Encap) : Prop :=
  if decide (type = LWTUNNEL_ENCAP_MPLS) then mpls_read w e
  else if decide (type = LWTUNNEL_ENCAP_SEG6) then seg6_read w e
  else if decide (type = LWTUNNEL_ENCAP_SEG6_LOCAL) then seg6local_read w e
  else e = None.

(** That of a next hop. *)
Definition hop_encap (type : Z) (w : list byte) (e : option Encap) : Prop :=
  if decide (type = LWTUNNEL_ENCAP_MPLS) then mpls_read w e else e = None.

(** The type and the value are both there, or there is none. *)
Definition encap_told (values : Z -> list byte -> option Encap -> Prop) (attrs : list attribute) (e : option Encap) : Prop :=
  match attr RTA_ENCAP_TYPE attrs, attr RTA_ENCAP attrs with
  | Some t, Some (b :: w) => exists type, in_width 2 type /\ t = toBytes 2 type /\ values type (b :: w) e
  | _, _ => e = None
  end.

(** *** What is decoded *)

Lemma number_read t attrs n x : number t attrs n -> attr t attrs = Some (elems x) -> uintAt x 4 = Ret n.
Proof. unfold number. intros Hn E. rewrite E in Hn. destruct Hn as [Hn Hw]. destruct x as [w sp]. cbn in Hw. subst w. by apply uintAt_width. Qed.

Lemma encapBody_read what t s x :
  in_width 2 t -> encapsulated t s (elems x) -> Z.of_nat (len x) < 2 ^ 16 ->
  exists sp, encapBody what t x = Ret (Slice s sp).
Proof.
  intros Ht (rest & E) Hl. destruct x as [w sp]. unfold len in Hl. cbn [elems] in *. subst w. exists (rest ++ sp).
  apply encapBody_prefix; [done|]. rewrite !length_app, !length_toBytes in Hl. lia.
Qed.

Lemma MPLSEncap_Decode_read x e :
  mpls_read (elems x) e -> Z.of_nat (len x) < 2 ^ 16 -> Some <$> MPLSEncap_Decode x = Ret e.
Proof.
  intros (labels & s & -> & Hs & He) Hl. unfold MPLSEncap_Decode.
  destruct (encapBody_read "MPLS Encap" MPLS_IPTUNNEL_DST _ _ ltac:(done) He Hl) as [sp ->]. rewrite bind_ret. cbn [elems].
  by rewrite (DecodeMPLSStack_stack labels).
Qed.

Lemma SEG6Encap_Decode_read x e :
  seg6_read (elems x) e -> Z.of_nat (len x) < 2 ^ 16 -> Some <$> SEG6Encap_Decode x = Ret e.
Proof.
  intros (mode & segs & s & -> & Hm & (h & Hh & Hsegs & ->) & He) Hl. unfold SEG6Encap_Decode.
  destruct (encapBody_read "SEG6" SEG6_IPTUNNEL_SRH _ _ ltac:(done) He Hl) as [sp ->]. rewrite bind_ret. unfold DecodeSEG6Encap.
  rewrite uintOf_toBytes, bind_ret, Z.mod_small by done. rewrite app_assoc, srhSegments_list; [done| |lia|done].
  by rewrite length_app, length_toBytes, Hh.
Qed.

Lemma DecodeSEG6Srh_read x segs : segment_list segs (elems x) -> DecodeSEG6Srh x = Ret segs.
Proof.
  intros (h & Hh & Hs & E). destruct x as [w sp]. cbn in E. subst w. unfold DecodeSEG6Srh. apply srhSegments_list; [done|lia|done].
Qed.

(** The fields of the types that were seen. *)
Definition localSoFar (e : SEG6LocalEncap) (seen : list Z) : SEG6LocalEncap :=
  let h (i : nat) := has seen (Z.of_nat i) in
  {| S_Flags := map (fun i => negb (i =? 0)%nat && h i) (seq 0 SEG6_LOCAL_MAX);
     S_Action := if h SEG6_LOCAL_ACTION then S_Action e else 0;
     S_Segments := if h SEG6_LOCAL_SRH then S_Segments e else [];
     S_Table := if h SEG6_LOCAL_TABLE then S_Table e else 0;
     S_InAddr := if h SEG6_LOCAL_NH4 then S_InAddr e else [];
     S_In6Addr := if h SEG6_LOCAL_NH6 then S_In6Addr e else [];
     S_Iif := if h SEG6_LOCAL_IIF then S_Iif e else 0;
     S_Oif := if h SEG6_LOCAL_OIF then S_Oif e else 0 |}.

Lemma seg6LocalAttr_read attrs e x seen :
  local_read attrs e -> attr (A_Type x) attrs = Some (elems (A_Value x)) ->
  seg6LocalAttr x (localSoFar e seen, None) = Ret (localSoFar e (A_Type x :: seen), None).
Proof.
  intros [_ Ha Hs Ht H4 H6 Hi Ho] Hx. unfold seg6LocalAttr.
  of_type Hx. { by rewrite (number_read _ _ _ _ Ha Hx). }
  of_type Hx. { rewrite Hx in Hs. by rewrite (DecodeSEG6Srh_read _ _ Hs). }
  of_type Hx. { by rewrite (number_read _ _ _ _ Ht Hx). }
  of_type Hx. { rewrite Hx in H4. destruct H4 as [H4 E], (A_Value x) as [w sp]. cbn in H4, E. by rewrite (reslice_all _ _ _ H4), bind_ret, <- E. }
  of_type Hx. { rewrite Hx in H6. destruct H6 as [H6 E], (A_Value x) as [w sp]. cbn in H6, E. by rewrite (reslice_all _ _ _ H6), bind_ret, <- E. }
  of_type Hx. { by rewrite (number_read _ _ _ _ Hi Hx). }
  of_type Hx. { by rewrite (number_read _ _ _ _ Ho Hx). }
  unfold localSoFar. cbn [map seq SEG6_LOCAL_MAX Nat.eqb negb andb]. by rewrite !has_other by done.
Qed.

(** A field that has its default where the attribute is missing. *)
Lemma told {A} t attrs (P : list byte -> Prop) (v d : A) :
  match attr t attrs with Some w => P w | None => v = d end ->
  (if bool_decide (is_Some (attr t attrs)) then v else d) = v.
Proof. destruct (attr t attrs); [done|]. by intros ->. Qed.

Lemma localSoFar_all attrs e seen :
  local_read attrs e -> (forall t, has seen t = bool_decide (is_Some (attr t attrs))) -> localSoFar e seen = e.
Proof.
  intros [Hf Ha Hs Ht H4 H6 Hi Ho] Hseen. unfold localSoFar. rewrite !Hseen.
  rewrite (told _ _ _ _ _ Ha), (told _ _ _ _ _ Hs), (told _ _ _ _ _ Ht), (told _ _ _ _ _ H4), (told _ _ _ _ _ H6),
    (told _ _ _ _ _ Hi), (told _ _ _ _ _ Ho).
  destruct e as [fl ? ? ? ? ? ? ?]. cbn [S_Flags] in Hf. f_equal. rewrite Hf. apply map_ext. intros i. by rewrite Hseen.
Qed.

Lemma SEG6LocalEncap_Decode_read x e : seg6local_read (elems x) e -> Some <$> SEG6LocalEncap_Decode x = Ret e.
Proof.
  intros (attrs & l & -> & Hok & E & Hr). destruct x as [w sp]. cbn [elems] in E. subst w. unfold SEG6LocalEncap_Decode.
  destruct (ParseRouteAttr_attrs attrs sp Hok) as (xs & -> & Hxs). rewrite bind_ret.
  destruct (foldAttrs_reads seg6LocalAttr (fun seen st => st = (localSoFar l seen, None)) attrs xs (zeroSEG6Local, None))
    as (seen & st & -> & -> & Hseen); [apply Hok|done|done| |].
  - intros seen y s Hy _ ->. eexists. split; [|reflexivity]. by apply (seg6LocalAttr_read attrs).
  - rewrite bind_ret. by rewrite (localSoFar_all attrs l seen Hr Hseen).
Qed.

(** The values of the attributes, once both were looked at. *)
Lemma decodeEncap_read values decode attrs v e :
  (forall type x, in_width 2 type -> Z.of_nat (len x) < 2 ^ 16 -> values type (elems x) e -> decode type x = Ret e) ->
  attrs_ok attrs -> encap_told values attrs e ->
  elems (E_encapType v) = default [] (attr RTA_ENCAP_TYPE attrs) -> elems (E_encap v) = default [] (attr RTA_ENCAP attrs) ->
  decodeEncap decode v None = Ret e.
Proof.
  intros Hd Hok He Ht Hw. unfold decodeEncap, encap_told, len in *. rewrite Ht, Hw.
  assert (forall w, attr RTA_ENCAP attrs = Some w -> Z.of_nat (length w) < 2 ^ 16) as Hlen.
  { intros w Hf. unfold attr in Hf. apply fmap_Some in Hf as ([t w'] & Hf & ->). apply List.find_some in Hf as [Hin _].
    destruct Hok as [_ Hok]. rewrite List.Forall_forall in Hok. destruct (Hok _ Hin) as [_ Hl]. cbn in *. lia. }
  destruct (attr RTA_ENCAP_TYPE attrs) as [t|]; cbn [from_option id length] in *;
    [|by subst e; rewrite decide_False by (intros [_ ?]; done)].
  destruct (attr RTA_ENCAP attrs) as [[|b w]|]; cbn [from_option id length] in *;
    [by subst e; rewrite decide_False by (intros [? _]; done)| |by subst e; rewrite decide_False by (intros [? _]; done)].
  destruct He as (type & Hty & -> & He). rewrite length_toBytes, decide_True by (split; lia).
  destruct v as [x y]. cbn [E_encap E_encapType id] in *. destruct y as [y sp]. cbn [elems] in Ht. subst y.
  rewrite uintAt_width, bind_ret by done. apply Hd; [done| |by rewrite Hw]. rewrite Hw. by apply Hlen.
Qed.

Lemma decodeRouteEncap_read type x e :
  route_encap type (elems x) e -> Z.of_nat (len x) < 2 ^ 16 -> decodeRouteEncap type x = Ret e.
Proof.
  intros He Hl. unfold route_encap, decodeRouteEncap in *. case_decide; [by apply MPLSEncap_Decode_read|].
  case_decide; [by apply SEG6Encap_Decode_read|]. case_decide; [by apply SEG6LocalEncap_Decode_read|]. by subst e.
Qed.

Lemma decodeHopEncap_read type x e :
  hop_encap type (elems x) e -> Z.of_nat (len x) < 2 ^ 16 -> decodeHopEncap type x = Ret e.
Proof. intros He Hl. unfold hop_encap, decodeHopEncap in *. case_decide; [by apply MPLSEncap_Decode_read|]. by subst e. Qed.
End encapsulations.

(** ** Next hops *)

Section hops.
Context `{NativeEndian}.

(** The labels of the new destination; only MPLS has one. *)
Definition newdst_told (family : Z) (attrs : list attribute) (d : option (list Z)) : Prop :=
  match attr RTA_NEWDST attrs with
  | Some w => family = FAMILY_MPLS /\ exists labels, d = Some labels /\ stack labels w
  | None => d = None
  end.

Record hop_read (family : Z) (attrs : list attribute) (nh : NexthopInfo) : Prop := {
  hr_index : 0 <= NH_LinkIndex nh < 2 ^ 31;
  hr_hops : in_width 1 (NH_Hops nh);
  hr_flags : in_width 1 (NH_Flags nh);
  hr_gw : NH_Gw nh = default [] (attr RTA_GATEWAY attrs);
  hr_newdst : newdst_told family attrs (NH_NewDst nh);
  hr_encap : encap_told hop_encap attrs (NH_Encap nh)
}.

(** A next hop: its length, flags, weight and link, and its attributes. *)
Definition hop_described (family : Z) (nh : NexthopInfo) (w : list byte) : Prop :=
  exists attrs, attrs_ok attrs /\ hop_read family attrs nh /\ Z.of_nat (8 + length (attrsBytes attrs)) < 2 ^ 16 /\
    w = (toBytes 2 (Z.of_nat (8 + length (attrsBytes attrs))) ++ toBytes 1 (NH_Flags nh) ++ toBytes 1 (NH_Hops nh) ++
         toBytes 4 (NH_LinkIndex nh)) ++ attrsBytes attrs.

Lemma decodeNewDst_read family attrs d x :
  newdst_told family attrs d -> attr RTA_NEWDST attrs = Some (elems x) -> Some <$> decodeNewDst family x = Ret d.
Proof.
  unfold newdst_told, decodeNewDst. intros Hd E. rewrite E in Hd. destruct Hd as (Hf & labels & -> & Hs).
  rewrite decide_True by done. cbn. by rewrite (DecodeMPLSStack_stack labels).
Qed.

(** The values that were kept of the types seen. *)
Definition keptSoFar (attrs : list attribute) (seen : list Z) (v : encapValues) : Prop :=
  elems (E_encapType v) = (if has seen RTA_ENCAP_TYPE then default [] (attr RTA_ENCAP_TYPE attrs) else []) /\
  elems (E_encap v) = (if has seen RTA_ENCAP then default [] (attr RTA_ENCAP attrs) else []).

Lemma keptSoFar_type attrs seen v x :
  keptSoFar attrs seen v -> attr RTA_ENCAP_TYPE attrs = Some (elems x) ->
  keptSoFar attrs (RTA_ENCAP_TYPE :: seen) (v <| E_encapType := x |>).
Proof. intros [_ Hw] Hx. destruct v. split; [cbn; by rewrite Hx|exact Hw]. Qed.

Lemma keptSoFar_encap attrs seen v x :
  keptSoFar attrs seen v -> attr RTA_ENCAP attrs = Some (elems x) ->
  keptSoFar attrs (RTA_ENCAP :: seen) (v <| E_encap := x |>).
Proof. intros [Ht _] Hx. destruct v. split; [exact Ht|cbn; by rewrite Hx]. Qed.

Lemma keptSoFar_other attrs seen v t :
  keptSoFar attrs seen v -> t <> RTA_ENCAP_TYPE -> t <> RTA_ENCAP -> keptSoFar attrs (t :: seen) v.
Proof. intros Hv H1 H2. unfold keptSoFar. by rewrite !has_other by done. Qed.

Lemma keptSoFar_all attrs seen v :
  keptSoFar attrs seen v -> (forall t, has seen t = bool_decide (is_Some (attr t attrs))) ->
  elems (E_encapType v) = default [] (attr RTA_ENCAP_TYPE attrs) /\ elems (E_encap v) = default [] (attr RTA_ENCAP attrs).
Proof.
  intros [-> ->] Hs. rewrite !Hs. by destruct (attr RTA_ENCAP_TYPE attrs), (attr RTA_ENCAP attrs).
Qed.

(** The next hop with the fields of the types seen. *)
Definition hopSoFar (nh : NexthopInfo) (seen : list Z) : NexthopInfo :=
  {| NH_LinkIndex := NH_LinkIndex nh; NH_Hops := NH_Hops nh;
     NH_Gw := if has seen RTA_GATEWAY then NH_Gw nh else []; NH_Flags := NH_Flags nh;
     NH_NewDst := if has seen RTA_NEWDST then NH_NewDst nh else None; NH_Encap := None |}.

Lemma nexthopAttr_read family attrs nh x seen v :
  hop_read family attrs nh -> attr (A_Type x) attrs = Some (elems (A_Value x)) -> keptSoFar attrs seen v ->
  exists v', nexthopAttr family x (hopSoFar nh seen, v) = Ret (hopSoFar nh (A_Type x :: seen), v') /\
    keptSoFar attrs (A_Type x :: seen) v'.
Proof.
  intros [_ _ _ Hg Hn _] Hx Hv. unfold nexthopAttr.
  of_type Hx. { exists v. split; [|by apply keptSoFar_other]. rewrite Hx in Hg. unfold hopSoFar at 2. by rewrite Hg. }
  of_type Hx. { exists v. split; [|by apply keptSoFar_other]. pose proof (decodeNewDst_read _ _ _ _ Hn Hx) as E.
    destruct (decodeNewDst family (A_Value x)) as [d| |]; try discriminate E. injection E as E. rewrite bind_ret.
    unfold hopSoFar at 2. by rewrite <- E. }
  of_type Hx. { eexists. split; [reflexivity|]. by apply keptSoFar_type. }
  of_type Hx. { eexists. split; [reflexivity|]. by apply keptSoFar_encap. }
  exists v. split; [|by apply keptSoFar_other]. unfold hopSoFar. by rewrite !has_other by done.
Qed.

Lemma hopAttrs_read family attrs nh xs :
  attrs_ok attrs -> hop_read family attrs nh -> Forall2 carries attrs xs ->
  exists v, foldAttrs (nexthopAttr family) xs (hopSoFar nh [], noEncap) = Ret (nh <| NH_Encap := None |>, v) /\
    decodeEncap decodeHopEncap v None = Ret (NH_Encap nh).
Proof.
  intros Hok Hr Hxs.
  destruct (foldAttrs_reads (nexthopAttr family) (fun seen st => fst st = hopSoFar nh seen /\ keptSoFar attrs seen (snd st))
    attrs xs (hopSoFar nh [], noEncap)) as (seen & [nh' v] & -> & [E Hv] & Hseen); [apply Hok|done|done| |].
  - intros seen y [nh' v] Hy _ [E Hv]. cbn [fst snd] in *. subst nh'.
    destruct (nexthopAttr_read family attrs nh y seen v Hr Hy Hv) as (v' & -> & Hv'). by eexists.
  - cbn [fst snd] in *. exists v. destruct (keptSoFar_all _ _ _ Hv Hseen) as [Ht Hw]. destruct Hr as [_ _ _ Hg Hn He]. split.
    + rewrite E. do 2 f_equal. unfold hopSoFar. rewrite !Hseen, (told _ _ _ _ _ Hn).
      destruct nh. cbn in *. subst. by destruct (attr RTA_GATEWAY attrs).
    + apply (decodeEncap_read hop_encap _ attrs); [|done..]. intros. by apply decodeHopEncap_read.
Qed.

Lemma parseRtNexthop_read family nh w rest sp :
  hop_described family nh w -> parseRtNexthop family (Slice (w ++ rest) sp) = Ret (nh, Slice rest sp).
Proof.
  intros (attrs & Hok & Hr & Hl & ->). destruct (ParseRouteAttr_attrs attrs (rest ++ sp) Hok) as (xs & Hp & Hxs).
  destruct (hopAttrs_read family attrs nh xs Hok Hr Hxs) as (v & Hd & He). destruct Hr as [Hi Hh Hf _ _ _].
  set (cs := attrsBytes attrs) in *. set (n := (8 + length cs)%nat) in *.
  set (hd := toBytes 2 (Z.of_nat n) ++ toBytes 1 (NH_Flags nh) ++ toBytes 1 (NH_Hops nh) ++ toBytes 4 (NH_LinkIndex nh)).
  assert (length hd = 8%nat) as Hhd by (unfold hd; by rewrite !length_app, !length_toBytes).
  assert (n = length (hd ++ cs)) as Hn by (rewrite length_app; lia).
  assert (DeserializeRtNexthop (Slice ((hd ++ cs) ++ rest) sp) = Ret {| Rtnh_Len := Z.of_nat n;
    Rtnh_Flags := NH_Flags nh; Rtnh_Hops := NH_Hops nh; Rtnh_Ifindex := NH_LinkIndex nh |}) as Hde.
  { unfold DeserializeRtNexthop, SizeofRtNexthop. rewrite <- app_assoc, <- Hhd, reslice_prefix, bind_ret. cbn [elems].
    assert (in_width 2 (Z.of_nat n)) by (unfold in_width; change (256 ^ Z.of_nat 2) with (2 ^ 16); lia).
    assert (in_width 4 (NH_LinkIndex nh)) by (unfold in_width; change (256 ^ Z.of_nat 4) with (2 ^ 32); lia).
    unfold hd. read_fields. by rewrite sint32_small. }
  unfold parseRtNexthop, len. cbn [elems]. rewrite length_app, <- Hn, decide_False by (unfold SizeofRtNexthop; lia).
  rewrite Hde, bind_ret. cbn [Rtnh_Len Rtnh_Flags Rtnh_Hops Rtnh_Ifindex]. rewrite decide_False by lia. rewrite Nat2Z.id.
  assert (reslice (Slice ((hd ++ cs) ++ rest) sp) SizeofRtNexthop n = Ret (Slice cs (rest ++ sp))) as ->.
  { rewrite <- app_assoc, Hn, length_app. change SizeofRtNexthop with 8%nat. rewrite <- Hhd at 1. apply reslice_middle. }
  change {| NH_LinkIndex := NH_LinkIndex nh; NH_Hops := NH_Hops nh; NH_Gw := []; NH_Flags := NH_Flags nh; NH_NewDst := None;
    NH_Encap := None |} with (hopSoFar nh []).
  rewrite bind_ret, Hp, bind_ret, Hd, bind_ret. change (NH_Encap (nh <| NH_Encap := None |>)) with (@None Encap).
  rewrite He, bind_ret, Hn, sliceFrom_app, bind_ret. by destruct nh.
Qed.

Lemma length_hop family nh w : hop_described family nh w -> (8 <= length w)%nat.
Proof. intros (attrs & _ & _ & _ & ->). rewrite !length_app, !length_toBytes. lia. Qed.

Lemma parseNexthops_read family nhs ws turns sp r :
  Forall2 (hop_described family) nhs ws -> (length (concat ws) <= turns)%nat ->
  parseNexthops turns family (Slice (concat ws) sp) r = Ret (r <| R_MultiPath := R_MultiPath r ++ nhs |>).
Proof.
  intros Hn. revert turns r. induction Hn as [|nh w nhs ws Hw _ IH]; intros turns r Ht.
  - rewrite app_nil_r. destruct turns; by destruct r.
  - cbn [concat] in *. rewrite length_app in Ht. pose proof (length_hop _ _ _ Hw). destruct turns as [|turns]; [lia|].
    cbn [parseNexthops]. rewrite decide_True by (unfold len; cbn [elems]; rewrite length_app; lia).
    rewrite (parseRtNexthop_read family nh), bind_ret, IH by (done || lia). destruct r. cbn. by rewrite <- app_assoc.
Qed.
End hops.

(** ** Routes *)

Section routes.
Context `{NativeEndian}.

(** The destination: a label, or an address with the prefix of the header. *)
Definition dst_told (m : RtMsg) (attrs : list attribute) (r : Route) : Prop :=
  match attr RTA_DST attrs with
  | Some w =>
      if decide (Rtm_Family m = FAMILY_MPLS) then exists label, R_Dst r = None /\ R_MPLSDst r = Some label /\ stack [label] w
      else R_MPLSDst r = None /\ (length w = 4%nat \/ length w = 16%nat) /\ 0 <= Dst_len m <= 8 * Z.of_nat (length w) /\
           R_Dst r = Some {| net.IPNet_IP := w; net.IPNet_Mask := net.CIDRMask (Dst_len m) (length w) |}
  | None => R_Dst r = None /\ R_MPLSDst r = None
  end.

Definition multipath_told (family : Z) (attrs : list attribute) (nhs : list NexthopInfo) : Prop :=
  match attr RTA_MULTIPATH attrs with
  | Some w => exists ws, w = concat ws /\ Forall2 (hop_described family) nhs ws
  | None => nhs = []
  end.

Definition metrics_told (attrs : list attribute) (mtu advmss : Z) : Prop :=
  match attr RTA_METRICS attrs with
  | Some w => exists ms, attrs_ok ms /\ w = attrsBytes ms /\ number RTAX_MTU ms mtu /\ number RTAX_ADVMSS ms advmss
  | None => mtu = 0 /\ advmss = 0
  end.

(** The table, in the attribute and, when it fits there, in the header too. *)
Definition table_told (m : RtMsg) (attrs : list attribute) (table : Z) : Prop :=
  match attr RTA_TABLE attrs with
  | Some w => in_width 4 table /\ w = toBytes 4 table /\
      (if decide (table < 256) then Rtm_Table m = table else Rtm_Table m <> RT_TABLE_MAIN)
  | None => Rtm_Table m = table
  end.

Record route_read (m : RtMsg) (attrs : list attribute) (r : Route) : Prop := {
  rr_scope : R_Scope r = Rtm_Scope m;
  rr_protocol : R_Protocol r = Rtm_Protocol m;
  rr_type : R_Type r = Rtm_Type m;
  rr_tos : R_Tos r = Rtm_Tos m;
  rr_flags : R_Flags r = Rtm_Flags m;
  rr_table : table_told m attrs (R_Table r);
  rr_oif : number RTA_OIF attrs (R_LinkIndex r);
  rr_iif : number RTA_IIF attrs (R_ILinkIndex r);
  rr_priority : number RTA_PRIORITY attrs (R_Priority r);
  rr_gw : R_Gw r = default [] (attr RTA_GATEWAY attrs);
  rr_src : R_Src r = default [] (attr RTA_PREFSRC attrs);
  rr_dst : dst_told m attrs r;
  rr_newdst : newdst_told (Rtm_Family m) attrs (R_NewDst r);
  rr_multipath : multipath_told (Rtm_Family m) attrs (R_MultiPath r);
  rr_metrics : metrics_told attrs (R_MTU r) (R_AdvMSS r);
  rr_encap : encap_told route_encap attrs (R_Encap r)
}.

(** The body of a message on the route [r]. *)
Definition describes (r : Route) (body : list byte) : Prop :=
  exists m attrs, msg_ok m /\ attrs_ok attrs /\ route_read m attrs r /\ body = RtMsg_Serialize m ++ attrsBytes attrs.

(** *** What is read *)

Lemma metrics_read attrs mtu advmss x route :
  metrics_told attrs mtu advmss -> attr RTA_METRICS attrs = Some (elems x) -> R_MTU route = 0 -> R_AdvMSS route = 0 ->
  (metrics ← ParseRouteAttr x; foldAttrs metricAttr metrics route) = Ret (route <| R_MTU := mtu |> <| R_AdvMSS := advmss |>).
Proof.
  unfold metrics_told. intros Hm Hx H1 H2. rewrite Hx in Hm. destruct Hm as (ms & Hok & E & Hn1 & Hn2).
  destruct x as [w sp]. cbn in E. subst w. destruct (ParseRouteAttr_attrs ms sp Hok) as (xs & -> & Hxs). rewrite bind_ret.
  destruct (foldAttrs_reads metricAttr (fun seen st => st =
    route <| R_MTU := if has seen RTAX_MTU then mtu else 0 |> <| R_AdvMSS := if has seen RTAX_ADVMSS then advmss else 0 |>)
    ms xs route) as (seen & st & -> & -> & Hseen); [apply Hok|done| | |].
  - destruct route. cbn in *. by subst.
  - intros seen y s Hy _ ->. eexists. split; [|reflexivity]. unfold metricAttr.
    of_type Hy. { by rewrite (number_read _ _ _ _ Hn1 Hy). }
    of_type Hy. { by rewrite (number_read _ _ _ _ Hn2 Hy). }
    by rewrite !has_other by done.
  - by rewrite !Hseen, (told _ _ _ _ _ Hn1), (told _ _ _ _ _ Hn2).
Qed.

(** The route with the fields of the types seen. *)
Definition routeSoFar (m : RtMsg) (r : Route) (seen : list Z) : Route :=
  {| R_LinkIndex := if has seen RTA_OIF then R_LinkIndex r else 0;
     R_ILinkIndex := if has seen RTA_IIF then R_ILinkIndex r else 0;
     R_Scope := R_Scope r;
     R_Dst := if has seen RTA_DST then R_Dst r else None;
     R_Src := if has seen RTA_PREFSRC then R_Src r else [];
     R_Gw := if has seen RTA_GATEWAY then R_Gw r else [];
     R_MultiPath := if has seen RTA_MULTIPATH then R_MultiPath r else [];
     R_Protocol := R_Protocol r;
     R_Priority := if has seen RTA_PRIORITY then R_Priority r else 0;
     R_Table := if has seen RTA_TABLE then R_Table r else Rtm_Table m;
     R_Type := R_Type r; R_Tos := R_Tos r; R_Flags := R_Flags r;
     R_MPLSDst := if has seen RTA_DST then R_MPLSDst r else None;
     R_NewDst := if has seen RTA_NEWDST then R_NewDst r else None;
     R_Encap := None;
     R_MTU := if has seen RTA_METRICS then R_MTU r else 0;
     R_AdvMSS := if has seen RTA_METRICS then R_AdvMSS r else 0 |}.

Lemma dstAttr_read m attrs r x seen :
  dst_told m attrs r -> attr RTA_DST attrs = Some (elems x) -> has seen RTA_DST = false ->
  dstAttr m x (routeSoFar m r seen) = Ret (routeSoFar m r (RTA_DST :: seen)).
Proof.
  unfold dst_told, dstAttr. intros Hd Hx Hs. rewrite Hx in Hd. case_decide.
  - destruct Hd as (label & H1 & H2 & Hst). rewrite (DecodeMPLSStack_stack _ _ Hst). unfold routeSoFar. rewrite Hs.
    cbn. by rewrite H1, H2.
  - destruct Hd as (H1 & Hl & Hp & H2). unfold routeSoFar, CIDRMaskOf, len. rewrite Hs, decide_True by done. cbn. by rewrite H1, H2.
Qed.

Lemma multipath_read m attrs r x seen :
  multipath_told (Rtm_Family m) attrs (R_MultiPath r) -> attr RTA_MULTIPATH attrs = Some (elems x) ->
  has seen RTA_MULTIPATH = false ->
  parseNexthops (len x) (Rtm_Family m) x (routeSoFar m r seen) = Ret (routeSoFar m r (RTA_MULTIPATH :: seen)).
Proof.
  unfold multipath_told. intros Hm Hx Hs. rewrite Hx in Hm. destruct Hm as (ws & E & Hws).
  destruct x as [w sp]. cbn in E. subst w. rewrite (parseNexthops_read _ _ _ _ _ _ Hws) by done.
  f_equal. unfold routeSoFar. rewrite Hs. reflexivity.
Qed.

Lemma routeAttr_read m attrs r x seen v :
  route_read m attrs r -> attr (A_Type x) attrs = Some (elems (A_Value x)) -> has seen (A_Type x) = false ->
  keptSoFar attrs seen v ->
  exists v', routeAttr m x (routeSoFar m r seen, v) = Ret (routeSoFar m r (A_Type x :: seen), v') /\
    keptSoFar attrs (A_Type x :: seen) v'.
Proof.
  intros Hr Hx Hs Hv. pose proof Hr as [_ _ _ _ _ Htab Hoif Hiif Hpri Hgw Hsrc Hdst Hnd Hmp Hmet _]. unfold routeAttr.
  of_type Hx. { exists v. split; [|by apply keptSoFar_other]. rewrite Hx in Hgw. unfold routeSoFar at 2. by rewrite Hgw. }
  of_type Hx. { exists v. split; [|by apply keptSoFar_other]. rewrite Hx in Hsrc. unfold routeSoFar at 2. by rewrite Hsrc. }
  of_type Hx. { exists v. split; [|by apply keptSoFar_other]. by rewrite (dstAttr_read _ attrs). }
  of_type Hx. { exists v. split; [|by apply keptSoFar_other]. by rewrite (number_read _ _ _ _ Hoif Hx). }
  of_type Hx. { exists v. split; [|by apply keptSoFar_other]. by rewrite (number_read _ _ _ _ Hiif Hx). }
  of_type Hx. { exists v. split; [|by apply keptSoFar_other]. by rewrite (number_read _ _ _ _ Hpri Hx). }
  of_type Hx. { exists v. split; [|by apply keptSoFar_other]. unfold table_told in Htab. rewrite Hx in Htab.
    destruct Htab as (Hw & E & _), (A_Value x) as [w sp]. cbn in E. subst w. by rewrite uintAt_width. }
  of_type Hx. { exists v. split; [|by apply keptSoFar_other]. by rewrite (multipath_read _ attrs). }
  of_type Hx. { exists v. split; [|by apply keptSoFar_other]. pose proof (decodeNewDst_read _ _ _ _ Hnd Hx) as E.
    destruct (decodeNewDst (Rtm_Family m) (A_Value x)) as [d| |]; try discriminate E. injection E as E. rewrite bind_ret.
    unfold routeSoFar at 2. by rewrite <- E. }
  of_type Hx. { eexists. split; [reflexivity|]. by apply keptSoFar_type. }
  of_type Hx. { eexists. split; [reflexivity|]. by apply keptSoFar_encap. }
  of_type Hx. { exists v. split; [|by apply keptSoFar_other].
    pose proof (metrics_read attrs _ _ _ (routeSoFar m r seen) Hmet Hx) as E. unfold routeSoFar in E at 1 2. cbn [R_MTU R_AdvMSS] in E.
    rewrite Hs in E. specialize (E eq_refl eq_refl).
    destruct (ParseRouteAttr (A_Value x)) as [ms| |]; try discriminate E. cbn [mbind outcome_bind] in E |- *. by rewrite E. }
  exists v. split; [|by apply keptSoFar_other]. unfold routeSoFar. by rewrite !has_other by done.
Qed.

Lemma routeSoFar_all m attrs r seen :
  route_read m attrs r -> (forall t, has seen t = bool_decide (is_Some (attr t attrs))) ->
  routeSoFar m r seen = r <| R_Encap := None |>.
Proof.
  intros [_ _ _ _ _ Htab Hoif Hiif Hpri Hgw Hsrc Hdst Hnd Hmp Hmet _] Hseen. unfold routeSoFar. rewrite !Hseen.
  rewrite (told _ _ _ _ _ Hoif), (told _ _ _ _ _ Hiif), (told _ _ _ _ _ Hpri), (told _ _ _ _ _ Hnd), (told _ _ _ _ _ Hmp).
  unfold table_told, dst_told, metrics_told in *. destruct r. cbn in *. subst.
  destruct (attr RTA_TABLE attrs), (attr RTA_DST attrs), (attr RTA_METRICS attrs), (attr RTA_GATEWAY attrs), (attr RTA_PREFSRC attrs);
    cbn; try destruct Hdst as [-> ->]; try destruct Hmet as [-> ->]; rewrite ?Htab; reflexivity.
Qed.

(** The route of the message is what is returned. *)
Lemma deserializeRoute_describes r body sp : describes r body -> deserializeRoute (Slice body sp) = Ret r.
Proof.
  intros (m & attrs & Hm & Hok & Hr & ->). unfold deserializeRoute. rewrite DeserializeRtMsg_Serialize, bind_ret by done.
  rewrite <- (length_RtMsg m), sliceFrom_app, bind_ret. destruct (ParseRouteAttr_attrs attrs sp Hok) as (xs & -> & Hxs). rewrite bind_ret.
  assert (headerRoute m = routeSoFar m r []) as -> by (destruct Hr as [E1 E2 E3 E4 E5]; unfold routeSoFar; by rewrite E1, E2, E3, E4, E5).
  destruct (foldAttrs_reads (routeAttr m) (fun seen st => fst st = routeSoFar m r seen /\ keptSoFar attrs seen (snd st))
    attrs xs (routeSoFar m r [], noEncap)) as (seen & [r' v] & -> & [E Hv] & Hseen); [apply Hok|done|done| |].
  - intros seen y [r' v] Hy Hs [E Hv]. cbn [fst snd] in *. subst r'.
    destruct (routeAttr_read m attrs r y seen v Hr Hy Hs Hv) as (v' & -> & Hv'). by eexists.
  - cbn [fst snd] in *. subst r'. rewrite bind_ret, (routeSoFar_all m attrs r seen Hr Hseen).
    destruct (keptSoFar_all _ _ _ Hv Hseen) as [Ht Hw]. change (R_Encap (r <| R_Encap := None |>)) with (@None Encap).
    rewrite (decodeEncap_read route_encap _ attrs _ (R_Encap r)); [|intros; by apply decodeRouteEncap_read|done|apply Hr|done..].
    rewrite bind_ret. by destruct r.
Qed.

(** The flags and the table of the header. *)
Lemma DeserializeRtMsg_describes r body sp :
  describes r body -> exists m, DeserializeRtMsg (Slice body sp) = Ret m /\ Rtm_Flags m = R_Flags r /\
    (Rtm_Table m = RT_TABLE_MAIN <-> R_Table r = RT_TABLE_MAIN).
Proof.
  intros (m & attrs & Hm & Hok & Hr & ->). exists m. rewrite DeserializeRtMsg_Serialize by done. split_and!; [done| |].
  - by rewrite (rr_flags _ _ _ Hr).
  - pose proof (rr_table _ _ _ Hr) as Ht. unfold table_told, RT_TABLE_MAIN in *. destruct (attr RTA_TABLE attrs); [|lia].
    destruct Ht as (_ & _ & Ht). case_decide; lia.
Qed.
End routes.

(** A route with two next hops, one with a label, a metric, and attributes that are
    not looked at. *)
Module ReadExample.
#[export] Instance order : NativeEndian := LittleEndian.

Definition plainHop : NexthopInfo :=
  {| NH_LinkIndex := 3; NH_Hops := 0; NH_Gw := map byte_of_Z [10; 0; 0; 1]; NH_Flags := 4; NH_NewDst := None; NH_Encap := None |}.
Definition labelHop : NexthopInfo :=
  {| NH_LinkIndex := 4; NH_Hops := 1; NH_Gw := []; NH_Flags := 0; NH_NewDst := None; NH_Encap := Some (MPLSEncap [100; 200]) |}.

Definition route : Route :=
  zeroRoute <| R_ILinkIndex := 9 |> <| R_MultiPath := [plainHop; labelHop] |> <| R_Table := 254 |> <| R_Protocol := 3 |>
            <| R_Type := 1 |> <| R_MTU := 1400 |>
            <| R_Dst := Some {| net.IPNet_IP := map byte_of_Z [10; 1; 0; 0]; net.IPNet_Mask := CIDRMaskOf 16 4 |} |>.

(** Two labels with a time to live of 64, and the attribute for its propagation behind. *)
Definition labels : list byte := be 4 (100 * 2 ^ 12 + 64) ++ be 4 (200 * 2 ^ 12 + 320).
Definition encapValue : list byte :=
  (toBytes 2 12 ++ toBytes 2 MPLS_IPTUNNEL_DST ++ labels) ++ attrBytes (2, [Byte.x40]).

Definition plainAttrs : list attribute := [(RTA_GATEWAY, map byte_of_Z [10; 0; 0; 1])].
Definition labelAttrs : list attribute := [(RTA_ENCAP, encapValue); (18, [Byte.x01]); (RTA_ENCAP_TYPE, toBytes 2 LWTUNNEL_ENCAP_MPLS)].
Definition hopBytes (flags hops index : Z) (attrs : list attribute) : list byte :=
  (toBytes 2 (Z.of_nat (8 + length (attrsBytes attrs))) ++ toBytes 1 flags ++ toBytes 1 hops ++ toBytes 4 index) ++ attrsBytes attrs.

Definition msg : RtMsg :=
  zeroRtMsg <| Rtm_Family := FAMILY_V4 |> <| Dst_len := 16 |> <| Rtm_Table := 254 |> <| Rtm_Protocol := 3 |> <| Rtm_Type := 1 |>.
Definition attrs : list attribute :=
  [(RTA_MULTIPATH, concat [hopBytes 4 0 3 plainAttrs; hopBytes 0 1 4 labelAttrs]); (12, replicate 5 Byte.x00);
   (RTA_METRICS, attrsBytes [(3, toBytes 4 7); (RTAX_MTU, toBytes 4 1400)]); (RTA_IIF, toBytes 4 9);
   (RTA_DST, map byte_of_Z [10; 1; 0; 0]); (RTA_TABLE, toBytes 4 254)].

Lemma attrs_ok_decide l :
  bool_decide (NoDup l.*1) = true -> forallb (fun a => (0 <=? a.1) && (a.1 <? 2 ^ 16) && (Z.of_nat (4 + length a.2) <? 2 ^ 16)) l = true ->
  attrs_ok l.
Proof.
  intros H1%bool_decide_eq_true H2. split; [done|]. apply Forall_forall. intros a Ha. rewrite forallb_forall in H2.
  apply list_elem_of_In, H2 in Ha. rewrite !andb_true_iff, Z.leb_le, !Z.ltb_lt in Ha. unfold in_width. change (256 ^ Z.of_nat 2) with (2 ^ 16). lia.
Qed.

Lemma encapValue_read : mpls_read encapValue (Some (MPLSEncap [100; 200])).
Proof.
  exists [100; 200], labels. split_and!; [done| |by eexists].
  apply stack_cons; [done..|]. apply stack_last; done.
Qed.

Lemma describes_route : describes route (RtMsg_Serialize msg ++ attrsBytes attrs).
Proof.
  exists msg, attrs. split; [done|]. split; [by apply attrs_ok_decide|]. split; [|done]. constructor; try done.
  - split; [done|]. split; [by left|]. by split.
  - eexists. split; [reflexivity|]. constructor; [|constructor; [|done]].
    + exists plainAttrs. split; [by apply attrs_ok_decide|]. split_and!; [by constructor|done|done].
    + exists labelAttrs. split; [by apply attrs_ok_decide|]. split_and!; [|done|done]. constructor; try done.
      exists LWTUNNEL_ENCAP_MPLS. split; [done|]. split; [done|]. exact encapValue_read.
  - eexists. split; [|split; [reflexivity|by split]]. by apply attrs_ok_decide.
Qed.

Lemma route_is_read sp : deserializeRoute (Slice (RtMsg_Serialize msg ++ attrsBytes attrs) sp) = Ret route.
Proof. apply deserializeRoute_describes, describes_route. Qed.
End ReadExample.
