(* ===== verification/NetlinkAddr.v ===== *)
(** * Addresses of github.com/vishvananda/netlink

    addr.go and addr_linux.go: an address of a link as a request and as an answer. *)

From Stdlib Require Import ZArith Lia NArith Ascii Strings.Byte Strings.String.
From stdpp Require Import base numbers gmap strings list fin_maps.
From coqutil Require Import Datatypes.RecordSetters.
From S2P Require Import Prelude GoNet Endian OS Netlink NetlinkSpec NetlinkRoute NetlinkRouteSpec NetlinkRouteTrip.

Import RecordSetters.TriangleBracketNotations.
Open Scope Z_scope.

Definition IFA_ADDRESS : Z := 1.
Definition IFA_LOCAL : Z := 2.
Definition IFA_LABEL : Z := 3.
Definition IFA_BROADCAST : Z := 4.
Definition IFA_CACHEINFO : Z := 6.
Definition IFA_FLAGS : Z := 8.

Record Addr := {
  Ad_IPNet : option net.IPNet;
  Ad_Label : string;
  Ad_Flags : Z;
  Ad_Scope : Z;
  Ad_Peer : option net.IPNet;
  Ad_Broadcast : list byte;
  Ad_PreferedLft : Z;
  Ad_ValidLft : Z
}.

Definition zeroAddr : Addr :=
  {| Ad_IPNet := None; Ad_Label := EmptyString; Ad_Flags := 0; Ad_Scope := 0; Ad_Peer := None; Ad_Broadcast := [];
     Ad_PreferedLft := 0; Ad_ValidLft := 0 |}.

Definition ParseIPNet (s : string) : outcome net.IPNet :=
  '(ip, ipNet) ← net.ParseCIDR s; Ret {| net.IPNet_IP := ip; net.IPNet_Mask := net.IPNet_Mask ipNet |}.

Definition NewIPNet (ip : list byte) : net.IPNet :=
  if net.is_nil (net.To4 ip) then {| net.IPNet_IP := ip; net.IPNet_Mask := CIDRMaskOf 128 16 |}
  else {| net.IPNet_IP := ip; net.IPNet_Mask := CIDRMaskOf 32 4 |}.

(** [Addr.Equal]: both have an address *)
Definition Addr_Equal (a x : net.IPNet) : bool :=
  net.Equal (net.IPNet_IP a) (net.IPNet_IP x) &&
  bool_decide (fst (maskSize (net.IPNet_Mask a)) = fst (maskSize (net.IPNet_Mask x))).

Section addr.
Context `{NativeEndian}.

(** [calcBroadcast[i] = localAddrData[i] | ^addr.Mask[i]] for each byte of the address *)
Fixpoint broadcastBytes (i : nat) (localAddrData mask calcBroadcast : list byte) : outcome (list byte) :=
  match localAddrData with
  | [] => Ret calcBroadcast
  | b :: localAddrData =>
      match calcBroadcast !! i, mask !! i with
      | Some _, Some m =>
          broadcastBytes (S i) localAddrData mask (<[i := byte_of_Z (Z.lor (u8 b) (Z.lxor (u8 m) 255))]> calcBroadcast)
      | _, _ => Panic IndexOutOfRange
      end
  end.

(** The broadcast address that is sent, kept in the [Addr]. *)
Definition broadcast (addr : Addr) (localAddrData mask : list byte) : outcome (list byte) :=
  if net.is_nil (Ad_Broadcast addr)
  then broadcastBytes 0 localAddrData mask (zeroBytes (Z.to_nat (snd (maskSize mask) / 8)))
  else Ret (Ad_Broadcast addr).

Definition cacheAttrs (addr : Addr) : list NetlinkRequestData :=
  if decide (0 < Ad_ValidLft addr \/ 0 < Ad_PreferedLft addr)
  then [NewRtAttr IFA_CACHEINFO (IfaCacheInfo_Serialize
          {| IfaPrefered := Ad_PreferedLft addr; IfaValid := Ad_ValidLft addr; Cstamp := 0; Tstamp := 0 |})]
  else [].

Definition flagsAttrs (addr : Addr) : list NetlinkRequestData :=
  if bool_decide (0xff < Ad_Flags addr) then [NewRtAttr IFA_FLAGS (toBytes 4 (Ad_Flags addr))] else [].

(** [addrHandle] from the family on, for a link of that index: the request and the address,
    which keeps the broadcast address.  The header is a pointer that the request
    holds, so the flags set later are in it. *)
Definition addrRequest (index : Z) (addr : Addr) (req : NetlinkRequest) : outcome (NetlinkRequest * Addr) :=
  match Ad_IPNet addr with
  | None => Panic NilDereference
  | Some (net.Build_IPNet ip mask) =>
      let family := GetIPFamily ip in
      let msg := (NewIfAddrmsg family) <| Ifa_Index := index |> <| Ifa_Scope := Ad_Scope addr |>
                   <| Ifa_Prefixlen := fst (maskSize mask) |> in
      let localAddrData := ipData family ip in
      let peerAddrData := match Ad_Peer addr with Some peer => ipData family (net.IPNet_IP peer) | None => localAddrData end in
      let msg := if decide (Ad_Flags addr <> 0 /\ Ad_Flags addr <= 0xff) then msg <| Ifa_Flags := Ad_Flags addr |> else msg in
      '(v4, addr) ←
        (if decide (family = FAMILY_V4) then
           b ← broadcast addr localAddrData mask;
           Ret ([NewRtAttr IFA_BROADCAST b] ++
                (if negb (bool_decide (Ad_Label addr = EmptyString)) then [NewRtAttr IFA_LABEL (ZeroTerminated (Ad_Label addr))] else []),
                addr <| Ad_Broadcast := b |>)
         else Ret ([], addr));
      Ret (fold_left AddData (DIfAddrmsg msg :: NewRtAttr IFA_LOCAL localAddrData :: NewRtAttr IFA_ADDRESS peerAddrData ::
             flagsAttrs addr ++ v4 ++ cacheAttrs addr) req, addr)
  end.

(** *** Answers *)

(** The loop of [parseAddr]: the address, and the one of [IFA_ADDRESS]. *)
Definition addrAttr (msg : IfAddrmsg) (attr : NetlinkRouteAttr) (st : Addr * (option net.IPNet * option net.IPNet)) :
    outcome (Addr * (option net.IPNet * option net.IPNet)) :=
  let '(addr, (local, dst)) := st in
  let t := A_Type attr in
  let value := A_Value attr in
  let ipnet := {| net.IPNet_IP := elems value; net.IPNet_Mask := CIDRMaskOf (Ifa_Prefixlen msg) (len value) |} in
  if decide (t = IFA_ADDRESS) then Ret (addr <| Ad_Peer := Some ipnet |>, (local, Some ipnet))
  else if decide (t = IFA_LOCAL) then Ret (addr <| Ad_IPNet := Some ipnet |>, (Some ipnet, dst))
  else if decide (t = IFA_BROADCAST) then Ret (addr <| Ad_Broadcast := elems value |>, (local, dst))
  else if decide (t = IFA_LABEL) then
    if decide (len value = 0%nat) then Panic SliceOutOfRange
    else s ← reslice value 0 (len value - 1); Ret (addr <| Ad_Label := text (elems s) |>, (local, dst))
  else if decide (t = IFA_FLAGS) then v ← uintAt value 4; Ret (addr <| Ad_Flags := v |>, (local, dst))
  else if decide (t = IFA_CACHEINFO) then
    ci ← DeserializeIfaCacheInfo value;
    Ret (addr <| Ad_PreferedLft := IfaPrefered ci |> <| Ad_ValidLft := IfaValid ci |>, (local, dst))
  else Ret st.

(** The address, its family and the index of its link. *)
Definition parseAddr (m : slice) : outcome (Addr * Z * Z) :=
  msg ← DeserializeIfAddrmsg m;
  b ← sliceFrom m SizeofIfAddrmsg;
  attrs ← ParseRouteAttr b;
  '(addr, (local, dst)) ← foldAttrs (addrAttr msg) attrs (zeroAddr, (None, None));
  let addr := addr <| Ad_IPNet := match local with Some _ => local | None => dst end |> <| Ad_Scope := Ifa_Scope msg |> in
  Ret (addr, Ifa_Family msg, Ifa_Index msg).

(** The loop of [AddrList]; the link is given by its index. *)
Fixpoint filterAddrs (link : option Z) (family : Z) (msgs : list slice) : outcome (list Addr) :=
  match msgs with
  | [] => Ret []
  | m :: msgs =>
      '(addr, msgFamily, ifindex) ← parseAddr m;
      res ← filterAddrs link family msgs;
      Ret (if match link with Some i => bool_decide (ifindex <> i) | None => false end ||
              bool_decide (family <> FAMILY_ALL /\ msgFamily <> family) then res else addr :: res)
  end.
End addr.

(** ** Calls *)

Section calls.
Context {W C : Type} `{NativeEndian} `{NetlinkSockets W}.
Context (turns : nat) (seq : Z).

(** [ensureIndex]: [LinkByName] gives the index of a link. *)
Definition ensureIndex (LinkByName : string -> GM W C Z) (name : string) (index : Z) : GM W C Z :=
  if decide (index = 0) then
    r ← try (LinkByName name);
    match r with inl i => mret i | inr _ => mret index end
  else mret index.

(** The address comes back with the broadcast address. *)
Definition addrHandle (LinkByName : string -> GM W C Z) (name : string) (index : Z) (addr : Addr) (req : NetlinkRequest) :
    GM W C Addr :=
  if negb (bool_decide (Ad_Label addr = EmptyString)) && negb (strings.HasPrefix (Ad_Label addr) name)
  then fail (ErrorString "label must begin with interface name")
  else
    index ← ensureIndex LinkByName name index;
    '(req, addr) ← pure (addrRequest index addr req);
    _ ← Execute turns req NETLINK_ROUTE 0;
    mret addr.

Definition AddrAdd (LinkByName : string -> GM W C Z) (name : string) (index : Z) (addr : Addr) : GM W C Addr :=
  addrHandle LinkByName name index addr
    (NewNetlinkRequest RTM_NEWADDR (Z.lor (Z.lor NLM_F_CREATE NLM_F_EXCL) NLM_F_ACK) seq).

Definition AddrReplace (LinkByName : string -> GM W C Z) (name : string) (index : Z) (addr : Addr) : GM W C Addr :=
  addrHandle LinkByName name index addr
    (NewNetlinkRequest RTM_NEWADDR (Z.lor (Z.lor NLM_F_CREATE NLM_F_REPLACE) NLM_F_ACK) seq).

Definition AddrDel (LinkByName : string -> GM W C Z) (name : string) (index : Z) (addr : Addr) : GM W C Addr :=
  addrHandle LinkByName name index addr (NewNetlinkRequest RTM_DELADDR NLM_F_ACK seq).

Definition AddrList (LinkByName : string -> GM W C Z) (link : option (string * Z)) (family : Z) : GM W C (list Addr) :=
  let req := AddData (NewNetlinkRequest RTM_GETADDR NLM_F_DUMP seq) (DIfInfomsg (NewIfInfomsg family)) in
  msgs ← Execute turns req NETLINK_ROUTE RTM_NEWADDR;
  link ← match link with
         | Some (name, index) => i ← ensureIndex LinkByName name index; mret (Some i)
         | None => mret None
         end;
  pure (filterAddrs link family msgs).
End calls.

(** ** There and back *)

Section trip.
Context `{NativeEndian}.























End trip.


