(* ===== verification/NetlinkExchange.v ===== *)
(** * Exchanges with the kernel

    What [Execute] returns for the answers of the kernel, whatever way they are
    spread over datagrams, and the calls on routes that are built on it. *)

From Stdlib Require Import ZArith Lia NArith Ascii Strings.Byte Strings.String.
From stdpp Require Import base numbers gmap strings list fin_maps.
From coqutil Require Import Datatypes.RecordSetters.
From S2P Require Import Prelude GoNet Endian OS Netlink NetlinkSpec NetlinkRoute NetlinkRouteSpec NetlinkRouteTrip NetlinkRouteRead.

Import RecordSetters.TriangleBracketNotations.
Open Scope Z_scope.

(** ** Messages of the kernel *)

Record answer := { a_type : Z; a_flags : Z; a_body : list byte }.

Definition answer_ok (a : answer) : Prop :=
  in_width 2 (a_type a) /\ in_width 2 (a_flags a) /\ Z.of_nat (length (a_body a)) < 2 ^ 31.

Section messages.
Context `{NativeEndian}.
Context (seq pid : Z) (Hseq : in_width 4 seq) (Hpid : in_width 4 pid).

Definition answerHeader (a : answer) : NlMsghdr :=
  {| Nl_Len := Z.of_nat (NLMSG_HDRLEN + length (a_body a)); Nl_Type := a_type a; Nl_Flags := a_flags a; Nl_Seq := seq; Nl_Pid := pid |}.

Definition answerBytes (a : answer) : list byte := NlMsghdr_bytes (answerHeader a) ++ pad (a_body a).

Definition datagram (answers : list answer) : list byte := concat (map answerBytes answers).

(** What is parsed of an answer. *)
Definition parsed (a : answer) (m : NetlinkMessage) : Prop :=
  M_Header m = answerHeader a /\ elems (M_Data m) = a_body a.

Lemma NlMsghdr_of_bytes a rest : answer_ok a -> NlMsghdr_of (NlMsghdr_bytes (answerHeader a) ++ rest) = answerHeader a.
Proof.
  intros (Ht & Hf & Hl). unfold NlMsghdr_of, NlMsghdr_bytes. rewrite <- !app_assoc.
  assert (in_width 4 (Nl_Len (answerHeader a))).
  { unfold in_width. cbn [answerHeader Nl_Len]. unfold NLMSG_HDRLEN. change (256 ^ Z.of_nat 4) with (2 ^ 32). lia. }
  cbn [answerHeader Nl_Type Nl_Flags Nl_Seq Nl_Pid] in *. read_fields. done.
Qed.

Lemma length_answerBytes a : length (answerBytes a) = rtaAlignOf (NLMSG_HDRLEN + length (a_body a)).
Proof.
  unfold answerBytes. rewrite length_app, length_NlMsghdr, length_pad. unfold NLMSG_HDRLEN.
  rewrite (Nat.add_comm 16 (length (a_body a))), rtaAlignOf_plus by (by exists 4%nat). lia.
Qed.

Lemma parseMessages_step a rest sp turns msgs :
  answer_ok a -> exists m, parsed a m /\
    parseMessages (S turns) (Slice (answerBytes a ++ rest) sp) msgs = parseMessages turns (Slice rest sp) (msgs ++ [m]).
Proof.
  intros Ha. pose proof (length_answerBytes a) as Hlen. pose proof (rtaAlignOf_bounds (NLMSG_HDRLEN + length (a_body a))) as Hb.
  set (hd := NlMsghdr_bytes (answerHeader a)). assert (length hd = NLMSG_HDRLEN) as Hh by apply length_NlMsghdr.
  set (p := zeroBytes (rtaAlignOf (length (a_body a)) - length (a_body a))).
  exists {| M_Header := answerHeader a; M_Data := Slice (a_body a) ((p ++ rest) ++ sp) |}. split; [done|].
  cbn [parseMessages]. unfold memory, len. cbn [elems spare]. rewrite decide_True by (rewrite length_app; lia).
  assert (NlMsghdr_of ((answerBytes a ++ rest) ++ sp) = answerHeader a) as ->.
  { unfold answerBytes. rewrite <- !app_assoc. by apply NlMsghdr_of_bytes. }
  cbn [answerHeader Nl_Len].
  rewrite Nat2Z.id, <- Hlen. rewrite decide_False by (rewrite length_app; lia).
  assert (sliceFrom (Slice (answerBytes a ++ rest) sp) NLMSG_HDRLEN = Ret (Slice (a_body a ++ p ++ rest) sp)) as ->.
  { unfold answerBytes, pad. fold hd p. rewrite <- Hh, <- !app_assoc. apply sliceFrom_app. }
  rewrite bind_ret. replace (NLMSG_HDRLEN + length (a_body a) - NLMSG_HDRLEN)%nat with (length (a_body a)) by lia.
  rewrite reslice_prefix, bind_ret, sliceFrom_app, bind_ret. done.
Qed.

Lemma parseMessages_datagram answers turns sp msgs :
  Forall answer_ok answers -> (length (datagram answers) <= turns)%nat ->
  exists ms, parseMessages turns (Slice (datagram answers) sp) msgs = Ret (msgs ++ ms) /\ Forall2 parsed answers ms.
Proof.
  intros Ha. revert turns msgs. induction Ha as [|a answers Ha _ IH]; intros turns msgs Ht.
  - exists []. split; [|done]. rewrite app_nil_r. by destruct turns.
  - unfold datagram in *. cbn [map concat] in *. rewrite length_app in Ht. pose proof (length_answerBytes a).
    pose proof (rtaAlignOf_bounds (NLMSG_HDRLEN + length (a_body a))). unfold NLMSG_HDRLEN in *. destruct turns as [|turns]; [lia|].
    destruct (parseMessages_step a (concat (map answerBytes answers)) sp turns msgs Ha) as (m & Hm & ->).
    destruct (IH turns (msgs ++ [m]) ltac:(lia)) as (ms & -> & Hms). exists (m :: ms).
    split; [by rewrite <- app_assoc|by constructor].
Qed.
End messages.

(** ** The loop over messages *)

(** How the kernel ends its answer: [NLMSG_DONE], an acknowledgement, an error, or
    a message that is not part of a list. *)
Inductive final := FDone (body : list byte) | FAck (body : list byte) | FErrno (n : Z) (body : list byte) | FSingle (a : answer).

Section handle.
Context `{NativeEndian}.
Context (errno : Z -> string) (shared : bool) (seq pid resType : Z).
Context (Hseq : in_width 4 seq) (Hpid : in_width 4 pid).

Definition wanted (a : answer) : Prop := resType = 0 \/ a_type a = resType.

#[local] Instance wanted_dec a : Decision (wanted a).
Proof. unfold wanted. apply _. Defined.

Definition finalAnswer (f : final) : answer :=
  match f with
  | FDone body => {| a_type := NLMSG_DONE; a_flags := NLM_F_MULTI; a_body := body |}
  | FAck body => {| a_type := NLMSG_ERROR; a_flags := 0; a_body := toBytes 4 0 ++ body |}
  | FErrno n body => {| a_type := NLMSG_ERROR; a_flags := 0; a_body := toBytes 4 (- n) ++ body |}
  | FSingle a => a
  end.

(** A message in the list, and the one that ends it. *)
Definition multi_ok (a : answer) : Prop :=
  a_type a <> NLMSG_DONE /\ a_type a <> NLMSG_ERROR /\ (wanted a -> Z.land (a_flags a) NLM_F_MULTI <> 0).

Definition final_ok (f : final) : Prop :=
  match f with
  | FErrno n _ => 0 < n < 2 ^ 31
  | FSingle a => a_type a <> NLMSG_DONE /\ a_type a <> NLMSG_ERROR /\ wanted a /\ Z.land (a_flags a) NLM_F_MULTI = 0
  | _ => True
  end.

(** What the caller gets. *)
Definition bodies (answers : list answer) : list (list byte) := a_body <$> filter wanted answers.

Definition result (multi : list answer) (f : final) : outcome (list (list byte)) :=
  match f with
  | FDone _ | FAck _ => Ret (bodies multi)
  | FErrno n _ => Err (SysError (errno n))
  | FSingle a => Ret (bodies multi ++ [a_body a])
  end.

Lemma handle_multi multi ms rest res :
  Forall multi_ok multi -> Forall2 (parsed seq pid) multi ms ->
  exists new, map elems new = bodies multi /\
    handleMessages errno shared seq pid resType (ms ++ rest) res =
    handleMessages errno shared seq pid resType rest (res ++ new).
Proof.
  intros Hok Hp. revert res Hok. induction Hp as [|a m multi ms [Hh Hd] _ IH]; intros res Hok.
  { exists []. split; [done|]. by rewrite app_nil_r. }
  apply Forall_cons in Hok as [(H1 & H2 & H3) Hok]. cbn [app handleMessages]. rewrite Hh. cbn [answerHeader Nl_Seq Nl_Pid Nl_Type Nl_Flags].
  rewrite (decide_False (P := seq <> seq)), (decide_False (P := pid <> pid)) by (by intros E; apply E).
  rewrite (decide_False (P := a_type a = NLMSG_DONE)), (decide_False (P := a_type a = NLMSG_ERROR)) by done.
  unfold bodies. destruct (decide (wanted a)) as [Hw|Hw].
  - rewrite (filter_cons_True _ _ _ Hw), fmap_cons. rewrite decide_False by (unfold wanted in Hw; lia).
    rewrite decide_False by auto. destruct (IH (res ++ [M_Data m]) Hok) as (new & Hn & E).
    exists (M_Data m :: new). rewrite E, <- app_assoc. split; [|done]. cbn [map]. by rewrite Hd, Hn.
  - rewrite (filter_cons_False _ _ _ Hw). rewrite decide_True by (unfold wanted in Hw; lia). by apply IH.
Qed.

Lemma handle_final f m rest res :
  final_ok f -> parsed seq pid (finalAnswer f) m ->
  exists o, handleMessages errno shared seq pid resType (m :: rest) res = o /\
    (fun r => (map elems (fst r), snd r)) <$> o =
      match f with
      | FDone _ | FAck _ => Ret (map elems res, true)
      | FErrno n _ => Err (SysError (errno n))
      | FSingle a => Ret (map elems res ++ [a_body a], true)
      end.
Proof.
  intros Hf [Hh Hd]. eexists. split; [done|]. cbn [handleMessages]. rewrite Hh. cbn [answerHeader Nl_Seq Nl_Pid Nl_Type Nl_Flags].
  rewrite (decide_False (P := seq <> seq)), (decide_False (P := pid <> pid)) by (by intros E; apply E).
  destruct m as [h [w sp]]. cbn [M_Data elems] in *. subst w.
  assert (forall v body, uintAt (Slice (toBytes 4 v ++ body) sp) 4 = Ret (v mod 2 ^ 32)) as Hu.
  { intros v body. unfold uintAt. pose proof (reslice_prefix (toBytes 4 v) body sp) as E. rewrite length_toBytes in E.
    by rewrite E, bind_ret; cbn [elems]; rewrite ofBytes_toBytes. }
  destruct f as [body|body|n body|a]; cbn [finalAnswer a_type a_body final_ok] in *.
  - by rewrite decide_True.
  - decide_consts. by rewrite Hu, bind_ret.
  - decide_consts. rewrite Hu, bind_ret.
    assert (sint 32 (- n mod 2 ^ 32) = - n) as ->.
    { unfold sint. rewrite Zplus_mod_idemp_l, Z.mod_small by lia. lia. }
    rewrite decide_False by lia. cbn. by rewrite Z.opp_involutive.
  - destruct Hf as (H1 & H2 & Hw & H0). rewrite !decide_False by done. rewrite decide_False by (unfold wanted in Hw; lia).
    rewrite decide_True by done. cbn. by rewrite map_app.
Qed.
End handle.

(** ** The exchange *)

Section exchange.
Context {W C : Type} `{NativeEndian} `{NetlinkSockets W}.

Lemma exec_bind {A B} (m : GM W C A) (f : A -> GM W C B) s a s' : m s = Some (Ret a, s') -> (m ≫= f) s = f a s'.
Proof. intros E. unfold mbind, GM_bind. by rewrite E. Qed.

Lemma run_syscall {A} (op : W -> outcome A * W) c w tr o w' :
  op w = (o, w') -> (syscall op : GM W C A) (Sys c w tr) = Some (o, Sys c w' (tr ++ [EvOther])).
Proof. intros E. unfold syscall, call. cbn [world ctl trace]. by rewrite E. Qed.

(** The datagrams the socket delivers. *)
Inductive receives (fd : Z) : W -> list (list byte) -> W -> Prop :=
| receives_nil w : receives fd w [] w
| receives_cons w d w1 ds w2 : sk_Recvfrom fd w = (Ret d, w1) -> receives fd w1 ds w2 -> receives fd w (d :: ds) w2.

(** A datagram the loop can read. *)
Definition datagram_ok (answers : list answer) : Prop :=
  answers <> [] /\ Forall answer_ok answers /\ forall seq pid, (length (datagram seq pid answers) <= sk_pagesize)%nat.

Context (seq pid resType fd : Z) (Hseq : in_width 4 seq) (Hpid : in_width 4 pid) (Hfd : 0 <= fd).

Lemma run_Receive (c : C) w tr answers w1 :
  datagram_ok answers -> sk_Recvfrom fd w = (Ret (datagram seq pid answers), w1) ->
  exists ms, (Receive fd : GM W C _) (Sys c w tr) = Some (Ret ms, Sys c w1 (tr ++ [EvOther])) /\
    Forall2 (parsed seq pid) answers ms.
Proof.
  intros (Hne & Ha & Hl) Hr. specialize (Hl seq pid).
  destruct (parseMessages_datagram seq pid Hseq Hpid answers (length (datagram seq pid answers))
    (zeroBytes (sk_pagesize - length (datagram seq pid answers))) [] Ha ltac:(lia)) as (ms & Hp & Hms).
  exists ms. split; [|done]. unfold Receive. rewrite decide_False by lia.
  erewrite exec_bind by (by apply run_syscall). rewrite take_ge by done.
  assert (NLMSG_HDRLEN <= length (datagram seq pid answers))%nat as H16.
  { destruct answers as [|a answers]; [done|]. unfold datagram. cbn [map concat]. rewrite length_app, length_answerBytes.
    pose proof (rtaAlignOf_bounds (NLMSG_HDRLEN + length (a_body a))). lia. }
  rewrite decide_False by lia. unfold pure, ParseNetlinkMessage, len. cbn [elems]. by rewrite Hp.
Qed.

(** The result behind what is there already. *)
Definition behind (res : list slice) (o : outcome (list (list byte))) : outcome (list (list byte)) :=
  (fun l => map elems res ++ l) <$> o.

Lemma run_last turns (c : C) w tr lst f w1 res :
  datagram_ok (lst ++ [finalAnswer f]) -> Forall (multi_ok resType) lst -> final_ok resType f ->
  sk_Recvfrom fd w = (Ret (datagram seq pid (lst ++ [finalAnswer f])), w1) ->
  exists o, receiveLoop (S turns) false fd seq pid resType res (Sys c w tr) = Some (o, Sys c w1 (tr ++ [EvOther])) /\
    map elems <$> o = behind res (result sk_errno resType lst f).
Proof.
  intros Hd Hm Hf Hr. destruct (run_Receive c w tr _ w1 Hd Hr) as (ms & Erun & Hms).
  apply Forall2_app_inv_l in Hms as (ms1 & ms2 & H1 & H2 & ->). apply Forall2_cons_inv_l in H2 as (m & ms3 & Hfm & H3 & ->).
  apply Forall2_nil_inv_l in H3 as ->. cbn [receiveLoop]. rewrite (exec_bind _ _ _ _ _ Erun).
  destruct (handle_multi sk_errno false seq pid resType lst ms1 [m] res Hm H1) as (new & Hnew & Eh).
  destruct (handle_final sk_errno false seq pid resType f m [] (res ++ new) Hf Hfm) as (o & Eo & Ho).
  unfold mbind, GM_bind, pure. rewrite Eh, Eo. unfold behind, result.
  destruct f as [body|body|n body|a], o as [[r b]|e|p]; cbn in Ho; try discriminate Ho.
  - injection Ho as Hr' ->. eexists. split; [done|]. cbn. by rewrite Hr', map_app, Hnew.
  - injection Ho as Hr' ->. eexists. split; [done|]. cbn. by rewrite Hr', map_app, Hnew.
  - injection Ho as ->. by eexists.
  - injection Ho as Hr' ->. eexists. split; [done|]. cbn. by rewrite Hr', map_app, Hnew, <- app_assoc.
Qed.

Lemma behind_app res new o : behind (res ++ new) o = behind res ((fun l => map elems new ++ l) <$> o).
Proof. destruct o; cbn; [|done..]. by rewrite map_app, <- app_assoc. Qed.

Lemma bodies_app l1 l2 : bodies resType (l1 ++ l2) = bodies resType l1 ++ bodies resType l2.
Proof. unfold bodies. by rewrite filter_app, fmap_app. Qed.

Lemma result_app l1 l2 f :
  result sk_errno resType (l1 ++ l2) f = (fun l => bodies resType l1 ++ l) <$> result sk_errno resType l2 f.
Proof. destruct f; cbn; rewrite ?bodies_app, <- ?app_assoc; done. Qed.

Lemma run_receiveLoop turns (c : C) w tr ds lst f w1 res :
  (length ds < turns)%nat -> Forall datagram_ok ds -> Forall (Forall (multi_ok resType)) ds ->
  datagram_ok (lst ++ [finalAnswer f]) -> Forall (multi_ok resType) lst -> final_ok resType f ->
  receives fd w (map (datagram seq pid) ds ++ [datagram seq pid (lst ++ [finalAnswer f])]) w1 ->
  exists o tr', receiveLoop turns false fd seq pid resType res (Sys c w tr) = Some (o, Sys c w1 tr') /\
    map elems <$> o = behind res (result sk_errno resType (concat ds ++ lst) f).
Proof.
  intros Ht Hds Hms Hd Hm Hf. revert turns w tr res Ht. induction ds as [|d ds IH]; intros turns w tr res Ht Hr; cbn [length] in Ht.
  - inversion Hr as [|? ? wx ? ? Hrecv Hrest]; subst. inversion Hrest; subst. destruct turns as [|turns]; [lia|].
    destruct (run_last turns c w tr lst f w1 res Hd Hm Hf Hrecv) as (o & E & Ho). by exists o, (tr ++ [EvOther]).
  - inversion Hr as [|? ? wx ? ? Hrecv Hrest]; subst. destruct turns as [|turns]; [lia|].
    apply Forall_cons in Hds as [Hd1 Hds]. apply Forall_cons in Hms as [Hm1 Hms].
    destruct (run_Receive c w tr d wx Hd1 Hrecv) as (ms & Erun & Hp). cbn [receiveLoop]. rewrite (exec_bind _ _ _ _ _ Erun).
    destruct (handle_multi sk_errno false seq pid resType d ms [] res Hm1 Hp) as (new & Hnew & Eh).
    rewrite app_nil_r in Eh. cbn [handleMessages] in Eh. unfold mbind at 1, GM_bind, pure. rewrite Eh.
    destruct (IH Hds Hms turns wx (tr ++ [EvOther]) (res ++ new) ltac:(lia) Hrest) as (o & tr' & E & Ho).
    exists o, tr'. split; [exact E|]. cbn [concat]. by rewrite Ho, behind_app, <- app_assoc, (result_app d), Hnew.
Qed.
End exchange.

Section execute.
Context {W C : Type} `{NativeEndian} `{NetlinkSockets W}.

(** The kernel's part of an exchange: the socket opens, takes the request, and
    delivers [ds], and then [lst] and the end of the answer. *)
Record exchange (req : NetlinkRequest) (sockType resType : Z) (w w' : W) (ds : list (list answer)) (lst : list answer) (f : final) : Prop := {
  ex_run : exists fd pid w1 w2 w3 w4 w5 b closed,
    0 <= fd /\ in_width 4 pid /\ in_width 4 (Nl_Seq (Req_Header req)) /\
    sk_Socket sockType w = (Ret fd, w1) /\ sk_Bind fd w1 = (Ret tt, w2) /\
    NetlinkRequest_Serialize req = Ret b /\ sk_Sendto fd b w2 = (Ret tt, w3) /\
    sk_Getsockname fd w3 = (Ret (Some pid), w4) /\
    receives fd w4 (map (datagram (Nl_Seq (Req_Header req)) pid) ds ++
                    [datagram (Nl_Seq (Req_Header req)) pid (lst ++ [finalAnswer f])]) w5 /\
    sk_Close fd w5 = (closed, w');
  ex_datagrams : Forall datagram_ok ds /\ datagram_ok (lst ++ [finalAnswer f]);
  ex_multi : Forall (Forall (multi_ok resType)) ds /\ Forall (multi_ok resType) lst;
  ex_final : final_ok resType f
}.

(** [Execute] returns what the kernel answers, and closes the socket. *)
Lemma Execute_exchange turns req sockType resType (c : C) w w' tr ds lst f :
  exchange req sockType resType w w' ds lst f -> (length ds < turns)%nat ->
  exists o tr', Execute turns req sockType resType (Sys c w tr) = Some (o, Sys c w' tr') /\
    map elems <$> o = result sk_errno resType (concat ds ++ lst) f.
Proof.
  intros [(fd & pid & w1 & w2 & w3 & w4 & w5 & b & closed & Hfd & Hpid & Hseq & Hsock & Hbind & Hser & Hsend & Hname & Hrecv & Hclose)
          [Hds Hd] [Hms Hm] Hf] Ht.
  assert (getNetlinkSocket sockType (Sys c w tr) = Some (Ret fd, Sys c w2 ((tr ++ [EvOther]) ++ [EvOther]))) as Eg.
  { unfold getNetlinkSocket. erewrite exec_bind by (by apply run_syscall).
    rewrite (exec_bind _ _ _ (inl tt) (Sys c w2 ((tr ++ [EvOther]) ++ [EvOther]))); [done|]. unfold try. by rewrite (run_syscall _ _ _ _ _ _ Hbind). }
  set (tr4 := ((((tr ++ [EvOther]) ++ [EvOther]) ++ [EvOther]) ++ [EvOther])).
  destruct (run_receiveLoop _ pid resType fd Hseq Hpid Hfd turns c w4 tr4 ds lst f w5 [] Ht Hds Hms Hd Hm Hf Hrecv) as (o & tr5 & El & Ho).
  exists o. eexists. unfold Execute. rewrite (exec_bind _ _ _ _ _ Eg). unfold deferred.
  rewrite (exec_bind (Send fd req) _ _ tt (Sys c w3 (((tr ++ [EvOther]) ++ [EvOther]) ++ [EvOther]))).
  2: { unfold Send. rewrite decide_False by lia. rewrite (exec_bind _ _ _ b (Sys c w2 ((tr ++ [EvOther]) ++ [EvOther]))).
       - by apply run_syscall.
       - unfold pure. by rewrite Hser. }
  rewrite (exec_bind (GetPid fd) _ _ pid (Sys c w4 tr4)).
  2: { unfold GetPid. by rewrite (exec_bind _ _ _ _ _ (run_syscall _ _ _ _ _ _ Hname)). }
  rewrite El, (run_syscall _ _ _ _ _ _ Hclose). split; [done|]. rewrite Ho. unfold behind. cbn. by destruct (result _ _ _ _).
Qed.
End execute.

(** ** Routes of the kernel *)

Section routes.
Context {W C : Type} `{NativeEndian} `{NetlinkSockets W}.

Lemma deserializeRoutes_describes rs ms :
  Forall2 describes rs (map elems ms) -> deserializeRoutes ms = Ret rs.
Proof.
  revert rs. induction ms as [|[w sp] ms IH]; intros rs Hd; cbn [map elems] in Hd.
  - by apply Forall2_nil_inv_r in Hd as ->.
  - apply Forall2_cons_inv_r in Hd as (r & rs' & Hr & Hd & ->). cbn [deserializeRoutes].
    by rewrite (deserializeRoute_describes r), bind_ret, (IH rs'), bind_ret.
Qed.

(** A route agrees with a filter on the fields the mask selects. *)
Definition agrees (f : Route) (mask : Z) (r : Route) : Prop :=
  let selects k := Z.testbit mask k = true in
  (selects 1 -> R_Protocol r = R_Protocol f) /\ (selects 2 -> R_Scope r = R_Scope f) /\
  (selects 3 -> R_Type r = R_Type f) /\ (selects 4 -> R_Tos r = R_Tos f) /\
  (selects 5 -> R_ILinkIndex r = R_ILinkIndex f) /\ (selects 6 -> R_LinkIndex r = R_LinkIndex f) /\
  (selects 7 -> R_MPLSDst f <> None /\ R_MPLSDst r = R_MPLSDst f \/ ipNetEqual (R_Dst r) (R_Dst f) = true) /\
  (selects 8 -> net.Equal (R_Src r) (R_Src f) = true) /\ (selects 9 -> net.Equal (R_Gw r) (R_Gw f) = true) /\
  (selects 10 -> R_Table f = 0 \/ R_Table r = R_Table f).

#[local] Instance agrees_dec f mask r : Decision (agrees f mask r).
Proof. unfold agrees. apply _. Defined.









(** The messages the caller gets, and the error in their place. *)
Definition received_bodies (resType : Z) (ds : list (list answer)) (lst : list answer) (f : final) : list (list byte) :=
  bodies resType (concat ds ++ lst) ++ match f with FSingle a => [a_body a] | _ => [] end.

Definition or_errno {A} (f : final) (o : outcome A) : outcome A :=
  match f with FErrno n _ => Err (SysError (sk_errno n)) | _ => o end.

Lemma Execute_then {A} turns req sockType resType (c : C) w w' tr ds lst f (g : list slice -> outcome A) o :
  exchange req sockType resType w w' ds lst f -> (length ds < turns)%nat ->
  (forall l, map elems l = received_bodies resType ds lst f -> g l = o) ->
  exists tr', (msgs ← Execute turns req sockType resType; pure (g msgs)) (Sys c w tr) = Some (or_errno f o, Sys c w' tr').
Proof.
  intros Hex Ht Hg. destruct (Execute_exchange turns req sockType resType c w w' tr ds lst f Hex Ht) as (x & tr' & E & Hx).
  exists tr'. unfold received_bodies in Hg. destruct f; destruct x as [l|e|p]; cbn in Hx; try discriminate Hx; injection Hx as Hx.
  1,2,4: rewrite (exec_bind _ _ _ _ _ E); unfold pure; rewrite Hg; rewrite ?app_nil_r; done.
  unfold mbind, GM_bind. rewrite E. cbn. by subst.
Qed.

(** C29: [RouteGet] is answered by the kernel: when the kernel takes the request and
    answers with messages that describe the routes [rs], each by a header and by
    attributes in any order, unknown ones among them, in any number of datagrams,
    other messages among them, ended by [NLMSG_DONE], an acknowledgement or a single
    message, then [RouteGet] returns exactly these routes in order; when the answer
    ends with an error number it returns that error.  It reads no datagram beyond
    the answer and closes the socket it opened. *)
Theorem RouteGet_returns turns seq destination (c : C) w w' tr ds lst f rs :
  exchange (getRequest seq destination) NETLINK_ROUTE RTM_NEWROUTE w w' ds lst f -> (length ds < turns)%nat ->
  Forall2 describes rs (received_bodies RTM_NEWROUTE ds lst f) ->
  exists tr', RouteGet turns seq destination (Sys c w tr) = Some (or_errno f (Ret rs), Sys c w' tr').
Proof.
  intros Hex Ht Hd. eapply Execute_then; [done..|]. intros l Hl. apply deserializeRoutes_describes. by rewrite Hl.
Qed.


(** [RouteAdd] succeeds exactly when the kernel says so: for a route that can be
    represented the request is built, and once the kernel has taken it [RouteAdd]
    returns no error if the kernel acknowledges and the kernel's error if it answers
    with an error number, after closing the socket. *)
Theorem RouteAdd_reports turns seq family r (c : C) :
  route_ok family r -> (0 < turns)%nat ->
  exists req,
    routeRequest r (NewNetlinkRequest RTM_NEWROUTE (Z.lor (Z.lor NLM_F_CREATE NLM_F_EXCL) NLM_F_ACK) seq) NewRtMsg = Ret req /\
    forall w w' tr lst f, exchange req NETLINK_ROUTE 0 w w' [] lst f ->
      exists tr', RouteAdd turns seq r (Sys c w tr) = Some (or_errno f (Ret tt), Sys c w' tr').
Proof.
  intros Hr Ht. edestruct (routeRequest_sent family r) as (e & Hreq & _); [done|]. eexists. split; [exact Hreq|].
  intros w w' tr lst f Hex. unfold RouteAdd, routeHandle. rewrite Hreq.
  apply (Execute_then turns _ NETLINK_ROUTE 0 c w w' tr [] lst f (fun _ => Ret tt) (Ret tt)); [done|cbn [length]; lia|done].
Qed.
End routes.

(** ** A kernel with its answers ready *)

Module Ready.
#[export] Instance order : NativeEndian := LittleEndian.

(** The socket delivers the datagrams that are waiting. *)
#[export] Instance sockets : NetlinkSockets (list (list byte)) := {|
  sk_Socket _ w := (Ret 3, w);
  sk_Bind _ w := (Ret tt, w);
  sk_Sendto _ _ w := (Ret tt, w);
  sk_Getsockname _ w := (Ret (Some 77), w);
  sk_Recvfrom _ w := match w with d :: w => (Ret d, w) | [] => (Err (SysError "no buffer space available"), []) end;
  sk_Close _ w := (Ret tt, w);
  sk_errno n := strconv.Itoa n;
  sk_pagesize := 4096
|}.

Definition viaGateway (index gw : Z) : Route :=
  zeroRoute <| R_LinkIndex := index |> <| R_Gw := map byte_of_Z [192; 168; 1; gw] |> <| R_Table := 254 |> <| R_Protocol := 3 |>
            <| R_Type := 1 |>.

Lemma viaGateway_ok index gw : in_width 4 index -> route_ok FAMILY_V4 (viaGateway index gw).
Proof.
  intros Hi. constructor; try done.
  - by left.
  - by right.
  - by left.
  - by right; left.
Qed.

(** What the kernel says of it, with the link the packets come from: its own order,
    and an attribute that is not looked at. *)
Definition fromLink (iif index gw : Z) : Route := (viaGateway index gw) <| R_ILinkIndex := iif |>.

Definition RTA_CACHEINFO : Z := 12.

Definition kernelMsg : RtMsg :=
  zeroRtMsg <| Rtm_Family := FAMILY_V4 |> <| Rtm_Table := 254 |> <| Rtm_Protocol := 3 |> <| Rtm_Type := 1 |>.

Definition kernelAttrs (iif index gw : Z) : list attribute :=
  [(RTA_TABLE, toBytes 4 254); (RTA_OIF, toBytes 4 index); (RTA_GATEWAY, map byte_of_Z [192; 168; 1; gw]);
   (RTA_CACHEINFO, replicate 32 Byte.x00); (RTA_IIF, toBytes 4 iif)].

Definition body (iif index gw : Z) : list byte := RtMsg_Serialize kernelMsg ++ attrsBytes (kernelAttrs iif index gw).

Lemma describes_body iif index gw : in_width 4 iif -> in_width 4 index -> describes (fromLink iif index gw) (body iif index gw).
Proof.
  intros Hf Hi. exists kernelMsg, (kernelAttrs iif index gw). split_and!; [done| | |done].
  - split; [|by repeat constructor]. by apply (bool_decide_unpack _).
  - by constructor.
Qed.

Definition routeAnswer (flags iif index gw : Z) : answer := {| a_type := RTM_NEWROUTE; a_flags := flags; a_body := body iif index gw |}.

Lemma answers_exchange req resType ds lst f :
  in_width 4 (Nl_Seq (Req_Header req)) -> Req_RawData req = [] ->
  Forall datagram_ok ds -> datagram_ok (lst ++ [finalAnswer f]) ->
  Forall (Forall (multi_ok resType)) ds -> Forall (multi_ok resType) lst -> final_ok resType f ->
  exchange req NETLINK_ROUTE resType
    (map (datagram (Nl_Seq (Req_Header req)) 77) ds ++ [datagram (Nl_Seq (Req_Header req)) 77 (lst ++ [finalAnswer f])]) [] ds lst f.
Proof.
  intros Hs Hraw Hds Hd Hm Hl Hf. destruct (NetlinkRequest_Serialize_wire req Hraw) as (h & _ & Hb).
  constructor; [|done..]. exists 3, 77. do 5 eexists. eexists _, _. split_and!; [lia|done|done|done|done|exact Hb|done|done| |done].
  generalize (datagram (Nl_Seq (Req_Header req)) 77 (lst ++ [finalAnswer f])) as d. intros d.
  induction (map _ ds) as [|x l IH]; by eapply receives_cons; [done|constructor || exact IH].
Qed.

Lemma datagram_ok_small answers :
  answers <> [] -> Forall answer_ok answers ->
  (sum_list_with (fun a => rtaAlignOf (NLMSG_HDRLEN + length (a_body a))) answers <= 4096)%nat -> datagram_ok answers.
Proof.
  intros Hne Ha Hl. split_and!; [done..|]. intros seq pid. etrans; [|exact Hl]. clear. induction answers as [|a answers IH]; [done|].
  unfold datagram in *. cbn [map concat sum_list_with]. rewrite length_app, length_answerBytes. lia.
Qed.

Definition asked : list byte := map byte_of_Z [8; 8; 8; 8].

(** One message, as for [ip route get]. *)
Lemma RouteGet_returns_witness :
  exists tr', RouteGet 1 9 asked (Sys tt [datagram 9 77 [routeAnswer 0 2 3 1]] []) = Some (Ret [fromLink 2 3 1], Sys tt [] tr').
Proof.
  apply (RouteGet_returns 1 9 asked tt _ [] [] [] [] (FSingle (routeAnswer 0 2 3 1)) [fromLink 2 3 1]).
  - apply (answers_exchange (getRequest 9 asked) RTM_NEWROUTE [] [] (FSingle (routeAnswer 0 2 3 1))); [done|done|done| |done|done|].
    + apply datagram_ok_small; [done|by repeat constructor|]. vm_compute. lia.
    + split_and!; [done..|by right|done].
  - cbn [length]. lia.
  - constructor; [|done]. by apply describes_body.
Defined.


(** The kernel has the route already: EEXIST. *)
Lemma RouteAdd_reports_witness :
  exists tr', RouteAdd 1 6 (viaGateway 3 1) (Sys tt [datagram 6 77 [finalAnswer (FErrno 17 [])]] []) =
    Some (Err (SysError "17"), Sys tt [] tr').
Proof.
  destruct (RouteAdd_reports 1 6 FAMILY_V4 (viaGateway 3 1) tt) as (req & Hreq & Hrun).
  - by apply viaGateway_ok.
  - lia.
  - apply (Hrun _ [] [] [] (FErrno 17 [])).
    clear Hrun. assert (Nl_Seq (Req_Header req) = 6 /\ Req_RawData req = []) as [Hs Hraw].
    { vm_compute in Hreq. by injection Hreq as <-. }
    rewrite <- Hs. apply (answers_exchange req 0 [] [] (FErrno 17 [])); rewrite ?Hs; try done.
    apply datagram_ok_small; [done|by repeat constructor|]. vm_compute. lia.
Defined.
End Ready.
