(* ===== verification/NetlinkDefects.v ===== *)
(** * Where the netlink code goes wrong

    Requests that lose what they should carry, and messages and addresses that make
    it panic. *)

From Stdlib Require Import ZArith Lia NArith Ascii Strings.Byte Strings.String.
From stdpp Require Import base numbers gmap strings list fin_maps.
From coqutil Require Import Datatypes.RecordSetters.
From S2P Require Import Prelude GoNet Endian OS Netlink NetlinkSpec NetlinkRoute NetlinkRouteSpec NetlinkRouteTrip NetlinkAddr.

Import RecordSetters.TriangleBracketNotations.
Open Scope Z_scope.

Section defects.
Context `{NativeEndian}.

(** A route with one next hop that pushes a label. *)
Definition labelledHop : NexthopInfo :=
  {| NH_LinkIndex := 3; NH_Hops := 0; NH_Gw := map byte_of_Z [10; 0; 0; 1]; NH_Flags := 0; NH_NewDst := None;
     NH_Encap := Some (MPLSEncap [100]) |}.
Definition labelledRoute : Route :=
  zeroRoute <| R_Dst := Some {| net.IPNet_IP := map byte_of_Z [10; 1; 0; 0]; net.IPNet_Mask := CIDRMaskOf 16 4 |} |>
            <| R_MultiPath := [labelledHop] |> <| R_Table := 254 |> <| R_Protocol := 3 |> <| R_Type := 1 |>.

(** The route that is read from the request for [r]. *)
Definition sentBack (r : Route) : outcome Route :=
  req ← routeRequest r (NewNetlinkRequest RTM_NEWROUTE NLM_F_ACK 1) NewRtMsg;
  w ← NetlinkRequest_Serialize req;
  deserializeRoute (Slice (drop NLMSG_HDRLEN w) []).

Lemma newDst_panics m w sp :
  msg_ok m -> Rtm_Family m <> FAMILY_MPLS -> Z.of_nat (length w) < 2 ^ 16 - 4 ->
  deserializeRoute (Slice (RtMsg_Serialize m ++ wire (NewRtAttr RTA_NEWDST w)) sp) = Panic NilDereference.
Proof.
  intros Hm Hf Hw. unfold deserializeRoute. rewrite DeserializeRtMsg_Serialize, bind_ret by done.
  rewrite <- (length_RtMsg m), sliceFrom_app, bind_ret.
  destruct (ParseRouteAttr_wire [NewRtAttr RTA_NEWDST w] sp) as (as_ & Hp & Has).
  { constructor; [|done]. split; [done|]. cbn [NewRtAttr Len]. unfold SizeofRtAttr. lia. }
  cbn [map concat] in Hp. rewrite app_nil_r in Hp. rewrite Hp, bind_ret.
  apply Forall2_cons_inv_l in Has as (a & as2 & [Ht _] & Has & ->). cbn [foldAttrs].
  assert (forall st, routeAttr m a st = Panic NilDereference) as E; [|by rewrite E].
  intros [r v]. unfold routeAttr. rewrite Ht. cbn [attr_type NewRtAttr]. decide_consts. unfold decodeNewDst.
  by rewrite decide_False.
Qed.

(** An encapsulation shorter than its own header. *)
Lemma short_encap_panics l w sp :
  0 <= l < 4 -> (4 <= length (toBytes 2 l ++ w))%nat ->
  exists p, MPLSEncap_Decode (Slice (toBytes 2 l ++ w) sp) = Panic p.
Proof.
  intros Hl Hw. unfold MPLSEncap_Decode, encapBody, len. cbn [elems]. rewrite decide_False by lia.
  rewrite uintOf_toBytes, bind_ret, Z.mod_small by (change (256 ^ Z.of_nat 2) with 65536; lia). rewrite decide_False by lia.
  unfold reslice at 1, memory. cbn [elems spare]. rewrite decide_True by (rewrite !length_app in *; lia). rewrite bind_ret.
  rewrite Nat.sub_0_r, drop_0.
  set (m := Slice (take (Z.to_nat l) ((toBytes 2 l ++ w) ++ sp)) _).
  assert (len m = Z.to_nat l) as Hlen by (unfold len, m; cbn [elems]; rewrite length_take, !length_app in *; lia).
  assert (sliceFrom m 2 = Panic SliceOutOfRange \/ exists b2, sliceFrom m 2 = Ret b2 /\ (len b2 < 2)%nat) as [-> | (b2 & -> & H2)].
  - unfold sliceFrom, reslice. rewrite Hlen. case_decide; [right|by left]. eexists. split; [done|].
    unfold len. cbn [elems]. rewrite length_take, length_drop. lia.
  - by exists SliceOutOfRange.
  - rewrite bind_ret. unfold uintOf. rewrite decide_False by lia. by exists IndexOutOfRange.
Qed.

(** An address with a mask that is not contiguous, or with none. *)
Lemma odd_mask_panics index addr ip mask req :
  Ad_IPNet addr = Some {| net.IPNet_IP := ip; net.IPNet_Mask := mask |} -> length ip = 4%nat -> Ad_Broadcast addr = [] ->
  net.simpleMaskLength mask = None \/ mask = [] ->
  addrRequest index addr req = Panic IndexOutOfRange.
Proof.
  intros Hn Hl Hb Hm. unfold addrRequest. rewrite Hn. rewrite (GetIPFamily_ok FAMILY_V4) by (by left).
  rewrite (decide_True (P := FAMILY_V4 = FAMILY_V4)) by done. unfold broadcast. rewrite Hb. cbn [net.is_nil].
  rewrite ipData_ok by (by left). assert (snd (maskSize mask) = 0) as -> by (unfold maskSize; destruct Hm as [-> | ->]; done).
  destruct ip; [done|]. done.
Qed.
End defects.

(** The type of a next hop's encapsulation goes to the route, so the hop comes back
    without one. *)
Lemma hop_encap_lost (order : NativeEndian) :
  sentBack labelledRoute = Ret (labelledRoute <| R_MultiPath := [labelledHop <| NH_Encap := None |>] |>).
Proof. unfold NativeEndian in order. destruct order; vm_compute; reflexivity. Qed.

(** A last attribute without its padding. *)
Lemma unpadded_panics (order : NativeEndian) t b :
  ParseRouteAttr (Slice (toBytes 2 5 ++ toBytes 2 t ++ [b]) []) = Panic SliceOutOfRange.
Proof. unfold NativeEndian in order. destruct order; reflexivity. Qed.

(** C33: Where the netlink code fails.  A next hop's encapsulation is lost on the way,
    because its type is added to the route's attributes and not to the hop's.  A
    route message that is not of MPLS and has a new destination makes
    [deserializeRoute] call a method of a nil interface.  An MPLS encapsulation whose
    length field is less than four makes [Decode] slice out of range.  An attribute
    list whose last attribute is not padded makes [ParseRouteAttr] panic where its C
    counterpart ends.  An IPv4 address without a broadcast address whose mask is not
    contiguous, or is nil, makes [addrHandle] index an empty slice. *)
Theorem netlink_defects (order : NativeEndian) :
  sentBack labelledRoute = Ret (labelledRoute <| R_MultiPath := [labelledHop <| NH_Encap := None |>] |>) /\
  (forall m w sp, msg_ok m -> Rtm_Family m <> FAMILY_MPLS -> Z.of_nat (length w) < 2 ^ 16 - 4 ->
    deserializeRoute (Slice (RtMsg_Serialize m ++ wire (NewRtAttr RTA_NEWDST w)) sp) = Panic NilDereference) /\
  (forall l w sp, 0 <= l < 4 -> (4 <= length (toBytes 2 l ++ w))%nat ->
    exists p, MPLSEncap_Decode (Slice (toBytes 2 l ++ w) sp) = Panic p) /\
  (forall t b, ParseRouteAttr (Slice (toBytes 2 5 ++ toBytes 2 t ++ [b]) []) = Panic SliceOutOfRange) /\
  (forall index addr ip mask req,
    Ad_IPNet addr = Some {| net.IPNet_IP := ip; net.IPNet_Mask := mask |} -> length ip = 4%nat -> Ad_Broadcast addr = [] ->
    net.simpleMaskLength mask = None \/ mask = [] -> addrRequest index addr req = Panic IndexOutOfRange).
Proof.
  split_and!; [apply hop_encap_lost|apply newDst_panics|apply short_encap_panics|apply unpadded_panics|apply odd_mask_panics].
Qed.

(** The mask 255.0.255.0. *)
Lemma netlink_defects_witness :
  @addrRequest LittleEndian 2
    (zeroAddr <| Ad_IPNet := Some {| net.IPNet_IP := map byte_of_Z [10; 0; 0; 1]; net.IPNet_Mask := map byte_of_Z [255; 0; 255; 0] |} |>)
    (NewNetlinkRequest RTM_NEWADDR NLM_F_ACK 1) = Panic IndexOutOfRange.
Proof.
  destruct (netlink_defects LittleEndian) as (_ & _ & _ & _ & Hmask).
  by apply (Hmask 2 _ (map byte_of_Z [10; 0; 0; 1]) (map byte_of_Z [255; 0; 255; 0])); [| | |left].
Defined.
