(* ===== verification/GoEncoding.v ===== *)
(** * [encoding/hex], [encoding/base64] and [encoding/base32]

    The encodings of the standard library that the DNS package uses for record
    fields: hexadecimal, the standard base64 alphabet with padding, and the
    extended hexadecimal base32 alphabet without padding.  A decoder gives the
    bytes, or the error without the position it names. *)

From Stdlib Require Import ZArith Lia NArith Ascii Strings.Byte Strings.String.
From stdpp Require Import base numbers strings list.
From S2P Require Import Prelude.

Open Scope Z_scope.

(** The digit of value [i] in an alphabet, and the value of a digit. *)
Definition digit (alphabet : list byte) (i : Z) : byte :=
  default Byte.x00 (alphabet !! Z.to_nat i).

Fixpoint position (alphabet : list byte) (c : byte) : option Z :=
  match alphabet with
  | [] => None
  | a :: alphabet =>
      if decide (a = c) then Some 0 else Z.succ <$> position alphabet c
  end.

(** Line breaks are skipped by both decoders. *)
Definition skipBreaks (s : list byte) : list byte :=
  filter (fun b => b <> Byte.x0a /\ b <> Byte.x0d) s.

Lemma position_digit alphabet i :
  NoDup alphabet -> 0 <= i < Z.of_nat (length alphabet) ->
  position alphabet (digit alphabet i) = Some i.
Proof.
  unfold digit. intros Hnd. revert i.
  induction Hnd as [|a l Ha Hnd IH]; intros i Hi; simpl in Hi; [lia|].
  destruct (decide (i = 0)) as [->|Hne]; simpl; [by rewrite decide_True|].
  replace (Z.to_nat i) with (S (Z.to_nat (i - 1))) by lia. simpl.
  destruct (lookup_lt_is_Some_2 l (Z.to_nat (i - 1))) as [c Hc]; [lia|].
  rewrite decide_False.
  - rewrite IH by lia. simpl. f_equal. lia.
  - rewrite Hc. simpl. intros ->. apply Ha. by eapply list_elem_of_lookup_2.
Qed.

(** No digit is a line break. *)
Lemma digit_Forall (P : byte -> Prop) alphabet i :
  P Byte.x00 -> Forall P alphabet -> P (digit alphabet i).
Proof.
  intros H0 Hall. unfold digit. destruct (alphabet !! Z.to_nat i) as [c|] eqn:E; [|done].
  simpl. by eapply Forall_lookup_1.
Qed.

Lemma skipBreaks_id s : Forall (fun b => b <> Byte.x0a /\ b <> Byte.x0d) s -> skipBreaks s = s.
Proof.
  unfold skipBreaks. induction 1 as [|b s Hb _ IH]; [done|]. by rewrite filter_cons_True, IH.
Qed.

Arguments digit : simpl never.
Arguments position : simpl never.

Module hex.
Definition alphabet : list byte := String.list_byte_of_string "0123456789abcdef".

Definition EncodeToString (src : list byte) : list byte :=
  concat ((fun b => [digit alphabet (u8 b / 16); digit alphabet (u8 b mod 16)]) <$> src).

Definition fromHexChar (c : byte) : option Z :=
  let x := u8 c in
  if (48 <=? x) && (x <=? 57) then Some (x - 48)
  else if (97 <=? x) && (x <=? 102) then Some (x - 97 + 10)
  else if (65 <=? x) && (x <=? 70) then Some (x - 65 + 10)
  else None.

Definition ErrLength : error := ErrorString "encoding/hex: odd length hex string".
Definition InvalidByteError : error := ErrorString "encoding/hex: invalid byte".

Fixpoint DecodeString (s : list byte) : list byte + error :=
  match s with
  | a :: b :: s =>
      match fromHexChar a, fromHexChar b with
      | Some x, Some y =>
          match DecodeString s with
          | inl l => inl (byte_of_Z (x * 16 + y) :: l)
          | inr e => inr e
          end
      | _, _ => inr InvalidByteError
      end
  | [a] => inr (if fromHexChar a is Some _ then ErrLength else InvalidByteError)
  | [] => inl []
  end.

Lemma fromHexChar_digit i : 0 <= i < 16 -> fromHexChar (digit alphabet i) = Some i.
Proof.
  intros Hi. assert (i ∈ seqZ 0 16) as Hin by (apply elem_of_seqZ; lia).
  revert i Hi Hin. cut (Forall (fun i => fromHexChar (digit alphabet i) = Some i) (seqZ 0 16)).
  { intros Hall i _ Hin. by rewrite Forall_forall in Hall; apply Hall. }
  by repeat constructor.
Qed.

Lemma hex_Decode_Encode src : DecodeString (EncodeToString src) = inl src.
Proof.
  unfold EncodeToString. induction src as [|b src IH]; [done|]. csimpl.
  pose proof (u8_range b). rewrite !fromHexChar_digit by (Z.to_euclidean_division_equations; lia).
  rewrite IH.
  rewrite Z.mul_comm, <- Z.div_mod by lia. by rewrite byte_of_Z_u8.
Qed.

Lemma length_Encode src : length (EncodeToString src) = (2 * length src)%nat.
Proof. unfold EncodeToString. induction src as [|b src IH]; csimpl; lia. Qed.

Lemma hex_length_Decode s l : DecodeString s = inl l -> length s = (2 * length l)%nat.
Proof.
  revert s l. fix IH 1. intros [|a [|b s]] l; simpl; [by intros [= <-]|done|].
  destruct (fromHexChar a), (fromHexChar b); try done.
  destruct (DecodeString s) as [l'|] eqn:E; [|done]. intros [= <-]. apply IH in E. simpl. lia.
Qed.
End hex.

Module base64.
Definition alphabet : list byte :=
  String.list_byte_of_string "ABCDEFGHIJKLMNOPQRSTUVWXYZabcdefghijklmnopqrstuvwxyz0123456789+/".

(** The four digits of three bytes; missing bytes count as zero. *)
Definition quantum (a b c : Z) : list byte :=
  digit alphabet <$> [a / 4; a mod 4 * 16 + b / 16; b mod 16 * 4 + c / 64; c mod 64].

Fixpoint EncodeToString (src : list byte) : list byte :=
  match src with
  | a :: b :: c :: src => quantum (u8 a) (u8 b) (u8 c) ++ EncodeToString src
  | [a; b] => take 3 (quantum (u8 a) (u8 b) 0) ++ ["="%byte]
  | [a] => take 2 (quantum (u8 a) 0 0) ++ ["="; "="]%byte
  | [] => []
  end.

Definition DecodedLen (n : nat) : nat := (n / 4 * 3)%nat.

Definition CorruptInputError : error := ErrorString "illegal base64 data".

(** The bytes of four digits. *)
Definition bytes3 (i0 i1 i2 i3 : Z) : list byte :=
  byte_of_Z <$> [i0 * 4 + i1 / 16; i1 mod 16 * 16 + i2 / 4; i2 mod 4 * 64 + i3].

Fixpoint decodeQuanta (s : list byte) : list byte + error :=
  match s with
  | [] => inl []
  | c0 :: c1 :: c2 :: c3 :: s =>
      match position alphabet c0, position alphabet c1, position alphabet c2,
            position alphabet c3 with
      | Some i0, Some i1, Some i2, Some i3 =>
          match decodeQuanta s with
          | inl l => inl (bytes3 i0 i1 i2 i3 ++ l)
          | inr e => inr e
          end
      | Some i0, Some i1, Some i2, None =>
          if decide (c3 = "="%byte /\ s = []) then inl (take 2 (bytes3 i0 i1 i2 0))
          else inr CorruptInputError
      | Some i0, Some i1, None, None =>
          if decide (c2 = "="%byte /\ c3 = "="%byte /\ s = []) then inl (take 1 (bytes3 i0 i1 0 0))
          else inr CorruptInputError
      | _, _, _, _ => inr CorruptInputError
      end
  | _ => inr CorruptInputError
  end.

Definition DecodeString (s : list byte) : list byte + error := decodeQuanta (skipBreaks s).

Lemma base64_position_alphabet i : 0 <= i < 64 -> position alphabet (digit alphabet i) = Some i.
Proof.
  intros Hi. apply position_digit; [|done]. apply (bool_decide_unpack _). by vm_compute.
Qed.

Lemma byte_of_Z_is x b : x = u8 b -> byte_of_Z x = b.
Proof. intros ->. apply byte_of_Z_u8. Qed.

Lemma bytes3_quantum a b c :
  bytes3 (u8 a / 4) (u8 a mod 4 * 16 + u8 b / 16) (u8 b mod 16 * 4 + u8 c / 64) (u8 c mod 64) =
    [a; b; c].
Proof.
  pose proof (u8_range a). pose proof (u8_range b). pose proof (u8_range c). unfold bytes3. csimpl.
  f_equal; [|f_equal; [|f_equal]]; apply byte_of_Z_is; Z.to_euclidean_division_equations; lia.
Qed.

Lemma base64_decodeQuanta_Encode src : decodeQuanta (EncodeToString src) = inl src.
Proof.
  revert src. fix IH 1. intros [|a [|b [|c src]]]; [done|..].
  - pose proof (u8_range a). pose proof (bytes3_quantum a Byte.x00 Byte.x00) as Hq.
    change (u8 Byte.x00) with 0 in Hq. simpl.
    rewrite !base64_position_alphabet by (Z.to_euclidean_division_equations; lia). simpl.
    change (0 / 16) with 0 in *. rewrite Z.add_0_r in *. simpl. by injection Hq as ->.
  - pose proof (u8_range a). pose proof (u8_range b).
    pose proof (bytes3_quantum a b Byte.x00) as Hq. change (u8 Byte.x00) with 0 in Hq. simpl.
    rewrite !base64_position_alphabet by (Z.to_euclidean_division_equations; lia). simpl.
    change (0 / 64) with 0 in *. rewrite Z.add_0_r in *. by injection Hq as -> ->.
  - pose proof (u8_range a). pose proof (u8_range b). pose proof (u8_range c). simpl.
    rewrite !base64_position_alphabet by (Z.to_euclidean_division_equations; lia).
    rewrite IH. pose proof (bytes3_quantum a b c) as Hq. unfold bytes3 in Hq. csimpl in Hq.
    by injection Hq as -> -> ->.
Qed.

Lemma base64_digit_no_break i : digit alphabet i <> Byte.x0a /\ digit alphabet i <> Byte.x0d.
Proof.
  apply (digit_Forall (fun b => b <> Byte.x0a /\ b <> Byte.x0d)); [done|].
  apply (bool_decide_unpack _). by vm_compute.
Qed.

Lemma Encode_no_break src : Forall (fun b => b <> Byte.x0a /\ b <> Byte.x0d) (EncodeToString src).
Proof.
  revert src. fix IH 1. intros [|a [|b [|c src]]]; [constructor|..]; simpl;
    repeat (constructor; [first [apply base64_digit_no_break|done]|]); [constructor..|apply IH].
Qed.

Lemma base64_Decode_Encode src : DecodeString (EncodeToString src) = inl src.
Proof. unfold DecodeString. rewrite skipBreaks_id by apply Encode_no_break. apply base64_decodeQuanta_Encode. Qed.

Lemma length_skipBreaks s : (length (skipBreaks s) <= length s)%nat.
Proof. apply length_filter. Qed.

(** The decoded bytes fit in the buffer that [DecodedLen] sizes. *)
Lemma base64_length_Decode s l : DecodeString s = inl l -> (length l <= DecodedLen (length s))%nat.
Proof.
  unfold DecodeString, DecodedLen. intros H.
  assert (length l <= length (skipBreaks s) / 4 * 3)%nat as Hl.
  { revert H. generalize (skipBreaks s). revert l. clear s. fix IH 2.
    intros l [|c0 [|c1 [|c2 [|c3 s]]]]; cbn [decodeQuanta length]; try done; [by intros [= <-]|].
    pose proof (Nat.div_add (length s) 1 4 ltac:(lia)) as Hd.
    replace (length s + 1 * 4)%nat with (S (S (S (S (length s))))) in Hd by lia.
    destruct (position alphabet c0), (position alphabet c1), (position alphabet c2),
      (position alphabet c3); try done; try (case_decide; [|done]);
      try (intros [= <-]; cbn [length take bytes3 fmap list_fmap]; lia).
    destruct (decodeQuanta s) as [l'|] eqn:E; [|done]. intros [= <-]. apply IH in E.
    cbn [length app bytes3 fmap list_fmap]. lia. }
  pose proof (length_skipBreaks s).
  pose proof (Nat.Div0.div_le_mono (length (skipBreaks s)) (length s) 4 ltac:(lia)). lia.
Qed.
End base64.

Module base32.
(** [base32.HexEncoding.WithPadding(base32.NoPadding)]. *)
Definition alphabet : list byte :=
  String.list_byte_of_string "0123456789ABCDEFGHIJKLMNOPQRSTUV".

(** The eight digits of five bytes, missing bytes counted as zero, and back. *)
Definition quantum (a b c d e : Z) : list byte :=
  digit alphabet <$>
    [a / 8; a mod 8 * 4 + b / 64; b mod 64 / 2; b mod 2 * 16 + c / 16; c mod 16 * 2 + d / 128;
     d mod 128 / 4; d mod 4 * 8 + e / 32; e mod 32].

Definition bytes5 (i0 i1 i2 i3 i4 i5 i6 i7 : Z) : list byte :=
  byte_of_Z <$>
    [i0 * 8 + i1 / 4; i1 mod 4 * 64 + i2 * 2 + i3 / 16; i3 mod 16 * 16 + i4 / 2;
     i4 mod 2 * 128 + i5 * 4 + i6 / 8; i6 mod 8 * 32 + i7].

Fixpoint EncodeToString (src : list byte) : list byte :=
  match src with
  | a :: b :: c :: d :: e :: src =>
      quantum (u8 a) (u8 b) (u8 c) (u8 d) (u8 e) ++ EncodeToString src
  | [a; b; c; d] => take 7 (quantum (u8 a) (u8 b) (u8 c) (u8 d) 0)
  | [a; b; c] => take 5 (quantum (u8 a) (u8 b) (u8 c) 0 0)
  | [a; b] => take 4 (quantum (u8 a) (u8 b) 0 0 0)
  | [a] => take 2 (quantum (u8 a) 0 0 0 0)
  | [] => []
  end.

Definition CorruptInputError : error := ErrorString "illegal base32 data".

(** The last, incomplete quantum: with 1, 3 or 6 digits it gives no byte. *)
Definition decodeLast (s : list byte) : list byte + error :=
  match mapM (position alphabet) s with
  | None => inr CorruptInputError
  | Some [i0; i1] => inl (take 1 (bytes5 i0 i1 0 0 0 0 0 0))
  | Some [i0; i1; i2; i3] => inl (take 2 (bytes5 i0 i1 i2 i3 0 0 0 0))
  | Some [i0; i1; i2; i3; i4] => inl (take 3 (bytes5 i0 i1 i2 i3 i4 0 0 0))
  | Some [i0; i1; i2; i3; i4; i5; i6] => inl (take 4 (bytes5 i0 i1 i2 i3 i4 i5 i6 0))
  | Some _ => inl []
  end.

Fixpoint decodeQuanta (s : list byte) : list byte + error :=
  match s with
  | c0 :: c1 :: c2 :: c3 :: c4 :: c5 :: c6 :: c7 :: rest =>
      match mapM (position alphabet) [c0; c1; c2; c3; c4; c5; c6; c7] with
      | Some [i0; i1; i2; i3; i4; i5; i6; i7] =>
          match decodeQuanta rest with
          | inl l => inl (bytes5 i0 i1 i2 i3 i4 i5 i6 i7 ++ l)
          | inr e => inr e
          end
      | _ => inr CorruptInputError
      end
  | s => decodeLast s
  end.

Definition Decode (s : list byte) : list byte + error := decodeQuanta (skipBreaks s).

Lemma base32_position_alphabet i : 0 <= i < 32 -> position alphabet (digit alphabet i) = Some i.
Proof.
  intros Hi. apply position_digit; [|done]. apply (bool_decide_unpack _). by vm_compute.
Qed.

Lemma bytes5_quantum a b c d e :
  bytes5 (u8 a / 8) (u8 a mod 8 * 4 + u8 b / 64) (u8 b mod 64 / 2) (u8 b mod 2 * 16 + u8 c / 16)
    (u8 c mod 16 * 2 + u8 d / 128) (u8 d mod 128 / 4) (u8 d mod 4 * 8 + u8 e / 32) (u8 e mod 32) =
    [a; b; c; d; e].
Proof.
  pose proof (u8_range a). pose proof (u8_range b). pose proof (u8_range c).
  pose proof (u8_range d). pose proof (u8_range e). unfold bytes5. csimpl.
  f_equal; [|f_equal; [|f_equal; [|f_equal; [|f_equal]]]]; apply base64.byte_of_Z_is;
    Z.to_euclidean_division_equations; lia.
Qed.

(** The digits of a quantum have the values they were made of. *)
Lemma mapM_quantum a b c d e :
  mapM (position alphabet) (quantum (u8 a) (u8 b) (u8 c) (u8 d) (u8 e)) =
    Some [u8 a / 8; u8 a mod 8 * 4 + u8 b / 64; u8 b mod 64 / 2; u8 b mod 2 * 16 + u8 c / 16;
          u8 c mod 16 * 2 + u8 d / 128; u8 d mod 128 / 4; u8 d mod 4 * 8 + u8 e / 32; u8 e mod 32].
Proof.
  pose proof (u8_range a). pose proof (u8_range b). pose proof (u8_range c).
  pose proof (u8_range d). pose proof (u8_range e). unfold quantum. csimpl.
  rewrite !base32_position_alphabet by (Z.to_euclidean_division_equations; lia). done.
Qed.

Lemma base32_decodeQuanta_Encode src : decodeQuanta (EncodeToString src) = inl src.
Proof.
  revert src. fix IH 1. intros [|a [|b [|c [|d [|e src]]]]]; [done|..];
    pose proof (u8_range a); try (pose proof (u8_range b)); try (pose proof (u8_range c));
    try (pose proof (u8_range d)).
  5: { pose proof (mapM_quantum a b c d e) as Hm. pose proof (bytes5_quantum a b c d e) as Hq.
       cbn [EncodeToString]. unfold quantum in *. cbn [fmap list_fmap app decodeQuanta] in *.
       by rewrite Hm, IH, Hq. }
  all: cbn [EncodeToString]; unfold quantum; cbn [fmap list_fmap take decodeQuanta]; unfold decodeLast;
    csimpl; rewrite !base32_position_alphabet by (Z.to_euclidean_division_equations; lia); csimpl; f_equal;
    repeat (f_equal; [apply base64.byte_of_Z_is; Z.to_euclidean_division_equations; lia|]);
    f_equal; apply base64.byte_of_Z_is; Z.to_euclidean_division_equations; lia.
Qed.

Lemma base32_digit_no_break i : digit alphabet i <> Byte.x0a /\ digit alphabet i <> Byte.x0d.
Proof.
  apply (digit_Forall (fun b => b <> Byte.x0a /\ b <> Byte.x0d)); [done|].
  apply (bool_decide_unpack _). by vm_compute.
Qed.

Lemma Encode_Forall (P : byte -> Prop) src :
  (forall i, P (digit alphabet i)) -> Forall P (EncodeToString src).
Proof.
  intros HP. revert src. fix IH 1. intros [|a [|b [|c [|d [|e src]]]]]; [constructor|..];
    repeat (constructor; [apply HP|]); [constructor..|apply IH].
Qed.

Lemma base32_Decode_Encode src : Decode (EncodeToString src) = inl src.
Proof.
  unfold Decode. rewrite skipBreaks_id by apply Encode_Forall, base32_digit_no_break.
  apply base32_decodeQuanta_Encode.
Qed.

Lemma base32_length_Decode s l : Decode s = inl l -> (length l <= length s)%nat.
Proof.
  unfold Decode. pose proof (base64.length_skipBreaks s) as Hs. revert Hs.
  generalize (skipBreaks s). intros t Ht H. cut (length l <= length t)%nat; [lia|]. clear Ht s.
  revert t l H. fix IH 1.
  assert (forall t l, (length t < 8)%nat -> decodeLast t = inl l -> (length l <= length t)%nat) as Hlast.
  { clear IH. intros t l _. unfold decodeLast.
    destruct (mapM (position alphabet) t) as [k|] eqn:E; [|done].
    apply length_mapM in E. rewrite E.
    destruct k as [|? [|? [|? [|? [|? [|? [|? [|??]]]]]]]]; intros [= <-]; simpl; lia. }
  intros [|c0 [|c1 [|c2 [|c3 [|c4 [|c5 [|c6 [|c7 t]]]]]]]] l;
    try (apply Hlast; simpl; lia).
  cbn [decodeQuanta]. destruct (mapM _ _) as [k|]; [|done].
  destruct k as [|? [|? [|? [|? [|? [|? [|? [|? [|??]]]]]]]]]; try done.
  destruct (decodeQuanta t) as [l'|] eqn:E; [|done]. intros [= <-]. apply IH in E. simpl. lia.
Qed.
End base32.
