(* ===== verification/DnsRR.v ===== *)
(** * The messages of [github.com/miekg/dns]

    The constants, the record types, the EDNS0 options and the message of
    [types.go], [dns.go], [edns.go], [tsig.go] and [msg.go].  Every record type
    of the package that is not registered by a program (a [PrivateRR]) has its
    constructor; the structs share their header, so a record is a header with
    the fields of its type.  A nil record, which no caller of the package here
    builds, is not a value of [RR]. *)

From Stdlib Require Import ZArith Lia NArith Ascii Strings.Byte.
From stdpp Require Import base numbers strings list.
From S2P Require Import Prelude GoNet.

Open Scope Z_scope.

(** ** Constants *)

Definition TypeA : Z := 1.
Definition TypeAAAA : Z := 28.
Definition TypeAFSDB : Z := 18.
Definition TypeANY : Z := 255.
Definition TypeAVC : Z := 258.
Definition TypeCAA : Z := 257.
Definition TypeCDNSKEY : Z := 60.
Definition TypeCDS : Z := 59.
Definition TypeCERT : Z := 37.
Definition TypeCNAME : Z := 5.
Definition TypeCSYNC : Z := 62.
Definition TypeDHCID : Z := 49.
Definition TypeDLV : Z := 32769.
Definition TypeDNAME : Z := 39.
Definition TypeDNSKEY : Z := 48.
Definition TypeDS : Z := 43.
Definition TypeEID : Z := 31.
Definition TypeEUI48 : Z := 108.
Definition TypeEUI64 : Z := 109.
Definition TypeGID : Z := 102.
Definition TypeGPOS : Z := 27.
Definition TypeHINFO : Z := 13.
Definition TypeHIP : Z := 55.
Definition TypeKEY : Z := 25.
Definition TypeKX : Z := 36.
Definition TypeL32 : Z := 105.
Definition TypeL64 : Z := 106.
Definition TypeLOC : Z := 29.
Definition TypeLP : Z := 107.
Definition TypeMB : Z := 7.
Definition TypeMD : Z := 3.
Definition TypeMF : Z := 4.
Definition TypeMG : Z := 8.
Definition TypeMINFO : Z := 14.
Definition TypeMR : Z := 9.
Definition TypeMX : Z := 15.
Definition TypeNAPTR : Z := 35.
Definition TypeNID : Z := 104.
Definition TypeNIMLOC : Z := 32.
Definition TypeNINFO : Z := 56.
Definition TypeNS : Z := 2.
Definition TypeNSAPPTR : Z := 23.
Definition TypeNSEC : Z := 47.
Definition TypeNSEC3 : Z := 50.
Definition TypeNSEC3PARAM : Z := 51.
Definition TypeOPENPGPKEY : Z := 61.
Definition TypeOPT : Z := 41.
Definition TypePTR : Z := 12.
Definition TypePX : Z := 26.
Definition TypeRKEY : Z := 57.
Definition TypeRP : Z := 17.
Definition TypeRRSIG : Z := 46.
Definition TypeRT : Z := 21.
Definition TypeSIG : Z := 24.
Definition TypeSMIMEA : Z := 53.
Definition TypeSOA : Z := 6.
Definition TypeSPF : Z := 99.
Definition TypeSRV : Z := 33.
Definition TypeSSHFP : Z := 44.
Definition TypeTA : Z := 32768.
Definition TypeTALINK : Z := 58.
Definition TypeTKEY : Z := 249.
Definition TypeTLSA : Z := 52.
Definition TypeTSIG : Z := 250.
Definition TypeTXT : Z := 16.
Definition TypeUID : Z := 101.
Definition TypeUINFO : Z := 100.
Definition TypeURI : Z := 256.
Definition TypeX25 : Z := 19.

Definition ClassINET : Z := 1.
Definition RcodeSuccess : Z := 0.
Definition RcodeFormatError : Z := 1.
Definition RcodeBadVers : Z := 16.
Definition OpcodeQuery : Z := 0.

(** ** EDNS0 options *)

Inductive EDNS0 :=
| EDNS0_NSID (Code : Z) (Nsid : string)
| EDNS0_SUBNET (Code : Z) (Family : Z) (SourceNetmask : Z) (SourceScope : Z) (Address : list byte)
| EDNS0_COOKIE (Code : Z) (Cookie : string)
| EDNS0_UL (Code : Z) (Lease : Z)
| EDNS0_LLQ (Code : Z) (Version : Z) (Opcode : Z) (Error : Z) (Id : Z) (LeaseLife : Z)
| EDNS0_DAU (Code : Z) (AlgCode : list byte)
| EDNS0_DHU (Code : Z) (AlgCode : list byte)
| EDNS0_N3U (Code : Z) (AlgCode : list byte)
| EDNS0_EXPIRE (Code : Z) (Expire : Z)
| EDNS0_LOCAL (Code : Z) (Data : list byte)
| EDNS0_TCP_KEEPALIVE (Code : Z) (Length : Z) (Timeout : Z)
| EDNS0_PADDING (Padding : list byte).

(** ** Records *)

Record RR_Header := { RR_Name : string; Rrtype : Z; RR_Class : Z; Ttl : Z; Rdlength : Z }.

Inductive rdata :=
| RR_A (A : list byte)
| RR_AAAA (AAAA : list byte)
| RR_AFSDB (Subtype : Z) (Hostname : string)
| RR_ANY
| RR_AVC (Txt : list string)
| RR_CAA (Flag : Z) (Tag Value : string)
| RR_CDNSKEY (Flags Protocol Algorithm : Z) (PublicKey : string)
| RR_CDS (KeyTag Algorithm DigestType : Z) (Digest : string)
| RR_CERT (Type_ KeyTag Algorithm : Z) (Certificate : string)
| RR_CNAME (Target : string)
| RR_CSYNC (Serial Flags : Z) (TypeBitMap : list Z)
| RR_DHCID (Digest : string)
| RR_DLV (KeyTag Algorithm DigestType : Z) (Digest : string)
| RR_DNAME (Target : string)
| RR_DNSKEY (Flags Protocol Algorithm : Z) (PublicKey : string)
| RR_DS (KeyTag Algorithm DigestType : Z) (Digest : string)
| RR_EID (Endpoint : string)
| RR_EUI48 (Address : Z)
| RR_EUI64 (Address : Z)
| RR_GID (Gid : Z)
| RR_GPOS (Longitude Latitude Altitude : string)
| RR_HINFO (Cpu Os : string)
| RR_HIP (HitLength PublicKeyAlgorithm PublicKeyLength : Z) (Hit PublicKey : string)
    (RendezvousServers : list string)
| RR_KEY (Flags Protocol Algorithm : Z) (PublicKey : string)
| RR_KX (Preference : Z) (Exchanger : string)
| RR_L32 (Preference : Z) (Locator32 : list byte)
| RR_L64 (Preference Locator64 : Z)
| RR_LOC (Version Size HorizPre VertPre Latitude Longitude Altitude : Z)
| RR_LP (Preference : Z) (Fqdn : string)
| RR_MB (Mb : string)
| RR_MD (Md : string)
| RR_MF (Mf : string)
| RR_MG (Mg : string)
| RR_MINFO (Rmail Email : string)
| RR_MR (Mr : string)
| RR_MX (Preference : Z) (Mx : string)
| RR_NAPTR (Order Preference : Z) (Flags Service Regexp Replacement : string)
| RR_NID (Preference NodeID : Z)
| RR_NIMLOC (Locator : string)
| RR_NINFO (ZSData : list string)
| RR_NS (Ns : string)
| RR_NSAPPTR (Ptr : string)
| RR_NSEC (NextDomain : string) (TypeBitMap : list Z)
| RR_NSEC3 (Hash Flags Iterations SaltLength : Z) (Salt : string) (HashLength : Z)
    (NextDomain : string) (TypeBitMap : list Z)
| RR_NSEC3PARAM (Hash Flags Iterations SaltLength : Z) (Salt : string)
| RR_OPENPGPKEY (PublicKey : string)
| RR_OPT (Option : list EDNS0)
| RR_PTR (Ptr : string)
| RR_PX (Preference : Z) (Map822 Mapx400 : string)
| RR_RFC3597 (Rdata : string)
| RR_RKEY (Flags Protocol Algorithm : Z) (PublicKey : string)
| RR_RP (Mbox Txt : string)
| RR_RRSIG (TypeCovered Algorithm Labels OrigTtl Expiration Inception KeyTag : Z)
    (SignerName Signature : string)
| RR_RT (Preference : Z) (Host : string)
| RR_SIG (TypeCovered Algorithm Labels OrigTtl Expiration Inception KeyTag : Z)
    (SignerName Signature : string)
| RR_SMIMEA (Usage Selector MatchingType : Z) (Certificate : string)
| RR_SOA (Ns Mbox : string) (Serial Refresh Retry Expire Minttl : Z)
| RR_SPF (Txt : list string)
| RR_SRV (Priority Weight Port : Z) (Target : string)
| RR_SSHFP (Algorithm Type_ : Z) (FingerPrint : string)
| RR_TA (KeyTag Algorithm DigestType : Z) (Digest : string)
| RR_TALINK (PreviousName NextName : string)
| RR_TKEY (Algorithm : string) (Inception Expiration Mode Error KeySize : Z) (Key : string)
    (OtherLen : Z) (OtherData : string)
| RR_TLSA (Usage Selector MatchingType : Z) (Certificate : string)
| RR_TSIG (Algorithm : string) (TimeSigned Fudge MACSize : Z) (MAC : string)
    (OrigId Error OtherLen : Z) (OtherData : string)
| RR_TXT (Txt : list string)
| RR_UID (Uid : Z)
| RR_UINFO (Uinfo : string)
| RR_URI (Priority Weight : Z) (Target : string)
| RR_X25 (PSDNAddress : string).

Record RR := mkRR { Hdr : RR_Header; Data : rdata }.

(** ** Messages *)

Record Question := { Q_Name : string; Qtype : Z; Qclass : Z }.

Record Msg := {
  Id : Z;
  Response : bool;
  Opcode : Z;
  Authoritative : bool;
  Truncated : bool;
  RecursionDesired : bool;
  RecursionAvailable : bool;
  Zero : bool;
  AuthenticatedData : bool;
  CheckingDisabled : bool;
  Rcode : Z;
  Compress : bool;
  Msg_Question : list Question;
  Answer : list RR;
  Msg_Ns : list RR;
  Extra : list RR
}.

(** [new(dns.Msg)]. *)
Definition emptyMsg : Msg :=
  {| Id := 0; Response := false; Opcode := 0; Authoritative := false; Truncated := false;
     RecursionDesired := false; RecursionAvailable := false; Zero := false;
     AuthenticatedData := false; CheckingDisabled := false; Rcode := 0; Compress := false;
     Msg_Question := []; Answer := []; Msg_Ns := []; Extra := [] |}.

(** [SetReply(request)] and [SetRcodeFormatError(request)] on a message [dns]. *)
Definition SetReply (dns request : Msg) : Msg :=
  let query := bool_decide (Opcode request = OpcodeQuery) in
  {| Id := Id request; Response := true; Opcode := Opcode request;
     Authoritative := Authoritative dns; Truncated := Truncated dns;
     RecursionDesired := if query then RecursionDesired request else RecursionDesired dns;
     RecursionAvailable := RecursionAvailable dns; Zero := Zero dns;
     AuthenticatedData := AuthenticatedData dns;
     CheckingDisabled := if query then CheckingDisabled request else CheckingDisabled dns;
     Rcode := RcodeSuccess; Compress := Compress dns;
     Msg_Question := match Msg_Question request with
                     | q :: _ => [q]
                     | [] => Msg_Question dns
                     end;
     Answer := Answer dns; Msg_Ns := Msg_Ns dns; Extra := Extra dns |}.

Definition SetRcodeFormatError (dns request : Msg) : Msg :=
  {| Id := Id request; Response := true; Opcode := OpcodeQuery; Authoritative := false;
     Truncated := Truncated dns; RecursionDesired := RecursionDesired dns;
     RecursionAvailable := RecursionAvailable dns; Zero := Zero dns;
     AuthenticatedData := AuthenticatedData dns; CheckingDisabled := CheckingDisabled dns;
     Rcode := RcodeFormatError; Compress := Compress dns; Msg_Question := Msg_Question dns;
     Answer := Answer dns; Msg_Ns := Msg_Ns dns; Extra := Extra dns |}.

#[export] Instance EDNS0_eq_dec : EqDecision EDNS0.
Proof. solve_decision. Defined.
#[export] Instance RR_Header_eq_dec : EqDecision RR_Header.
Proof. solve_decision. Defined.
#[export] Instance Question_eq_dec : EqDecision Question.
Proof. solve_decision. Defined.
