(* ===== verification/Dns.v ===== *)
(** * The DNS forwarder

    [ServeDNS] of [src/netctrl/bridgeServices.go], on the messages of [DnsRR].
    The HTTP client and the JSON decoder are arguments: [httpGet] fetches a URL
    in a world [W], [decode] reads the body. *)

From Stdlib Require Import ZArith Lia NArith Ascii Strings.Byte.
From stdpp Require Import base numbers gmap strings list fin_maps.
From S2P Require Import Prelude GoNet Dhcp4 BridgeServices DnsRR.

Open Scope Z_scope.

(** ** The answers of dns.google.com *)

Record dnsQuestion := { DQ_Name : string; DQ_Type : Z }.
Record dnsRecord := { DR_Name : string; DR_Type : Z; DR_TTL : Z; DR_Data : string }.
Record dnsResponse := {
  DNS_Status : Z;
  DNS_Question : list dnsQuestion;
  DNS_Answer : list dnsRecord;
  DNS_Authority : list dnsRecord;
  DNS_Additional : list dnsRecord
}.

(** ** The handler *)

Definition RR_header (name : string) (type ttl : Z) : RR_Header :=
  {| RR_Name := name; Rrtype := type; RR_Class := ClassINET; Ttl := ttl; Rdlength := 0 |}.

(** The [switch a.Type] of the upstream branch: the record for one answer, none
    for a type it does not know. *)
Definition convert (name : string) (a : dnsRecord) : option RR :=
  let hdr t := RR_header name t (DR_TTL a) in
  if decide (DR_Type a = TypeA) then Some (mkRR (hdr TypeA) (RR_A (net.ParseIP (DR_Data a))))
  else if decide (DR_Type a = TypeAAAA) then Some (mkRR (hdr TypeAAAA) (RR_AAAA (net.ParseIP (DR_Data a))))
  else if decide (DR_Type a = TypeNS) then Some (mkRR (hdr TypeNS) (RR_NS (DR_Data a)))
  else if decide (DR_Type a = TypeCNAME) then Some (mkRR (hdr TypeCNAME) (RR_CNAME (DR_Data a)))
  else if decide (DR_Type a = TypeTXT) then Some (mkRR (hdr TypeTXT) (RR_TXT [DR_Data a]))
  else None.

Section dns.
Context {W Body : Type} (httpGet : string -> W -> (Body + error) * W)
        (decode : Body -> dnsResponse + error).

Definition resolveURL (q : Question) : string :=
  "https://dns.google.com/resolve?name=" +:+ Q_Name q +:+ "&type=" +:+ strconv.Itoa (Qtype q).

(** The upstream branch: nothing is added when the request or the decoding fails. *)
Definition resolve (q : Question) (wd : W) : list RR * W :=
  match httpGet (resolveURL q) wd with
  | (inr _, wd) => ([], wd)
  | (inl body, wd) =>
      match decode body with
      | inr _ => ([], wd)
      | inl response => (omap (convert (Q_Name q)) (DNS_Answer response), wd)
      end
  end.

(** The body of the loop over the questions: the records it appends. *)
Definition answerQuestion (h : bridgeServices) (q : Question) (wd : W) : list RR * W :=
  if decide (Q_Name q = name h +:+ ".") then
    ([mkRR (RR_header (Q_Name q) TypeA 60) (RR_A (baseIP h))], wd)
  else if decide (Q_Name q = "googleDNS.") then
    ([mkRR (RR_header (Q_Name q) TypeA 0) (RR_A (net.ParseIP "8.8.8.8"))], wd)
  else resolve q wd.

Fixpoint answerAll (h : bridgeServices) (qs : list Question) (wd : W) : list RR * W :=
  match qs with
  | [] => ([], wd)
  | q :: qs =>
      let '(rs, wd) := answerQuestion h q wd in
      let '(rest, wd) := answerAll h qs wd in
      (rs ++ rest, wd)
  end.

(** [ServeDNS]: the message it writes. *)
Definition ServeDNS (h : bridgeServices) (r : Msg) (wd : W) : Msg * W :=
  let m := SetReply emptyMsg r in
  let '(rs, wd) := answerAll h (Msg_Question r) wd in
  ({| Id := Id m; Response := Response m; Opcode := Opcode m; Authoritative := Authoritative m;
      Truncated := Truncated m; RecursionDesired := false; RecursionAvailable := true;
      Zero := Zero m; AuthenticatedData := AuthenticatedData m;
      CheckingDisabled := CheckingDisabled m; Rcode := Rcode m; Compress := Compress m;
      Msg_Question := Msg_Question m; Answer := Answer m ++ rs; Msg_Ns := Msg_Ns m;
      Extra := Extra m |}, wd).

(** ** Theorems *)

(** Names the handler answers itself. *)
Definition local_name (h : bridgeServices) (q : Question) : Prop :=
  Q_Name q = name h +:+ "." \/ Q_Name q = "googleDNS.".

(** Their records. *)
Definition local_record (h : bridgeServices) (q : Question) : RR :=
  if decide (Q_Name q = name h +:+ ".")
  then mkRR (RR_header (Q_Name q) TypeA 60) (RR_A (baseIP h))
  else mkRR (RR_header (Q_Name q) TypeA 0) (RR_A (net.ParseIP "8.8.8.8")).

Lemma answerQuestion_local h q wd :
  local_name h q -> answerQuestion h q wd = ([local_record h q], wd).
Proof.
  unfold answerQuestion, local_record. intros Hq. case_decide; [done|].
  rewrite decide_True; [done|]. by destruct Hq.
Qed.

Lemma answerAll_local h qs wd :
  Forall (local_name h) qs -> answerAll h qs wd = (local_record h <$> qs, wd).
Proof.
  induction 1 as [|q qs Hq _ IH]; simpl; [done|]. by rewrite answerQuestion_local, IH.
Qed.

(** A request for local names only is answered without a word to the outside
    world, with one A record per question, whatever type was asked for: the
    server's own address for its name. *)
Theorem ServeDNS_local h r wd :
  Forall (local_name h) (Msg_Question r) ->
  exists m, ServeDNS h r wd = (m, wd) /\ Answer m = local_record h <$> Msg_Question r.
Proof.
  intros Hl. unfold ServeDNS. rewrite answerAll_local by done. eexists. by split; [reflexivity|].
Qed.

Definition known_type (t : Z) : bool :=
  bool_decide (t ∈ [TypeA; TypeAAAA; TypeNS; TypeCNAME; TypeTXT]).

Lemma convert_spec nm a :
  match convert nm a with
  | Some rr => known_type (DR_Type a) = true /\ Hdr rr = RR_header nm (DR_Type a) (DR_TTL a)
  | None => known_type (DR_Type a) = false
  end.
Proof.
  unfold convert, known_type.
  repeat (case_decide;
    [split; [apply bool_decide_eq_true; rewrite !elem_of_cons; tauto|simpl; congruence]|]).
  apply bool_decide_eq_false. rewrite !elem_of_cons, elem_of_nil. tauto.
Qed.

Lemma omap_convert_headers nm (l : list dnsRecord) :
  Hdr <$> omap (convert nm) l =
  (fun a => RR_header nm (DR_Type a) (DR_TTL a)) <$> filter (fun a => known_type (DR_Type a)) l.
Proof.
  induction l as [|a l IH]; [done|]. simpl. pose proof (convert_spec nm a) as Hc.
  destruct (convert nm a) as [rr|].
  - destruct Hc as [Hk Hh]. rewrite filter_cons_True by (by rewrite Hk). simpl. rewrite Hh. f_equal. exact IH.
  - rewrite filter_cons_False; [exact IH|]. rewrite Hc. auto.
Qed.

(** The reply to a question for another name: it is to the client's question, and
    if dns.google.com answered, its records of the known types come back in order
    with their types and lifetimes, all under the name that was asked for.  If
    it did not answer, the reply still says success, with no records. *)
Theorem ServeDNS_forwards h r q wd :
  Msg_Question r = [q] -> ~ local_name h q ->
  exists m wd', ServeDNS h r wd = (m, wd') /\
    Id m = Id r /\ Response m = true /\ Msg_Question m = [q] /\ Rcode m = RcodeSuccess /\
    RecursionDesired m = false /\ RecursionAvailable m = true /\
    match httpGet (resolveURL q) wd with
    | (inl body, wd1) =>
        wd' = wd1 /\
        match decode body with
        | inl resp => Hdr <$> Answer m =
            (fun a => RR_header (Q_Name q) (DR_Type a) (DR_TTL a)) <$>
              filter (fun a => known_type (DR_Type a)) (DNS_Answer resp)
        | inr _ => Answer m = []
        end
    | (inr _, wd1) => wd' = wd1 /\ Answer m = []
    end.
Proof.
  intros Hq Hn. unfold ServeDNS. rewrite Hq. simpl. unfold answerQuestion, resolve.
  rewrite decide_False, decide_False by (intros ?; apply Hn; by (left + right)).
  destruct (httpGet (resolveURL q) wd) as [[body|e] wd1].
  - destruct (decode body) as [resp|e]; eexists _, _; (split; [reflexivity|]); simpl; rewrite Hq.
    + rewrite app_nil_r. repeat split. apply omap_convert_headers.
    + repeat split.
  - eexists _, _; (split; [reflexivity|]); simpl; rewrite Hq. repeat split.
Qed.
End dns.

Module DnsExample.
Definition query (nm : string) (t : Z) : Msg :=
  {| Id := 7; Response := false; Opcode := OpcodeQuery; Authoritative := false; Truncated := false;
     RecursionDesired := true; RecursionAvailable := false; Zero := false;
     AuthenticatedData := false; CheckingDisabled := false; Rcode := 0; Compress := false;
     Msg_Question := [{| Q_Name := nm; Qtype := t; Qclass := ClassINET |}]; Answer := [];
     Msg_Ns := []; Extra := [] |}.

(** A resolver that answers every URL with one A record, and counts. *)
Definition get (url : string) (n : nat) : (string + error) * nat := (inl url, S n).
Definition read (url : string) : dnsResponse + error :=
  inl {| DNS_Status := 0; DNS_Question := [];
         DNS_Answer := [{| DR_Name := "example.com."; DR_Type := TypeA; DR_TTL := 30;
                           DR_Data := "93.184.216.34" |}];
         DNS_Authority := []; DNS_Additional := [] |}.
End DnsExample.

(** An AAAA question for the server's name is answered with an A record. *)
Lemma ServeDNS_local_witness :
  exists m, ServeDNS DnsExample.get DnsExample.read Example.handler0
      (DnsExample.query "rnd." TypeAAAA) 0%nat = (m, 0%nat) /\
    Answer m = [mkRR (RR_header "rnd." TypeA 60) (RR_A Example.wlan)].
Proof.
  destruct (ServeDNS_local DnsExample.get DnsExample.read Example.handler0
    (DnsExample.query "rnd." TypeAAAA) 0%nat) as (m & Hm & Ha).
  - apply Forall_singleton. left. reflexivity.
  - exists m. exact (conj Hm Ha).
Defined.

Lemma ServeDNS_forwards_witness :
  exists m wd', ServeDNS DnsExample.get DnsExample.read Example.handler0
      (DnsExample.query "example.com." TypeA) 0%nat = (m, wd') /\
    Hdr <$> Answer m = [RR_header "example.com." TypeA 30].
Proof.
  destruct (ServeDNS_forwards DnsExample.get DnsExample.read Example.handler0
    (DnsExample.query "example.com." TypeA) {| Q_Name := "example.com."; Qtype := TypeA; Qclass := ClassINET |}
    0%nat) as (m & wd' & Hm & _ & _ & _ & _ & _ & _ & _ & Ha).
  - reflexivity.
  - intros [H|H]; discriminate H.
  - exists m, wd'. exact (conj Hm Ha).
Defined.
