(* ===== verification/DnsName.v ===== *)
(** * Domain names on the wire

    [packDomainName], [UnpackDomainName] and [IsDomainName] of
    [github.com/miekg/dns] ([msg.go], [defaults.go]): the escapes of the
    presentation format, the labels, and the compression pointers that are
    followed and emitted.

    The functions of the package return a value, the next offset and an error;
    [result] keeps the three apart and adds what Go leaves implicit, a run-time
    panic and a loop that does not end.  A value beside a non-nil error is
    dropped, as every caller in the package does. *)

From Stdlib Require Import ZArith Lia NArith Ascii Strings.Byte Strings.String.
From stdpp Require Import base numbers gmap strings list fin_maps.
From coqutil Require Import Datatypes.RecordSetters.
From S2P Require Import Prelude GoNet DnsRR.

Import RecordSetters.TriangleBracketNotations.

Open Scope Z_scope.

(** ** Results *)

Inductive result (A : Type) :=
| Ok (a : A) (off : nat)
| Fail (off : nat) (e : error)
| Crash (p : panic)
| Hang.
Arguments Ok {A} a off.
Arguments Fail {A} off e.
Arguments Crash {A} p.
Arguments Hang {A}.

(** [v, off, err := m; if err != nil { return ..., off, err }]. *)
Definition andThen {A B} (m : result A) (k : A -> nat -> result B) : result B :=
  match m with
  | Ok a off => k a off
  | Fail off e => Fail off e
  | Crash p => Crash p
  | Hang => Hang
  end.

(** [if err != nil { return ..., off1, err }]. *)
Definition failAt {A} (off1 : nat) (m : result A) : result A :=
  match m with
  | Fail _ e => Fail off1 e
  | m => m
  end.

(** [l[i]], [l[i:j]] and [l[i] = x], with the bounds checks of Go. *)
Definition get {A B} (l : list A) (i : nat) (k : A -> result B) : result B :=
  match l !! i with
  | Some x => k x
  | None => Crash IndexOutOfRange
  end.

Definition cut {A B} (l : list A) (i j : nat) (k : list A -> result B) : result B :=
  if decide (i <= j <= length l)%nat then k (take (j - i) (drop i l)) else Crash SliceOutOfRange.

Definition put {A B} (l : list A) (i : nat) (x : A) (k : list A -> result B) : result B :=
  if decide (i < length l)%nat then k (<[i := x]> l) else Crash IndexOutOfRange.

Declare Scope dns_scope.
Delimit Scope dns_scope with dns.
Notation "'let!' x , off := m 'in' k" := (andThen m (fun x off => k))
  (at level 10, x name, off name, m at level 99, k at level 200,
   format "'[v' 'let!'  x ,  off  :=  m  'in' '/' k ']'") : dns_scope.
Notation "'let*' x := m 'in' k" := (m (fun x => k))
  (at level 10, x name, m at level 9, k at level 200,
   format "'[v' 'let*'  x  :=  m  'in' '/' k ']'") : dns_scope.
Open Scope dns_scope.

(** The errors of [msg.go]. *)
Definition Error (err : string) : error := ErrorString ("dns: " +:+ err).
Definition ErrBuf : error := Error "buffer size too small".
Definition ErrFqdn : error := Error "domain must be fully qualified".
Definition ErrRdata : error := Error "bad rdata".
Definition ErrLongDomain : error := Error "domain name exceeded 255 wire-format octets".

Definition maxCompressionOffset : Z := Z.shiftl 2 13.
Definition maxDomainNameWireOctets : nat := 255.

(** ** Unpacking *)

(** The bytes written with a backslash alone. *)
Definition quoted : list byte := ["."; "("; ")"; ";"; " "; "@"; "034"; "\"]%byte.

(** [strconv.AppendInt(buf[:0], int64(b), 10)], padded to three digits. *)
Definition ddd (b : byte) : list byte :=
  let bufs := bytes (strconv.Itoa (u8 b)) in
  replicate (3 - length bufs) "0"%byte ++ bufs.

(** What [UnpackDomainName] appends for the byte [b] of a label, and by how much
    it raises [maxLen]. *)
Definition escapeByte (b : byte) : list byte :=
  if decide (b ∈ quoted) then ["\"%byte; b]
  else if (u8 b <? 32) || (127 <=? u8 b) then "\"%byte :: ddd b
  else [b].

Definition escapeExtra (b : byte) : nat :=
  if decide (b ∈ quoted) then 1
  else if (u8 b <? 32) || (127 <=? u8 b) then 3
  else 0.

Definition escapeLabel (label : list byte) : list byte := concat (escapeByte <$> label).
Definition labelExtra (label : list byte) : nat := sum_list (escapeExtra <$> label).

(** After the loop of [UnpackDomainName]. *)
Definition unpackedName (lenmsg off off1 ptr : nat) (s : list byte) (maxLen : nat)
    : result (list byte) :=
  let off1 := if decide (ptr = 0)%nat then off else off1 in
  if decide (length s = 0)%nat then Ok ["."%byte] off1
  else if decide (maxLen <= length s)%nat then Fail lenmsg ErrLongDomain
  else Ok s off1.

Fixpoint unpackName (fuel : nat) (msg : list byte) (off off1 ptr : nat) (s : list byte)
    (maxLen : nat) : result (list byte) :=
  match fuel with
  | O => Hang
  | S fuel =>
      let lenmsg := length msg in
      if decide (lenmsg <= off)%nat then Fail lenmsg ErrBuf
      else
        let* b := (get msg off) in
        let c := u8 b in
        let off := S off in
        if decide (Z.land c 0xC0 = 0x00) then
          if decide (c = 0) then unpackedName lenmsg off off1 ptr s maxLen
          else if decide (lenmsg < off + Z.to_nat c)%nat then Fail lenmsg ErrBuf
          else
            let* label := (cut msg off (off + Z.to_nat c)) in
            unpackName fuel msg (off + Z.to_nat c) off1 ptr
              (s ++ escapeLabel label ++ ["."%byte]) (maxLen + labelExtra label)
        else if decide (Z.land c 0xC0 = 0xC0) then
          if decide (lenmsg <= off)%nat then Fail lenmsg ErrBuf
          else
            let* c1 := (get msg off) in
            let off := S off in
            let off1 := if decide (ptr = 0)%nat then off else off1 in
            let ptr := S ptr in
            if decide (10 < ptr)%nat then Fail lenmsg (Error "too many compression pointers")
            else
              unpackName fuel msg (Z.to_nat (Z.lor (Z.shiftl (Z.lxor c 0xC0) 8) (u8 c1)))
                off1 ptr s maxLen
        else Fail lenmsg ErrRdata
  end.

(** At most ten pointers are followed, and between two of them the offset only
    grows, so the loop ends within eleven walks of the message. *)
Definition UnpackDomainName (msg : list byte) (off : nat) : result string :=
  let! s, off := (unpackName (11 * (length msg + 2)) msg off 0 0 [] maxDomainNameWireOctets) in
  Ok (text s) off.

(** ** Packing *)

Definition isDigit (b : byte) : bool := (48 <=? u8 b) && (u8 b <=? 57).

(** [dddToByte(s)], in [byte] arithmetic. *)
Definition dddToByte (d0 d1 d2 : byte) : byte :=
  byte_of_Z ((u8 d0 - 48) * 100 + (u8 d1 - 48) * 10 + (u8 d2 - 48)).

(** [for j := i; j < ls-k; j++ { bs[j] = bs[j+k] }]. *)
Definition shiftDown (k i ls : nat) (bs : list byte) : list byte :=
  take i bs ++ drop (i + k) (take ls bs) ++ drop (ls - k) bs.

(** The variables of [packDomainName] that its loop changes, the offset apart.
    [found] holds [pointer] and [nameoffset] once they are not -1. *)
Record packing := {
  p_msg : option (list byte);
  p_compression : option (gmap (list byte) nat);
  p_labels : nat;
  p_ls : nat;
  p_begin : nat;
  p_bs : list byte;
  p_roBs : list byte;
  p_bsFresh : bool;
  p_escapedDot : bool;
  p_found : option (nat * nat)
}.

Section packing.
Context (lenmsg : nat) (compress : bool).

(** [if msg != nil { msg[off] = b }]. *)
Definition putMsg {B} (msg : option (list byte)) (off : nat) (b : byte)
    (k : option (list byte) -> result B) : result B :=
  match msg with
  | Some m => put m off b (fun m => k (Some m))
  | None => k None
  end.

(** The loop that copies the label. *)
Fixpoint putLabel (label : list byte) (msg : option (list byte)) (off : nat)
    : result (option (list byte)) :=
  match label with
  | [] => Ok msg off
  | b :: label =>
      if decide (lenmsg < off + 1)%nat then Fail lenmsg ErrBuf
      else
        let* msg := (putMsg msg off b) in
        putLabel label msg (S off)
  end.

(** The compression map at the end of a label that starts at [offset]: the name
    from here on is entered, or found, which ends the loop. *)
Definition compressName (st : packing) (offset : nat) : packing * bool :=
  match p_compression st with
  | None => (st, false)
  | Some compression =>
      let key := drop (p_begin st) (p_roBs st) in
      if decide (key = ["."%byte]) then (st, false)
      else match compression !! key with
           | None =>
               (if decide (Z.of_nat offset < maxCompressionOffset) then
                  st <| p_compression := Some (<[key := offset]> compression) |>
                else st, false)
           | Some p =>
               if bool_decide (p_found st = None) && compress then
                 (st <| p_found := Some (p, offset) |>, true)
               else (st, false)
           end
  end.

(** The case [bs[i] == '.']; the flag says that the loop was left. *)
Definition packDot (i : nat) (st : packing) (off : nat) : result (packing * bool) :=
  let dotBefore := bool_decide (0 < i)%nat && bool_decide (p_bs st !! (i - 1)%nat = Some "."%byte) in
  if dotBefore && negb (p_escapedDot st) then Fail lenmsg ErrRdata
  else if decide (64 <= i - p_begin st)%nat then Fail lenmsg ErrRdata
  else if decide (lenmsg < off + 1)%nat then Fail lenmsg ErrBuf
  else
    let* msg := (putMsg (p_msg st) off (byte_of_Z (Z.of_nat (i - p_begin st)))) in
    let offset := off in
    let* label := (cut (p_bs st) (p_begin st) i) in
    let! msg, off := putLabel label msg (S off) in
    let st := st <| p_msg := msg |> in
    let st := if compress && negb (p_bsFresh st)
              then st <| p_roBs := p_bs st |> <| p_bsFresh := true |> else st in
    let '(st, hit) := compressName st offset in
    if hit then Ok (st, true) off
    else Ok (st <| p_labels := S (p_labels st) |> <| p_begin := S i |>, false) off.

(** The case [bs[i] == '\\']. *)
Definition packEscape (i : nat) (st : packing) (off : nat) : result packing :=
  let bs := shiftDown 1 i (p_ls st) (p_bs st) in
  let ls := (p_ls st - 1)%nat in
  if decide (lenmsg < off + 1)%nat then Fail lenmsg ErrBuf
  else
    let finish bs ls :=
      let* b := (get bs i) in
      Ok (st <| p_bs := bs |> <| p_ls := ls |> <| p_escapedDot := bool_decide (b = "."%byte) |>
             <| p_bsFresh := false |>) off in
    if decide (i + 2 < ls)%nat then
      let* d0 := (get bs i) in
      let* d1 := (get bs (i + 1)) in
      let* d2 := (get bs (i + 2)) in
      if isDigit d0 && isDigit d1 && isDigit d2 then
        finish (shiftDown 2 (i + 1) ls (<[i := dddToByte d0 d1 d2]> bs)) (ls - 2)%nat
      else finish bs ls
    else finish bs ls.

(** The loop over [i].  It runs at most once for each byte of the name. *)
Fixpoint packLoop (fuel i : nat) (st : packing) (off : nat) : result packing :=
  if decide (i < p_ls st)%nat then
    match fuel with
    | O => Hang
    | S fuel =>
        let* b := (get (p_bs st) i) in
        if decide (b = "\"%byte) then
          let! st, off := packEscape i st off in
          packLoop fuel (S i) st off
        else if decide (b = "."%byte) then
          let! r, off := packDot i st off in
          if r.2 then Ok r.1 off
          else packLoop fuel (S i) (r.1 <| p_escapedDot := false |>) off
        else packLoop fuel (S i) (st <| p_escapedDot := false |>) off
    end
  else Ok st off.

(** After the loop: the root, a pointer, or the closing zero. *)
Definition packEnd (st : packing) (off : nat) : result packing :=
  if decide (p_bs st = ["."%byte]) then Ok st off
  else match p_found st with
       | Some (pointer, nameoffset) =>
           let v := Z.lxor (Z.of_nat pointer) 0xC000 in
           match p_msg st with
           | Some msg =>
               let* msg := (put msg (S nameoffset) (byte_of_Z v)) in
               let* msg := (put msg nameoffset (byte_of_Z (Z.shiftr v 8))) in
               Ok (st <| p_msg := Some msg |>) (nameoffset + 1 + 1)
           | None => Crash SliceOutOfRange
           end
       | None =>
           let msg := match p_msg st with
                      | Some msg => Some (if decide (off < length msg)%nat
                                          then <[off := Byte.x00]> msg else msg)
                      | None => None
                      end in
           Ok (st <| p_msg := msg |>) (S off)
       end.
End packing.

(** [packDomainName]: the buffer, the compression map and the number of labels
    afterwards.  A nil buffer is [None]. *)
Definition packDomainName (s : list byte) (msg : option (list byte)) (off : nat)
    (compression : option (gmap (list byte) nat)) (compress : bool)
    : result (option (list byte) * option (gmap (list byte) nat) * nat) :=
  let lenmsg := match msg with Some m => length m | None => 256%nat end in
  match last s with
  | None => Ok (msg, compression, 0%nat) off
  | Some c =>
      let qualified := bool_decide (c = "."%byte) in
      if bool_decide (is_Some msg) && negb qualified then Fail lenmsg ErrFqdn
      else
        let s := if qualified then s else s ++ ["."%byte] in
        let st := {| p_msg := msg; p_compression := compression; p_labels := 0;
                     p_ls := length s; p_begin := 0; p_bs := s; p_roBs := s;
                     p_bsFresh := true; p_escapedDot := false; p_found := None |} in
        let! st, off := packLoop lenmsg compress (length s) 0 st off in
        let! st, off := packEnd st off in
        Ok (p_msg st, p_compression st, p_labels st) off
  end.

(** [IsDomainName(s)]: the number of labels, and whether it is a name. *)
Definition IsDomainName (s : string) : result (nat * bool) :=
  match packDomainName (bytes s) None 0 None false with
  | Ok (_, _, labels) _ => Ok (labels, true) 0
  | Fail _ _ => Ok (0%nat, false) 0
  | Crash p => Crash p
  | Hang => Hang
  end.
