(* ===== verification/DnsNameSpec.v ===== *)
(** * Domain names: what is read and what is written

    A name is a list of labels.  [wire] is its encoding without pointers and
    [present] its presentation, with the escapes of [UnpackDomainName].
    Unpacking any bytes at all ends, stays within the message and gives the
    presentation of a name; packing a presentation writes its encoding, and
    unpacking that encoding gives the presentation back. *)

From Stdlib Require Import ZArith Lia NArith Ascii Strings.Byte Strings.String.
From stdpp Require Import base numbers gmap strings list fin_maps.
From coqutil Require Import Datatypes.RecordSetters.
From S2P Require Import Prelude GoNet DnsRR DnsName.

Import RecordSetters.TriangleBracketNotations.
Open Scope Z_scope.

(** ** Names *)

Definition valid_label (l : list byte) : Prop := (0 < length l < 64)%nat.

Definition wire_labels (ls : list (list byte)) : list byte :=
  concat ((fun l => byte_of_Z (Z.of_nat (length l)) :: l) <$> ls).

Definition wire (ls : list (list byte)) : list byte := wire_labels ls ++ [Byte.x00].

Definition printed (ls : list (list byte)) : list byte :=
  concat ((fun l => escapeLabel l ++ ["."%byte]) <$> ls).

Definition present (ls : list (list byte)) : list byte :=
  if decide (ls = []) then ["."%byte] else printed ls.

Arguments wire_labels : simpl never.
Arguments printed : simpl never.

(** A name that fits in the 255 octets of a message. *)
Definition valid_name (ls : list (list byte)) : Prop :=
  Forall valid_label ls /\ (length (wire ls) <= maxDomainNameWireOctets)%nat.

(** The strings that are the presentation of a name. *)
Definition is_name (s : string) : Prop := exists ls, valid_name ls /\ s = text (present ls).

(** ** Reading at a position *)

Lemma get_middle {A B} (pre : list A) x post (k : A -> result B) :
  get (pre ++ x :: post) (length pre) k = k x.
Proof. unfold get. by rewrite list_lookup_middle. Qed.

Lemma get_after {A B} (pre post : list A) i x (k : A -> result B) :
  post !! i = Some x -> get (pre ++ post) (length pre + i) k = k x.
Proof. intros H. unfold get. by rewrite lookup_app_r, Nat.add_comm, Nat.add_sub, H by lia. Qed.

Lemma cut_middle {A B} (pre w post : list A) (k : list A -> result B) :
  cut (pre ++ w ++ post) (length pre) (length pre + length w) k = k w.
Proof.
  unfold cut. rewrite decide_True by (rewrite !length_app; lia).
  rewrite drop_app_length. by replace (length pre + length w - length pre)%nat with (length w) by lia;
    rewrite take_app_length.
Qed.

Lemma put_middle {A B} (pre : list A) x y post (k : list A -> result B) :
  put (pre ++ x :: post) (length pre) y k = k (pre ++ y :: post).
Proof.
  unfold put. rewrite decide_True by (rewrite length_app; simpl; lia).
  by rewrite insert_app_r_alt, Nat.sub_diag by lia.
Qed.

(** ** Escapes *)

Lemma length_escapeByte b : length (escapeByte b) = S (escapeExtra b).
Proof. by destruct b. Qed.

Lemma length_escapeLabel l : length (escapeLabel l) = (length l + labelExtra l)%nat.
Proof.
  unfold escapeLabel, labelExtra. induction l as [|b l IH]; [done|].
  csimpl. rewrite length_app, length_escapeByte, IH. lia.
Qed.

(** A byte is written as it is, after a backslash, or as a backslash and three
    digits. *)
Lemma escapeByte_cases b :
  (escapeByte b = [b] /\ b <> "\"%byte /\ b <> "."%byte) \/
  (escapeByte b = ["\"%byte; b] /\ isDigit b = false) \/
  (exists d0 d1 d2, escapeByte b = ["\"%byte; d0; d1; d2] /\
     isDigit d0 && isDigit d1 && isDigit d2 = true /\ dddToByte d0 d1 d2 = b).
Proof.
  destruct b; first [by left | by right; left | by right; right; eexists _, _, _].
Qed.

Definition names_extra (ls : list (list byte)) : nat := sum_list (labelExtra <$> ls).

Lemma length_printed ls :
  (length (printed ls) = length (wire_labels ls) + names_extra ls)%nat.
Proof.
  unfold printed, wire_labels, names_extra. induction ls as [|l ls IH]; [done|].
  csimpl. rewrite !length_app, IH, length_escapeLabel. simpl. lia.
Qed.

Lemma wire_labels_snoc ls l :
  wire_labels (ls ++ [l]) = wire_labels ls ++ byte_of_Z (Z.of_nat (length l)) :: l.
Proof. unfold wire_labels. by rewrite fmap_app, concat_app; simpl; rewrite app_nil_r. Qed.

Lemma printed_snoc ls l : printed (ls ++ [l]) = printed ls ++ escapeLabel l ++ ["."%byte].
Proof. unfold printed. by rewrite fmap_app, concat_app; simpl; rewrite app_nil_r. Qed.

Lemma names_extra_snoc ls l : names_extra (ls ++ [l]) = (names_extra ls + labelExtra l)%nat.
Proof. unfold names_extra. rewrite fmap_app, sum_list_with_app. simpl. lia. Qed.

Lemma length_wire ls : length (wire ls) = S (length (wire_labels ls)).
Proof. unfold wire. rewrite length_app. simpl. lia. Qed.

(** ** Unpacking *)

Lemma land_C0 b :
  (Z.land (u8 b) 0xC0 = 0 /\ u8 b < 64) \/ (Z.land (u8 b) 0xC0 = 0xC0 /\ 192 <= u8 b) \/
  (Z.land (u8 b) 0xC0 <> 0 /\ Z.land (u8 b) 0xC0 <> 0xC0 /\ 64 <= u8 b).
Proof. by destruct b; first [left; done | right; left; done | right; right; done]. Qed.

(** The outcome of [UnpackDomainName]'s loop started at [off], after [ptr]
    pointers. *)
Definition name_outcome (msg : list byte) (off off1 ptr : nat) (r : result (list byte)) : Prop :=
  match r with
  | Ok s off' =>
      (exists ls, valid_name ls /\ s = present ls) /\
      if decide (ptr = 0)%nat then (off < off' <= length msg)%nat else off' = off1
  | Fail off' _ => off' = length msg
  | Crash _ | Hang => False
  end.

Lemma unpackedName_outcome msg off0 off off1 ptr ls :
  Forall valid_label ls -> (off0 < off <= length msg)%nat ->
  name_outcome msg off0 off1 ptr
    (unpackedName (length msg) off off1 ptr (printed ls) (maxDomainNameWireOctets + names_extra ls)).
Proof.
  intros Hv Hoff. unfold unpackedName, name_outcome.
  destruct (decide (length (printed ls) = 0)%nat) as [E|E].
  - split; [|by case_decide]. exists []. split; [|done]. split; [constructor|].
    rewrite length_wire. unfold wire_labels, maxDomainNameWireOctets. simpl. lia.
  - case_decide as E2; [done|]. split; [|by destruct (decide (ptr = 0)%nat)].
    exists ls. rewrite length_printed in E2. unfold present. split.
    + split; [done|]. rewrite length_wire. lia.
    + case_decide; [by subst|done].
Qed.

Lemma unpackName_outcome fuel msg off off1 ptr ls :
  ((10 - ptr) * (length msg + 2) + (length msg - off) < fuel)%nat -> (ptr <= 10)%nat ->
  Forall valid_label ls ->
  name_outcome msg off off1 ptr
    (unpackName fuel msg off off1 ptr (printed ls) (maxDomainNameWireOctets + names_extra ls)).
Proof.
  revert off off1 ptr ls. induction fuel as [|fuel IH]; intros off off1 ptr ls Hf Hp Hv; [lia|].
  cbn [unpackName]. destruct (decide (length msg <= off)%nat) as [|Hoff]; [done|].
  destruct (lookup_lt_is_Some_2 msg off) as [b Hb]; [lia|].
  unfold get at 1. rewrite Hb.
  destruct (land_C0 b) as [[-> Hc]|[[-> Hc]|(H0 & H1 & _)]].
  - rewrite decide_True by done. pose proof (u8_range b).
    destruct (decide (u8 b = 0)) as [E0|E0].
    + apply unpackedName_outcome; [done|lia].
    + case_decide as Hl; [done|]. unfold cut. rewrite decide_True by lia.
      set (label := take _ _).
      assert (length label = Z.to_nat (u8 b)) as Hlen.
      { unfold label. rewrite length_take, length_drop. lia. }
      rewrite <- Nat.add_assoc, <- names_extra_snoc, <- printed_snoc.
      assert (Forall valid_label (ls ++ [label])) as Hv'.
      { apply Forall_app; split; [done|]. constructor; [|done]. unfold valid_label. lia. }
      specialize (IH (S off + Z.to_nat (u8 b))%nat off1 ptr (ls ++ [label]) ltac:(lia) Hp Hv').
      revert IH. unfold name_outcome. case_match; try done.
      intros [Hn Ho]. split; [done|]. case_decide; [|done]. lia.
  - rewrite decide_False by done. rewrite decide_True by done.
    case_decide as Hl; [done|].
    destruct (lookup_lt_is_Some_2 msg (S off)) as [c1 Hc1]; [lia|].
    unfold get. rewrite Hc1. case_decide as Hten; [done|].
    set (off2 := Z.to_nat _).
    specialize (IH off2 (if decide (ptr = 0)%nat then S (S off) else off1) (S ptr) ls).
    lapply IH; [clear IH; intros IH|].
    2: { replace (10 - ptr)%nat with (S (10 - S ptr)) in Hf by lia. lia. }
    specialize (IH ltac:(lia) Hv). revert IH. unfold name_outcome. case_match; try done.
    intros [Hn Ho]. split; [done|]. rewrite decide_False in Ho by lia. subst.
    case_decide; [|done]. lia.
  - rewrite decide_False by done. by rewrite decide_False by done.
Qed.

(** What [UnpackDomainName] does on any bytes at all. *)
Lemma UnpackDomainName_outcome msg off :
  match UnpackDomainName msg off with
  | Ok s off' => is_name s /\ (off < off' <= length msg)%nat
  | Fail off' _ => off' = length msg
  | Crash _ | Hang => False
  end.
Proof.
  unfold UnpackDomainName.
  pose proof (unpackName_outcome (11 * (length msg + 2)) msg off 0 0 []) as H.
  lapply H; [clear H; intros H|lia]. specialize (H ltac:(lia) (Forall_nil_2 _)).
  change (printed []) with (@nil byte) in H. change (names_extra []) with 0%nat in H.
  rewrite Nat.add_0_r in H. revert H. unfold name_outcome.
  destruct (unpackName _ _ _ _ _ _ _); simpl; try done.
  intros [(ls & Hv & ->) Ho]. split; [by exists ls|done].
Qed.

(** Reading the encoding of a name, wherever it stands in the message. *)
Lemma unpackName_wire fuel pre ls post off1 ptr s maxLen :
  Forall valid_label ls -> (length ls < fuel)%nat ->
  unpackName fuel (pre ++ wire ls ++ post) (length pre) off1 ptr s maxLen =
  unpackedName (length (pre ++ wire ls ++ post)) (length pre + length (wire ls)) off1 ptr
    (s ++ printed ls) (maxLen + names_extra ls).
Proof.
  intros Hv. revert fuel pre s maxLen.
  induction Hv as [|l ls Hl Hv IH]; intros fuel pre s maxLen Hf.
  - destruct fuel as [|fuel]; [simpl in Hf; lia|]. cbn [unpackName].
    rewrite decide_False by (rewrite !length_app; simpl; lia).
    change (wire [] ++ post) with (Byte.x00 :: post). rewrite get_middle.
    change (u8 Byte.x00) with 0. rewrite decide_True, decide_True by done.
    change (printed []) with (@nil byte). change (names_extra []) with 0%nat.
    change (length (wire [])) with 1%nat.
    by rewrite app_nil_r, Nat.add_0_r, Nat.add_1_r.
  - destruct fuel as [|fuel]; [simpl in Hf; lia|]. simpl in Hf.
    unfold valid_label in Hl.
    set (n := byte_of_Z (Z.of_nat (length l))).
    assert (u8 n = Z.of_nat (length l)) as Hn by (apply u8_byte_of_Z_small; lia).
    assert (wire (l :: ls) = n :: l ++ wire ls) as Hw.
    { unfold wire, wire_labels. csimpl. by rewrite <- app_assoc. }
    rewrite Hw. cbn [unpackName].
    rewrite decide_False by (rewrite !length_app; simpl; lia).
    rewrite <- app_comm_cons, get_middle.
    destruct (land_C0 n) as [[-> _]|[[_ ?]|(_ & _ & ?)]]; [|lia..].
    rewrite decide_True by done. rewrite decide_False by lia.
    rewrite Hn, Nat2Z.id.
    rewrite decide_False by (rewrite !length_app; simpl; rewrite !length_app; lia).
    change (pre ++ n :: (l ++ wire ls) ++ post) with (pre ++ [n] ++ (l ++ wire ls) ++ post).
    rewrite (app_assoc pre [n]), <- (app_assoc l).
    replace (S (length pre)) with (length (pre ++ [n])) by (rewrite length_app; simpl; lia).
    rewrite cut_middle. rewrite (app_assoc _ l), <- length_app.
    rewrite IH by lia. f_equal.
    + rewrite !length_app. simpl. rewrite length_app. lia.
    + unfold printed. csimpl. by rewrite <- !app_assoc.
    + unfold names_extra. csimpl. simpl. lia.
Qed.

Lemma present_nonempty ls : length (present ls) <> 0%nat.
Proof.
  unfold present. case_decide as E; [done|]. destruct ls as [|l ls]; [done|].
  unfold printed. csimpl. rewrite !length_app. simpl. lia.
Qed.

Lemma UnpackDomainName_wire pre ls post :
  valid_name ls ->
  UnpackDomainName (pre ++ wire ls ++ post) (length pre) =
    Ok (text (present ls)) (length pre + length (wire ls)).
Proof.
  intros [Hv Hl]. unfold UnpackDomainName.
  assert (length ls <= length (wire_labels ls))%nat.
  { unfold wire_labels. clear. induction ls as [|l ls IH]; [done|]. csimpl. rewrite length_app. lia. }
  rewrite length_wire in Hl.
  rewrite unpackName_wire by (done || rewrite !length_app, length_wire; lia).
  unfold unpackedName. rewrite (decide_True (P := (0 = 0)%nat)) by done. simpl app.
  pose proof (present_nonempty ls). unfold present in *. destruct (decide (ls = [])) as [->|Hne]; [done|].
  rewrite decide_False by done. rewrite decide_False; [done|].
  rewrite length_printed. lia.
Qed.

(** ** Packing *)

Lemma shiftDown_middle d x r j :
  exists j', shiftDown (length x) (length d) (length d + length x + length r) (d ++ x ++ r ++ j) =
    d ++ r ++ j'.
Proof.
  unfold shiftDown. eexists. rewrite take_app_length. f_equal. f_equal.
  replace (d ++ x ++ r ++ j) with ((d ++ x ++ r) ++ j) by (by rewrite <- !app_assoc).
  replace (length d + length x + length r)%nat with (length (d ++ x ++ r))
    by (rewrite !length_app; lia).
  rewrite take_app_length. rewrite app_assoc, <- length_app. apply drop_app_length.
Qed.

(** The state of the loop when the labels before the current one are [d], as raw
    text, [cur] of the current label has been read and [rest] is still to come. *)
Record packs (st : packing) (m d cur rest : list byte) (esc : bool) (n : nat) : Prop := {
  packs_bs : exists junk, p_bs st = (d ++ cur) ++ rest ++ junk;
  packs_ls : p_ls st = (length (d ++ cur) + length rest)%nat;
  packs_begin : p_begin st = length d;
  packs_msg : p_msg st = Some m;
  packs_compression : p_compression st = None;
  packs_found : p_found st = None;
  packs_esc : p_escapedDot st = esc;
  packs_labels : p_labels st = n
}.

Lemma packs_get {B} st m d cur b rest esc n (k : byte -> result B) :
  packs st m d cur (b :: rest) esc n -> get (p_bs st) (length (d ++ cur)) k = k b.
Proof. intros [[junk ->] _ _ _ _ _ _ _]. apply get_middle. Qed.

(** An escape: the byte it stands for takes its place. *)
Lemma packEscape_spec lenmsg st m d cur b rest esc n x off :
  packs st m d cur ("\"%byte :: x ++ rest) esc n -> (off < lenmsg)%nat ->
  (x = [b] /\ isDigit b = false \/
   exists d0 d1 d2, x = [d0; d1; d2] /\ isDigit d0 && isDigit d1 && isDigit d2 = true /\
     dddToByte d0 d1 d2 = b) ->
  exists st', packEscape lenmsg (length (d ++ cur)) st off = Ok st' off /\
    packs st' m d (cur ++ [b]) rest (bool_decide (b = "."%byte)) n.
Proof.
  intros [[junk Hbs] Hls Hbeg Hm Hc Hf _ Hn] Hoff Hx. unfold packEscape.
  rewrite decide_False by lia. rewrite Hbs, Hls.
  destruct (shiftDown_middle (d ++ cur) ["\"%byte] (x ++ rest) junk) as [j Hj].
  change (length ["\"%byte]) with 1%nat in Hj.
  change (("\"%byte :: x ++ rest) ++ junk) with (["\"%byte] ++ (x ++ rest) ++ junk).
  replace (length (d ++ cur) + length ("\"%byte :: x ++ rest))%nat
    with (length (d ++ cur) + 1 + length (x ++ rest))%nat by (simpl; lia).
  rewrite Hj. rewrite Nat.add_sub_swap, Nat.add_sub by lia.
  destruct Hx as [[-> Hd]|(d0 & d1 & d2 & -> & Hd & Hb)].
  - assert (forall k : byte -> result packing, get ((d ++ cur) ++ ([b] ++ rest) ++ j) (length (d ++ cur)) k = k b) as Hget.
    { intros k. apply get_middle. }
    eexists. split.
    + destruct (decide (length (d ++ cur) + 2 < length (d ++ cur) + length ([b] ++ rest))%nat) as [E|E].
      * simpl length in E. destruct rest as [|r1 [|r2 rest]]; simpl in E; try lia.
        rewrite Hget, (get_after _ _ 1 r1), (get_after _ _ 2 r2) by done.
        rewrite Hd. simpl andb. cbv iota. rewrite Hget. reflexivity.
      * rewrite Hget. reflexivity.
    + split; simpl; try done.
      * exists j. by rewrite <- !app_assoc.
      * unfold constant. rewrite !length_app. simpl. lia.
  - rewrite decide_True by (rewrite length_app; simpl; lia).
    change (([d0; d1; d2] ++ rest) ++ j) with (d0 :: d1 :: d2 :: rest ++ j).
    rewrite get_middle, (get_after _ _ 1 d1), (get_after _ _ 2 d2), Hd, Hb by done.
    rewrite insert_app_r_alt by lia. rewrite Nat.sub_diag. simpl insert.
    destruct (shiftDown_middle ((d ++ cur) ++ [b]) [d1; d2] rest j) as [j' Hj'].
    change (length [d1; d2]) with 2%nat in Hj'.
    replace (length ((d ++ cur) ++ [b])) with (length (d ++ cur) + 1)%nat in Hj'
      by (rewrite (length_app _ [b]); done).
    rewrite <- (app_assoc (d ++ cur) [b]) in Hj'. simpl app in Hj'.
    replace (length (d ++ cur) + length ([d0; d1; d2] ++ rest))%nat
      with (length (d ++ cur) + 1 + 2 + length rest)%nat by (simpl; lia).
    simpl app. rewrite Hj', <- (app_assoc (d ++ cur) [b] (rest ++ j')).
    change ([b] ++ rest ++ j') with (b :: rest ++ j'). rewrite get_middle. eexists. split; [reflexivity|].
    split; simpl; try done.
    + exists j'. by rewrite <- !app_assoc.
    + unfold constant. rewrite app_assoc, (length_app _ [b]). simpl. lia.
Qed.

(** One turn of the loop reads one byte of a label. *)
Lemma packLoop_byte lenmsg compress fuel st m d cur b rest esc n off :
  packs st m d cur (escapeByte b ++ rest) esc n -> (off < lenmsg)%nat ->
  exists st', packs st' m d (cur ++ [b]) rest (bool_decide (b = "."%byte)) n /\
    packLoop lenmsg compress (S fuel) (length (d ++ cur)) st off =
      packLoop lenmsg compress fuel (length (d ++ cur ++ [b])) st' off.
Proof.
  intros Hst Hoff.
  replace (length (d ++ cur ++ [b])) with (S (length (d ++ cur)))
    by (rewrite !length_app; simpl; lia).
  assert (0 < length (escapeByte b))%nat by (rewrite length_escapeByte; lia).
  simpl packLoop. rewrite decide_True by (rewrite (packs_ls _ _ _ _ _ _ _ Hst), !length_app; lia).
  destruct (escapeByte_cases b) as [(Hb & Hn1 & Hn2)|Hesc].
  - rewrite Hb in Hst. rewrite (packs_get _ _ _ _ _ _ _ _ _ Hst).
    rewrite !decide_False by done. eexists. split; [|reflexivity].
    rewrite bool_decide_eq_false_2 by done.
    destruct Hst as [[junk Hbs] Hls ? ? ? ? _ ?]. destruct st; simpl in *. split; simpl; try done.
    + exists junk. by rewrite Hbs, <- !app_assoc.
    + rewrite Hls, app_assoc, (length_app _ [b]). simpl. lia.
  - assert (exists x, escapeByte b = "\"%byte :: x /\
      (x = [b] /\ isDigit b = false \/ exists d0 d1 d2, x = [d0; d1; d2] /\
       isDigit d0 && isDigit d1 && isDigit d2 = true /\ dddToByte d0 d1 d2 = b)) as (x & Hx & Hcase).
    { destruct Hesc as [[-> Hd]|(d0 & d1 & d2 & -> & Hd)]; eexists; (split; [reflexivity|]).
      - by left.
      - right. by exists d0, d1, d2. }
    rewrite Hx in Hst. simpl app in Hst. rewrite (packs_get _ _ _ _ _ _ _ _ _ Hst).
    rewrite decide_True by done.
    destruct (packEscape_spec _ _ _ _ _ _ _ _ _ _ _ Hst Hoff Hcase) as (st' & -> & Hst').
    by exists st'.
Qed.

(** All of a label. *)
Lemma packLoop_label lenmsg compress fuel st m d cur l rest esc n off :
  packs st m d cur (escapeLabel l ++ rest) esc n -> (off < lenmsg)%nat ->
  esc = bool_decide (last cur = Some "."%byte) ->
  exists st', packs st' m d (cur ++ l) rest (bool_decide (last (cur ++ l) = Some "."%byte)) n /\
    packLoop lenmsg compress (length l + fuel) (length (d ++ cur)) st off =
      packLoop lenmsg compress fuel (length (d ++ cur ++ l)) st' off.
Proof.
  intros Hst Hoff. revert st cur esc Hst. induction l as [|b l IH]; intros st cur esc Hst ->.
  - exists st. by rewrite app_nil_r.
  - unfold escapeLabel in Hst. csimpl in Hst. rewrite <- app_assoc in Hst.
    destruct (packLoop_byte lenmsg compress (length l + fuel) _ _ _ _ _ _ _ _ _ Hst Hoff) as (st1 & Hst1 & Heq).
    destruct (IH _ _ _ Hst1) as (st2 & Hst2 & Heq2).
    { rewrite last_snoc. apply bool_decide_ext. naive_solver. }
    exists st2. simpl length. simpl plus. rewrite Heq.
    rewrite <- (app_assoc cur [b] l) in Hst2, Heq2. split; [done|]. exact Heq2.
Qed.

(** Copying a label into the buffer. *)
Lemma putLabel_spec lenmsg l pre junk :
  lenmsg = (length pre + length junk)%nat -> (length l <= length junk)%nat ->
  putLabel lenmsg l (Some (pre ++ junk)) (length pre) =
    Ok (Some (pre ++ l ++ drop (length l) junk)) (length pre + length l).
Proof.
  revert pre junk. induction l as [|b l IH]; intros pre junk Hlen Hl.
  - simpl. by rewrite drop_0, Nat.add_0_r.
  - destruct junk as [|x junk]; [simpl in Hl; lia|]. simpl in Hl, Hlen.
    simpl putLabel. rewrite decide_False by lia. rewrite put_middle.
    specialize (IH (pre ++ [b]) junk). rewrite !length_app in IH. simpl in IH.
    rewrite <- !app_assoc, Nat.add_1_r in IH. simpl in IH.
    rewrite IH by lia. f_equal. simpl. lia.
Qed.

(** Two dots in a row are refused only where the first one ends a label. *)
Lemma dot_before d l rest :
  (d = [] \/ l <> []) ->
  (bool_decide (0 < length (d ++ l))%nat &&
   bool_decide (((d ++ l) ++ rest) !! (length (d ++ l) - 1)%nat = Some "."%byte)) &&
  negb (bool_decide (last l = Some "."%byte)) = false.
Proof.
  intros Hdl. destruct l as [|c l _] using rev_ind.
  - destruct Hdl as [->|]; done.
  - rewrite last_snoc. rewrite (app_assoc d), (length_app _ [c]). simpl.
    rewrite Nat.add_sub, <- app_assoc. simpl. rewrite list_lookup_middle by done.
    by repeat case_bool_decide.
Qed.

(** The dot at the end of a label: its length and its bytes are in the buffer. *)
Lemma packDot_spec lenmsg compress st pre junk d l rest n :
  lenmsg = (length pre + length junk)%nat ->
  packs st (pre ++ junk) d l ("."%byte :: rest) (bool_decide (last l = Some "."%byte)) n ->
  (length l < 64)%nat -> (d = [] \/ l <> []) -> (S (length l) <= length junk)%nat ->
  exists st', packDot lenmsg compress (length (d ++ l)) st (length pre) =
      Ok (st', false) (length pre + S (length l)) /\
    packs (st' <| p_escapedDot := false |>)
      (pre ++ (byte_of_Z (Z.of_nat (length l)) :: l) ++ drop (S (length l)) junk)
      (d ++ l ++ ["."%byte]) [] rest false (S n).
Proof.
  intros Hlen [[jk Hbs] Hls Hbeg Hm Hc Hf He Hn] Hl Hdl Hj. unfold packDot.
  destruct junk as [|x junk]; [simpl in Hj; lia|]. simpl in Hj, Hlen.
  rewrite He, Hbs, dot_before by done.
  rewrite Hbeg. replace (length (d ++ l) - length d)%nat with (length l) by (rewrite length_app; lia).
  rewrite decide_False by lia. rewrite decide_False by lia.
  rewrite Hm. simpl putMsg. rewrite put_middle, <- (app_assoc d).
  rewrite (length_app d l), cut_middle. set (c := byte_of_Z _).
  pose proof (putLabel_spec lenmsg l (pre ++ [c]) junk) as Hp. rewrite length_app in Hp.
  simpl in Hp. rewrite <- !app_assoc, Nat.add_1_r in Hp. simpl in Hp.
  rewrite Hp by lia. clear Hp. simpl andThen.
  rewrite <- (Nat.add_succ_comm (length pre)). destruct st; simpl in *; subst. unfold compressName.
  destruct (compress && negb p_bsFresh); (eexists; split; [reflexivity|]); split; simpl; try done;
    unfold constant; try (exists jk; by rewrite <- !app_assoc); rewrite ?app_nil_r, ?length_app; simpl; lia.
Qed.

Lemma packLoop_labels lenmsg compress fuel st pre junk d ls n :
  lenmsg = (length pre + length junk)%nat -> Forall valid_label ls ->
  packs st (pre ++ junk) d [] (printed ls) false n ->
  (length (wire_labels ls) <= length junk)%nat -> (length (wire_labels ls) <= fuel)%nat ->
  exists st' d', packLoop lenmsg compress fuel (length d) st (length pre) =
      Ok st' (length pre + length (wire_labels ls)) /\
    packs st' (pre ++ wire_labels ls ++ drop (length (wire_labels ls)) junk) d' [] [] false
      (n + length ls) /\
    length d' = (length d + length (wire_labels ls))%nat.
Proof.
  intros Hlen Hv. revert fuel st pre junk d n Hlen.
  induction Hv as [|l ls Hl Hv IH]; intros fuel st pre junk d n Hlen Hst Hj Hf.
  - exists st, d. rewrite !Nat.add_0_r. simpl. rewrite drop_0. split_and!; try done.
    pose proof (packs_ls _ _ _ _ _ _ _ Hst) as Hls. rewrite app_nil_r in Hls. simpl in Hls.
    destruct fuel; simpl; by rewrite decide_False by lia.
  - unfold valid_label in Hl. set (c := byte_of_Z (Z.of_nat (length l))).
    assert (wire_labels (l :: ls) = (c :: l) ++ wire_labels ls) as Hw by done.
    rewrite Hw in *. rewrite (length_app (c :: l)) in *. simpl length in Hj, Hf.
    unfold printed in Hst. csimpl in Hst. rewrite <- app_assoc in Hst.
    replace fuel with (length l + S (fuel - S (length l)))%nat by lia.
    destruct (packLoop_label lenmsg compress (S (fuel - S (length l))) _ _ _ _ _ _ _ _ (length pre) Hst)
      as (st1 & Hst1 & Heq); [lia|done|].
    rewrite app_nil_r in Heq. rewrite Heq. simpl app in Hst1 |- *. clear Heq Hst.
    simpl packLoop. rewrite decide_True by (rewrite (packs_ls _ _ _ _ _ _ _ Hst1); simpl; lia).
    rewrite (packs_get _ _ _ _ _ _ _ _ _ Hst1). rewrite decide_False, decide_True by done.
    destruct (packDot_spec lenmsg compress _ pre junk _ _ _ _ Hlen Hst1) as (st2 & -> & Hst2);
      [lia|right; by destruct l; [simpl in Hl; lia|]|lia|].
    simpl andThen. cbv iota. fold c in Hst2. rewrite app_assoc in Hst2.
    destruct (IH (fuel - S (length l))%nat _ (pre ++ c :: l) (drop (S (length l)) junk) _ _
      ltac:(rewrite length_app, length_drop; simpl; lia) Hst2)
      as (st3 & d3 & Heq & Hst3 & Hd3); [rewrite length_drop; lia|lia|].
    exists st3, d3. rewrite (length_app pre) in Heq.
    replace (length (d ++ l ++ ["."%byte])) with (S (length (d ++ l))) in *
      by (rewrite !length_app; simpl; lia).
    split_and!.
    + etransitivity; [exact Heq|]. f_equal. simpl. lia.
    + rewrite <- !app_assoc, drop_drop in Hst3. rewrite <- !app_assoc. change (length (l :: ls)) with (S (length ls)).
      rewrite <- plus_n_Sm. exact Hst3.
    + rewrite Hd3, length_app. simpl. lia.
Qed.

Lemma last_present ls : last (present ls) = Some "."%byte.
Proof.
  unfold present. case_decide as E; [done|].
  destruct ls as [|l ls _] using rev_ind; [done|]. by rewrite printed_snoc, app_assoc, last_snoc.
Qed.

Lemma length_wire_labels_printed ls : (length (wire_labels ls) <= length (printed ls))%nat.
Proof. rewrite length_printed. lia. Qed.

(** Packing the presentation of a name appends its encoding to the buffer. *)
Lemma packDomainName_present compress pre junk ls :
  Forall valid_label ls -> (length (wire ls) <= length junk)%nat ->
  packDomainName (present ls) (Some (pre ++ junk)) (length pre) None compress =
    Ok (Some (pre ++ wire ls ++ drop (length (wire ls)) junk), None, length ls `max` 1)%nat
       (length pre + length (wire ls)).
Proof.
  intros Hv Hj. unfold packDomainName. rewrite last_present.
  rewrite (bool_decide_eq_true_2 ("."%byte = "."%byte)) by done.
  rewrite andb_false_r. unfold present. destruct (decide (ls = [])) as [->|Hne].
  - destruct junk as [|x junk]; [simpl in Hj; lia|]. cbn [length packLoop p_ls].
    rewrite decide_True by lia. unfold get. simpl lookup. cbv iota beta.
    rewrite decide_False, decide_True by done. unfold packDot. cbn [p_bs p_begin p_msg putMsg].
    rewrite andb_false_l, decide_False by (simpl; lia).
    rewrite decide_False by (rewrite length_app; simpl; lia).
    rewrite put_middle. unfold cut. rewrite decide_True by (simpl; lia).
    rewrite Nat.add_1_r. by destruct compress.
  - set (st := {| p_msg := _ |}). rewrite length_wire in *.
    destruct (packLoop_labels (length (pre ++ junk)) compress (length (printed ls)) st pre junk [] ls 0)
      as (st' & d' & Hloop & Hst' & Hd'); try done.
    + by rewrite length_app.
    + split; try done. exists []. simpl. by rewrite app_nil_r.
    + lia.
    + apply length_wire_labels_printed.
    + change (length (A := byte) []) with 0%nat in Hloop. rewrite Hloop. simpl andThen.
      destruct Hst' as [[jk Hbs] _ _ Hm Hc Hf _ Hn]. unfold packEnd.
      rewrite decide_False, Hf, Hm.
      2: { intros E. rewrite E in Hbs. apply (f_equal length) in Hbs. simpl in Hbs, Hd'.
           rewrite !length_app in Hbs. destruct Hv as [|l ls' Hl _]; [done|].
           unfold wire_labels in Hd'. csimpl in Hd'. rewrite length_app in Hd'.
           unfold valid_label in Hl. simpl in *. lia. }
      rewrite decide_True by (rewrite !length_app, length_drop; lia).
      destruct st'. simpl in Hc, Hn |- *. rewrite Hc, Hn. unfold constant.
      destruct ls as [|l ls]; [done|]. rewrite Nat.max_l by (simpl; lia).
      unfold wire. clear Hloop Hbs Hd' st.
      set (w := wire_labels (l :: ls)) in *. clearbody w.
      destruct (lookup_lt_is_Some_2 junk (length w)) as [y Hy]; [lia|].
      rewrite <- (length_app pre), app_assoc, (drop_S _ _ _ Hy), insert_app_r_alt, Nat.sub_diag by lia.
      rewrite <- !app_assoc, length_app. f_equal. lia.
Qed.

(** ** Packing any string

    Without a compression map, packing ends for every string and buffer, without
    a panic, and moves the offset by at most one more than the length of the
    string: the space [Msg.Len] reserves for it. *)

Section any_string.
Context (lenmsg off0 N : nat) (compress : bool).

Record pinv (i : nat) (st : packing) (off : nat) : Prop := {
  pinv_i : (i <= N)%nat;
  pinv_bs : length (p_bs st) = N;
  pinv_ls : (p_ls st <= N)%nat;
  pinv_begin : (p_begin st <= i)%nat;
  pinv_msg : exists m, p_msg st = Some m /\ length m = lenmsg;
  pinv_compression : p_compression st = None;
  pinv_found : p_found st = None;
  pinv_off : (off0 <= off <= off0 + p_begin st)%nat
}.

Lemma length_shiftDown k i ls bs :
  (i + k <= ls <= length bs)%nat -> length (shiftDown k i ls bs) = length bs.
Proof.
  intros H. unfold shiftDown. rewrite !length_app, !length_drop, !length_take. lia.
Qed.

Lemma putLabel_safe l m off :
  length m = lenmsg ->
  match putLabel lenmsg l (Some m) off with
  | Ok msg off' => (exists m', msg = Some m' /\ length m' = lenmsg) /\ off' = (off + length l)%nat
  | Fail _ _ => True
  | Crash _ | Hang => False
  end.
Proof.
  revert m off. induction l as [|b l IH]; intros m off Hm; simpl.
  - split; [by exists m|lia].
  - case_decide; [done|]. unfold put. rewrite decide_True by lia.
    specialize (IH (<[off := b]> m) (S off)). rewrite length_insert in IH.
    specialize (IH Hm). destruct (putLabel _ _ _ _); try done.
    destruct IH as [? ->]. split; [done|lia].
Qed.

Lemma packEscape_safe i st off :
  pinv i st off -> (i < p_ls st)%nat ->
  match packEscape lenmsg i st off with
  | Ok st' off' => pinv (S i) st' off'
  | Fail _ _ => True
  | Crash _ | Hang => False
  end.
Proof.
  intros [Hi Hbs Hls Hbeg Hm Hc Hf Hoff] Hlt. unfold packEscape. case_decide; [done|].
  set (bs := shiftDown 1 i (p_ls st) (p_bs st)). set (ls := (p_ls st - 1)%nat).
  assert (length bs = N) as Hbs1 by (unfold bs; rewrite length_shiftDown; lia).
  assert (forall bs2 ls2, length bs2 = N -> (ls2 <= N)%nat ->
    match get bs2 i (fun b => Ok (st <| p_bs := bs2 |> <| p_ls := ls2 |>
        <| p_escapedDot := bool_decide (b = "."%byte) |> <| p_bsFresh := false |>) off) with
    | Ok st' off' => pinv (S i) st' off' | Fail _ _ => True | Crash _ | Hang => False end) as Hfin.
  { intros bs2 ls2 H1 H2. unfold get. destruct (lookup_lt_is_Some_2 bs2 i) as [b ->]; [lia|].
    destruct st; simpl in *. split; simpl; try done; lia. }
  destruct (decide (i + 2 < ls)%nat) as [E|E]; [|apply Hfin; lia].
  unfold get at 1 2 3.
  destruct (lookup_lt_is_Some_2 bs i) as [d0 ->]; [lia|].
  destruct (lookup_lt_is_Some_2 bs (i + 1)) as [d1 ->]; [lia|].
  destruct (lookup_lt_is_Some_2 bs (i + 2)) as [d2 ->]; [lia|].
  destruct (isDigit d0 && isDigit d1 && isDigit d2); [|apply Hfin; lia].
  apply Hfin; [|lia]. rewrite length_shiftDown; rewrite length_insert; lia.
Qed.

Lemma packDot_safe i st off :
  pinv i st off -> (i < p_ls st)%nat ->
  match packDot lenmsg compress i st off with
  | Ok (st', hit) off' => hit = false /\ pinv (S i) (st' <| p_escapedDot := false |>) off'
  | Fail _ _ => True
  | Crash _ | Hang => False
  end.
Proof.
  intros [Hi Hbs Hls Hbeg (m & Hm & Hlen) Hc Hf Hoff] Hlt. unfold packDot.
  destruct (_ && negb _); [done|]. do 2 (case_decide; [done|]). rewrite Hm. simpl putMsg.
  unfold put. rewrite decide_True by lia. unfold cut. rewrite decide_True by lia.
  pose proof (putLabel_safe (take (i - p_begin st) (drop (p_begin st) (p_bs st)))
    (<[off := byte_of_Z (Z.of_nat (i - p_begin st))]> m) (S off)) as Hp.
  rewrite length_insert in Hp. specialize (Hp Hlen). destruct (putLabel _ _ _ _) as [msg off'|??|?|]; try done.
  destruct Hp as [(m' & -> & Hm') ->]. rewrite length_take, length_drop. simpl andThen.
  destruct st; simpl in *; subst. unfold compressName.
  destruct (compress && negb p_bsFresh); simpl; (split; [done|]); split; simpl; try done;
    unfold constant; try lia; eauto.
Qed.

Lemma packLoop_safe fuel i st off :
  pinv i st off -> (N <= i + fuel)%nat ->
  match packLoop lenmsg compress fuel i st off with
  | Ok st' off' => exists i', pinv i' st' off'
  | Fail _ _ => True
  | Crash _ | Hang => False
  end.
Proof.
  revert i st off. induction fuel as [|fuel IH]; intros i st off Hst HN; simpl.
  - pose proof (pinv_ls _ _ _ Hst). rewrite decide_False by lia. by exists i.
  - destruct (decide (i < p_ls st)%nat) as [Hi|Hi]; [|by exists i].
    pose proof (pinv_ls _ _ _ Hst). pose proof (pinv_bs _ _ _ Hst).
    unfold get. destruct (lookup_lt_is_Some_2 (p_bs st) i) as [b ->]; [lia|].
    case_decide.
    + pose proof (packEscape_safe i st off Hst Hi) as He.
      destruct (packEscape _ _ _ _); try done. simpl. apply IH; [done|lia].
    + case_decide.
      * pose proof (packDot_safe i st off Hst Hi) as Hd.
        destruct (packDot _ _ _ _ _) as [[st' hit] off'|??|?|]; try done.
        destruct Hd as [-> Hd]. simpl. apply IH; [done|lia].
      * apply IH; [|lia]. destruct Hst as [? ? ? ? ? ? ? ?]. destruct st; simpl in *.
        split; simpl; try done; lia.
Qed.
End any_string.

Lemma packDomainName_safe s m off compress :
  match packDomainName s (Some m) off None compress with
  | Ok (msg, compression, _) off' =>
      (exists m', msg = Some m' /\ length m' = length m) /\ compression = None /\
      (off <= off' <= off + length s + 1)%nat
  | Fail _ _ => True
  | Crash _ | Hang => False
  end.
Proof.
  unfold packDomainName. destruct (last s) as [c|]; [|split_and!; [by exists m|done|lia..]].
  rewrite (bool_decide_eq_true_2 (is_Some (Some m))) by eauto.
  destruct (bool_decide (c = "."%byte)); [|done]. simpl andb. cbv iota.
  set (st := {| p_msg := _ |}).
  assert (pinv (length m) off (length s) 0 st off) as Hinit.
  { split; simpl; try done; try lia. by exists m. }
  pose proof (packLoop_safe (length m) off (length s) compress (length s) 0 st off Hinit) as Hloop.
  specialize (Hloop ltac:(lia)).
  destruct (packLoop _ _ _ _ _ _) as [st' off'|??|?|]; try done. simpl.
  destruct Hloop as (i & [Hi Hbs _ Hbeg (m' & Hm' & Hlen) Hc Hf Hoff]).
  unfold packEnd. case_decide; simpl; [|rewrite Hf; simpl; rewrite Hm'; destruct st'; simpl in *].
  - rewrite Hm', Hc. split_and!; [by exists m'|done|lia..].
  - split_and!; [|done|unfold constant; lia..]. eexists. split; [done|].
    case_decide; rewrite ?length_insert; done.
Qed.
