(* ===== verification/DnsField.v ===== *)
(** * The fields of a record on the wire

    [msg_helpers.go] of [github.com/miekg/dns], the character strings of
    [msg.go] and the EDNS0 options of [edns.go]: one pair of functions for each
    kind of field.  A packing function gives the buffer afterwards; [buffer] is
    the buffer with the compression map, which names share. *)

From Stdlib Require Import ZArith Lia NArith Ascii Strings.Byte Strings.String.
From stdpp Require Import base numbers gmap strings list fin_maps.
From S2P Require Import Prelude GoNet Endian GoEncoding DnsRR DnsName.

Open Scope Z_scope.
Open Scope dns_scope.

(** ** Buffers *)

(** A write of all of [w] at [off], and [copy(msg[off:], src)]. *)
Definition putBytes {B} (msg : list byte) (off : nat) (w : list byte) (k : list byte -> result B)
    : result B :=
  if decide (off + length w <= length msg)%nat
  then k (take off msg ++ w ++ drop (off + length w) msg)
  else Crash IndexOutOfRange.

Definition copyAt {B} (msg : list byte) (off : nat) (src : list byte) (k : list byte -> result B)
    : result B :=
  if decide (off <= length msg)%nat then
    let w := take (length msg - off) src in
    k (take off msg ++ w ++ drop (off + length w) msg)
  else Crash SliceOutOfRange.

Definition buffer : Type := list byte * option (gmap (list byte) nat).

(** A field that does not look at the compression map. *)
Definition onMsg (f : list byte -> nat -> result (list byte)) (b : buffer) (off : nat)
    : result buffer :=
  let! msg, off := f b.1 off in
  Ok (msg, b.2) off.

(** ** Integers *)

Definition unpackUint (n : nat) (what : string) (msg : list byte) (off : nat) : result Z :=
  if decide (length msg < off + n)%nat
  then Fail (length msg) (Error ("overflow unpacking " +:+ what))
  else
    let* w := (cut msg off (off + n)) in
    Ok (bigEndian w) (off + n).

Definition packUint (n : nat) (what : string) (i : Z) (msg : list byte) (off : nat)
    : result (list byte) :=
  if decide (length msg < off + n)%nat
  then Fail (length msg) (Error ("overflow packing " +:+ what))
  else
    let* msg := (putBytes msg off (be n i)) in
    Ok msg (off + n).

Definition unpackUint8 := unpackUint 1 "uint8".
Definition packUint8 := packUint 1 "uint8".
Definition unpackUint16 := unpackUint 2 "uint16".
Definition packUint16 := packUint 2 "uint16".
Definition unpackUint32 := unpackUint 4 "uint32".
Definition packUint32 := packUint 4 "uint32".
Definition unpackUint48 := unpackUint 6 "uint64 as uint48".
Definition packUint48 := packUint 6 "uint64 as uint48".
Definition unpackUint64 := unpackUint 8 "uint64".
Definition packUint64 := packUint 8 "uint64".

(** ** Addresses *)

Definition unpackDataA (msg : list byte) (off : nat) : result (list byte) :=
  if decide (length msg < off + 4)%nat then Fail (length msg) (Error "overflow unpacking a")
  else
    let* a := (cut msg off (off + 4)) in
    Ok a (off + 4).

Definition packDataA (a msg : list byte) (off : nat) : result (list byte) :=
  let overflow := Fail (length msg) (Error "overflow packing a") in
  if decide (length msg < off + 4)%nat then overflow
  else if decide (length a = 4 \/ length a = 16)%nat then
    let* msg := (copyAt msg off (net.To4 a)) in
    Ok msg (off + 4)
  else if decide (length a = 0)%nat then Ok msg off
  else overflow.

Definition unpackDataAAAA (msg : list byte) (off : nat) : result (list byte) :=
  if decide (length msg < off + 16)%nat then Fail (length msg) (Error "overflow unpacking aaaa")
  else
    let* aaaa := (cut msg off (off + 16)) in
    Ok aaaa (off + 16).

Definition packDataAAAA (aaaa msg : list byte) (off : nat) : result (list byte) :=
  let overflow := Fail (length msg) (Error "overflow packing aaaa") in
  if decide (length msg < off + 16)%nat then overflow
  else if decide (length aaaa = 16)%nat then
    let* msg := (copyAt msg off aaaa) in
    Ok msg (off + 16)
  else if decide (length aaaa = 0)%nat then Ok msg off
  else overflow.

(** ** Names *)

Definition PackDomainName (s : string) (compress : bool) (b : buffer) (off : nat) : result buffer :=
  let! r, off := packDomainName (bytes s) (Some b.1) off b.2 compress in
  match r.1.1 with
  | Some msg => Ok (msg, r.1.2) off
  | None => Crash NilDereference
  end.

(** The names up to [stop]; each takes at least one byte. *)
Fixpoint unpackNames (fuel : nat) (msg : list byte) (off stop : nat) (servers : list string)
    : result (list string) :=
  if decide (off < stop)%nat then
    match fuel with
    | O => Hang
    | S fuel =>
        let! s, off := failAt (length msg) (UnpackDomainName msg off) in
        unpackNames fuel msg off stop (servers ++ [s])
    end
  else Ok servers off.

Definition unpackDataDomainNames (msg : list byte) (off stop : nat) : result (list string) :=
  if decide (length msg < stop)%nat
  then Fail (length msg) (Error "overflow unpacking domain names")
  else unpackNames (length msg) msg off stop [].

Fixpoint packDataDomainNames (names : list string) (b : buffer) (off : nat) : result buffer :=
  match names with
  | [] => Ok b off
  | s :: names =>
      let! b, off := failAt (length b.1) (PackDomainName s false b off) in
      packDataDomainNames names b off
  end.

(** ** Character strings *)

(** What a byte of a string is unpacked to. *)
Definition escapeTxt (b : byte) : list byte :=
  if decide (b = "034"%byte \/ b = "\"%byte) then ["\"%byte; b]
  else if (u8 b <? 32) || (127 <? u8 b) then "\"%byte :: ddd b
  else [b].

Definition unpackTxtString (msg : list byte) (offset : nat) : result string :=
  let overflow := Fail offset (Error "overflow unpacking txt") in
  if decide (length msg < offset + 1)%nat then overflow
  else
    let* c := (get msg offset) in
    let l := Z.to_nat (u8 c) in
    if decide (length msg < offset + l + 1)%nat then overflow
    else
      let* w := (cut msg (offset + 1) (offset + 1 + l)) in
      Ok (text (concat (escapeTxt <$> w))) (offset + 1 + l).

(** [unpackString] is the same function for a field of its own. *)
Definition unpackString (msg : list byte) (off : nat) : result string := unpackTxtString msg off.

Fixpoint unpackTxt (fuel : nat) (msg : list byte) (off : nat) (ss : list string)
    : result (list string) :=
  if decide (off < length msg)%nat then
    match fuel with
    | O => Hang
    | S fuel =>
        let! s, off := unpackTxtString msg off in
        unpackTxt fuel msg off (ss ++ [s])
    end
  else Ok ss off.

Definition unpackStringTxt (msg : list byte) (off : nat) : result (list string) :=
  failAt (length msg) (unpackTxt (length msg) msg off []).

(** The loop of [packTxtString] and [packOctetString] over the bytes of the
    string: escapes are written as the byte they stand for. *)
Fixpoint packChars (bs msg : list byte) (offset : nat) : result (list byte) :=
  match bs with
  | [] => Ok msg offset
  | b :: bs =>
      if decide (length msg <= offset)%nat then Fail offset ErrBuf
      else if decide (b = "\"%byte) then
        match bs with
        | [] => Ok msg offset
        | d0 :: bs1 =>
            match bs1 with
            | d1 :: d2 :: bs3 =>
                if isDigit d0 && isDigit d1 && isDigit d2 then
                  let* msg := (put msg offset (dddToByte d0 d1 d2)) in
                  packChars bs3 msg (S offset)
                else
                  let* msg := (put msg offset d0) in
                  packChars bs1 msg (S offset)
            | _ =>
                let* msg := (put msg offset d0) in
                packChars bs1 msg (S offset)
            end
        end
      else
        let* msg := (put msg offset b) in
        packChars bs msg (S offset)
  end.

(** The length of the scratch buffer [txtTmp]. *)
Definition lenTmp : nat := 256 * 4 + 1.

Definition packTxtString (s : string) (msg : list byte) (offset : nat) : result (list byte) :=
  let lenByteOffset := offset in
  if decide (length msg <= offset \/ lenTmp < length (bytes s))%nat then Fail offset ErrBuf
  else
    let! msg, offset := packChars (bytes s) msg (S offset) in
    let l := (offset - lenByteOffset - 1)%nat in
    if decide (255 < l)%nat then Fail offset (Error "string exceeded 255 bytes in txt")
    else
      let* msg := (put msg lenByteOffset (byte_of_Z (Z.of_nat l))) in
      Ok msg offset.

Definition packString (s : string) (msg : list byte) (off : nat) : result (list byte) :=
  failAt (length msg) (packTxtString s msg off).

Fixpoint packTxtStrings (txt : list string) (msg : list byte) (offset : nat) : result (list byte) :=
  match txt with
  | [] => Ok msg offset
  | s :: txt =>
      if decide (lenTmp < length (bytes s))%nat then Fail offset ErrBuf
      else
        let! msg, offset := packTxtString s msg offset in
        packTxtStrings txt msg offset
  end.

Definition packTxt (txt : list string) (msg : list byte) (offset : nat) : result (list byte) :=
  match txt with
  | [] =>
      if decide (length msg <= offset)%nat then Fail offset ErrBuf
      else
        let* msg := (put msg offset Byte.x00) in
        Ok msg offset
  | _ => packTxtStrings txt msg offset
  end.

Definition packStringTxt (s : list string) (msg : list byte) (off : nat) : result (list byte) :=
  failAt (length msg) (packTxt s msg off).

Definition unpackStringOctet (msg : list byte) (off : nat) : result string :=
  let* w := (cut msg off (length msg)) in
  Ok (text w) (length msg).

Definition packOctetString (s : string) (msg : list byte) (offset : nat) : result (list byte) :=
  if decide (length msg <= offset \/ lenTmp < length (bytes s))%nat then Fail offset ErrBuf
  else packChars (bytes s) msg offset.

Definition packStringOctet (s : string) (msg : list byte) (off : nat) : result (list byte) :=
  failAt (length msg) (packOctetString s msg off).

(** ** Encoded bytes *)

Definition unpackStringBase32 (msg : list byte) (off stop : nat) : result string :=
  if decide (length msg < stop)%nat then Fail (length msg) (Error "overflow unpacking base32")
  else
    let* w := (cut msg off stop) in
    Ok (text (base32.EncodeToString w)) stop.

Definition unpackStringBase64 (msg : list byte) (off stop : nat) : result string :=
  if decide (length msg < stop)%nat then Fail (length msg) (Error "overflow unpacking base64")
  else
    let* w := (cut msg off stop) in
    Ok (text (base64.EncodeToString w)) stop.

Definition unpackStringHex (msg : list byte) (off stop : nat) : result string :=
  if decide (length msg < stop)%nat then Fail (length msg) (Error "overflow unpacking hex")
  else
    let* w := (cut msg off stop) in
    Ok (text (hex.EncodeToString w)) stop.

(** The common end of the packing functions: the decoded bytes go to [off]. *)
Definition packDecoded (what : string) (decoded : list byte + error) (msg : list byte) (off : nat)
    : result (list byte) :=
  match decoded with
  | inr e => Fail (length msg) e
  | inl w =>
      if decide (length msg < off + length w)%nat
      then Fail (length msg) (Error ("overflow packing " +:+ what))
      else
        let* msg := (putBytes msg off w) in
        Ok msg (off + length w)
  end.

(** [fromBase32], which takes lower-case digits too. *)
Definition fromBase32 (s : list byte) : list byte + error :=
  base32.Decode ((fun b => if (97 <=? u8 b) && (u8 b <=? 122) then byte_of_Z (u8 b - 32) else b) <$> s).

Definition packStringBase32 (s : string) := packDecoded "base32" (fromBase32 (bytes s)).
Definition packStringBase64 (s : string) := packDecoded "base64" (base64.DecodeString (bytes s)).
Definition packStringHex (s : string) := packDecoded "hex" (hex.DecodeString (bytes s)).

(** ** Type bit maps *)

(** The types of one byte of a window, whose first bit is the type [t]. *)
Definition bitTypes (t : Z) (b : byte) : list Z :=
  (fun k => t + k) <$> filter (fun k => Z.testbit (u8 b) (7 - k) = true) [0; 1; 2; 3; 4; 5; 6; 7].

Fixpoint windowTypes (t : Z) (w : list byte) : list Z :=
  match w with
  | [] => []
  | b :: w => bitTypes t b ++ windowTypes (t + 8) w
  end.

Fixpoint unpackWindows (fuel : nat) (msg : list byte) (off : nat) (lastwindow : Z) (nsec : list Z)
    : result (list Z) :=
  if decide (off < length msg)%nat then
    match fuel with
    | O => Hang
    | S fuel =>
        let fail what := Fail (length msg) (Error what) in
        if decide (length msg < off + 2)%nat then fail "overflow unpacking nsecx"
        else
          let* b0 := (get msg off) in
          let* b1 := (get msg (off + 1)) in
          let window := u8 b0 in
          let length_ := u8 b1 in
          let off := (off + 2)%nat in
          if decide (window <= lastwindow) then fail "out of order NSEC block"
          else if decide (length_ = 0) then fail "empty NSEC block"
          else if decide (32 < length_) then fail "NSEC block too long"
          else if decide (length msg < off + Z.to_nat length_)%nat then fail "overflowing NSEC block"
          else
            let* w := (cut msg off (off + Z.to_nat length_)) in
            unpackWindows fuel msg (off + Z.to_nat length_) window
              (nsec ++ windowTypes (window * 256) w)
    end
  else Ok nsec off.

Definition unpackDataNsec (msg : list byte) (off : nat) : result (list Z) :=
  unpackWindows (length msg) msg off (-1) [].

Fixpoint packWindows (bitmap : list Z) (lastwindow lastlength : Z) (msg : list byte) (off : nat)
    : result (list byte) :=
  match bitmap with
  | [] => Ok msg (off + Z.to_nat lastlength + 2)
  | t :: bitmap =>
      let window := t / 256 in
      let length_ := (t - window * 256) / 8 + 1 in
      let jump := bool_decide (lastwindow < window) && negb (bool_decide (lastlength = 0)) in
      let off := if jump then (off + (Z.to_nat lastlength + 2))%nat else off in
      let lastlength := if jump then 0 else lastlength in
      if decide (window < lastwindow \/ length_ < lastlength)
      then Fail (length msg) (Error "nsec bits out of order")
      else if decide (length msg < off + 2 + Z.to_nat length_)%nat
      then Fail (length msg) (Error "overflow packing nsec")
      else
        let* msg := (put msg off (byte_of_Z window)) in
        let* msg := (put msg (off + 1) (byte_of_Z length_)) in
        let* b := (get msg (off + 1 + Z.to_nat length_)) in
        let* msg := (put msg (off + 1 + Z.to_nat length_)
                       (byte_of_Z (Z.lor (u8 b) (Z.shiftl 1 (7 - t mod 8))))) in
        packWindows bitmap window length_ msg off
  end.

Definition packDataNsec (bitmap : list Z) (msg : list byte) (off : nat) : result (list byte) :=
  match bitmap with
  | [] => Ok msg off
  | _ => packWindows bitmap 0 0 msg off
  end.

(** ** EDNS0 options *)

Definition EDNS0LLQ : Z := 0x1.
Definition EDNS0UL : Z := 0x2.
Definition EDNS0NSID : Z := 0x3.
Definition EDNS0DAU : Z := 0x5.
Definition EDNS0DHU : Z := 0x6.
Definition EDNS0N3U : Z := 0x7.
Definition EDNS0SUBNET : Z := 0x8.
Definition EDNS0EXPIRE : Z := 0x9.
Definition EDNS0COOKIE : Z := 0xa.
Definition EDNS0TCPKEEPALIVE : Z := 0xb.
Definition EDNS0PADDING : Z := 0xc.

(** [Option()]. *)
Definition Option (e : EDNS0) : Z :=
  match e with
  | EDNS0_NSID _ _ => EDNS0NSID
  | EDNS0_SUBNET _ _ _ _ _ => EDNS0SUBNET
  | EDNS0_COOKIE _ _ => EDNS0COOKIE
  | EDNS0_UL _ _ => EDNS0UL
  | EDNS0_LLQ _ _ _ _ _ _ => EDNS0LLQ
  | EDNS0_DAU _ _ => EDNS0DAU
  | EDNS0_DHU _ _ => EDNS0DHU
  | EDNS0_N3U _ _ => EDNS0N3U
  | EDNS0_EXPIRE _ _ => EDNS0EXPIRE
  | EDNS0_LOCAL Code _ => Code
  | EDNS0_TCP_KEEPALIVE _ _ _ => EDNS0TCPKEEPALIVE
  | EDNS0_PADDING _ => EDNS0PADDING
  end.

(** The first [n] bytes from [b[4]] on, zero where [b] ends. *)
Definition subnetAddr (n : nat) (b : list byte) : list byte :=
  let a := take n (drop 4 b) in
  a ++ replicate (n - length a) Byte.x00.

Definition EDNS0_SUBNET_unpack (b : list byte) : result EDNS0 :=
  if decide (length b < 4)%nat then Fail 0 ErrBuf
  else
    let* f := (cut b 0 2) in
    let* m := (get b 2) in
    let* s := (get b 3) in
    let Family := bigEndian f in
    let SourceNetmask := u8 m in
    let SourceScope := u8 s in
    let subnet Address := Ok (EDNS0_SUBNET 0 Family SourceNetmask SourceScope Address) 0 in
    if decide (Family = 0) then
      if decide (SourceNetmask <> 0) then Fail 0 (ErrorString "dns: bad address family")
      else subnet net.IPv4zero
    else if decide (Family = 1) then
      if decide (32 < SourceNetmask \/ 32 < SourceScope) then Fail 0 (ErrorString "dns: bad netmask")
      else subnet (net.v4InV6Prefix ++ subnetAddr 4 b)
    else if decide (Family = 2) then
      if decide (128 < SourceNetmask \/ 128 < SourceScope) then Fail 0 (ErrorString "dns: bad netmask")
      else subnet (subnetAddr 16 b)
    else Fail 0 (ErrorString "dns: bad address family").

Definition EDNS0_UL_unpack (b : list byte) : result EDNS0 :=
  if decide (length b < 4)%nat then Fail 0 ErrBuf
  else
    let* w := (cut b 0 4) in
    Ok (EDNS0_UL 0 (bigEndian w)) 0.

Definition EDNS0_LLQ_unpack (b : list byte) : result EDNS0 :=
  if decide (length b < 18)%nat then Fail 0 ErrBuf
  else
    let* Version := (cut b 0 2) in
    let* Opcode := (cut b 2 4) in
    let* Error := (cut b 4 6) in
    let* Id := (cut b 6 14) in
    let* LeaseLife := (cut b 14 18) in
    Ok (EDNS0_LLQ 0 (bigEndian Version) (bigEndian Opcode) (bigEndian Error) (bigEndian Id)
          (bigEndian LeaseLife)) 0.

(** The [switch code] of [unpackDataOpt]: the option that [b] holds. *)
Definition unpackOption (code : Z) (b : list byte) : result EDNS0 :=
  if decide (code = EDNS0NSID) then Ok (EDNS0_NSID 0 (text (hex.EncodeToString b))) 0
  else if decide (code = EDNS0SUBNET) then EDNS0_SUBNET_unpack b
  else if decide (code = EDNS0COOKIE) then Ok (EDNS0_COOKIE 0 (text (hex.EncodeToString b))) 0
  else if decide (code = EDNS0UL) then EDNS0_UL_unpack b
  else if decide (code = EDNS0LLQ) then EDNS0_LLQ_unpack b
  else if decide (code = EDNS0DAU) then Ok (EDNS0_DAU 0 b) 0
  else if decide (code = EDNS0DHU) then Ok (EDNS0_DHU 0 b) 0
  else if decide (code = EDNS0N3U) then Ok (EDNS0_N3U 0 b) 0
  else if decide (code = EDNS0PADDING) then Ok (EDNS0_PADDING b) 0
  else Ok (EDNS0_LOCAL code b) 0.

(** The loop over the options; each takes at least four bytes. *)
Fixpoint unpackOptions (fuel : nat) (msg : list byte) (off : nat) (edns : list EDNS0)
    : result (list EDNS0) :=
  match fuel with
  | O => Hang
  | S fuel =>
      let overflow := Fail (length msg) (Error "overflow unpacking opt") in
      if decide (length msg < off + 4)%nat then overflow
      else
        let* c := (cut msg off (off + 2)) in
        let* l := (cut msg (off + 2) (off + 4)) in
        let off := (off + 4)%nat in
        let optlen := Z.to_nat (bigEndian l) in
        if decide (length msg < off + optlen)%nat then overflow
        else
          let* b := (cut msg off (off + optlen)) in
          let! e, _off := failAt (length msg) (unpackOption (bigEndian c) b) in
          if decide (off + optlen < length msg)%nat
          then unpackOptions fuel msg (off + optlen) (edns ++ [e])
          else Ok (edns ++ [e]) (off + optlen)
  end.

Definition unpackDataOpt (msg : list byte) (off : nat) : result (list EDNS0) :=
  unpackOptions (S (length msg)) msg off [].

Definition EDNS0_SUBNET_pack (Family SourceNetmask SourceScope : Z) (Address : list byte)
    : list byte + error :=
  let b := be 2 Family ++ [byte_of_Z SourceNetmask; byte_of_Z SourceScope] in
  let needLength := Z.to_nat ((SourceNetmask + 8 - 1) / 8) in
  if decide (Family = 0) then
    if decide (SourceNetmask <> 0) then inr (ErrorString "dns: bad address family") else inl b
  else if decide (Family = 1) then
    if decide (32 < SourceNetmask) then inr (ErrorString "dns: bad netmask")
    else if decide (length (net.To4 Address) <> 4)%nat then inr (ErrorString "dns: bad address")
    else inl (b ++ take needLength (net.Mask (net.To4 Address) (net.CIDRMask SourceNetmask 4)))
  else if decide (Family = 2) then
    if decide (128 < SourceNetmask) then inr (ErrorString "dns: bad netmask")
    else if decide (length Address <> 16)%nat then inr (ErrorString "dns: bad address")
    else inl (b ++ take needLength (net.Mask Address (net.CIDRMask SourceNetmask 16)))
  else inr (ErrorString "dns: bad address family").

Definition EDNS0_LLQ_pack (Version Opcode Error Id LeaseLife : Z) : list byte :=
  be 2 Version ++ be 2 Opcode ++ be 2 Error ++ be 8 Id ++ be 4 LeaseLife.

(** The option repeats its code and length before the timeout. *)
Definition EDNS0_TCP_KEEPALIVE_pack (Code Length Timeout : Z) : list byte + error :=
  if decide (Timeout <> 0 /\ Length <> 2)
  then inr (ErrorString "dns: timeout specified but length is not 2")
  else if decide (Timeout = 0 /\ Length <> 0)
  then inr (ErrorString "dns: timeout not specified but length is not 0")
  else inl (be 2 Code ++ be 2 Length ++ if decide (Length = 2) then be 2 Timeout else []).

(** [pack()] of an option. *)
Definition packOption (e : EDNS0) : list byte + error :=
  match e with
  | EDNS0_NSID _ Nsid => hex.DecodeString (bytes Nsid)
  | EDNS0_SUBNET _ Family SourceNetmask SourceScope Address =>
      EDNS0_SUBNET_pack Family SourceNetmask SourceScope Address
  | EDNS0_COOKIE _ Cookie => hex.DecodeString (bytes Cookie)
  | EDNS0_UL _ Lease => inl (be 4 Lease)
  | EDNS0_LLQ _ Version Opcode Error Id LeaseLife =>
      inl (EDNS0_LLQ_pack Version Opcode Error Id LeaseLife)
  | EDNS0_DAU _ AlgCode | EDNS0_DHU _ AlgCode | EDNS0_N3U _ AlgCode => inl AlgCode
  | EDNS0_EXPIRE _ Expire => inl (be 4 Expire)
  | EDNS0_LOCAL _ Data => inl Data
  | EDNS0_TCP_KEEPALIVE Code Length Timeout => EDNS0_TCP_KEEPALIVE_pack Code Length Timeout
  | EDNS0_PADDING Padding => inl Padding
  end.

Fixpoint packDataOpt (options : list EDNS0) (msg : list byte) (off : nat) : result (list byte) :=
  match options with
  | [] => Ok msg off
  | el :: options =>
      let overflow := Fail (length msg) (Error "overflow packing opt") in
      match packOption el with
      | inr _ => overflow
      | inl b =>
          if decide (length msg < off + 3)%nat then overflow
          else
            let* msg := (putBytes msg off (be 2 (Option el))) in
            let* msg := (putBytes msg (off + 2) (be 2 (Z.of_nat (length b)))) in
            let off := (off + 4)%nat in
            if decide (length msg < off + length b)%nat then
              let* msg := (copyAt msg off b) in
              packDataOpt options msg (length msg)
            else
              let* msg := (putBytes msg off b) in
              packDataOpt options msg (off + length b)
      end
  end.
