(* ===== verification/DnsZmsg.v ===== *)
(** * Packing and unpacking each record type

    [zmsg.go] and the [len] methods of [ztypes.go], [types.go] and [edns.go]:
    for every record type the function that reads its fields, the one that
    writes them and the length that is reserved for them.  The Go code is
    generated from the struct declarations; so is its translation, statement by
    statement. *)

From Stdlib Require Import ZArith Lia NArith Ascii Strings.Byte Strings.String.
From stdpp Require Import base numbers gmap strings list fin_maps.
From S2P Require Import Prelude GoNet Endian GoEncoding DnsRR DnsName DnsField.

Open Scope Z_scope.
Open Scope dns_scope.

(** ** The header of a record *)

Definition noRdata (h : RR_Header) : bool := Rdlength h =? 0.

(** [uint16(x)]. *)
Definition uint16 (z : Z) : Z := z mod 2 ^ 16.

Definition withRdlength (h : RR_Header) (l : Z) : RR_Header :=
  {| RR_Name := RR_Name h; Rrtype := Rrtype h; RR_Class := RR_Class h; Ttl := Ttl h;
     Rdlength := l |}.

(** [hdr.pack]. *)
Definition packHeader (hdr : RR_Header) (compress : bool) (b : buffer) (off : nat) : result buffer :=
  if decide (off = length b.1) then Ok b off
  else
    failAt (length b.1)
      (let! b, off := PackDomainName (RR_Name hdr) compress b off in
       let! b, off := onMsg (packUint16 (Rrtype hdr)) b off in
       let! b, off := onMsg (packUint16 (RR_Class hdr)) b off in
       let! b, off := onMsg (packUint32 (Ttl hdr)) b off in
       let! b, off := onMsg (packUint16 (Rdlength hdr)) b off in
       Ok b off).

(** The last statements of every [pack] method: [Rdlength] is set in the record,
    not yet in the buffer. *)
Definition packed (h : RR_Header) (data : rdata) (headerEnd off : nat) : RR :=
  mkRR (withRdlength h (uint16 (Z.of_nat off - Z.of_nat headerEnd))) data.

(** [off == len(msg)]: the fields that follow are missing. *)
Definition atEnd (msg : list byte) (off : nat) : bool := bool_decide (off = length msg).

(** ** Unpacking *)

Definition unpackA (h : RR_Header) (msg : list byte) (off : nat) : result RR :=
  if noRdata h then Ok (mkRR h (RR_A [])) off
  else
    let! A, off := unpackDataA msg off in
    Ok (mkRR h (RR_A A)) off.

Definition unpackAAAA (h : RR_Header) (msg : list byte) (off : nat) : result RR :=
  if noRdata h then Ok (mkRR h (RR_AAAA [])) off
  else
    let! AAAA, off := unpackDataAAAA msg off in
    Ok (mkRR h (RR_AAAA AAAA)) off.

Definition unpackAFSDB (h : RR_Header) (msg : list byte) (off : nat) : result RR :=
  if noRdata h then Ok (mkRR h (RR_AFSDB 0 "")) off
  else
    let! Subtype, off := unpackUint16 msg off in
    if atEnd msg off then Ok (mkRR h (RR_AFSDB Subtype "")) off else
    let! Hostname, off := UnpackDomainName msg off in
    Ok (mkRR h (RR_AFSDB Subtype Hostname)) off.

Definition unpackANY (h : RR_Header) (msg : list byte) (off : nat) : result RR :=
  if noRdata h then Ok (mkRR h RR_ANY) off
  else
    Ok (mkRR h RR_ANY) off.

Definition unpackAVC (h : RR_Header) (msg : list byte) (off : nat) : result RR :=
  if noRdata h then Ok (mkRR h (RR_AVC [])) off
  else
    let! Txt, off := unpackStringTxt msg off in
    Ok (mkRR h (RR_AVC Txt)) off.

Definition unpackCAA (h : RR_Header) (msg : list byte) (off : nat) : result RR :=
  if noRdata h then Ok (mkRR h (RR_CAA 0 "" "")) off
  else
    let! Flag, off := unpackUint8 msg off in
    if atEnd msg off then Ok (mkRR h (RR_CAA Flag "" "")) off else
    let! Tag, off := unpackString msg off in
    if atEnd msg off then Ok (mkRR h (RR_CAA Flag Tag "")) off else
    let! Value, off := unpackStringOctet msg off in
    Ok (mkRR h (RR_CAA Flag Tag Value)) off.

Definition unpackCDNSKEY (h : RR_Header) (msg : list byte) (off : nat) : result RR :=
  if noRdata h then Ok (mkRR h (RR_CDNSKEY 0 0 0 "")) off
  else
    let rdStart := off in
    let! Flags, off := unpackUint16 msg off in
    if atEnd msg off then Ok (mkRR h (RR_CDNSKEY Flags 0 0 "")) off else
    let! Protocol, off := unpackUint8 msg off in
    if atEnd msg off then Ok (mkRR h (RR_CDNSKEY Flags Protocol 0 "")) off else
    let! Algorithm, off := unpackUint8 msg off in
    if atEnd msg off then Ok (mkRR h (RR_CDNSKEY Flags Protocol Algorithm "")) off else
    let! PublicKey, off := unpackStringBase64 msg off (rdStart + Z.to_nat (Rdlength h)) in
    Ok (mkRR h (RR_CDNSKEY Flags Protocol Algorithm PublicKey)) off.

Definition unpackCDS (h : RR_Header) (msg : list byte) (off : nat) : result RR :=
  if noRdata h then Ok (mkRR h (RR_CDS 0 0 0 "")) off
  else
    let rdStart := off in
    let! KeyTag, off := unpackUint16 msg off in
    if atEnd msg off then Ok (mkRR h (RR_CDS KeyTag 0 0 "")) off else
    let! Algorithm, off := unpackUint8 msg off in
    if atEnd msg off then Ok (mkRR h (RR_CDS KeyTag Algorithm 0 "")) off else
    let! DigestType, off := unpackUint8 msg off in
    if atEnd msg off then Ok (mkRR h (RR_CDS KeyTag Algorithm DigestType "")) off else
    let! Digest, off := unpackStringHex msg off (rdStart + Z.to_nat (Rdlength h)) in
    Ok (mkRR h (RR_CDS KeyTag Algorithm DigestType Digest)) off.

Definition unpackCERT (h : RR_Header) (msg : list byte) (off : nat) : result RR :=
  if noRdata h then Ok (mkRR h (RR_CERT 0 0 0 "")) off
  else
    let rdStart := off in
    let! Type_, off := unpackUint16 msg off in
    if atEnd msg off then Ok (mkRR h (RR_CERT Type_ 0 0 "")) off else
    let! KeyTag, off := unpackUint16 msg off in
    if atEnd msg off then Ok (mkRR h (RR_CERT Type_ KeyTag 0 "")) off else
    let! Algorithm, off := unpackUint8 msg off in
    if atEnd msg off then Ok (mkRR h (RR_CERT Type_ KeyTag Algorithm "")) off else
    let! Certificate, off := unpackStringBase64 msg off (rdStart + Z.to_nat (Rdlength h)) in
    Ok (mkRR h (RR_CERT Type_ KeyTag Algorithm Certificate)) off.

Definition unpackCNAME (h : RR_Header) (msg : list byte) (off : nat) : result RR :=
  if noRdata h then Ok (mkRR h (RR_CNAME "")) off
  else
    let! Target, off := UnpackDomainName msg off in
    Ok (mkRR h (RR_CNAME Target)) off.

Definition unpackCSYNC (h : RR_Header) (msg : list byte) (off : nat) : result RR :=
  if noRdata h then Ok (mkRR h (RR_CSYNC 0 0 [])) off
  else
    let! Serial, off := unpackUint32 msg off in
    if atEnd msg off then Ok (mkRR h (RR_CSYNC Serial 0 [])) off else
    let! Flags, off := unpackUint16 msg off in
    if atEnd msg off then Ok (mkRR h (RR_CSYNC Serial Flags [])) off else
    let! TypeBitMap, off := unpackDataNsec msg off in
    Ok (mkRR h (RR_CSYNC Serial Flags TypeBitMap)) off.

Definition unpackDHCID (h : RR_Header) (msg : list byte) (off : nat) : result RR :=
  if noRdata h then Ok (mkRR h (RR_DHCID "")) off
  else
    let rdStart := off in
    let! Digest, off := unpackStringBase64 msg off (rdStart + Z.to_nat (Rdlength h)) in
    Ok (mkRR h (RR_DHCID Digest)) off.

Definition unpackDLV (h : RR_Header) (msg : list byte) (off : nat) : result RR :=
  if noRdata h then Ok (mkRR h (RR_DLV 0 0 0 "")) off
  else
    let rdStart := off in
    let! KeyTag, off := unpackUint16 msg off in
    if atEnd msg off then Ok (mkRR h (RR_DLV KeyTag 0 0 "")) off else
    let! Algorithm, off := unpackUint8 msg off in
    if atEnd msg off then Ok (mkRR h (RR_DLV KeyTag Algorithm 0 "")) off else
    let! DigestType, off := unpackUint8 msg off in
    if atEnd msg off then Ok (mkRR h (RR_DLV KeyTag Algorithm DigestType "")) off else
    let! Digest, off := unpackStringHex msg off (rdStart + Z.to_nat (Rdlength h)) in
    Ok (mkRR h (RR_DLV KeyTag Algorithm DigestType Digest)) off.

Definition unpackDNAME (h : RR_Header) (msg : list byte) (off : nat) : result RR :=
  if noRdata h then Ok (mkRR h (RR_DNAME "")) off
  else
    let! Target, off := UnpackDomainName msg off in
    Ok (mkRR h (RR_DNAME Target)) off.

Definition unpackDNSKEY (h : RR_Header) (msg : list byte) (off : nat) : result RR :=
  if noRdata h then Ok (mkRR h (RR_DNSKEY 0 0 0 "")) off
  else
    let rdStart := off in
    let! Flags, off := unpackUint16 msg off in
    if atEnd msg off then Ok (mkRR h (RR_DNSKEY Flags 0 0 "")) off else
    let! Protocol, off := unpackUint8 msg off in
    if atEnd msg off then Ok (mkRR h (RR_DNSKEY Flags Protocol 0 "")) off else
    let! Algorithm, off := unpackUint8 msg off in
    if atEnd msg off then Ok (mkRR h (RR_DNSKEY Flags Protocol Algorithm "")) off else
    let! PublicKey, off := unpackStringBase64 msg off (rdStart + Z.to_nat (Rdlength h)) in
    Ok (mkRR h (RR_DNSKEY Flags Protocol Algorithm PublicKey)) off.

Definition unpackDS (h : RR_Header) (msg : list byte) (off : nat) : result RR :=
  if noRdata h then Ok (mkRR h (RR_DS 0 0 0 "")) off
  else
    let rdStart := off in
    let! KeyTag, off := unpackUint16 msg off in
    if atEnd msg off then Ok (mkRR h (RR_DS KeyTag 0 0 "")) off else
    let! Algorithm, off := unpackUint8 msg off in
    if atEnd msg off then Ok (mkRR h (RR_DS KeyTag Algorithm 0 "")) off else
    let! DigestType, off := unpackUint8 msg off in
    if atEnd msg off then Ok (mkRR h (RR_DS KeyTag Algorithm DigestType "")) off else
    let! Digest, off := unpackStringHex msg off (rdStart + Z.to_nat (Rdlength h)) in
    Ok (mkRR h (RR_DS KeyTag Algorithm DigestType Digest)) off.

Definition unpackEID (h : RR_Header) (msg : list byte) (off : nat) : result RR :=
  if noRdata h then Ok (mkRR h (RR_EID "")) off
  else
    let rdStart := off in
    let! Endpoint, off := unpackStringHex msg off (rdStart + Z.to_nat (Rdlength h)) in
    Ok (mkRR h (RR_EID Endpoint)) off.

Definition unpackEUI48 (h : RR_Header) (msg : list byte) (off : nat) : result RR :=
  if noRdata h then Ok (mkRR h (RR_EUI48 0)) off
  else
    let! Address, off := unpackUint48 msg off in
    Ok (mkRR h (RR_EUI48 Address)) off.

Definition unpackEUI64 (h : RR_Header) (msg : list byte) (off : nat) : result RR :=
  if noRdata h then Ok (mkRR h (RR_EUI64 0)) off
  else
    let! Address, off := unpackUint64 msg off in
    Ok (mkRR h (RR_EUI64 Address)) off.

Definition unpackGID (h : RR_Header) (msg : list byte) (off : nat) : result RR :=
  if noRdata h then Ok (mkRR h (RR_GID 0)) off
  else
    let! Gid, off := unpackUint32 msg off in
    Ok (mkRR h (RR_GID Gid)) off.

Definition unpackGPOS (h : RR_Header) (msg : list byte) (off : nat) : result RR :=
  if noRdata h then Ok (mkRR h (RR_GPOS "" "" "")) off
  else
    let! Longitude, off := unpackString msg off in
    if atEnd msg off then Ok (mkRR h (RR_GPOS Longitude "" "")) off else
    let! Latitude, off := unpackString msg off in
    if atEnd msg off then Ok (mkRR h (RR_GPOS Longitude Latitude "")) off else
    let! Altitude, off := unpackString msg off in
    Ok (mkRR h (RR_GPOS Longitude Latitude Altitude)) off.

Definition unpackHINFO (h : RR_Header) (msg : list byte) (off : nat) : result RR :=
  if noRdata h then Ok (mkRR h (RR_HINFO "" "")) off
  else
    let! Cpu, off := unpackString msg off in
    if atEnd msg off then Ok (mkRR h (RR_HINFO Cpu "")) off else
    let! Os, off := unpackString msg off in
    Ok (mkRR h (RR_HINFO Cpu Os)) off.

Definition unpackHIP (h : RR_Header) (msg : list byte) (off : nat) : result RR :=
  if noRdata h then Ok (mkRR h (RR_HIP 0 0 0 "" "" [])) off
  else
    let rdStart := off in
    let! HitLength, off := unpackUint8 msg off in
    if atEnd msg off then Ok (mkRR h (RR_HIP HitLength 0 0 "" "" [])) off else
    let! PublicKeyAlgorithm, off := unpackUint8 msg off in
    if atEnd msg off then Ok (mkRR h (RR_HIP HitLength PublicKeyAlgorithm 0 "" "" [])) off else
    let! PublicKeyLength, off := unpackUint16 msg off in
    if atEnd msg off then Ok (mkRR h (RR_HIP HitLength PublicKeyAlgorithm PublicKeyLength "" "" [])) off else
    let! Hit, off := unpackStringHex msg off (off + Z.to_nat HitLength) in
    let! PublicKey, off := unpackStringBase64 msg off (off + Z.to_nat PublicKeyLength) in
    let! RendezvousServers, off := unpackDataDomainNames msg off (rdStart + Z.to_nat (Rdlength h)) in
    Ok (mkRR h (RR_HIP HitLength PublicKeyAlgorithm PublicKeyLength Hit PublicKey RendezvousServers)) off.

Definition unpackKEY (h : RR_Header) (msg : list byte) (off : nat) : result RR :=
  if noRdata h then Ok (mkRR h (RR_KEY 0 0 0 "")) off
  else
    let rdStart := off in
    let! Flags, off := unpackUint16 msg off in
    if atEnd msg off then Ok (mkRR h (RR_KEY Flags 0 0 "")) off else
    let! Protocol, off := unpackUint8 msg off in
    if atEnd msg off then Ok (mkRR h (RR_KEY Flags Protocol 0 "")) off else
    let! Algorithm, off := unpackUint8 msg off in
    if atEnd msg off then Ok (mkRR h (RR_KEY Flags Protocol Algorithm "")) off else
    let! PublicKey, off := unpackStringBase64 msg off (rdStart + Z.to_nat (Rdlength h)) in
    Ok (mkRR h (RR_KEY Flags Protocol Algorithm PublicKey)) off.

Definition unpackKX (h : RR_Header) (msg : list byte) (off : nat) : result RR :=
  if noRdata h then Ok (mkRR h (RR_KX 0 "")) off
  else
    let! Preference, off := unpackUint16 msg off in
    if atEnd msg off then Ok (mkRR h (RR_KX Preference "")) off else
    let! Exchanger, off := UnpackDomainName msg off in
    Ok (mkRR h (RR_KX Preference Exchanger)) off.

Definition unpackL32 (h : RR_Header) (msg : list byte) (off : nat) : result RR :=
  if noRdata h then Ok (mkRR h (RR_L32 0 [])) off
  else
    let! Preference, off := unpackUint16 msg off in
    if atEnd msg off then Ok (mkRR h (RR_L32 Preference [])) off else
    let! Locator32, off := unpackDataA msg off in
    Ok (mkRR h (RR_L32 Preference Locator32)) off.

Definition unpackL64 (h : RR_Header) (msg : list byte) (off : nat) : result RR :=
  if noRdata h then Ok (mkRR h (RR_L64 0 0)) off
  else
    let! Preference, off := unpackUint16 msg off in
    if atEnd msg off then Ok (mkRR h (RR_L64 Preference 0)) off else
    let! Locator64, off := unpackUint64 msg off in
    Ok (mkRR h (RR_L64 Preference Locator64)) off.

Definition unpackLOC (h : RR_Header) (msg : list byte) (off : nat) : result RR :=
  if noRdata h then Ok (mkRR h (RR_LOC 0 0 0 0 0 0 0)) off
  else
    let! Version, off := unpackUint8 msg off in
    if atEnd msg off then Ok (mkRR h (RR_LOC Version 0 0 0 0 0 0)) off else
    let! Size, off := unpackUint8 msg off in
    if atEnd msg off then Ok (mkRR h (RR_LOC Version Size 0 0 0 0 0)) off else
    let! HorizPre, off := unpackUint8 msg off in
    if atEnd msg off then Ok (mkRR h (RR_LOC Version Size HorizPre 0 0 0 0)) off else
    let! VertPre, off := unpackUint8 msg off in
    if atEnd msg off then Ok (mkRR h (RR_LOC Version Size HorizPre VertPre 0 0 0)) off else
    let! Latitude, off := unpackUint32 msg off in
    if atEnd msg off then Ok (mkRR h (RR_LOC Version Size HorizPre VertPre Latitude 0 0)) off else
    let! Longitude, off := unpackUint32 msg off in
    if atEnd msg off then Ok (mkRR h (RR_LOC Version Size HorizPre VertPre Latitude Longitude 0)) off else
    let! Altitude, off := unpackUint32 msg off in
    Ok (mkRR h (RR_LOC Version Size HorizPre VertPre Latitude Longitude Altitude)) off.

Definition unpackLP (h : RR_Header) (msg : list byte) (off : nat) : result RR :=
  if noRdata h then Ok (mkRR h (RR_LP 0 "")) off
  else
    let! Preference, off := unpackUint16 msg off in
    if atEnd msg off then Ok (mkRR h (RR_LP Preference "")) off else
    let! Fqdn, off := UnpackDomainName msg off in
    Ok (mkRR h (RR_LP Preference Fqdn)) off.

Definition unpackMB (h : RR_Header) (msg : list byte) (off : nat) : result RR :=
  if noRdata h then Ok (mkRR h (RR_MB "")) off
  else
    let! Mb, off := UnpackDomainName msg off in
    Ok (mkRR h (RR_MB Mb)) off.

Definition unpackMD (h : RR_Header) (msg : list byte) (off : nat) : result RR :=
  if noRdata h then Ok (mkRR h (RR_MD "")) off
  else
    let! Md, off := UnpackDomainName msg off in
    Ok (mkRR h (RR_MD Md)) off.

Definition unpackMF (h : RR_Header) (msg : list byte) (off : nat) : result RR :=
  if noRdata h then Ok (mkRR h (RR_MF "")) off
  else
    let! Mf, off := UnpackDomainName msg off in
    Ok (mkRR h (RR_MF Mf)) off.

Definition unpackMG (h : RR_Header) (msg : list byte) (off : nat) : result RR :=
  if noRdata h then Ok (mkRR h (RR_MG "")) off
  else
    let! Mg, off := UnpackDomainName msg off in
    Ok (mkRR h (RR_MG Mg)) off.

Definition unpackMINFO (h : RR_Header) (msg : list byte) (off : nat) : result RR :=
  if noRdata h then Ok (mkRR h (RR_MINFO "" "")) off
  else
    let! Rmail, off := UnpackDomainName msg off in
    if atEnd msg off then Ok (mkRR h (RR_MINFO Rmail "")) off else
    let! Email, off := UnpackDomainName msg off in
    Ok (mkRR h (RR_MINFO Rmail Email)) off.

Definition unpackMR (h : RR_Header) (msg : list byte) (off : nat) : result RR :=
  if noRdata h then Ok (mkRR h (RR_MR "")) off
  else
    let! Mr, off := UnpackDomainName msg off in
    Ok (mkRR h (RR_MR Mr)) off.

Definition unpackMX (h : RR_Header) (msg : list byte) (off : nat) : result RR :=
  if noRdata h then Ok (mkRR h (RR_MX 0 "")) off
  else
    let! Preference, off := unpackUint16 msg off in
    if atEnd msg off then Ok (mkRR h (RR_MX Preference "")) off else
    let! Mx, off := UnpackDomainName msg off in
    Ok (mkRR h (RR_MX Preference Mx)) off.

Definition unpackNAPTR (h : RR_Header) (msg : list byte) (off : nat) : result RR :=
  if noRdata h then Ok (mkRR h (RR_NAPTR 0 0 "" "" "" "")) off
  else
    let! Order, off := unpackUint16 msg off in
    if atEnd msg off then Ok (mkRR h (RR_NAPTR Order 0 "" "" "" "")) off else
    let! Preference, off := unpackUint16 msg off in
    if atEnd msg off then Ok (mkRR h (RR_NAPTR Order Preference "" "" "" "")) off else
    let! Flags, off := unpackString msg off in
    if atEnd msg off then Ok (mkRR h (RR_NAPTR Order Preference Flags "" "" "")) off else
    let! Service, off := unpackString msg off in
    if atEnd msg off then Ok (mkRR h (RR_NAPTR Order Preference Flags Service "" "")) off else
    let! Regexp, off := unpackString msg off in
    if atEnd msg off then Ok (mkRR h (RR_NAPTR Order Preference Flags Service Regexp "")) off else
    let! Replacement, off := UnpackDomainName msg off in
    Ok (mkRR h (RR_NAPTR Order Preference Flags Service Regexp Replacement)) off.

Definition unpackNID (h : RR_Header) (msg : list byte) (off : nat) : result RR :=
  if noRdata h then Ok (mkRR h (RR_NID 0 0)) off
  else
    let! Preference, off := unpackUint16 msg off in
    if atEnd msg off then Ok (mkRR h (RR_NID Preference 0)) off else
    let! NodeID, off := unpackUint64 msg off in
    Ok (mkRR h (RR_NID Preference NodeID)) off.

Definition unpackNIMLOC (h : RR_Header) (msg : list byte) (off : nat) : result RR :=
  if noRdata h then Ok (mkRR h (RR_NIMLOC "")) off
  else
    let rdStart := off in
    let! Locator, off := unpackStringHex msg off (rdStart + Z.to_nat (Rdlength h)) in
    Ok (mkRR h (RR_NIMLOC Locator)) off.

Definition unpackNINFO (h : RR_Header) (msg : list byte) (off : nat) : result RR :=
  if noRdata h then Ok (mkRR h (RR_NINFO [])) off
  else
    let! ZSData, off := unpackStringTxt msg off in
    Ok (mkRR h (RR_NINFO ZSData)) off.

Definition unpackNS (h : RR_Header) (msg : list byte) (off : nat) : result RR :=
  if noRdata h then Ok (mkRR h (RR_NS "")) off
  else
    let! Ns, off := UnpackDomainName msg off in
    Ok (mkRR h (RR_NS Ns)) off.

Definition unpackNSAPPTR (h : RR_Header) (msg : list byte) (off : nat) : result RR :=
  if noRdata h then Ok (mkRR h (RR_NSAPPTR "")) off
  else
    let! Ptr, off := UnpackDomainName msg off in
    Ok (mkRR h (RR_NSAPPTR Ptr)) off.

Definition unpackNSEC (h : RR_Header) (msg : list byte) (off : nat) : result RR :=
  if noRdata h then Ok (mkRR h (RR_NSEC "" [])) off
  else
    let! NextDomain, off := UnpackDomainName msg off in
    if atEnd msg off then Ok (mkRR h (RR_NSEC NextDomain [])) off else
    let! TypeBitMap, off := unpackDataNsec msg off in
    Ok (mkRR h (RR_NSEC NextDomain TypeBitMap)) off.

Definition unpackNSEC3 (h : RR_Header) (msg : list byte) (off : nat) : result RR :=
  if noRdata h then Ok (mkRR h (RR_NSEC3 0 0 0 0 "" 0 "" [])) off
  else
    let! Hash, off := unpackUint8 msg off in
    if atEnd msg off then Ok (mkRR h (RR_NSEC3 Hash 0 0 0 "" 0 "" [])) off else
    let! Flags, off := unpackUint8 msg off in
    if atEnd msg off then Ok (mkRR h (RR_NSEC3 Hash Flags 0 0 "" 0 "" [])) off else
    let! Iterations, off := unpackUint16 msg off in
    if atEnd msg off then Ok (mkRR h (RR_NSEC3 Hash Flags Iterations 0 "" 0 "" [])) off else
    let! SaltLength, off := unpackUint8 msg off in
    if atEnd msg off then Ok (mkRR h (RR_NSEC3 Hash Flags Iterations SaltLength "" 0 "" [])) off else
    let! Salt, off := unpackStringHex msg off (off + Z.to_nat SaltLength) in
    let! HashLength, off := unpackUint8 msg off in
    if atEnd msg off then Ok (mkRR h (RR_NSEC3 Hash Flags Iterations SaltLength Salt HashLength "" [])) off else
    let! NextDomain, off := unpackStringBase32 msg off (off + Z.to_nat HashLength) in
    let! TypeBitMap, off := unpackDataNsec msg off in
    Ok (mkRR h (RR_NSEC3 Hash Flags Iterations SaltLength Salt HashLength NextDomain TypeBitMap)) off.

Definition unpackNSEC3PARAM (h : RR_Header) (msg : list byte) (off : nat) : result RR :=
  if noRdata h then Ok (mkRR h (RR_NSEC3PARAM 0 0 0 0 "")) off
  else
    let! Hash, off := unpackUint8 msg off in
    if atEnd msg off then Ok (mkRR h (RR_NSEC3PARAM Hash 0 0 0 "")) off else
    let! Flags, off := unpackUint8 msg off in
    if atEnd msg off then Ok (mkRR h (RR_NSEC3PARAM Hash Flags 0 0 "")) off else
    let! Iterations, off := unpackUint16 msg off in
    if atEnd msg off then Ok (mkRR h (RR_NSEC3PARAM Hash Flags Iterations 0 "")) off else
    let! SaltLength, off := unpackUint8 msg off in
    if atEnd msg off then Ok (mkRR h (RR_NSEC3PARAM Hash Flags Iterations SaltLength "")) off else
    let! Salt, off := unpackStringHex msg off (off + Z.to_nat SaltLength) in
    Ok (mkRR h (RR_NSEC3PARAM Hash Flags Iterations SaltLength Salt)) off.

Definition unpackOPENPGPKEY (h : RR_Header) (msg : list byte) (off : nat) : result RR :=
  if noRdata h then Ok (mkRR h (RR_OPENPGPKEY "")) off
  else
    let rdStart := off in
    let! PublicKey, off := unpackStringBase64 msg off (rdStart + Z.to_nat (Rdlength h)) in
    Ok (mkRR h (RR_OPENPGPKEY PublicKey)) off.

Definition unpackOPT (h : RR_Header) (msg : list byte) (off : nat) : result RR :=
  if noRdata h then Ok (mkRR h (RR_OPT [])) off
  else
    let! Option, off := unpackDataOpt msg off in
    Ok (mkRR h (RR_OPT Option)) off.

Definition unpackPTR (h : RR_Header) (msg : list byte) (off : nat) : result RR :=
  if noRdata h then Ok (mkRR h (RR_PTR "")) off
  else
    let! Ptr, off := UnpackDomainName msg off in
    Ok (mkRR h (RR_PTR Ptr)) off.

Definition unpackPX (h : RR_Header) (msg : list byte) (off : nat) : result RR :=
  if noRdata h then Ok (mkRR h (RR_PX 0 "" "")) off
  else
    let! Preference, off := unpackUint16 msg off in
    if atEnd msg off then Ok (mkRR h (RR_PX Preference "" "")) off else
    let! Map822, off := UnpackDomainName msg off in
    if atEnd msg off then Ok (mkRR h (RR_PX Preference Map822 "")) off else
    let! Mapx400, off := UnpackDomainName msg off in
    Ok (mkRR h (RR_PX Preference Map822 Mapx400)) off.

Definition unpackRFC3597 (h : RR_Header) (msg : list byte) (off : nat) : result RR :=
  if noRdata h then Ok (mkRR h (RR_RFC3597 "")) off
  else
    let rdStart := off in
    let! Rdata, off := unpackStringHex msg off (rdStart + Z.to_nat (Rdlength h)) in
    Ok (mkRR h (RR_RFC3597 Rdata)) off.

Definition unpackRKEY (h : RR_Header) (msg : list byte) (off : nat) : result RR :=
  if noRdata h then Ok (mkRR h (RR_RKEY 0 0 0 "")) off
  else
    let rdStart := off in
    let! Flags, off := unpackUint16 msg off in
    if atEnd msg off then Ok (mkRR h (RR_RKEY Flags 0 0 "")) off else
    let! Protocol, off := unpackUint8 msg off in
    if atEnd msg off then Ok (mkRR h (RR_RKEY Flags Protocol 0 "")) off else
    let! Algorithm, off := unpackUint8 msg off in
    if atEnd msg off then Ok (mkRR h (RR_RKEY Flags Protocol Algorithm "")) off else
    let! PublicKey, off := unpackStringBase64 msg off (rdStart + Z.to_nat (Rdlength h)) in
    Ok (mkRR h (RR_RKEY Flags Protocol Algorithm PublicKey)) off.

Definition unpackRP (h : RR_Header) (msg : list byte) (off : nat) : result RR :=
  if noRdata h then Ok (mkRR h (RR_RP "" "")) off
  else
    let! Mbox, off := UnpackDomainName msg off in
    if atEnd msg off then Ok (mkRR h (RR_RP Mbox "")) off else
    let! Txt, off := UnpackDomainName msg off in
    Ok (mkRR h (RR_RP Mbox Txt)) off.

Definition unpackRRSIG (h : RR_Header) (msg : list byte) (off : nat) : result RR :=
  if noRdata h then Ok (mkRR h (RR_RRSIG 0 0 0 0 0 0 0 "" "")) off
  else
    let rdStart := off in
    let! TypeCovered, off := unpackUint16 msg off in
    if atEnd msg off then Ok (mkRR h (RR_RRSIG TypeCovered 0 0 0 0 0 0 "" "")) off else
    let! Algorithm, off := unpackUint8 msg off in
    if atEnd msg off then Ok (mkRR h (RR_RRSIG TypeCovered Algorithm 0 0 0 0 0 "" "")) off else
    let! Labels, off := unpackUint8 msg off in
    if atEnd msg off then Ok (mkRR h (RR_RRSIG TypeCovered Algorithm Labels 0 0 0 0 "" "")) off else
    let! OrigTtl, off := unpackUint32 msg off in
    if atEnd msg off then Ok (mkRR h (RR_RRSIG TypeCovered Algorithm Labels OrigTtl 0 0 0 "" "")) off else
    let! Expiration, off := unpackUint32 msg off in
    if atEnd msg off then Ok (mkRR h (RR_RRSIG TypeCovered Algorithm Labels OrigTtl Expiration 0 0 "" "")) off else
    let! Inception, off := unpackUint32 msg off in
    if atEnd msg off then Ok (mkRR h (RR_RRSIG TypeCovered Algorithm Labels OrigTtl Expiration Inception 0 "" "")) off else
    let! KeyTag, off := unpackUint16 msg off in
    if atEnd msg off then Ok (mkRR h (RR_RRSIG TypeCovered Algorithm Labels OrigTtl Expiration Inception KeyTag "" "")) off else
    let! SignerName, off := UnpackDomainName msg off in
    if atEnd msg off then Ok (mkRR h (RR_RRSIG TypeCovered Algorithm Labels OrigTtl Expiration Inception KeyTag SignerName "")) off else
    let! Signature, off := unpackStringBase64 msg off (rdStart + Z.to_nat (Rdlength h)) in
    Ok (mkRR h (RR_RRSIG TypeCovered Algorithm Labels OrigTtl Expiration Inception KeyTag SignerName Signature)) off.

Definition unpackRT (h : RR_Header) (msg : list byte) (off : nat) : result RR :=
  if noRdata h then Ok (mkRR h (RR_RT 0 "")) off
  else
    let! Preference, off := unpackUint16 msg off in
    if atEnd msg off then Ok (mkRR h (RR_RT Preference "")) off else
    let! Host, off := UnpackDomainName msg off in
    Ok (mkRR h (RR_RT Preference Host)) off.

Definition unpackSIG (h : RR_Header) (msg : list byte) (off : nat) : result RR :=
  if noRdata h then Ok (mkRR h (RR_SIG 0 0 0 0 0 0 0 "" "")) off
  else
    let rdStart := off in
    let! TypeCovered, off := unpackUint16 msg off in
    if atEnd msg off then Ok (mkRR h (RR_SIG TypeCovered 0 0 0 0 0 0 "" "")) off else
    let! Algorithm, off := unpackUint8 msg off in
    if atEnd msg off then Ok (mkRR h (RR_SIG TypeCovered Algorithm 0 0 0 0 0 "" "")) off else
    let! Labels, off := unpackUint8 msg off in
    if atEnd msg off then Ok (mkRR h (RR_SIG TypeCovered Algorithm Labels 0 0 0 0 "" "")) off else
    let! OrigTtl, off := unpackUint32 msg off in
    if atEnd msg off then Ok (mkRR h (RR_SIG TypeCovered Algorithm Labels OrigTtl 0 0 0 "" "")) off else
    let! Expiration, off := unpackUint32 msg off in
    if atEnd msg off then Ok (mkRR h (RR_SIG TypeCovered Algorithm Labels OrigTtl Expiration 0 0 "" "")) off else
    let! Inception, off := unpackUint32 msg off in
    if atEnd msg off then Ok (mkRR h (RR_SIG TypeCovered Algorithm Labels OrigTtl Expiration Inception 0 "" "")) off else
    let! KeyTag, off := unpackUint16 msg off in
    if atEnd msg off then Ok (mkRR h (RR_SIG TypeCovered Algorithm Labels OrigTtl Expiration Inception KeyTag "" "")) off else
    let! SignerName, off := UnpackDomainName msg off in
    if atEnd msg off then Ok (mkRR h (RR_SIG TypeCovered Algorithm Labels OrigTtl Expiration Inception KeyTag SignerName "")) off else
    let! Signature, off := unpackStringBase64 msg off (rdStart + Z.to_nat (Rdlength h)) in
    Ok (mkRR h (RR_SIG TypeCovered Algorithm Labels OrigTtl Expiration Inception KeyTag SignerName Signature)) off.

Definition unpackSMIMEA (h : RR_Header) (msg : list byte) (off : nat) : result RR :=
  if noRdata h then Ok (mkRR h (RR_SMIMEA 0 0 0 "")) off
  else
    let rdStart := off in
    let! Usage, off := unpackUint8 msg off in
    if atEnd msg off then Ok (mkRR h (RR_SMIMEA Usage 0 0 "")) off else
    let! Selector, off := unpackUint8 msg off in
    if atEnd msg off then Ok (mkRR h (RR_SMIMEA Usage Selector 0 "")) off else
    let! MatchingType, off := unpackUint8 msg off in
    if atEnd msg off then Ok (mkRR h (RR_SMIMEA Usage Selector MatchingType "")) off else
    let! Certificate, off := unpackStringHex msg off (rdStart + Z.to_nat (Rdlength h)) in
    Ok (mkRR h (RR_SMIMEA Usage Selector MatchingType Certificate)) off.

Definition unpackSOA (h : RR_Header) (msg : list byte) (off : nat) : result RR :=
  if noRdata h then Ok (mkRR h (RR_SOA "" "" 0 0 0 0 0)) off
  else
    let! Ns, off := UnpackDomainName msg off in
    if atEnd msg off then Ok (mkRR h (RR_SOA Ns "" 0 0 0 0 0)) off else
    let! Mbox, off := UnpackDomainName msg off in
    if atEnd msg off then Ok (mkRR h (RR_SOA Ns Mbox 0 0 0 0 0)) off else
    let! Serial, off := unpackUint32 msg off in
    if atEnd msg off then Ok (mkRR h (RR_SOA Ns Mbox Serial 0 0 0 0)) off else
    let! Refresh, off := unpackUint32 msg off in
    if atEnd msg off then Ok (mkRR h (RR_SOA Ns Mbox Serial Refresh 0 0 0)) off else
    let! Retry, off := unpackUint32 msg off in
    if atEnd msg off then Ok (mkRR h (RR_SOA Ns Mbox Serial Refresh Retry 0 0)) off else
    let! Expire, off := unpackUint32 msg off in
    if atEnd msg off then Ok (mkRR h (RR_SOA Ns Mbox Serial Refresh Retry Expire 0)) off else
    let! Minttl, off := unpackUint32 msg off in
    Ok (mkRR h (RR_SOA Ns Mbox Serial Refresh Retry Expire Minttl)) off.

Definition unpackSPF (h : RR_Header) (msg : list byte) (off : nat) : result RR :=
  if noRdata h then Ok (mkRR h (RR_SPF [])) off
  else
    let! Txt, off := unpackStringTxt msg off in
    Ok (mkRR h (RR_SPF Txt)) off.

Definition unpackSRV (h : RR_Header) (msg : list byte) (off : nat) : result RR :=
  if noRdata h then Ok (mkRR h (RR_SRV 0 0 0 "")) off
  else
    let! Priority, off := unpackUint16 msg off in
    if atEnd msg off then Ok (mkRR h (RR_SRV Priority 0 0 "")) off else
    let! Weight, off := unpackUint16 msg off in
    if atEnd msg off then Ok (mkRR h (RR_SRV Priority Weight 0 "")) off else
    let! Port, off := unpackUint16 msg off in
    if atEnd msg off then Ok (mkRR h (RR_SRV Priority Weight Port "")) off else
    let! Target, off := UnpackDomainName msg off in
    Ok (mkRR h (RR_SRV Priority Weight Port Target)) off.

Definition unpackSSHFP (h : RR_Header) (msg : list byte) (off : nat) : result RR :=
  if noRdata h then Ok (mkRR h (RR_SSHFP 0 0 "")) off
  else
    let rdStart := off in
    let! Algorithm, off := unpackUint8 msg off in
    if atEnd msg off then Ok (mkRR h (RR_SSHFP Algorithm 0 "")) off else
    let! Type_, off := unpackUint8 msg off in
    if atEnd msg off then Ok (mkRR h (RR_SSHFP Algorithm Type_ "")) off else
    let! FingerPrint, off := unpackStringHex msg off (rdStart + Z.to_nat (Rdlength h)) in
    Ok (mkRR h (RR_SSHFP Algorithm Type_ FingerPrint)) off.

Definition unpackTA (h : RR_Header) (msg : list byte) (off : nat) : result RR :=
  if noRdata h then Ok (mkRR h (RR_TA 0 0 0 "")) off
  else
    let rdStart := off in
    let! KeyTag, off := unpackUint16 msg off in
    if atEnd msg off then Ok (mkRR h (RR_TA KeyTag 0 0 "")) off else
    let! Algorithm, off := unpackUint8 msg off in
    if atEnd msg off then Ok (mkRR h (RR_TA KeyTag Algorithm 0 "")) off else
    let! DigestType, off := unpackUint8 msg off in
    if atEnd msg off then Ok (mkRR h (RR_TA KeyTag Algorithm DigestType "")) off else
    let! Digest, off := unpackStringHex msg off (rdStart + Z.to_nat (Rdlength h)) in
    Ok (mkRR h (RR_TA KeyTag Algorithm DigestType Digest)) off.

Definition unpackTALINK (h : RR_Header) (msg : list byte) (off : nat) : result RR :=
  if noRdata h then Ok (mkRR h (RR_TALINK "" "")) off
  else
    let! PreviousName, off := UnpackDomainName msg off in
    if atEnd msg off then Ok (mkRR h (RR_TALINK PreviousName "")) off else
    let! NextName, off := UnpackDomainName msg off in
    Ok (mkRR h (RR_TALINK PreviousName NextName)) off.

Definition unpackTKEY (h : RR_Header) (msg : list byte) (off : nat) : result RR :=
  if noRdata h then Ok (mkRR h (RR_TKEY "" 0 0 0 0 0 "" 0 "")) off
  else
    let! Algorithm, off := UnpackDomainName msg off in
    if atEnd msg off then Ok (mkRR h (RR_TKEY Algorithm 0 0 0 0 0 "" 0 "")) off else
    let! Inception, off := unpackUint32 msg off in
    if atEnd msg off then Ok (mkRR h (RR_TKEY Algorithm Inception 0 0 0 0 "" 0 "")) off else
    let! Expiration, off := unpackUint32 msg off in
    if atEnd msg off then Ok (mkRR h (RR_TKEY Algorithm Inception Expiration 0 0 0 "" 0 "")) off else
    let! Mode, off := unpackUint16 msg off in
    if atEnd msg off then Ok (mkRR h (RR_TKEY Algorithm Inception Expiration Mode 0 0 "" 0 "")) off else
    let! Error, off := unpackUint16 msg off in
    if atEnd msg off then Ok (mkRR h (RR_TKEY Algorithm Inception Expiration Mode Error 0 "" 0 "")) off else
    let! KeySize, off := unpackUint16 msg off in
    if atEnd msg off then Ok (mkRR h (RR_TKEY Algorithm Inception Expiration Mode Error KeySize "" 0 "")) off else
    let! Key, off := unpackStringHex msg off (off + Z.to_nat KeySize) in
    let! OtherLen, off := unpackUint16 msg off in
    if atEnd msg off then Ok (mkRR h (RR_TKEY Algorithm Inception Expiration Mode Error KeySize Key OtherLen "")) off else
    let! OtherData, off := unpackStringHex msg off (off + Z.to_nat OtherLen) in
    Ok (mkRR h (RR_TKEY Algorithm Inception Expiration Mode Error KeySize Key OtherLen OtherData)) off.

Definition unpackTLSA (h : RR_Header) (msg : list byte) (off : nat) : result RR :=
  if noRdata h then Ok (mkRR h (RR_TLSA 0 0 0 "")) off
  else
    let rdStart := off in
    let! Usage, off := unpackUint8 msg off in
    if atEnd msg off then Ok (mkRR h (RR_TLSA Usage 0 0 "")) off else
    let! Selector, off := unpackUint8 msg off in
    if atEnd msg off then Ok (mkRR h (RR_TLSA Usage Selector 0 "")) off else
    let! MatchingType, off := unpackUint8 msg off in
    if atEnd msg off then Ok (mkRR h (RR_TLSA Usage Selector MatchingType "")) off else
    let! Certificate, off := unpackStringHex msg off (rdStart + Z.to_nat (Rdlength h)) in
    Ok (mkRR h (RR_TLSA Usage Selector MatchingType Certificate)) off.

Definition unpackTSIG (h : RR_Header) (msg : list byte) (off : nat) : result RR :=
  if noRdata h then Ok (mkRR h (RR_TSIG "" 0 0 0 "" 0 0 0 "")) off
  else
    let! Algorithm, off := UnpackDomainName msg off in
    if atEnd msg off then Ok (mkRR h (RR_TSIG Algorithm 0 0 0 "" 0 0 0 "")) off else
    let! TimeSigned, off := unpackUint48 msg off in
    if atEnd msg off then Ok (mkRR h (RR_TSIG Algorithm TimeSigned 0 0 "" 0 0 0 "")) off else
    let! Fudge, off := unpackUint16 msg off in
    if atEnd msg off then Ok (mkRR h (RR_TSIG Algorithm TimeSigned Fudge 0 "" 0 0 0 "")) off else
    let! MACSize, off := unpackUint16 msg off in
    if atEnd msg off then Ok (mkRR h (RR_TSIG Algorithm TimeSigned Fudge MACSize "" 0 0 0 "")) off else
    let! MAC, off := unpackStringHex msg off (off + Z.to_nat MACSize) in
    let! OrigId, off := unpackUint16 msg off in
    if atEnd msg off then Ok (mkRR h (RR_TSIG Algorithm TimeSigned Fudge MACSize MAC OrigId 0 0 "")) off else
    let! Error, off := unpackUint16 msg off in
    if atEnd msg off then Ok (mkRR h (RR_TSIG Algorithm TimeSigned Fudge MACSize MAC OrigId Error 0 "")) off else
    let! OtherLen, off := unpackUint16 msg off in
    if atEnd msg off then Ok (mkRR h (RR_TSIG Algorithm TimeSigned Fudge MACSize MAC OrigId Error OtherLen "")) off else
    let! OtherData, off := unpackStringHex msg off (off + Z.to_nat OtherLen) in
    Ok (mkRR h (RR_TSIG Algorithm TimeSigned Fudge MACSize MAC OrigId Error OtherLen OtherData)) off.

Definition unpackTXT (h : RR_Header) (msg : list byte) (off : nat) : result RR :=
  if noRdata h then Ok (mkRR h (RR_TXT [])) off
  else
    let! Txt, off := unpackStringTxt msg off in
    Ok (mkRR h (RR_TXT Txt)) off.

Definition unpackUID (h : RR_Header) (msg : list byte) (off : nat) : result RR :=
  if noRdata h then Ok (mkRR h (RR_UID 0)) off
  else
    let! Uid, off := unpackUint32 msg off in
    Ok (mkRR h (RR_UID Uid)) off.

Definition unpackUINFO (h : RR_Header) (msg : list byte) (off : nat) : result RR :=
  if noRdata h then Ok (mkRR h (RR_UINFO "")) off
  else
    let! Uinfo, off := unpackString msg off in
    Ok (mkRR h (RR_UINFO Uinfo)) off.

Definition unpackURI (h : RR_Header) (msg : list byte) (off : nat) : result RR :=
  if noRdata h then Ok (mkRR h (RR_URI 0 0 "")) off
  else
    let! Priority, off := unpackUint16 msg off in
    if atEnd msg off then Ok (mkRR h (RR_URI Priority 0 "")) off else
    let! Weight, off := unpackUint16 msg off in
    if atEnd msg off then Ok (mkRR h (RR_URI Priority Weight "")) off else
    let! Target, off := unpackStringOctet msg off in
    Ok (mkRR h (RR_URI Priority Weight Target)) off.

Definition unpackX25 (h : RR_Header) (msg : list byte) (off : nat) : result RR :=
  if noRdata h then Ok (mkRR h (RR_X25 "")) off
  else
    let! PSDNAddress, off := unpackString msg off in
    Ok (mkRR h (RR_X25 PSDNAddress)) off.

(** The table [typeToUnpack]. *)
Definition typeToUnpack : list (Z * (RR_Header -> list byte -> nat -> result RR)) :=
  [(TypeA, unpackA); (TypeAAAA, unpackAAAA); (TypeAFSDB, unpackAFSDB); (TypeANY, unpackANY);
   (TypeAVC, unpackAVC); (TypeCAA, unpackCAA); (TypeCDNSKEY, unpackCDNSKEY); (TypeCDS, unpackCDS);
   (TypeCERT, unpackCERT); (TypeCNAME, unpackCNAME); (TypeCSYNC, unpackCSYNC);
   (TypeDHCID, unpackDHCID); (TypeDLV, unpackDLV); (TypeDNAME, unpackDNAME);
   (TypeDNSKEY, unpackDNSKEY); (TypeDS, unpackDS); (TypeEID, unpackEID); (TypeEUI48, unpackEUI48);
   (TypeEUI64, unpackEUI64); (TypeGID, unpackGID); (TypeGPOS, unpackGPOS);
   (TypeHINFO, unpackHINFO); (TypeHIP, unpackHIP); (TypeKEY, unpackKEY); (TypeKX, unpackKX);
   (TypeL32, unpackL32); (TypeL64, unpackL64); (TypeLOC, unpackLOC); (TypeLP, unpackLP);
   (TypeMB, unpackMB); (TypeMD, unpackMD); (TypeMF, unpackMF); (TypeMG, unpackMG);
   (TypeMINFO, unpackMINFO); (TypeMR, unpackMR); (TypeMX, unpackMX); (TypeNAPTR, unpackNAPTR);
   (TypeNID, unpackNID); (TypeNIMLOC, unpackNIMLOC); (TypeNINFO, unpackNINFO); (TypeNS, unpackNS);
   (TypeNSAPPTR, unpackNSAPPTR); (TypeNSEC, unpackNSEC); (TypeNSEC3, unpackNSEC3);
   (TypeNSEC3PARAM, unpackNSEC3PARAM); (TypeOPENPGPKEY, unpackOPENPGPKEY); (TypeOPT, unpackOPT);
   (TypePTR, unpackPTR); (TypePX, unpackPX); (TypeRKEY, unpackRKEY); (TypeRP, unpackRP);
   (TypeRRSIG, unpackRRSIG); (TypeRT, unpackRT); (TypeSIG, unpackSIG); (TypeSMIMEA, unpackSMIMEA);
   (TypeSOA, unpackSOA); (TypeSPF, unpackSPF); (TypeSRV, unpackSRV); (TypeSSHFP, unpackSSHFP);
   (TypeTA, unpackTA); (TypeTALINK, unpackTALINK); (TypeTKEY, unpackTKEY); (TypeTLSA, unpackTLSA);
   (TypeTSIG, unpackTSIG); (TypeTXT, unpackTXT); (TypeUID, unpackUID); (TypeUINFO, unpackUINFO);
   (TypeURI, unpackURI); (TypeX25, unpackX25)].

(** ** Packing *)

Definition packA (h : RR_Header) (A : list byte) (compress : bool) (b : buffer) (off : nat)
    : result (RR * buffer) :=
  let! b, off := packHeader h compress b off in
  let headerEnd := off in
  let! b, off := onMsg (packDataA A) b off in
  Ok (packed h (RR_A A) headerEnd off, b) off.

Definition packAAAA (h : RR_Header) (AAAA : list byte) (compress : bool) (b : buffer) (off : nat)
    : result (RR * buffer) :=
  let! b, off := packHeader h compress b off in
  let headerEnd := off in
  let! b, off := onMsg (packDataAAAA AAAA) b off in
  Ok (packed h (RR_AAAA AAAA) headerEnd off, b) off.

Definition packAFSDB (h : RR_Header) (Subtype : Z) (Hostname : string) (compress : bool)
    (b : buffer) (off : nat) : result (RR * buffer) :=
  let! b, off := packHeader h compress b off in
  let headerEnd := off in
  let! b, off := onMsg (packUint16 Subtype) b off in
  let! b, off := PackDomainName Hostname compress b off in
  Ok (packed h (RR_AFSDB Subtype Hostname) headerEnd off, b) off.

Definition packANY (h : RR_Header) (compress : bool) (b : buffer) (off : nat)
    : result (RR * buffer) :=
  let! b, off := packHeader h compress b off in
  let headerEnd := off in
  Ok (packed h RR_ANY headerEnd off, b) off.

Definition packAVC (h : RR_Header) (Txt : list string) (compress : bool) (b : buffer) (off : nat)
    : result (RR * buffer) :=
  let! b, off := packHeader h compress b off in
  let headerEnd := off in
  let! b, off := onMsg (packStringTxt Txt) b off in
  Ok (packed h (RR_AVC Txt) headerEnd off, b) off.

Definition packCAA (h : RR_Header) (Flag : Z) (Tag Value : string) (compress : bool) (b : buffer)
    (off : nat) : result (RR * buffer) :=
  let! b, off := packHeader h compress b off in
  let headerEnd := off in
  let! b, off := onMsg (packUint8 Flag) b off in
  let! b, off := onMsg (packString Tag) b off in
  let! b, off := onMsg (packStringOctet Value) b off in
  Ok (packed h (RR_CAA Flag Tag Value) headerEnd off, b) off.

Definition packCDNSKEY (h : RR_Header) (Flags Protocol Algorithm : Z) (PublicKey : string)
    (compress : bool) (b : buffer) (off : nat) : result (RR * buffer) :=
  let! b, off := packHeader h compress b off in
  let headerEnd := off in
  let! b, off := onMsg (packUint16 Flags) b off in
  let! b, off := onMsg (packUint8 Protocol) b off in
  let! b, off := onMsg (packUint8 Algorithm) b off in
  let! b, off := onMsg (packStringBase64 PublicKey) b off in
  Ok (packed h (RR_CDNSKEY Flags Protocol Algorithm PublicKey) headerEnd off, b) off.

Definition packCDS (h : RR_Header) (KeyTag Algorithm DigestType : Z) (Digest : string)
    (compress : bool) (b : buffer) (off : nat) : result (RR * buffer) :=
  let! b, off := packHeader h compress b off in
  let headerEnd := off in
  let! b, off := onMsg (packUint16 KeyTag) b off in
  let! b, off := onMsg (packUint8 Algorithm) b off in
  let! b, off := onMsg (packUint8 DigestType) b off in
  let! b, off := onMsg (packStringHex Digest) b off in
  Ok (packed h (RR_CDS KeyTag Algorithm DigestType Digest) headerEnd off, b) off.

Definition packCERT (h : RR_Header) (Type_ KeyTag Algorithm : Z) (Certificate : string)
    (compress : bool) (b : buffer) (off : nat) : result (RR * buffer) :=
  let! b, off := packHeader h compress b off in
  let headerEnd := off in
  let! b, off := onMsg (packUint16 Type_) b off in
  let! b, off := onMsg (packUint16 KeyTag) b off in
  let! b, off := onMsg (packUint8 Algorithm) b off in
  let! b, off := onMsg (packStringBase64 Certificate) b off in
  Ok (packed h (RR_CERT Type_ KeyTag Algorithm Certificate) headerEnd off, b) off.

Definition packCNAME (h : RR_Header) (Target : string) (compress : bool) (b : buffer) (off : nat)
    : result (RR * buffer) :=
  let! b, off := packHeader h compress b off in
  let headerEnd := off in
  let! b, off := PackDomainName Target compress b off in
  Ok (packed h (RR_CNAME Target) headerEnd off, b) off.

Definition packCSYNC (h : RR_Header) (Serial Flags : Z) (TypeBitMap : list Z) (compress : bool)
    (b : buffer) (off : nat) : result (RR * buffer) :=
  let! b, off := packHeader h compress b off in
  let headerEnd := off in
  let! b, off := onMsg (packUint32 Serial) b off in
  let! b, off := onMsg (packUint16 Flags) b off in
  let! b, off := onMsg (packDataNsec TypeBitMap) b off in
  Ok (packed h (RR_CSYNC Serial Flags TypeBitMap) headerEnd off, b) off.

Definition packDHCID (h : RR_Header) (Digest : string) (compress : bool) (b : buffer) (off : nat)
    : result (RR * buffer) :=
  let! b, off := packHeader h compress b off in
  let headerEnd := off in
  let! b, off := onMsg (packStringBase64 Digest) b off in
  Ok (packed h (RR_DHCID Digest) headerEnd off, b) off.

Definition packDLV (h : RR_Header) (KeyTag Algorithm DigestType : Z) (Digest : string)
    (compress : bool) (b : buffer) (off : nat) : result (RR * buffer) :=
  let! b, off := packHeader h compress b off in
  let headerEnd := off in
  let! b, off := onMsg (packUint16 KeyTag) b off in
  let! b, off := onMsg (packUint8 Algorithm) b off in
  let! b, off := onMsg (packUint8 DigestType) b off in
  let! b, off := onMsg (packStringHex Digest) b off in
  Ok (packed h (RR_DLV KeyTag Algorithm DigestType Digest) headerEnd off, b) off.

Definition packDNAME (h : RR_Header) (Target : string) (compress : bool) (b : buffer) (off : nat)
    : result (RR * buffer) :=
  let! b, off := packHeader h compress b off in
  let headerEnd := off in
  let! b, off := PackDomainName Target false b off in
  Ok (packed h (RR_DNAME Target) headerEnd off, b) off.

Definition packDNSKEY (h : RR_Header) (Flags Protocol Algorithm : Z) (PublicKey : string)
    (compress : bool) (b : buffer) (off : nat) : result (RR * buffer) :=
  let! b, off := packHeader h compress b off in
  let headerEnd := off in
  let! b, off := onMsg (packUint16 Flags) b off in
  let! b, off := onMsg (packUint8 Protocol) b off in
  let! b, off := onMsg (packUint8 Algorithm) b off in
  let! b, off := onMsg (packStringBase64 PublicKey) b off in
  Ok (packed h (RR_DNSKEY Flags Protocol Algorithm PublicKey) headerEnd off, b) off.

Definition packDS (h : RR_Header) (KeyTag Algorithm DigestType : Z) (Digest : string)
    (compress : bool) (b : buffer) (off : nat) : result (RR * buffer) :=
  let! b, off := packHeader h compress b off in
  let headerEnd := off in
  let! b, off := onMsg (packUint16 KeyTag) b off in
  let! b, off := onMsg (packUint8 Algorithm) b off in
  let! b, off := onMsg (packUint8 DigestType) b off in
  let! b, off := onMsg (packStringHex Digest) b off in
  Ok (packed h (RR_DS KeyTag Algorithm DigestType Digest) headerEnd off, b) off.

Definition packEID (h : RR_Header) (Endpoint : string) (compress : bool) (b : buffer) (off : nat)
    : result (RR * buffer) :=
  let! b, off := packHeader h compress b off in
  let headerEnd := off in
  let! b, off := onMsg (packStringHex Endpoint) b off in
  Ok (packed h (RR_EID Endpoint) headerEnd off, b) off.

Definition packEUI48 (h : RR_Header) (Address : Z) (compress : bool) (b : buffer) (off : nat)
    : result (RR * buffer) :=
  let! b, off := packHeader h compress b off in
  let headerEnd := off in
  let! b, off := onMsg (packUint48 Address) b off in
  Ok (packed h (RR_EUI48 Address) headerEnd off, b) off.

Definition packEUI64 (h : RR_Header) (Address : Z) (compress : bool) (b : buffer) (off : nat)
    : result (RR * buffer) :=
  let! b, off := packHeader h compress b off in
  let headerEnd := off in
  let! b, off := onMsg (packUint64 Address) b off in
  Ok (packed h (RR_EUI64 Address) headerEnd off, b) off.

Definition packGID (h : RR_Header) (Gid : Z) (compress : bool) (b : buffer) (off : nat)
    : result (RR * buffer) :=
  let! b, off := packHeader h compress b off in
  let headerEnd := off in
  let! b, off := onMsg (packUint32 Gid) b off in
  Ok (packed h (RR_GID Gid) headerEnd off, b) off.

Definition packGPOS (h : RR_Header) (Longitude Latitude Altitude : string) (compress : bool)
    (b : buffer) (off : nat) : result (RR * buffer) :=
  let! b, off := packHeader h compress b off in
  let headerEnd := off in
  let! b, off := onMsg (packString Longitude) b off in
  let! b, off := onMsg (packString Latitude) b off in
  let! b, off := onMsg (packString Altitude) b off in
  Ok (packed h (RR_GPOS Longitude Latitude Altitude) headerEnd off, b) off.

Definition packHINFO (h : RR_Header) (Cpu Os : string) (compress : bool) (b : buffer) (off : nat)
    : result (RR * buffer) :=
  let! b, off := packHeader h compress b off in
  let headerEnd := off in
  let! b, off := onMsg (packString Cpu) b off in
  let! b, off := onMsg (packString Os) b off in
  Ok (packed h (RR_HINFO Cpu Os) headerEnd off, b) off.

Definition packHIP (h : RR_Header) (HitLength PublicKeyAlgorithm PublicKeyLength : Z)
    (Hit PublicKey : string) (RendezvousServers : list string) (compress : bool) (b : buffer)
    (off : nat) : result (RR * buffer) :=
  let! b, off := packHeader h compress b off in
  let headerEnd := off in
  let! b, off := onMsg (packUint8 HitLength) b off in
  let! b, off := onMsg (packUint8 PublicKeyAlgorithm) b off in
  let! b, off := onMsg (packUint16 PublicKeyLength) b off in
  let! b, off := onMsg (packStringHex Hit) b off in
  let! b, off := onMsg (packStringBase64 PublicKey) b off in
  let! b, off := packDataDomainNames RendezvousServers b off in
  Ok (packed h (RR_HIP HitLength PublicKeyAlgorithm PublicKeyLength Hit PublicKey RendezvousServers) headerEnd off, b) off.

Definition packKEY (h : RR_Header) (Flags Protocol Algorithm : Z) (PublicKey : string)
    (compress : bool) (b : buffer) (off : nat) : result (RR * buffer) :=
  let! b, off := packHeader h compress b off in
  let headerEnd := off in
  let! b, off := onMsg (packUint16 Flags) b off in
  let! b, off := onMsg (packUint8 Protocol) b off in
  let! b, off := onMsg (packUint8 Algorithm) b off in
  let! b, off := onMsg (packStringBase64 PublicKey) b off in
  Ok (packed h (RR_KEY Flags Protocol Algorithm PublicKey) headerEnd off, b) off.

Definition packKX (h : RR_Header) (Preference : Z) (Exchanger : string) (compress : bool)
    (b : buffer) (off : nat) : result (RR * buffer) :=
  let! b, off := packHeader h compress b off in
  let headerEnd := off in
  let! b, off := onMsg (packUint16 Preference) b off in
  let! b, off := PackDomainName Exchanger false b off in
  Ok (packed h (RR_KX Preference Exchanger) headerEnd off, b) off.

Definition packL32 (h : RR_Header) (Preference : Z) (Locator32 : list byte) (compress : bool)
    (b : buffer) (off : nat) : result (RR * buffer) :=
  let! b, off := packHeader h compress b off in
  let headerEnd := off in
  let! b, off := onMsg (packUint16 Preference) b off in
  let! b, off := onMsg (packDataA Locator32) b off in
  Ok (packed h (RR_L32 Preference Locator32) headerEnd off, b) off.

Definition packL64 (h : RR_Header) (Preference Locator64 : Z) (compress : bool) (b : buffer)
    (off : nat) : result (RR * buffer) :=
  let! b, off := packHeader h compress b off in
  let headerEnd := off in
  let! b, off := onMsg (packUint16 Preference) b off in
  let! b, off := onMsg (packUint64 Locator64) b off in
  Ok (packed h (RR_L64 Preference Locator64) headerEnd off, b) off.

Definition packLOC (h : RR_Header) (Version Size HorizPre VertPre Latitude Longitude Altitude : Z)
    (compress : bool) (b : buffer) (off : nat) : result (RR * buffer) :=
  let! b, off := packHeader h compress b off in
  let headerEnd := off in
  let! b, off := onMsg (packUint8 Version) b off in
  let! b, off := onMsg (packUint8 Size) b off in
  let! b, off := onMsg (packUint8 HorizPre) b off in
  let! b, off := onMsg (packUint8 VertPre) b off in
  let! b, off := onMsg (packUint32 Latitude) b off in
  let! b, off := onMsg (packUint32 Longitude) b off in
  let! b, off := onMsg (packUint32 Altitude) b off in
  Ok (packed h (RR_LOC Version Size HorizPre VertPre Latitude Longitude Altitude) headerEnd off, b) off.

Definition packLP (h : RR_Header) (Preference : Z) (Fqdn : string) (compress : bool) (b : buffer)
    (off : nat) : result (RR * buffer) :=
  let! b, off := packHeader h compress b off in
  let headerEnd := off in
  let! b, off := onMsg (packUint16 Preference) b off in
  let! b, off := PackDomainName Fqdn false b off in
  Ok (packed h (RR_LP Preference Fqdn) headerEnd off, b) off.

Definition packMB (h : RR_Header) (Mb : string) (compress : bool) (b : buffer) (off : nat)
    : result (RR * buffer) :=
  let! b, off := packHeader h compress b off in
  let headerEnd := off in
  let! b, off := PackDomainName Mb compress b off in
  Ok (packed h (RR_MB Mb) headerEnd off, b) off.

Definition packMD (h : RR_Header) (Md : string) (compress : bool) (b : buffer) (off : nat)
    : result (RR * buffer) :=
  let! b, off := packHeader h compress b off in
  let headerEnd := off in
  let! b, off := PackDomainName Md compress b off in
  Ok (packed h (RR_MD Md) headerEnd off, b) off.

Definition packMF (h : RR_Header) (Mf : string) (compress : bool) (b : buffer) (off : nat)
    : result (RR * buffer) :=
  let! b, off := packHeader h compress b off in
  let headerEnd := off in
  let! b, off := PackDomainName Mf compress b off in
  Ok (packed h (RR_MF Mf) headerEnd off, b) off.

Definition packMG (h : RR_Header) (Mg : string) (compress : bool) (b : buffer) (off : nat)
    : result (RR * buffer) :=
  let! b, off := packHeader h compress b off in
  let headerEnd := off in
  let! b, off := PackDomainName Mg compress b off in
  Ok (packed h (RR_MG Mg) headerEnd off, b) off.

Definition packMINFO (h : RR_Header) (Rmail Email : string) (compress : bool) (b : buffer)
    (off : nat) : result (RR * buffer) :=
  let! b, off := packHeader h compress b off in
  let headerEnd := off in
  let! b, off := PackDomainName Rmail compress b off in
  let! b, off := PackDomainName Email compress b off in
  Ok (packed h (RR_MINFO Rmail Email) headerEnd off, b) off.

Definition packMR (h : RR_Header) (Mr : string) (compress : bool) (b : buffer) (off : nat)
    : result (RR * buffer) :=
  let! b, off := packHeader h compress b off in
  let headerEnd := off in
  let! b, off := PackDomainName Mr compress b off in
  Ok (packed h (RR_MR Mr) headerEnd off, b) off.

Definition packMX (h : RR_Header) (Preference : Z) (Mx : string) (compress : bool) (b : buffer)
    (off : nat) : result (RR * buffer) :=
  let! b, off := packHeader h compress b off in
  let headerEnd := off in
  let! b, off := onMsg (packUint16 Preference) b off in
  let! b, off := PackDomainName Mx compress b off in
  Ok (packed h (RR_MX Preference Mx) headerEnd off, b) off.

Definition packNAPTR (h : RR_Header) (Order Preference : Z)
    (Flags Service Regexp Replacement : string) (compress : bool) (b : buffer) (off : nat)
    : result (RR * buffer) :=
  let! b, off := packHeader h compress b off in
  let headerEnd := off in
  let! b, off := onMsg (packUint16 Order) b off in
  let! b, off := onMsg (packUint16 Preference) b off in
  let! b, off := onMsg (packString Flags) b off in
  let! b, off := onMsg (packString Service) b off in
  let! b, off := onMsg (packString Regexp) b off in
  let! b, off := PackDomainName Replacement false b off in
  Ok (packed h (RR_NAPTR Order Preference Flags Service Regexp Replacement) headerEnd off, b) off.

Definition packNID (h : RR_Header) (Preference NodeID : Z) (compress : bool) (b : buffer)
    (off : nat) : result (RR * buffer) :=
  let! b, off := packHeader h compress b off in
  let headerEnd := off in
  let! b, off := onMsg (packUint16 Preference) b off in
  let! b, off := onMsg (packUint64 NodeID) b off in
  Ok (packed h (RR_NID Preference NodeID) headerEnd off, b) off.

Definition packNIMLOC (h : RR_Header) (Locator : string) (compress : bool) (b : buffer)
    (off : nat) : result (RR * buffer) :=
  let! b, off := packHeader h compress b off in
  let headerEnd := off in
  let! b, off := onMsg (packStringHex Locator) b off in
  Ok (packed h (RR_NIMLOC Locator) headerEnd off, b) off.

Definition packNINFO (h : RR_Header) (ZSData : list string) (compress : bool) (b : buffer)
    (off : nat) : result (RR * buffer) :=
  let! b, off := packHeader h compress b off in
  let headerEnd := off in
  let! b, off := onMsg (packStringTxt ZSData) b off in
  Ok (packed h (RR_NINFO ZSData) headerEnd off, b) off.

Definition packNS (h : RR_Header) (Ns : string) (compress : bool) (b : buffer) (off : nat)
    : result (RR * buffer) :=
  let! b, off := packHeader h compress b off in
  let headerEnd := off in
  let! b, off := PackDomainName Ns compress b off in
  Ok (packed h (RR_NS Ns) headerEnd off, b) off.

Definition packNSAPPTR (h : RR_Header) (Ptr : string) (compress : bool) (b : buffer) (off : nat)
    : result (RR * buffer) :=
  let! b, off := packHeader h compress b off in
  let headerEnd := off in
  let! b, off := PackDomainName Ptr false b off in
  Ok (packed h (RR_NSAPPTR Ptr) headerEnd off, b) off.

Definition packNSEC (h : RR_Header) (NextDomain : string) (TypeBitMap : list Z) (compress : bool)
    (b : buffer) (off : nat) : result (RR * buffer) :=
  let! b, off := packHeader h compress b off in
  let headerEnd := off in
  let! b, off := PackDomainName NextDomain false b off in
  let! b, off := onMsg (packDataNsec TypeBitMap) b off in
  Ok (packed h (RR_NSEC NextDomain TypeBitMap) headerEnd off, b) off.

Definition packNSEC3 (h : RR_Header) (Hash Flags Iterations SaltLength : Z) (Salt : string)
    (HashLength : Z) (NextDomain : string) (TypeBitMap : list Z) (compress : bool) (b : buffer)
    (off : nat) : result (RR * buffer) :=
  let! b, off := packHeader h compress b off in
  let headerEnd := off in
  let! b, off := onMsg (packUint8 Hash) b off in
  let! b, off := onMsg (packUint8 Flags) b off in
  let! b, off := onMsg (packUint16 Iterations) b off in
  let! b, off := onMsg (packUint8 SaltLength) b off in
  let! b, off := (if decide (Salt <> "-") then onMsg (packStringHex Salt) b off else Ok b off) in
  let! b, off := onMsg (packUint8 HashLength) b off in
  let! b, off := onMsg (packStringBase32 NextDomain) b off in
  let! b, off := onMsg (packDataNsec TypeBitMap) b off in
  Ok (packed h (RR_NSEC3 Hash Flags Iterations SaltLength Salt HashLength NextDomain TypeBitMap) headerEnd off, b) off.

Definition packNSEC3PARAM (h : RR_Header) (Hash Flags Iterations SaltLength : Z) (Salt : string)
    (compress : bool) (b : buffer) (off : nat) : result (RR * buffer) :=
  let! b, off := packHeader h compress b off in
  let headerEnd := off in
  let! b, off := onMsg (packUint8 Hash) b off in
  let! b, off := onMsg (packUint8 Flags) b off in
  let! b, off := onMsg (packUint16 Iterations) b off in
  let! b, off := onMsg (packUint8 SaltLength) b off in
  let! b, off := (if decide (Salt <> "-") then onMsg (packStringHex Salt) b off else Ok b off) in
  Ok (packed h (RR_NSEC3PARAM Hash Flags Iterations SaltLength Salt) headerEnd off, b) off.

Definition packOPENPGPKEY (h : RR_Header) (PublicKey : string) (compress : bool) (b : buffer)
    (off : nat) : result (RR * buffer) :=
  let! b, off := packHeader h compress b off in
  let headerEnd := off in
  let! b, off := onMsg (packStringBase64 PublicKey) b off in
  Ok (packed h (RR_OPENPGPKEY PublicKey) headerEnd off, b) off.

Definition packOPT (h : RR_Header) (Option : list EDNS0) (compress : bool) (b : buffer)
    (off : nat) : result (RR * buffer) :=
  let! b, off := packHeader h compress b off in
  let headerEnd := off in
  let! b, off := onMsg (packDataOpt Option) b off in
  Ok (packed h (RR_OPT Option) headerEnd off, b) off.

Definition packPTR (h : RR_Header) (Ptr : string) (compress : bool) (b : buffer) (off : nat)
    : result (RR * buffer) :=
  let! b, off := packHeader h compress b off in
  let headerEnd := off in
  let! b, off := PackDomainName Ptr compress b off in
  Ok (packed h (RR_PTR Ptr) headerEnd off, b) off.

Definition packPX (h : RR_Header) (Preference : Z) (Map822 Mapx400 : string) (compress : bool)
    (b : buffer) (off : nat) : result (RR * buffer) :=
  let! b, off := packHeader h compress b off in
  let headerEnd := off in
  let! b, off := onMsg (packUint16 Preference) b off in
  let! b, off := PackDomainName Map822 false b off in
  let! b, off := PackDomainName Mapx400 false b off in
  Ok (packed h (RR_PX Preference Map822 Mapx400) headerEnd off, b) off.

Definition packRFC3597 (h : RR_Header) (Rdata : string) (compress : bool) (b : buffer) (off : nat)
    : result (RR * buffer) :=
  let! b, off := packHeader h compress b off in
  let headerEnd := off in
  let! b, off := onMsg (packStringHex Rdata) b off in
  Ok (packed h (RR_RFC3597 Rdata) headerEnd off, b) off.

Definition packRKEY (h : RR_Header) (Flags Protocol Algorithm : Z) (PublicKey : string)
    (compress : bool) (b : buffer) (off : nat) : result (RR * buffer) :=
  let! b, off := packHeader h compress b off in
  let headerEnd := off in
  let! b, off := onMsg (packUint16 Flags) b off in
  let! b, off := onMsg (packUint8 Protocol) b off in
  let! b, off := onMsg (packUint8 Algorithm) b off in
  let! b, off := onMsg (packStringBase64 PublicKey) b off in
  Ok (packed h (RR_RKEY Flags Protocol Algorithm PublicKey) headerEnd off, b) off.

Definition packRP (h : RR_Header) (Mbox Txt : string) (compress : bool) (b : buffer) (off : nat)
    : result (RR * buffer) :=
  let! b, off := packHeader h compress b off in
  let headerEnd := off in
  let! b, off := PackDomainName Mbox false b off in
  let! b, off := PackDomainName Txt false b off in
  Ok (packed h (RR_RP Mbox Txt) headerEnd off, b) off.

Definition packRRSIG (h : RR_Header)
    (TypeCovered Algorithm Labels OrigTtl Expiration Inception KeyTag : Z)
    (SignerName Signature : string) (compress : bool) (b : buffer) (off : nat)
    : result (RR * buffer) :=
  let! b, off := packHeader h compress b off in
  let headerEnd := off in
  let! b, off := onMsg (packUint16 TypeCovered) b off in
  let! b, off := onMsg (packUint8 Algorithm) b off in
  let! b, off := onMsg (packUint8 Labels) b off in
  let! b, off := onMsg (packUint32 OrigTtl) b off in
  let! b, off := onMsg (packUint32 Expiration) b off in
  let! b, off := onMsg (packUint32 Inception) b off in
  let! b, off := onMsg (packUint16 KeyTag) b off in
  let! b, off := PackDomainName SignerName false b off in
  let! b, off := onMsg (packStringBase64 Signature) b off in
  Ok (packed h (RR_RRSIG TypeCovered Algorithm Labels OrigTtl Expiration Inception KeyTag SignerName Signature) headerEnd off, b) off.

Definition packRT (h : RR_Header) (Preference : Z) (Host : string) (compress : bool) (b : buffer)
    (off : nat) : result (RR * buffer) :=
  let! b, off := packHeader h compress b off in
  let headerEnd := off in
  let! b, off := onMsg (packUint16 Preference) b off in
  let! b, off := PackDomainName Host compress b off in
  Ok (packed h (RR_RT Preference Host) headerEnd off, b) off.

Definition packSIG (h : RR_Header)
    (TypeCovered Algorithm Labels OrigTtl Expiration Inception KeyTag : Z)
    (SignerName Signature : string) (compress : bool) (b : buffer) (off : nat)
    : result (RR * buffer) :=
  let! b, off := packHeader h compress b off in
  let headerEnd := off in
  let! b, off := onMsg (packUint16 TypeCovered) b off in
  let! b, off := onMsg (packUint8 Algorithm) b off in
  let! b, off := onMsg (packUint8 Labels) b off in
  let! b, off := onMsg (packUint32 OrigTtl) b off in
  let! b, off := onMsg (packUint32 Expiration) b off in
  let! b, off := onMsg (packUint32 Inception) b off in
  let! b, off := onMsg (packUint16 KeyTag) b off in
  let! b, off := PackDomainName SignerName false b off in
  let! b, off := onMsg (packStringBase64 Signature) b off in
  Ok (packed h (RR_SIG TypeCovered Algorithm Labels OrigTtl Expiration Inception KeyTag SignerName Signature) headerEnd off, b) off.

Definition packSMIMEA (h : RR_Header) (Usage Selector MatchingType : Z) (Certificate : string)
    (compress : bool) (b : buffer) (off : nat) : result (RR * buffer) :=
  let! b, off := packHeader h compress b off in
  let headerEnd := off in
  let! b, off := onMsg (packUint8 Usage) b off in
  let! b, off := onMsg (packUint8 Selector) b off in
  let! b, off := onMsg (packUint8 MatchingType) b off in
  let! b, off := onMsg (packStringHex Certificate) b off in
  Ok (packed h (RR_SMIMEA Usage Selector MatchingType Certificate) headerEnd off, b) off.

Definition packSOA (h : RR_Header) (Ns Mbox : string) (Serial Refresh Retry Expire Minttl : Z)
    (compress : bool) (b : buffer) (off : nat) : result (RR * buffer) :=
  let! b, off := packHeader h compress b off in
  let headerEnd := off in
  let! b, off := PackDomainName Ns compress b off in
  let! b, off := PackDomainName Mbox compress b off in
  let! b, off := onMsg (packUint32 Serial) b off in
  let! b, off := onMsg (packUint32 Refresh) b off in
  let! b, off := onMsg (packUint32 Retry) b off in
  let! b, off := onMsg (packUint32 Expire) b off in
  let! b, off := onMsg (packUint32 Minttl) b off in
  Ok (packed h (RR_SOA Ns Mbox Serial Refresh Retry Expire Minttl) headerEnd off, b) off.

Definition packSPF (h : RR_Header) (Txt : list string) (compress : bool) (b : buffer) (off : nat)
    : result (RR * buffer) :=
  let! b, off := packHeader h compress b off in
  let headerEnd := off in
  let! b, off := onMsg (packStringTxt Txt) b off in
  Ok (packed h (RR_SPF Txt) headerEnd off, b) off.

Definition packSRV (h : RR_Header) (Priority Weight Port : Z) (Target : string) (compress : bool)
    (b : buffer) (off : nat) : result (RR * buffer) :=
  let! b, off := packHeader h compress b off in
  let headerEnd := off in
  let! b, off := onMsg (packUint16 Priority) b off in
  let! b, off := onMsg (packUint16 Weight) b off in
  let! b, off := onMsg (packUint16 Port) b off in
  let! b, off := PackDomainName Target false b off in
  Ok (packed h (RR_SRV Priority Weight Port Target) headerEnd off, b) off.

Definition packSSHFP (h : RR_Header) (Algorithm Type_ : Z) (FingerPrint : string)
    (compress : bool) (b : buffer) (off : nat) : result (RR * buffer) :=
  let! b, off := packHeader h compress b off in
  let headerEnd := off in
  let! b, off := onMsg (packUint8 Algorithm) b off in
  let! b, off := onMsg (packUint8 Type_) b off in
  let! b, off := onMsg (packStringHex FingerPrint) b off in
  Ok (packed h (RR_SSHFP Algorithm Type_ FingerPrint) headerEnd off, b) off.

Definition packTA (h : RR_Header) (KeyTag Algorithm DigestType : Z) (Digest : string)
    (compress : bool) (b : buffer) (off : nat) : result (RR * buffer) :=
  let! b, off := packHeader h compress b off in
  let headerEnd := off in
  let! b, off := onMsg (packUint16 KeyTag) b off in
  let! b, off := onMsg (packUint8 Algorithm) b off in
  let! b, off := onMsg (packUint8 DigestType) b off in
  let! b, off := onMsg (packStringHex Digest) b off in
  Ok (packed h (RR_TA KeyTag Algorithm DigestType Digest) headerEnd off, b) off.

Definition packTALINK (h : RR_Header) (PreviousName NextName : string) (compress : bool)
    (b : buffer) (off : nat) : result (RR * buffer) :=
  let! b, off := packHeader h compress b off in
  let headerEnd := off in
  let! b, off := PackDomainName PreviousName false b off in
  let! b, off := PackDomainName NextName false b off in
  Ok (packed h (RR_TALINK PreviousName NextName) headerEnd off, b) off.

Definition packTKEY (h : RR_Header) (Algorithm : string)
    (Inception Expiration Mode Error KeySize : Z) (Key : string) (OtherLen : Z)
    (OtherData : string) (compress : bool) (b : buffer) (off : nat) : result (RR * buffer) :=
  let! b, off := packHeader h compress b off in
  let headerEnd := off in
  let! b, off := PackDomainName Algorithm false b off in
  let! b, off := onMsg (packUint32 Inception) b off in
  let! b, off := onMsg (packUint32 Expiration) b off in
  let! b, off := onMsg (packUint16 Mode) b off in
  let! b, off := onMsg (packUint16 Error) b off in
  let! b, off := onMsg (packUint16 KeySize) b off in
  let! b, off := onMsg (packStringHex Key) b off in
  let! b, off := onMsg (packUint16 OtherLen) b off in
  let! b, off := onMsg (packStringHex OtherData) b off in
  Ok (packed h (RR_TKEY Algorithm Inception Expiration Mode Error KeySize Key OtherLen OtherData) headerEnd off, b) off.

Definition packTLSA (h : RR_Header) (Usage Selector MatchingType : Z) (Certificate : string)
    (compress : bool) (b : buffer) (off : nat) : result (RR * buffer) :=
  let! b, off := packHeader h compress b off in
  let headerEnd := off in
  let! b, off := onMsg (packUint8 Usage) b off in
  let! b, off := onMsg (packUint8 Selector) b off in
  let! b, off := onMsg (packUint8 MatchingType) b off in
  let! b, off := onMsg (packStringHex Certificate) b off in
  Ok (packed h (RR_TLSA Usage Selector MatchingType Certificate) headerEnd off, b) off.

Definition packTSIG (h : RR_Header) (Algorithm : string) (TimeSigned Fudge MACSize : Z)
    (MAC : string) (OrigId Error OtherLen : Z) (OtherData : string) (compress : bool) (b : buffer)
    (off : nat) : result (RR * buffer) :=
  let! b, off := packHeader h compress b off in
  let headerEnd := off in
  let! b, off := PackDomainName Algorithm false b off in
  let! b, off := onMsg (packUint48 TimeSigned) b off in
  let! b, off := onMsg (packUint16 Fudge) b off in
  let! b, off := onMsg (packUint16 MACSize) b off in
  let! b, off := onMsg (packStringHex MAC) b off in
  let! b, off := onMsg (packUint16 OrigId) b off in
  let! b, off := onMsg (packUint16 Error) b off in
  let! b, off := onMsg (packUint16 OtherLen) b off in
  let! b, off := onMsg (packStringHex OtherData) b off in
  Ok (packed h (RR_TSIG Algorithm TimeSigned Fudge MACSize MAC OrigId Error OtherLen OtherData) headerEnd off, b) off.

Definition packTXT (h : RR_Header) (Txt : list string) (compress : bool) (b : buffer) (off : nat)
    : result (RR * buffer) :=
  let! b, off := packHeader h compress b off in
  let headerEnd := off in
  let! b, off := onMsg (packStringTxt Txt) b off in
  Ok (packed h (RR_TXT Txt) headerEnd off, b) off.

Definition packUID (h : RR_Header) (Uid : Z) (compress : bool) (b : buffer) (off : nat)
    : result (RR * buffer) :=
  let! b, off := packHeader h compress b off in
  let headerEnd := off in
  let! b, off := onMsg (packUint32 Uid) b off in
  Ok (packed h (RR_UID Uid) headerEnd off, b) off.

Definition packUINFO (h : RR_Header) (Uinfo : string) (compress : bool) (b : buffer) (off : nat)
    : result (RR * buffer) :=
  let! b, off := packHeader h compress b off in
  let headerEnd := off in
  let! b, off := onMsg (packString Uinfo) b off in
  Ok (packed h (RR_UINFO Uinfo) headerEnd off, b) off.

Definition packURI (h : RR_Header) (Priority Weight : Z) (Target : string) (compress : bool)
    (b : buffer) (off : nat) : result (RR * buffer) :=
  let! b, off := packHeader h compress b off in
  let headerEnd := off in
  let! b, off := onMsg (packUint16 Priority) b off in
  let! b, off := onMsg (packUint16 Weight) b off in
  let! b, off := onMsg (packStringOctet Target) b off in
  Ok (packed h (RR_URI Priority Weight Target) headerEnd off, b) off.

Definition packX25 (h : RR_Header) (PSDNAddress : string) (compress : bool) (b : buffer)
    (off : nat) : result (RR * buffer) :=
  let! b, off := packHeader h compress b off in
  let headerEnd := off in
  let! b, off := onMsg (packString PSDNAddress) b off in
  Ok (packed h (RR_X25 PSDNAddress) headerEnd off, b) off.

(** [rr.pack]. *)
Definition pack (rr : RR) (compress : bool) (b : buffer) (off : nat) : result (RR * buffer) :=
  let h := Hdr rr in
  match Data rr with
  | RR_A A => packA h A compress b off
  | RR_AAAA AAAA => packAAAA h AAAA compress b off
  | RR_AFSDB Subtype Hostname => packAFSDB h Subtype Hostname compress b off
  | RR_ANY => packANY h compress b off
  | RR_AVC Txt => packAVC h Txt compress b off
  | RR_CAA Flag Tag Value => packCAA h Flag Tag Value compress b off
  | RR_CDNSKEY Flags Protocol Algorithm PublicKey =>
      packCDNSKEY h Flags Protocol Algorithm PublicKey compress b off
  | RR_CDS KeyTag Algorithm DigestType Digest =>
      packCDS h KeyTag Algorithm DigestType Digest compress b off
  | RR_CERT Type_ KeyTag Algorithm Certificate =>
      packCERT h Type_ KeyTag Algorithm Certificate compress b off
  | RR_CNAME Target => packCNAME h Target compress b off
  | RR_CSYNC Serial Flags TypeBitMap => packCSYNC h Serial Flags TypeBitMap compress b off
  | RR_DHCID Digest => packDHCID h Digest compress b off
  | RR_DLV KeyTag Algorithm DigestType Digest =>
      packDLV h KeyTag Algorithm DigestType Digest compress b off
  | RR_DNAME Target => packDNAME h Target compress b off
  | RR_DNSKEY Flags Protocol Algorithm PublicKey =>
      packDNSKEY h Flags Protocol Algorithm PublicKey compress b off
  | RR_DS KeyTag Algorithm DigestType Digest =>
      packDS h KeyTag Algorithm DigestType Digest compress b off
  | RR_EID Endpoint => packEID h Endpoint compress b off
  | RR_EUI48 Address => packEUI48 h Address compress b off
  | RR_EUI64 Address => packEUI64 h Address compress b off
  | RR_GID Gid => packGID h Gid compress b off
  | RR_GPOS Longitude Latitude Altitude => packGPOS h Longitude Latitude Altitude compress b off
  | RR_HINFO Cpu Os => packHINFO h Cpu Os compress b off
  | RR_HIP HitLength PublicKeyAlgorithm PublicKeyLength Hit PublicKey RendezvousServers =>
      packHIP h HitLength PublicKeyAlgorithm PublicKeyLength Hit PublicKey RendezvousServers compress b off
  | RR_KEY Flags Protocol Algorithm PublicKey =>
      packKEY h Flags Protocol Algorithm PublicKey compress b off
  | RR_KX Preference Exchanger => packKX h Preference Exchanger compress b off
  | RR_L32 Preference Locator32 => packL32 h Preference Locator32 compress b off
  | RR_L64 Preference Locator64 => packL64 h Preference Locator64 compress b off
  | RR_LOC Version Size HorizPre VertPre Latitude Longitude Altitude =>
      packLOC h Version Size HorizPre VertPre Latitude Longitude Altitude compress b off
  | RR_LP Preference Fqdn => packLP h Preference Fqdn compress b off
  | RR_MB Mb => packMB h Mb compress b off
  | RR_MD Md => packMD h Md compress b off
  | RR_MF Mf => packMF h Mf compress b off
  | RR_MG Mg => packMG h Mg compress b off
  | RR_MINFO Rmail Email => packMINFO h Rmail Email compress b off
  | RR_MR Mr => packMR h Mr compress b off
  | RR_MX Preference Mx => packMX h Preference Mx compress b off
  | RR_NAPTR Order Preference Flags Service Regexp Replacement =>
      packNAPTR h Order Preference Flags Service Regexp Replacement compress b off
  | RR_NID Preference NodeID => packNID h Preference NodeID compress b off
  | RR_NIMLOC Locator => packNIMLOC h Locator compress b off
  | RR_NINFO ZSData => packNINFO h ZSData compress b off
  | RR_NS Ns => packNS h Ns compress b off
  | RR_NSAPPTR Ptr => packNSAPPTR h Ptr compress b off
  | RR_NSEC NextDomain TypeBitMap => packNSEC h NextDomain TypeBitMap compress b off
  | RR_NSEC3 Hash Flags Iterations SaltLength Salt HashLength NextDomain TypeBitMap =>
      packNSEC3 h Hash Flags Iterations SaltLength Salt HashLength NextDomain TypeBitMap compress b off
  | RR_NSEC3PARAM Hash Flags Iterations SaltLength Salt =>
      packNSEC3PARAM h Hash Flags Iterations SaltLength Salt compress b off
  | RR_OPENPGPKEY PublicKey => packOPENPGPKEY h PublicKey compress b off
  | RR_OPT Option => packOPT h Option compress b off
  | RR_PTR Ptr => packPTR h Ptr compress b off
  | RR_PX Preference Map822 Mapx400 => packPX h Preference Map822 Mapx400 compress b off
  | RR_RFC3597 Rdata => packRFC3597 h Rdata compress b off
  | RR_RKEY Flags Protocol Algorithm PublicKey =>
      packRKEY h Flags Protocol Algorithm PublicKey compress b off
  | RR_RP Mbox Txt => packRP h Mbox Txt compress b off
  | RR_RRSIG TypeCovered Algorithm Labels OrigTtl Expiration Inception KeyTag SignerName Signature =>
      packRRSIG h TypeCovered Algorithm Labels OrigTtl Expiration Inception KeyTag SignerName Signature compress b off
  | RR_RT Preference Host => packRT h Preference Host compress b off
  | RR_SIG TypeCovered Algorithm Labels OrigTtl Expiration Inception KeyTag SignerName Signature =>
      packSIG h TypeCovered Algorithm Labels OrigTtl Expiration Inception KeyTag SignerName Signature compress b off
  | RR_SMIMEA Usage Selector MatchingType Certificate =>
      packSMIMEA h Usage Selector MatchingType Certificate compress b off
  | RR_SOA Ns Mbox Serial Refresh Retry Expire Minttl =>
      packSOA h Ns Mbox Serial Refresh Retry Expire Minttl compress b off
  | RR_SPF Txt => packSPF h Txt compress b off
  | RR_SRV Priority Weight Port Target => packSRV h Priority Weight Port Target compress b off
  | RR_SSHFP Algorithm Type_ FingerPrint => packSSHFP h Algorithm Type_ FingerPrint compress b off
  | RR_TA KeyTag Algorithm DigestType Digest =>
      packTA h KeyTag Algorithm DigestType Digest compress b off
  | RR_TALINK PreviousName NextName => packTALINK h PreviousName NextName compress b off
  | RR_TKEY Algorithm Inception Expiration Mode Error KeySize Key OtherLen OtherData =>
      packTKEY h Algorithm Inception Expiration Mode Error KeySize Key OtherLen OtherData compress b off
  | RR_TLSA Usage Selector MatchingType Certificate =>
      packTLSA h Usage Selector MatchingType Certificate compress b off
  | RR_TSIG Algorithm TimeSigned Fudge MACSize MAC OrigId Error OtherLen OtherData =>
      packTSIG h Algorithm TimeSigned Fudge MACSize MAC OrigId Error OtherLen OtherData compress b off
  | RR_TXT Txt => packTXT h Txt compress b off
  | RR_UID Uid => packUID h Uid compress b off
  | RR_UINFO Uinfo => packUINFO h Uinfo compress b off
  | RR_URI Priority Weight Target => packURI h Priority Weight Target compress b off
  | RR_X25 PSDNAddress => packX25 h PSDNAddress compress b off
  end.

(** ** Lengths *)

Definition lenString (s : string) : nat := length (bytes s).

Definition lenHeader (h : RR_Header) : nat := lenString (RR_Name h) + 1 + 10.

Definition lenStrings (l : list string) : nat := sum_list ((fun x => (lenString x + 1)%nat) <$> l).

(** The bytes reserved for a type bit map: 33 for each window that differs from
    the one before; the first is compared with [2 ^ 32 + 1], which is 35. *)
Fixpoint lenBitMap (lastwindow : Z) (bitmap : list Z) : nat :=
  match bitmap with
  | [] => 0
  | t :: bitmap =>
      let window := t / 256 in
      (if decide (window <> lastwindow) then 1 + 32 else 0) + lenBitMap window bitmap
  end.

Definition firstWindow : Z := Z.lxor 2 32 + 1.

(** [lo, _ := rr.Option[i].pack(); l += len(lo)]. *)
Definition lenOption (e : EDNS0) : nat :=
  match packOption e with
  | inl lo => 4 + length lo
  | inr _ => 4
  end.

(** The fields of each type, without the header. *)
Definition lenData (data : rdata) : nat :=
  match data with
  | RR_A _ => 4
  | RR_AAAA _ => 16
  | RR_AFSDB _ Hostname => 2 + lenString Hostname + 1
  | RR_ANY => 0
  | RR_AVC Txt => lenStrings Txt
  | RR_CAA _ Tag Value => 1 + lenString Tag + 1 + lenString Value
  | RR_CDNSKEY _ _ _ PublicKey => 2 + 1 + 1 + base64.DecodedLen (lenString PublicKey)
  | RR_CDS _ _ _ Digest => 2 + 1 + 1 + lenString Digest / 2 + 1
  | RR_CERT _ _ _ Certificate => 2 + 2 + 1 + base64.DecodedLen (lenString Certificate)
  | RR_CNAME Target => lenString Target + 1
  | RR_CSYNC _ _ TypeBitMap => 4 + 2 + lenBitMap firstWindow TypeBitMap
  | RR_DHCID Digest => base64.DecodedLen (lenString Digest)
  | RR_DLV _ _ _ Digest => 2 + 1 + 1 + lenString Digest / 2 + 1
  | RR_DNAME Target => lenString Target + 1
  | RR_DNSKEY _ _ _ PublicKey => 2 + 1 + 1 + base64.DecodedLen (lenString PublicKey)
  | RR_DS _ _ _ Digest => 2 + 1 + 1 + lenString Digest / 2 + 1
  | RR_EID Endpoint => lenString Endpoint / 2 + 1
  | RR_EUI48 _ => 6
  | RR_EUI64 _ => 8
  | RR_GID _ => 4
  | RR_GPOS Longitude Latitude Altitude =>
      lenString Longitude + 1 + lenString Latitude + 1 + lenString Altitude + 1
  | RR_HINFO Cpu Os => lenString Cpu + 1 + lenString Os + 1
  | RR_HIP _ _ _ Hit PublicKey RendezvousServers =>
      1 + 1 + 2 + lenString Hit / 2 + base64.DecodedLen (lenString PublicKey) + lenStrings RendezvousServers
  | RR_KEY _ _ _ PublicKey => 2 + 1 + 1 + base64.DecodedLen (lenString PublicKey)
  | RR_KX _ Exchanger => 2 + lenString Exchanger + 1
  | RR_L32 _ _ => 2 + 4
  | RR_L64 _ _ => 2 + 8
  | RR_LOC _ _ _ _ _ _ _ => 1 + 1 + 1 + 1 + 4 + 4 + 4
  | RR_LP _ Fqdn => 2 + lenString Fqdn + 1
  | RR_MB Mb => lenString Mb + 1
  | RR_MD Md => lenString Md + 1
  | RR_MF Mf => lenString Mf + 1
  | RR_MG Mg => lenString Mg + 1
  | RR_MINFO Rmail Email => lenString Rmail + 1 + lenString Email + 1
  | RR_MR Mr => lenString Mr + 1
  | RR_MX _ Mx => 2 + lenString Mx + 1
  | RR_NAPTR _ _ Flags Service Regexp Replacement =>
      2 + 2 + lenString Flags + 1 + lenString Service + 1 + lenString Regexp + 1 + lenString Replacement + 1
  | RR_NID _ _ => 2 + 8
  | RR_NIMLOC Locator => lenString Locator / 2 + 1
  | RR_NINFO ZSData => lenStrings ZSData
  | RR_NS Ns => lenString Ns + 1
  | RR_NSAPPTR Ptr => lenString Ptr + 1
  | RR_NSEC NextDomain TypeBitMap => lenString NextDomain + 1 + lenBitMap firstWindow TypeBitMap
  | RR_NSEC3 _ _ _ _ Salt _ NextDomain TypeBitMap =>
      6 + lenString Salt / 2 + 1 + lenString NextDomain + 1 + lenBitMap firstWindow TypeBitMap
  | RR_NSEC3PARAM _ _ _ _ Salt => 1 + 1 + 2 + 1 + lenString Salt / 2
  | RR_OPENPGPKEY PublicKey => base64.DecodedLen (lenString PublicKey)
  | RR_OPT Option => sum_list (lenOption <$> Option)
  | RR_PTR Ptr => lenString Ptr + 1
  | RR_PX _ Map822 Mapx400 => 2 + lenString Map822 + 1 + lenString Mapx400 + 1
  | RR_RFC3597 Rdata => lenString Rdata / 2 + 1
  | RR_RKEY _ _ _ PublicKey => 2 + 1 + 1 + base64.DecodedLen (lenString PublicKey)
  | RR_RP Mbox Txt => lenString Mbox + 1 + lenString Txt + 1
  | RR_RRSIG _ _ _ _ _ _ _ SignerName Signature =>
      2 + 1 + 1 + 4 + 4 + 4 + 2 + lenString SignerName + 1 + base64.DecodedLen (lenString Signature)
  | RR_RT _ Host => 2 + lenString Host + 1
  | RR_SIG _ _ _ _ _ _ _ SignerName Signature =>
      2 + 1 + 1 + 4 + 4 + 4 + 2 + lenString SignerName + 1 + base64.DecodedLen (lenString Signature)
  | RR_SMIMEA _ _ _ Certificate => 1 + 1 + 1 + lenString Certificate / 2 + 1
  | RR_SOA Ns Mbox _ _ _ _ _ => lenString Ns + 1 + lenString Mbox + 1 + 4 + 4 + 4 + 4 + 4
  | RR_SPF Txt => lenStrings Txt
  | RR_SRV _ _ _ Target => 2 + 2 + 2 + lenString Target + 1
  | RR_SSHFP _ _ FingerPrint => 1 + 1 + lenString FingerPrint / 2 + 1
  | RR_TA _ _ _ Digest => 2 + 1 + 1 + lenString Digest / 2 + 1
  | RR_TALINK PreviousName NextName => lenString PreviousName + 1 + lenString NextName + 1
  | RR_TKEY Algorithm _ _ _ _ _ Key _ OtherData =>
      lenString Algorithm + 1 + 4 + 4 + 2 + 2 + 2 + lenString Key / 2 + 2 + lenString OtherData / 2
  | RR_TLSA _ _ _ Certificate => 1 + 1 + 1 + lenString Certificate / 2 + 1
  | RR_TSIG Algorithm _ _ _ MAC _ _ _ OtherData =>
      lenString Algorithm + 1 + 6 + 2 + 2 + lenString MAC / 2 + 2 + 2 + 2 + lenString OtherData / 2
  | RR_TXT Txt => lenStrings Txt
  | RR_UID _ => 4
  | RR_UINFO Uinfo => lenString Uinfo + 1
  | RR_URI _ _ Target => 2 + 2 + lenString Target
  | RR_X25 PSDNAddress => lenString PSDNAddress + 1
  end.

(** [rr.len()]. *)
Definition len (rr : RR) : nat := lenHeader (Hdr rr) + lenData (Data rr).
