(* ===== verification/DnsMsg.v ===== *)
(** * Packing and unpacking messages

    [Pack] and [Unpack] of [msg.go] with what they call: the header and the
    questions of a message, records with their headers ([msg_helpers.go],
    [rawmsg.go]), and the extended return code of [edns.go]. *)

From Stdlib Require Import ZArith Lia NArith Ascii Strings.Byte Strings.String.
From stdpp Require Import base numbers gmap strings list fin_maps.
From coqutil Require Import Datatypes.RecordSetters.
From S2P Require Import Prelude GoNet Endian GoEncoding DnsRR DnsName DnsField DnsZmsg.

Import RecordSetters.TriangleBracketNotations.
Open Scope Z_scope.
Open Scope dns_scope.

(** ** Records *)

Definition truncateMsgFromRdlength (msg : list byte) (off : nat) (rdlength : Z) : result (list byte) :=
  let lenrd := (off + Z.to_nat rdlength)%nat in
  if decide (length msg < lenrd)%nat then Fail off (Error "overflowing header size")
  else
    let* truncmsg := (cut msg 0 lenrd) in
    Ok truncmsg off.

Definition emptyHeader : RR_Header :=
  {| RR_Name := ""; Rrtype := 0; RR_Class := 0; Ttl := 0; Rdlength := 0 |}.

(** [unpackHeader]: the header, and the message up to the end of the record. *)
Definition unpackHeader (msg : list byte) (off : nat) : result (RR_Header * list byte) :=
  if decide (off = length msg) then Ok (emptyHeader, msg) off
  else
    let! Name, off := failAt (length msg) (UnpackDomainName msg off) in
    let! Rrtype, off := failAt (length msg) (unpackUint16 msg off) in
    let! Class_, off := failAt (length msg) (unpackUint16 msg off) in
    let! Ttl, off := failAt (length msg) (unpackUint32 msg off) in
    let! Rdlength, off := failAt (length msg) (unpackUint16 msg off) in
    let! truncmsg, off := truncateMsgFromRdlength msg off Rdlength in
    Ok ({| RR_Name := Name; Rrtype := Rrtype; RR_Class := Class_; Ttl := Ttl;
           Rdlength := Rdlength |}, truncmsg) off.

Definition UnpackRRWithHeader (h : RR_Header) (msg : list byte) (off : nat) : result RR :=
  let stop := (off + Z.to_nat (Rdlength h))%nat in
  let fn := match find (fun e => e.1 =? Rrtype h) typeToUnpack with
            | Some e => e.2
            | None => unpackRFC3597
            end in
  let bad := Fail stop (Error "bad rdlength") in
  match fn h msg off with
  | Ok rr off => if decide (off <> stop) then bad else Ok rr off
  | Fail off e => if decide (off <> stop) then bad else Fail off e
  | r => r
  end.

Definition UnpackRR (msg : list byte) (off : nat) : result RR :=
  let! r, off := failAt (length msg) (unpackHeader msg off) in
  UnpackRRWithHeader r.1 r.2 off.

(** [unpackRRslice]: an error drops the records read so far; a record that does
    not advance ends the section. *)
Fixpoint unpackRRslice (l : nat) (msg : list byte) (off : nat) (dst : list RR) : result (list RR) :=
  match l with
  | O => Ok dst off
  | S l =>
      let off1 := off in
      let! r, off := failAt (length msg) (UnpackRR msg off) in
      if decide (off1 = off) then Ok dst off
      else unpackRRslice l msg off (dst ++ [r])
  end.

(** The loop of [rawSetRdlength] that skips the owner's name. *)
Fixpoint skipName (fuel : nat) (msg : list byte) (off : nat) : result bool :=
  match fuel with
  | O => Hang
  | S fuel =>
      if decide (length msg < off + 1)%nat then Ok false off
      else
        let* b := (get msg off) in
        let c := u8 b in
        let off := S off in
        if decide (Z.land c 0xC0 = 0x00) then
          if decide (c = 0) then Ok true off
          else if decide (length msg < off + Z.to_nat c)%nat then Ok false off
          else skipName fuel msg (off + Z.to_nat c)
        else if decide (Z.land c 0xC0 = 0xC0) then Ok true (S off)
        else skipName fuel msg off
  end.

(** [rawSetRdlength]: the buffer with the length filled in, or [None] for false. *)
Definition rawSetRdlength (msg : list byte) (off stop : nat) : result (option (list byte)) :=
  let! named, off := skipName (S (length msg)) msg off in
  if named : bool then
    let off := (off + (2 + 2 + 4))%nat in
    if decide (length msg < off + 2)%nat then Ok None off
    else
      let rdatalen := Z.of_nat stop - (Z.of_nat off + 2) in
      if decide (0xFFFF < rdatalen) then Ok None off
      else
        let* msg := (putBytes msg off (be 2 rdatalen)) in
        Ok (Some msg) off
  else Ok None off.

Definition PackRR (rr : RR) (compress : bool) (b : buffer) (off : nat) : result (RR * buffer) :=
  let! r, off1 := failAt (length b.1) (pack rr compress b off) in
  let! set, _off := rawSetRdlength r.2.1 off off1 in
  match set with
  | Some msg => Ok (r.1, (msg, r.2.2)) off1
  | None => Fail off ErrRdata
  end.

(** A section of the message. *)
Fixpoint packSection (rrs : list RR) (compress : bool) (b : buffer) (off : nat)
    : result (list RR * buffer) :=
  match rrs with
  | [] => Ok ([], b) off
  | rr :: rrs =>
      let! r, off := PackRR rr compress b off in
      let! rest, off := packSection rrs compress r.2 off in
      Ok (r.1 :: rest.1, rest.2) off
  end.

(** ** Questions *)

Definition packQuestion (q : Question) (compress : bool) (b : buffer) (off : nat) : result buffer :=
  let! b, off := PackDomainName (Q_Name q) compress b off in
  let! b, off := onMsg (packUint16 (Qtype q)) b off in
  let! b, off := onMsg (packUint16 (Qclass q)) b off in
  Ok b off.

Fixpoint packQuestions (qs : list Question) (compress : bool) (b : buffer) (off : nat) : result buffer :=
  match qs with
  | [] => Ok b off
  | q :: qs =>
      let! b, off := packQuestion q compress b off in
      packQuestions qs compress b off
  end.

(** [unpackQuestion]; a class of which only one byte is left is read as 0. *)
Definition unpackQuestion (msg : list byte) (off : nat) : result Question :=
  let! Name, off := UnpackDomainName msg off in
  if atEnd msg off then Ok {| Q_Name := Name; Qtype := 0; Qclass := 0 |} off else
  let! Qtype, off := unpackUint16 msg off in
  if atEnd msg off then Ok {| Q_Name := Name; Qtype := Qtype; Qclass := 0 |} off else
  match unpackUint16 msg off with
  | Fail off e =>
      if atEnd msg off then Ok {| Q_Name := Name; Qtype := Qtype; Qclass := 0 |} off else Fail off e
  | r =>
      let! Qclass, off := r in
      Ok {| Q_Name := Name; Qtype := Qtype; Qclass := Qclass |} off
  end.

(** The loop of [Unpack] over the questions: those read, and the error. *)
Fixpoint unpackQuestions (n : nat) (msg : list byte) (off : nat) (qs : list Question)
    : result (list Question * option error) :=
  match n with
  | O => Ok (qs, None) off
  | S n =>
      let off1 := off in
      match unpackQuestion msg off with
      | Ok q off =>
          if decide (off1 = off) then Ok (qs, None) off
          else unpackQuestions n msg off (qs ++ [q])
      | Fail off e => Ok (qs, Some e) off
      | Crash p => Crash p
      | Hang => Hang
      end
  end.

(** ** The header of a message *)

Record Header := { H_Id : Z; Bits : Z; Qdcount : Z; Ancount : Z; Nscount : Z; Arcount : Z }.

Definition packMsgHdr (dh : Header) (b : buffer) (off : nat) : result buffer :=
  let! b, off := onMsg (packUint16 (H_Id dh)) b off in
  let! b, off := onMsg (packUint16 (Bits dh)) b off in
  let! b, off := onMsg (packUint16 (Qdcount dh)) b off in
  let! b, off := onMsg (packUint16 (Ancount dh)) b off in
  let! b, off := onMsg (packUint16 (Nscount dh)) b off in
  onMsg (packUint16 (Arcount dh)) b off.

Definition unpackMsgHdr (msg : list byte) (off : nat) : result Header :=
  let! Id, off := unpackUint16 msg off in
  let! Bits, off := unpackUint16 msg off in
  let! Qdcount, off := unpackUint16 msg off in
  let! Ancount, off := unpackUint16 msg off in
  let! Nscount, off := unpackUint16 msg off in
  let! Arcount, off := unpackUint16 msg off in
  Ok {| H_Id := Id; Bits := Bits; Qdcount := Qdcount; Ancount := Ancount; Nscount := Nscount;
        Arcount := Arcount |} off.

Definition QR : Z := Z.shiftl 1 15.
Definition AA : Z := Z.shiftl 1 10.
Definition TC : Z := Z.shiftl 1 9.
Definition RD : Z := Z.shiftl 1 8.
Definition RA : Z := Z.shiftl 1 7.
Definition Zbit : Z := Z.shiftl 1 6.
Definition AD : Z := Z.shiftl 1 5.
Definition CD : Z := Z.shiftl 1 4.

(** [dh.Bits |= flag] when the flag is on. *)
Definition setBit (on : bool) (flag bits : Z) : Z := if on then Z.lor bits flag else bits.

Definition headerBits (dns : Msg) : Z :=
  let bits := Z.lor (uint16 (Z.shiftl (uint16 (Opcode dns)) 11)) (uint16 (Z.land (Rcode dns) 0xF)) in
  let bits := setBit (Response dns) QR bits in
  let bits := setBit (Authoritative dns) AA bits in
  let bits := setBit (Truncated dns) TC bits in
  let bits := setBit (RecursionDesired dns) RD bits in
  let bits := setBit (RecursionAvailable dns) RA bits in
  let bits := setBit (Zero dns) Zbit bits in
  let bits := setBit (AuthenticatedData dns) AD bits in
  setBit (CheckingDisabled dns) CD bits.

(** ** The extended return code *)

(** [opt.SetExtendedRcode(v)] on a header, and [opt.ExtendedRcode()]. *)
Definition SetExtendedRcode (h : RR_Header) (v : Z) : RR_Header :=
  if decide (v < RcodeBadVers) then h
  else {| RR_Name := RR_Name h; Rrtype := Rrtype h; RR_Class := RR_Class h;
          Ttl := Z.lor (Z.land (Ttl h) 0x00FFFFFF) (u32 (Z.shiftl (v - 15) 24));
          Rdlength := Rdlength h |}.

Definition ExtendedRcode (h : RR_Header) : Z := Z.shiftr (Z.land (Ttl h) 0xFF000000) 24 + 15.

(** [IsEdns0()] and [SetExtendedRcode] on the record it returns: the additional
    section with the last OPT record changed; [None] when there is none. *)
Fixpoint setEdns0Rcode (v : Z) (rextra : list RR) : result (option (list RR)) :=
  match rextra with
  | [] => Ok None 0
  | rr :: rextra =>
      if decide (Rrtype (Hdr rr) = TypeOPT) then
        match Data rr with
        | RR_OPT _ => Ok (Some (mkRR (SetExtendedRcode (Hdr rr) v) (Data rr) :: rextra)) 0
        | _ => Crash FailedTypeAssertion
        end
      else
        let! r, _off := setEdns0Rcode v rextra in
        Ok (cons rr <$> r) 0
  end.

(** ** Messages *)

Definition lenQuestion (q : Question) : nat := lenString (Q_Name q) + 1 + 2 + 2.

(** [compressedLen(dns, false)]. *)
Definition uncompressedLen (dns : Msg) : nat :=
  12 + sum_list (lenQuestion <$> Msg_Question dns) + sum_list (len <$> Answer dns)
  + sum_list (len <$> Msg_Ns dns) + sum_list (len <$> Extra dns).

Definition ErrRcode : error := Error "bad rcode".
Definition ErrExtendedRcode : error := Error "bad extended rcode".
Definition ErrTruncated : error := Error "failed to unpack truncated message".

(** The pieces, one after the other: the records as [pack] leaves them, and the
    buffer. *)
Definition packPieces (dns : Msg) (b : buffer) : result (Msg * buffer) :=
  let compress := Compress dns in
  let dh := {| H_Id := Id dns; Bits := headerBits dns;
               Qdcount := uint16 (Z.of_nat (length (Msg_Question dns)));
               Ancount := uint16 (Z.of_nat (length (Answer dns)));
               Nscount := uint16 (Z.of_nat (length (Msg_Ns dns)));
               Arcount := uint16 (Z.of_nat (length (Extra dns))) |} in
  let! b, off := packMsgHdr dh b 0 in
  let! b, off := packQuestions (Msg_Question dns) compress b off in
  let! answer, off := packSection (Answer dns) compress b off in
  let! ns, off := packSection (Msg_Ns dns) compress answer.2 off in
  let! extra, off := packSection (Extra dns) compress ns.2 off in
  Ok (dns <| Answer := answer.1 |> <| Msg_Ns := ns.1 |> <| Extra := extra.1 |>, extra.2) off.

(** [packBufferWithCompressionMap(buf, compression)]: the bytes, and the message
    with the record lengths filled in. *)
Definition packBufferWithCompressionMap (dns : Msg) (buf : list byte)
    (compression : option (gmap (list byte) nat)) : result (list byte * Msg) :=
  if decide (Rcode dns < 0 \/ 0xFFF < Rcode dns) then Fail 0 ErrRcode
  else
    let! dns, _off :=
      (if decide (0xF < Rcode dns) then
         let! r, _off := setEdns0Rcode (Z.shiftr (Rcode dns) 4) (rev (Extra dns)) in
         match r with
         | None => Fail 0 ErrExtendedRcode
         | Some rextra => Ok (dns <| Extra := rev rextra |>) 0
         end
       else Ok dns 0) in
    let packLen := (uncompressedLen dns + 1)%nat in
    let msg := if decide (length buf < packLen)%nat then replicate packLen Byte.x00 else buf in
    let! r, off := packPieces dns (msg, compression) in
    let* out := (cut r.2.1 0 off) in
    Ok (out, r.1) off.

(** [dns.Pack()]. *)
Definition Pack (dns : Msg) : result (list byte * Msg) :=
  packBufferWithCompressionMap dns [] (if Compress dns then Some ∅ else None).

(** The message header, as fields of [Msg]. *)
Definition readHeader (dns : Msg) (dh : Header) : Msg :=
  let on flag := negb (Z.land (Bits dh) flag =? 0) in
  dns <| Id := H_Id dh |> <| Response := on QR |>
      <| Opcode := Z.land (Z.shiftr (Bits dh) 11) 0xF |>
      <| Authoritative := on AA |> <| Truncated := on TC |> <| RecursionDesired := on RD |>
      <| RecursionAvailable := on RA |> <| Zero := on Zbit |> <| AuthenticatedData := on AD |>
      <| CheckingDisabled := on CD |> <| Rcode := Z.land (Bits dh) 0xF |>.

(** A section of [Unpack]: nothing is read after an error. *)
Definition unpackSection (count : Z) (msg : list byte) (off : nat) (err : option error)
    (old : list RR) (k : list RR -> nat -> option error -> result (Msg * option error))
    : result (Msg * option error) :=
  match err with
  | Some _ => k old off err
  | None =>
      match unpackRRslice (Z.to_nat count) msg off [] with
      | Ok rrs off => k rrs off None
      | Fail off e => k [] off (Some e)
      | Crash p => Crash p
      | Hang => Hang
      end
  end.

(** [dns.Unpack(msg)]: the message afterwards and the error. *)
Definition Unpack (dns : Msg) (msg : list byte) : result (Msg * option error) :=
  match unpackMsgHdr msg 0 with
  | Fail off e => Ok (dns, Some e) off
  | Crash p => Crash p
  | Hang => Hang
  | Ok dh off =>
      let dns := readHeader dns dh in
      if decide (off = length msg) then
        Ok (dns <| Msg_Question := [] |> <| Answer := [] |> <| Msg_Ns := [] |> <| Extra := [] |>, None) off
      else
        let! r, off := unpackQuestions (Z.to_nat (Qdcount dh)) msg off [] in
        let dns := dns <| Msg_Question := r.1 |> in
        match r.2 with
        | Some e => Ok (dns, Some e) off
        | None =>
            unpackSection (Ancount dh) msg off None (Answer dns) (fun rrs off err =>
            let dns := dns <| Answer := rrs |> in
            unpackSection (Nscount dh) msg off err (Msg_Ns dns) (fun rrs off err =>
            let dns := dns <| Msg_Ns := rrs |> in
            unpackSection (Arcount dh) msg off err (Extra dns) (fun rrs off err =>
            let dns := dns <| Extra := rrs |> in
            let err := if decide (off <> length msg) then err
                       else if Truncated dns then Some ErrTruncated else err in
            Ok (dns, err) off)))
        end
  end.
