(* ===== verification/DnsSafety.v ===== *)
(** * Unpacking any bytes

    [Unpack] ends on every byte string, without a panic and without reading
    outside of it: the functions of [DnsField] stay [within] the message, and so
    do the readers of the seventy record types that are built from them.  What a
    message costs is bounded by its length, whatever its counts say. *)

From Stdlib Require Import ZArith Lia NArith Ascii Strings.Byte Strings.String.
From stdpp Require Import base numbers gmap strings list fin_maps.
From coqutil Require Import Datatypes.RecordSetters.
From S2P Require Import Prelude GoNet Endian GoEncoding DnsRR DnsName DnsNameSpec DnsField DnsZmsg DnsMsg.

Import RecordSetters.TriangleBracketNotations.
Open Scope Z_scope.
Open Scope dns_scope.

(** ** Staying within the message *)

(** A reader started at [off] returns, and moves forward to at most the end; [P]
    holds of what it read. *)
Definition within {A} (P : A -> Prop) (msg : list byte) (off : nat) (r : result A) : Prop :=
  match r with
  | Ok a off' => P a /\ (off <= off' <= length msg)%nat
  | Fail _ _ => True
  | Crash _ | Hang => False
  end.

Definition anything {A} (_ : A) : Prop := True.

Create HintDb dns.

Lemma within_Ok {A} (P : A -> Prop) msg off0 a off :
  P a -> (off0 <= off <= length msg)%nat -> within P msg off0 (Ok a off).
Proof. done. Qed.

Lemma within_andThen {A B} (P : A -> Prop) (Q : B -> Prop) msg off0 off (m : result A) k :
  (off0 <= off)%nat -> within P msg off m ->
  (forall a off', P a -> (off <= off' <= length msg)%nat -> within Q msg off0 (k a off')) ->
  within Q msg off0 (andThen m k).
Proof. intros Hoff Hm Hk. destruct m; simpl in *; try done. destruct Hm. by apply Hk. Qed.

Lemma within_failAt {A} (P : A -> Prop) msg off n (m : result A) :
  within P msg off m -> within P msg off (failAt n m).
Proof. by destruct m. Qed.

Lemma within_impl {A} (P Q : A -> Prop) msg off (m : result A) :
  (forall a, P a -> Q a) -> within P msg off m -> within Q msg off m.
Proof. intros H. destruct m; simpl; try done. intros [? ?]. auto. Qed.

(** ** Fields *)

Definition is_txt (s : string) : Prop :=
  exists w, (length w <= 255)%nat /\ s = text (concat (escapeTxt <$> w)).
Definition is_hex (s : string) : Prop := exists w, s = text (hex.EncodeToString w).
Definition is_base64 (s : string) : Prop := exists w, s = text (base64.EncodeToString w).
Definition is_base32 (s : string) : Prop := exists w, s = text (base32.EncodeToString w).

Lemma unpackUint_within n what msg off :
  within (in_width n) msg off (unpackUint n what msg off).
Proof.
  unfold unpackUint. case_decide; [done|]. unfold cut. rewrite decide_True by lia.
  apply within_Ok; [|lia]. unfold in_width.
  pose proof (bigEndian_range (take (off + n - off) (drop off msg))) as Hr.
  by rewrite length_take, length_drop, Nat.min_l in Hr by lia;
    replace (off + n - off)%nat with n in * by lia.
Qed.

Lemma unpackDataA_within msg off : within (fun a => length a = 4%nat) msg off (unpackDataA msg off).
Proof.
  unfold unpackDataA. case_decide; [done|]. unfold cut. rewrite decide_True by lia.
  apply within_Ok; [|lia]. rewrite length_take, length_drop. lia.
Qed.

Lemma unpackDataAAAA_within msg off : within (fun a => length a = 16%nat) msg off (unpackDataAAAA msg off).
Proof.
  unfold unpackDataAAAA. case_decide; [done|]. unfold cut. rewrite decide_True by lia.
  apply within_Ok; [|lia]. rewrite length_take, length_drop. lia.
Qed.

Lemma UnpackDomainName_within msg off : within is_name msg off (UnpackDomainName msg off).
Proof.
  pose proof (UnpackDomainName_outcome msg off). destruct (UnpackDomainName msg off); simpl in *; try done.
  intuition lia.
Qed.

Lemma unpackNames_within fuel msg off stop ss :
  (stop <= off + fuel)%nat -> (off <= length msg)%nat -> Forall is_name ss ->
  within (Forall is_name) msg off (unpackNames fuel msg off stop ss).
Proof.
  revert off ss. induction fuel as [|fuel IH]; intros off ss Hf Hoff Hss; simpl.
  - rewrite decide_False by lia. apply within_Ok; [done|lia].
  - case_decide; [|apply within_Ok; [done|lia]].
    pose proof (UnpackDomainName_outcome msg off) as Hn.
    destruct (UnpackDomainName msg off) as [s off'|??|?|]; simpl; try done.
    destruct Hn as [Hs Hn]. specialize (IH off' (ss ++ [s]) ltac:(lia) ltac:(lia)).
    specialize (IH ltac:(apply Forall_app; auto)).
    destruct (unpackNames _ _ _ _ _); simpl in *; try done. intuition lia.
Qed.

Lemma unpackDataDomainNames_within msg off stop :
  (off <= length msg)%nat -> within (Forall is_name) msg off (unpackDataDomainNames msg off stop).
Proof.
  intros Hoff. unfold unpackDataDomainNames. case_decide; [done|]. apply unpackNames_within; [lia..|constructor].
Qed.

Lemma unpackTxtString_outcome msg off :
  match unpackTxtString msg off with
  | Ok s off' => is_txt s /\ (off < off' <= length msg)%nat
  | Fail _ _ => True
  | Crash _ | Hang => False
  end.
Proof.
  unfold unpackTxtString. case_decide; [done|]. unfold get.
  destruct (lookup_lt_is_Some_2 msg off) as [c ->]; [lia|].
  case_decide; [done|]. unfold cut. rewrite decide_True by lia. split; [|lia].
  eexists. split; [|reflexivity]. pose proof (u8_range c). rewrite length_take. lia.
Qed.

Lemma unpackString_within msg off : within is_txt msg off (unpackString msg off).
Proof.
  unfold unpackString. pose proof (unpackTxtString_outcome msg off).
  destruct (unpackTxtString msg off); simpl in *; try done. intuition lia.
Qed.

Lemma unpackTxt_within fuel msg off ss :
  (length msg <= off + fuel)%nat -> (off <= length msg)%nat -> Forall is_txt ss ->
  within (Forall is_txt) msg off (unpackTxt fuel msg off ss).
Proof.
  revert off ss. induction fuel as [|fuel IH]; intros off ss Hf Hoff Hss; simpl.
  - rewrite decide_False by lia. apply within_Ok; [done|lia].
  - case_decide; [|apply within_Ok; [done|lia]].
    pose proof (unpackTxtString_outcome msg off) as Hn.
    destruct (unpackTxtString msg off) as [s off'|??|?|]; simpl; try done.
    destruct Hn as [Hs Hn]. specialize (IH off' (ss ++ [s]) ltac:(lia) ltac:(lia)).
    specialize (IH ltac:(apply Forall_app; auto)).
    destruct (unpackTxt _ _ _ _); simpl in *; try done. intuition lia.
Qed.

Lemma unpackStringTxt_within msg off :
  (off <= length msg)%nat -> within (Forall is_txt) msg off (unpackStringTxt msg off).
Proof. intros H. apply within_failAt, unpackTxt_within; [lia..|constructor]. Qed.

Lemma unpackStringOctet_within msg off :
  (off <= length msg)%nat -> within anything msg off (unpackStringOctet msg off).
Proof.
  intros H. unfold unpackStringOctet, cut. rewrite decide_True by lia. apply within_Ok; [done|lia].
Qed.

Lemma unpackStringHex_within msg off stop :
  (off <= stop)%nat -> within is_hex msg off (unpackStringHex msg off stop).
Proof.
  intros H. unfold unpackStringHex. case_decide; [done|]. unfold cut. rewrite decide_True by lia.
  apply within_Ok; [by eexists|lia].
Qed.

Lemma unpackStringBase64_within msg off stop :
  (off <= stop)%nat -> within is_base64 msg off (unpackStringBase64 msg off stop).
Proof.
  intros H. unfold unpackStringBase64. case_decide; [done|]. unfold cut. rewrite decide_True by lia.
  apply within_Ok; [by eexists|lia].
Qed.

Lemma unpackStringBase32_within msg off stop :
  (off <= stop)%nat -> within is_base32 msg off (unpackStringBase32 msg off stop).
Proof.
  intros H. unfold unpackStringBase32. case_decide; [done|]. unfold cut. rewrite decide_True by lia.
  apply within_Ok; [by eexists|lia].
Qed.

Lemma windowTypes_range t w n :
  0 <= t -> t + 8 * Z.of_nat (length w) <= n -> Forall (fun x => 0 <= x < n) (windowTypes t w).
Proof.
  revert t. induction w as [|b w IH]; intros t Ht Hn; simpl in *; [constructor|].
  apply Forall_app. split; [|apply IH; lia]. unfold bitTypes. apply Forall_fmap, Forall_forall.
  intros k Hk. apply list_elem_of_filter in Hk as [_ Hk]. simpl.
  assert (0 <= k <= 7) by (set_unfold; lia). lia.
Qed.

Lemma unpackWindows_within fuel msg off last nsec :
  (length msg <= off + fuel)%nat -> (off <= length msg)%nat -> Forall (in_width 2) nsec ->
  within (Forall (in_width 2)) msg off (unpackWindows fuel msg off last nsec).
Proof.
  revert off last nsec. induction fuel as [|fuel IH]; intros off last nsec Hf Hoff Hns; simpl.
  - rewrite decide_False by lia. apply within_Ok; [done|lia].
  - case_decide; [|apply within_Ok; [done|lia]]. case_decide; [done|]. unfold get.
    destruct (lookup_lt_is_Some_2 msg off) as [b0 ->]; [lia|].
    destruct (lookup_lt_is_Some_2 msg (off + 1)) as [b1 ->]; [lia|].
    do 4 (case_decide; [done|]). unfold cut. rewrite decide_True by lia.
    match goal with |- within _ _ _ (unpackWindows _ _ ?o ?l ?n) =>
      specialize (IH o l n ltac:(lia) ltac:(lia)) end.
    lapply IH; [clear IH; intros IH|].
    2: { apply Forall_app. split; [done|]. pose proof (u8_range b0). apply windowTypes_range; [lia|].
         rewrite length_take. change (256 ^ Z.of_nat 2) with 65536. lia. }
    destruct (unpackWindows _ _ _ _ _); simpl in *; try done. intuition lia.
Qed.

Lemma unpackDataNsec_within msg off :
  (off <= length msg)%nat -> within (Forall (in_width 2)) msg off (unpackDataNsec msg off).
Proof. intros H. apply unpackWindows_within; [lia..|constructor]. Qed.

Lemma unpackOption_safe code b :
  match unpackOption code b with Ok _ _ | Fail _ _ => True | Crash _ | Hang => False end.
Proof.
  unfold unpackOption. repeat (case_decide; [try done|]); try done.
  - unfold EDNS0_SUBNET_unpack. case_decide; [done|]. unfold cut. rewrite decide_True by lia.
    unfold get. destruct (lookup_lt_is_Some_2 b 2) as [m ->]; [lia|].
    destruct (lookup_lt_is_Some_2 b 3) as [s ->]; [lia|].
    by repeat case_decide.
  - unfold EDNS0_UL_unpack. case_decide; [done|]. unfold cut. by rewrite decide_True by lia.
  - unfold EDNS0_LLQ_unpack. case_decide; [done|]. unfold cut. by rewrite !decide_True by lia.
Qed.

Lemma unpackOptions_within fuel msg off edns :
  (length msg < off + fuel)%nat -> (off <= length msg)%nat ->
  within anything msg off (unpackOptions fuel msg off edns).
Proof.
  revert off edns. induction fuel as [|fuel IH]; intros off edns Hf Hoff; simpl; [lia|].
  case_decide; [done|]. unfold cut. rewrite !decide_True by lia. case_decide; [done|].
  rewrite decide_True by lia.
  pose proof (unpackOption_safe (bigEndian (take (off + 2 - off) (drop off msg)))
    (take (off + 4 + Z.to_nat (bigEndian (take (off + 4 - (off + 2)) (drop (off + 2) msg))) - (off + 4))
      (drop (off + 4) msg))) as Ho.
  destruct (unpackOption _ _) as [e ?|??|?|]; simpl; try done.
  case_decide; [|apply within_Ok; [done|lia]].
  match goal with |- within _ _ _ (unpackOptions _ _ ?o ?l) => specialize (IH o l ltac:(lia) ltac:(lia)) end.
  destruct (unpackOptions _ _ _ _); simpl in *; try done. intuition lia.
Qed.

Lemma unpackDataOpt_within msg off :
  (off <= length msg)%nat -> within anything msg off (unpackDataOpt msg off).
Proof. intros H. apply unpackOptions_within; lia. Qed.

(** ** Records *)

(** A field that may be missing at the end of a record. *)
Definition opt_name (s : string) : Prop := s = "" \/ is_name s.
Definition opt_length (n : nat) (ip : list byte) : Prop := length ip = 0%nat \/ length ip = n.

(** The types of the fields of a record that was read from a message: integers
    in their width, names, strings and encodings in the form they are printed. *)
Definition typed_data (data : rdata) : Prop :=
  match data with
  | RR_A A => opt_length 4 A
  | RR_AAAA AAAA => opt_length 16 AAAA
  | RR_AFSDB Subtype Hostname => in_width 2 Subtype /\ opt_name Hostname
  | RR_ANY => True
  | RR_AVC Txt => Forall is_txt Txt
  | RR_CAA Flag Tag _ => in_width 1 Flag /\ is_txt Tag
  | RR_CDNSKEY Flags Protocol Algorithm PublicKey => in_width 2 Flags /\ in_width 1 Protocol /\
      in_width 1 Algorithm /\ is_base64 PublicKey
  | RR_CDS KeyTag Algorithm DigestType Digest => in_width 2 KeyTag /\ in_width 1 Algorithm /\
      in_width 1 DigestType /\ is_hex Digest
  | RR_CERT Type_ KeyTag Algorithm Certificate => in_width 2 Type_ /\ in_width 2 KeyTag /\
      in_width 1 Algorithm /\ is_base64 Certificate
  | RR_CNAME Target => opt_name Target
  | RR_CSYNC Serial Flags TypeBitMap => in_width 4 Serial /\ in_width 2 Flags /\ Forall
      (in_width 2) TypeBitMap
  | RR_DHCID Digest => is_base64 Digest
  | RR_DLV KeyTag Algorithm DigestType Digest => in_width 2 KeyTag /\ in_width 1 Algorithm /\
      in_width 1 DigestType /\ is_hex Digest
  | RR_DNAME Target => opt_name Target
  | RR_DNSKEY Flags Protocol Algorithm PublicKey => in_width 2 Flags /\ in_width 1 Protocol /\
      in_width 1 Algorithm /\ is_base64 PublicKey
  | RR_DS KeyTag Algorithm DigestType Digest => in_width 2 KeyTag /\ in_width 1 Algorithm /\
      in_width 1 DigestType /\ is_hex Digest
  | RR_EID Endpoint => is_hex Endpoint
  | RR_EUI48 Address => in_width 6 Address
  | RR_EUI64 Address => in_width 8 Address
  | RR_GID Gid => in_width 4 Gid
  | RR_GPOS Longitude Latitude Altitude => is_txt Longitude /\ is_txt Latitude /\ is_txt
      Altitude
  | RR_HINFO Cpu Os => is_txt Cpu /\ is_txt Os
  | RR_HIP HitLength PublicKeyAlgorithm PublicKeyLength Hit PublicKey RendezvousServers =>
      in_width 1 HitLength /\ in_width 1 PublicKeyAlgorithm /\ in_width 2 PublicKeyLength /\ is_hex
      Hit /\ is_base64 PublicKey /\ Forall is_name RendezvousServers
  | RR_KEY Flags Protocol Algorithm PublicKey => in_width 2 Flags /\ in_width 1 Protocol /\
      in_width 1 Algorithm /\ is_base64 PublicKey
  | RR_KX Preference Exchanger => in_width 2 Preference /\ opt_name Exchanger
  | RR_L32 Preference Locator32 => in_width 2 Preference /\ opt_length 4 Locator32
  | RR_L64 Preference Locator64 => in_width 2 Preference /\ in_width 8 Locator64
  | RR_LOC Version Size HorizPre VertPre Latitude Longitude Altitude => in_width 1 Version /\
      in_width 1 Size /\ in_width 1 HorizPre /\ in_width 1 VertPre /\ in_width 4 Latitude /\
      in_width 4 Longitude /\ in_width 4 Altitude
  | RR_LP Preference Fqdn => in_width 2 Preference /\ opt_name Fqdn
  | RR_MB Mb => opt_name Mb
  | RR_MD Md => opt_name Md
  | RR_MF Mf => opt_name Mf
  | RR_MG Mg => opt_name Mg
  | RR_MINFO Rmail Email => opt_name Rmail /\ opt_name Email
  | RR_MR Mr => opt_name Mr
  | RR_MX Preference Mx => in_width 2 Preference /\ opt_name Mx
  | RR_NAPTR Order Preference Flags Service Regexp Replacement => in_width 2 Order /\ in_width 2
      Preference /\ is_txt Flags /\ is_txt Service /\ is_txt Regexp /\ opt_name Replacement
  | RR_NID Preference NodeID => in_width 2 Preference /\ in_width 8 NodeID
  | RR_NIMLOC Locator => is_hex Locator
  | RR_NINFO ZSData => Forall is_txt ZSData
  | RR_NS Ns => opt_name Ns
  | RR_NSAPPTR Ptr => opt_name Ptr
  | RR_NSEC NextDomain TypeBitMap => opt_name NextDomain /\ Forall (in_width 2) TypeBitMap
  | RR_NSEC3 Hash Flags Iterations SaltLength Salt HashLength NextDomain TypeBitMap => in_width
      1 Hash /\ in_width 1 Flags /\ in_width 2 Iterations /\ in_width 1 SaltLength /\ is_hex Salt /\
      in_width 1 HashLength /\ is_base32 NextDomain /\ Forall (in_width 2) TypeBitMap
  | RR_NSEC3PARAM Hash Flags Iterations SaltLength Salt => in_width 1 Hash /\ in_width 1 Flags
      /\ in_width 2 Iterations /\ in_width 1 SaltLength /\ is_hex Salt
  | RR_OPENPGPKEY PublicKey => is_base64 PublicKey
  | RR_OPT _ => True
  | RR_PTR Ptr => opt_name Ptr
  | RR_PX Preference Map822 Mapx400 => in_width 2 Preference /\ opt_name Map822 /\ opt_name
      Mapx400
  | RR_RFC3597 Rdata => is_hex Rdata
  | RR_RKEY Flags Protocol Algorithm PublicKey => in_width 2 Flags /\ in_width 1 Protocol /\
      in_width 1 Algorithm /\ is_base64 PublicKey
  | RR_RP Mbox Txt => opt_name Mbox /\ opt_name Txt
  | RR_RRSIG TypeCovered Algorithm Labels OrigTtl Expiration Inception KeyTag SignerName
      Signature => in_width 2 TypeCovered /\ in_width 1 Algorithm /\ in_width 1 Labels /\ in_width 4
      OrigTtl /\ in_width 4 Expiration /\ in_width 4 Inception /\ in_width 2 KeyTag /\ opt_name
      SignerName /\ is_base64 Signature
  | RR_RT Preference Host => in_width 2 Preference /\ opt_name Host
  | RR_SIG TypeCovered Algorithm Labels OrigTtl Expiration Inception KeyTag SignerName Signature
      => in_width 2 TypeCovered /\ in_width 1 Algorithm /\ in_width 1 Labels /\ in_width 4 OrigTtl
      /\ in_width 4 Expiration /\ in_width 4 Inception /\ in_width 2 KeyTag /\ opt_name SignerName
      /\ is_base64 Signature
  | RR_SMIMEA Usage Selector MatchingType Certificate => in_width 1 Usage /\ in_width 1 Selector
      /\ in_width 1 MatchingType /\ is_hex Certificate
  | RR_SOA Ns Mbox Serial Refresh Retry Expire Minttl => opt_name Ns /\ opt_name Mbox /\
      in_width 4 Serial /\ in_width 4 Refresh /\ in_width 4 Retry /\ in_width 4 Expire /\ in_width 4
      Minttl
  | RR_SPF Txt => Forall is_txt Txt
  | RR_SRV Priority Weight Port Target => in_width 2 Priority /\ in_width 2 Weight /\ in_width 2
      Port /\ opt_name Target
  | RR_SSHFP Algorithm Type_ FingerPrint => in_width 1 Algorithm /\ in_width 1 Type_ /\ is_hex
      FingerPrint
  | RR_TA KeyTag Algorithm DigestType Digest => in_width 2 KeyTag /\ in_width 1 Algorithm /\
      in_width 1 DigestType /\ is_hex Digest
  | RR_TALINK PreviousName NextName => opt_name PreviousName /\ opt_name NextName
  | RR_TKEY Algorithm Inception Expiration Mode Error KeySize Key OtherLen OtherData => opt_name
      Algorithm /\ in_width 4 Inception /\ in_width 4 Expiration /\ in_width 2 Mode /\ in_width 2
      Error /\ in_width 2 KeySize /\ is_hex Key /\ in_width 2 OtherLen /\ is_hex OtherData
  | RR_TLSA Usage Selector MatchingType Certificate => in_width 1 Usage /\ in_width 1 Selector
      /\ in_width 1 MatchingType /\ is_hex Certificate
  | RR_TSIG Algorithm TimeSigned Fudge MACSize MAC OrigId Error OtherLen OtherData => opt_name
      Algorithm /\ in_width 6 TimeSigned /\ in_width 2 Fudge /\ in_width 2 MACSize /\ is_hex MAC /\
      in_width 2 OrigId /\ in_width 2 Error /\ in_width 2 OtherLen /\ is_hex OtherData
  | RR_TXT Txt => Forall is_txt Txt
  | RR_UID Uid => in_width 4 Uid
  | RR_UINFO Uinfo => is_txt Uinfo
  | RR_URI Priority Weight _ => in_width 2 Priority /\ in_width 2 Weight
  | RR_X25 PSDNAddress => is_txt PSDNAddress
  end.

Definition typed_header (h : RR_Header) : Prop :=
  opt_name (RR_Name h) /\ in_width 2 (Rrtype h) /\ in_width 2 (RR_Class h) /\
  in_width 4 (Ttl h) /\ in_width 2 (Rdlength h).

Definition typed_RR (rr : RR) : Prop := typed_header (Hdr rr) /\ typed_data (Data rr).

(** The zero values that stand for missing fields are typed. *)
Lemma in_width_0 n : in_width n 0.
Proof. unfold in_width. lia. Qed.

Lemma is_txt_empty : is_txt "".
Proof. exists []. split; [simpl; lia|done]. Qed.

Lemma is_hex_empty : is_hex "".
Proof. by exists []. Qed.

Lemma is_base64_empty : is_base64 "".
Proof. by exists []. Qed.

Lemma is_base32_empty : is_base32 "".
Proof. by exists []. Qed.

Lemma opt_name_empty : opt_name "".
Proof. by left. Qed.

Lemma opt_name_name s : is_name s -> opt_name s.
Proof. by right. Qed.

Lemma opt_length_nil n : opt_length n [].
Proof. by left. Qed.

Lemma opt_length_eq n ip : length ip = n -> opt_length n ip.
Proof. by right. Qed.

#[export] Hint Resolve in_width_0 is_txt_empty is_hex_empty is_base64_empty is_base32_empty
  opt_name_empty opt_name_name opt_length_nil opt_length_eq : dns.

#[export] Hint Resolve unpackUint_within unpackDataA_within unpackDataAAAA_within
  UnpackDomainName_within unpackDataDomainNames_within unpackString_within unpackStringTxt_within
  unpackStringOctet_within unpackDataNsec_within unpackDataOpt_within : dns.

(** One step of a reader: a missing rdata, a field, the end of the record. *)
Ltac field :=
  first [ solve [eauto with dns lia]
        | apply unpackStringHex_within; lia
        | apply unpackStringBase64_within; lia
        | apply unpackStringBase32_within; lia ].

Ltac reader_step :=
  match goal with
  | |- within _ _ _ (if noRdata ?h then _ else _) => destruct (noRdata h)
  | |- within _ _ _ (if atEnd ?m ?o then _ else _) => destruct (atEnd m o)
  | |- within _ _ _ (let _ := _ in _) => cbv zeta
  | |- within _ _ _ (andThen _ _) => eapply within_andThen; [| field | intros ? ? ? ?]; [lia|]
  | |- within _ _ _ (Ok _ _) =>
      apply within_Ok; [simpl; split_and?; eauto with dns; constructor|lia]
  end.

Ltac reader := repeat reader_step.

(** What a reader of a record type promises: given the record's end as the end of
    the message, it reads a typed record under the header it was given. *)
Definition reads_record (fn : RR_Header -> list byte -> nat -> result RR) : Prop :=
  forall h msg off, (off + Z.to_nat (Rdlength h) = length msg)%nat ->
    within (fun rr => Hdr rr = h /\ typed_data (Data rr)) msg off (fn h msg off).

Ltac read_record :=
  intros h msg off Hend;
  match goal with |- within _ _ _ (?f h msg off) => unfold f end;
  unfold unpackUint8, unpackUint16, unpackUint32, unpackUint48, unpackUint64; reader.

Lemma unpackRFC3597_reads : reads_record unpackRFC3597.
Proof. read_record. Qed.

(** Every reader of the table keeps the promise. *)
Lemma typeToUnpack_reads : Forall (fun e => reads_record e.2) typeToUnpack.
Proof. unfold typeToUnpack. repeat (apply Forall_cons; split; [simpl; read_record|]). constructor. Qed.

(** A field of fixed width moves by that width. *)
Lemma unpackUint_outcome n what msg off :
  match unpackUint n what msg off with
  | Ok v off' => in_width n v /\ off' = (off + n)%nat /\ (off' <= length msg)%nat
  | Fail off' _ => off' = length msg
  | Crash _ | Hang => False
  end.
Proof.
  pose proof (unpackUint_within n what msg off) as Hw. unfold unpackUint in *.
  case_decide; [done|]. unfold cut in *. rewrite decide_True in * by lia. simpl in *. intuition lia.
Qed.

Lemma unpackHeader_outcome msg off :
  (off <= length msg)%nat ->
  match unpackHeader msg off with
  | Ok (h, truncmsg) off' =>
      typed_header h /\ (off' + Z.to_nat (Rdlength h) = length truncmsg)%nat /\
      (length truncmsg <= length msg)%nat /\
      (off' = off /\ off = length msg \/ off + 11 <= off')%nat
  | Fail _ _ => True
  | Crash _ | Hang => False
  end.
Proof.
  intros Hoff. unfold unpackHeader, unpackUint16, unpackUint32. case_decide as E.
  - split_and!; [split_and!; simpl; auto with dns|simpl; lia..].
  - pose proof (UnpackDomainName_outcome msg off) as Hn.
    destruct (UnpackDomainName msg off) as [Name off1|??|?|]; try done. destruct Hn as [Hn Ho1].
    cbn [andThen failAt].
    repeat match goal with
    | |- context [unpackUint ?n ?w ?m ?o] =>
        let H := fresh "H" in
        pose proof (unpackUint_outcome n w m o) as H;
        destruct (unpackUint n w m o) as [? ?|??|?|]; try done;
        destruct H as (? & -> & ?); cbn [andThen failAt]
    end.
    unfold truncateMsgFromRdlength. case_decide as Ht; [done|].
    unfold cut. rewrite decide_True by lia. cbn [andThen Rdlength].
    rewrite Nat.sub_0_r, drop_0, length_take. split_and!; try lia.
    split_and!; simpl; auto with dns.
Qed.

Lemma UnpackRR_outcome msg off :
  (off <= length msg)%nat ->
  match UnpackRR msg off with
  | Ok rr off' =>
      typed_RR rr /\ (off' <= length msg)%nat /\
      (off' = off /\ off = length msg \/ off + 11 <= off')%nat
  | Fail _ _ => True
  | Crash _ | Hang => False
  end.
Proof.
  intros Hoff. unfold UnpackRR. pose proof (unpackHeader_outcome msg off Hoff) as Hh.
  destruct (unpackHeader msg off) as [[h truncmsg] off1|??|?|]; try done.
  destruct Hh as (Hh & Hend & Hlen & Hadv). cbn [andThen failAt fst snd]. unfold UnpackRRWithHeader.
  set (fn := match find _ _ with Some e => e.2 | None => _ end).
  assert (reads_record fn) as Hfn.
  { unfold fn. destruct (find _ _) as [e|] eqn:E; [|apply unpackRFC3597_reads].
    apply find_some in E as [Hin _]. pose proof typeToUnpack_reads as Hall.
    rewrite Forall_forall in Hall. apply Hall. by apply list_elem_of_In. }
  specialize (Hfn h truncmsg off1 ltac:(lia)).
  destruct (fn h truncmsg off1) as [rr off2|??|?|]; try done; [|by case_decide].
  destruct Hfn as [[Hhdr Hdata] Hoff2]. case_decide as Es; [done|].
  split_and!; [split; [by rewrite Hhdr|done]|lia|]. lia.
Qed.

(** A section: typed records, no more of them than the bytes they take. *)
Lemma unpackRRslice_outcome l msg off dst :
  (off <= length msg)%nat -> Forall typed_RR dst ->
  match unpackRRslice l msg off dst with
  | Ok dst' off' =>
      Forall typed_RR dst' /\ (off <= off' <= length msg)%nat /\
      (11 * length dst' + off <= 11 * length dst + off')%nat
  | Fail off' _ => off' = length msg
  | Crash _ | Hang => False
  end.
Proof.
  revert off dst. induction l as [|l IH]; intros off dst Hoff Hdst; cbn [unpackRRslice].
  - split_and!; [done|lia..].
  - pose proof (UnpackRR_outcome msg off Hoff) as Hr.
    destruct (UnpackRR msg off) as [rr off1|??|?|]; cbn [failAt andThen]; try done.
    destruct Hr as (Hrr & Ho & Hadv). case_decide as E.
    + split_and!; [done|lia..].
    + specialize (IH off1 (dst ++ [rr]) ltac:(lia)).
      rewrite Forall_app, length_app in IH. specialize (IH (conj Hdst (Forall_cons_2 _ _ _ Hrr (Forall_nil_2 _)))).
      destruct (unpackRRslice l msg off1 (dst ++ [rr])); try done.
      destruct IH as (? & ? & ?). simpl in *. split_and!; [done|lia..].
Qed.

(** ** Messages *)

Definition typed_question (q : Question) : Prop :=
  is_name (Q_Name q) /\ in_width 2 (Qtype q) /\ in_width 2 (Qclass q).

Definition typed_Msg (m : Msg) : Prop :=
  in_width 2 (Id m) /\ 0 <= Opcode m < 16 /\ 0 <= Rcode m < 16 /\ Compress m = false /\
  Forall typed_question (Msg_Question m) /\ Forall typed_RR (Answer m) /\
  Forall typed_RR (Msg_Ns m) /\ Forall typed_RR (Extra m).

(** The bytes the parts of a message take at least. *)
Definition weight (m : Msg) : nat :=
  length (Msg_Question m) + 11 * (length (Answer m) + length (Msg_Ns m) + length (Extra m)).

Lemma unpackQuestion_outcome msg off :
  match unpackQuestion msg off with
  | Ok q off' => typed_question q /\ (off < off' <= length msg)%nat
  | Fail _ _ => True
  | Crash _ | Hang => False
  end.
Proof.
  unfold unpackQuestion, unpackUint16. pose proof (UnpackDomainName_outcome msg off) as Hn.
  destruct (UnpackDomainName msg off) as [Name off1|??|?|]; try done. destruct Hn as [Hn Ho1].
  cbn [andThen]. destruct (atEnd msg off1); [split; [split_and!; simpl; auto with dns|lia]|].
  pose proof (unpackUint_outcome 2 "uint16" msg off1) as Ht.
  destruct (unpackUint 2 "uint16" msg off1) as [t off2|??|?|]; try done.
  destruct Ht as (Ht & -> & Ho2). cbn [andThen].
  destruct (atEnd msg (off1 + 2)); [split; [split_and!; simpl; auto with dns|lia]|].
  pose proof (unpackUint_outcome 2 "uint16" msg (off1 + 2)) as Hc.
  destruct (unpackUint 2 "uint16" msg (off1 + 2)) as [c off3|off3 e|?|]; try done.
  - destruct Hc as (Hc & -> & Ho3). simpl. split; [by split_and!|lia].
  - subst off3. destruct (atEnd _ _); [split; [split_and!; simpl; auto with dns|lia]|done].
Qed.

Lemma unpackQuestions_outcome n msg off qs :
  (off <= length msg)%nat -> Forall typed_question qs ->
  match unpackQuestions n msg off qs with
  | Ok (qs', err) off' =>
      Forall typed_question qs' /\ (length qs' + off <= length qs + length msg)%nat /\
      (err = None -> (off <= off' <= length msg /\ length qs' + off <= length qs + off')%nat)
  | Fail _ _ | Crash _ | Hang => False
  end.
Proof.
  revert off qs. induction n as [|n IH]; intros off qs Hoff Hqs; cbn [unpackQuestions].
  - split_and!; [done|lia|intros _; lia].
  - pose proof (unpackQuestion_outcome msg off) as Hq.
    destruct (unpackQuestion msg off) as [q off1|off1 e|?|]; try done.
    + destruct Hq as [Hq Ho]. rewrite decide_False by lia.
      specialize (IH off1 (qs ++ [q]) ltac:(lia)). rewrite Forall_app, length_app in IH.
      specialize (IH (conj Hqs (Forall_cons_2 _ _ _ Hq (Forall_nil_2 _)))).
      destruct (unpackQuestions n msg off1 (qs ++ [q])) as [[qs' err] off'|??|?|]; try done.
      destruct IH as (? & ? & IH). simpl in *. split_and!; [done|lia|]. intros He. specialize (IH He). lia.
    + split_and!; [done|lia|done].
Qed.

Lemma land_15 x : 0 <= Z.land x 0xF < 16.
Proof. change 0xF with (Z.ones 4). rewrite Z.land_ones by lia. apply Z.mod_pos_bound. lia. Qed.

(** One section, given what the rest of [Unpack] does with it. *)
Lemma unpackSection_outcome (P : Msg * option error -> Prop) count msg off err old k :
  (off <= length msg)%nat -> Forall typed_RR old ->
  (err <> None -> off = length msg /\ old = []) ->
  (forall rrs off' err', Forall typed_RR rrs -> (off <= off' <= length msg)%nat ->
     (11 * length rrs + off <= off')%nat -> (err' <> None -> off' = length msg) ->
     exists m off2, k rrs off' err' = Ok m off2 /\ P m) ->
  exists m off2, unpackSection count msg off err old k = Ok m off2 /\ P m.
Proof.
  intros Hoff Hold Herr Hk. unfold unpackSection. destruct err as [e|].
  - destruct (Herr ltac:(done)) as [-> ->]. apply Hk; auto; simpl; lia.
  - pose proof (unpackRRslice_outcome (Z.to_nat count) msg off [] Hoff ltac:(done)) as Hs.
    destruct (unpackRRslice _ _ _ _) as [rrs off'|off' e|?|]; try done.
    + destruct Hs as (? & ? & ?). simpl in *. apply Hk; [done|lia|lia|done].
    + subst off'. apply Hk; [done|lia|simpl; lia|done].
Qed.

(** The header is twelve bytes. *)
Lemma unpackMsgHdr_outcome msg :
  match unpackMsgHdr msg 0 with
  | Ok dh off => in_width 2 (H_Id dh) /\ off = 12%nat /\ (12 <= length msg)%nat
  | Fail _ _ => (length msg < 12)%nat
  | Crash _ | Hang => False
  end.
Proof.
  unfold unpackMsgHdr, unpackUint16, unpackUint.
  repeat (case_decide; [simpl; lia|]; unfold cut at 1; rewrite decide_True by lia; cbn [andThen]).
  cbn [H_Id]. split_and!; [|lia..]. pose proof (bigEndian_range (take (0 + 2 - 0) (drop 0 msg))) as Hr.
  by rewrite length_take, length_drop, Nat.min_l in Hr by lia.
Qed.

Lemma readHeader_typed dh : in_width 2 (H_Id dh) -> typed_Msg (readHeader emptyMsg dh).
Proof.
  intros Hid. split_and!; simpl; try done; try apply land_15; apply Forall_nil_2.
Qed.

Lemma typed_with m qs an ns ex :
  typed_Msg m -> Forall typed_question qs -> Forall typed_RR an -> Forall typed_RR ns ->
  Forall typed_RR ex ->
  typed_Msg (m <| Msg_Question := qs |> <| Answer := an |> <| Msg_Ns := ns |> <| Extra := ex |>).
Proof. intros (? & ? & ? & ? & _) ? ? ? ?. by destruct m; repeat (split; [done|]). Qed.

(** What [Unpack] leaves. *)
Lemma Unpack_returns msg :
  exists m err off, Unpack emptyMsg msg = Ok (m, err) off /\ typed_Msg m /\
    (weight m <= length msg)%nat.
Proof.
  cut (exists r off, Unpack emptyMsg msg = Ok r off /\ typed_Msg r.1 /\ (weight r.1 <= length msg)%nat).
  { intros ([m err] & off & ?). by exists m, err, off. }
  unfold Unpack. pose proof (unpackMsgHdr_outcome msg) as Hh.
  destruct (unpackMsgHdr msg 0) as [dh off|off e|?|]; try done.
  2: { eexists _, _. split; [reflexivity|]. split; [|unfold weight; simpl; lia].
       split_and!; simpl; auto using Forall_nil_2 with dns; lia. }
  destruct Hh as (Hid & -> & Hlen). pose proof (readHeader_typed dh Hid) as Htyped.
  case_decide as E.
  - eexists _, _. split; [reflexivity|]. split; [by apply typed_with|]. unfold weight. simpl. lia.
  - pose proof (unpackQuestions_outcome (Z.to_nat (Qdcount dh)) msg 12 [] Hlen ltac:(done)) as Hq.
    destruct (unpackQuestions _ _ _ _) as [[qs err] off|??|?|]; try done.
    destruct Hq as (Hqs & Hl & Herr). cbn [andThen fst snd]. destruct err as [e|].
    { eexists _, _. split; [reflexivity|]. split; [by apply (typed_with _ qs [] [] [])|].
      unfold weight. simpl in *. unfold constant. lia. }
    specialize (Herr eq_refl). simpl in Herr.
    apply unpackSection_outcome; [lia|apply Forall_nil_2|done|]. intros an off1 e1 Han Ho1 Hl1 He1.
    apply unpackSection_outcome; [lia|apply Forall_nil_2|auto|]. intros ns off2 e2 Hns Ho2 Hl2 He2.
    apply unpackSection_outcome; [lia|apply Forall_nil_2|auto|]. intros ex off3 e3 Hex Ho3 Hl3 _.
    eexists _, _. split; [reflexivity|]. split; [by apply typed_with|].
    unfold weight. simpl. unfold constant. lia.
Qed.

(** C17: Unpack returns on every byte string: it neither panics nor loops, whatever
    the lengths, counts and compression pointers in it say.  The message it
    leaves, with or without an error, is well typed (integers in their width,
    names of at most 255 octets with labels of 1 to 63, every field of every
    record type in its printed form), and has no more questions and records
    than the bytes of the input can hold. *)
Theorem Unpack_total msg :
  exists m err off, Unpack emptyMsg msg = Ok (m, err) off /\ typed_Msg m /\
    (weight m <= length msg)%nat.
Proof. exact (Unpack_returns msg). Qed.
