(* ===== verification/DnsCodec.v ===== *)
(** * Encoding and decoding the fields of records

    For each kind of field the bytes that the packing function appends to a
    fresh buffer, and that the unpacking function reads back from the position
    where they stand. *)

From Stdlib Require Import ZArith Lia NArith Ascii Strings.Byte Strings.String.
From stdpp Require Import base numbers gmap strings list fin_maps.
From S2P Require Import Prelude GoNet Endian GoEncoding DnsRR DnsName DnsNameSpec DnsField DnsZmsg DnsSafety.

Open Scope Z_scope.
Open Scope dns_scope.

(** ** Writing into a fresh buffer *)

Definition zeros (n : nat) : list byte := replicate n Byte.x00.

(** [f] appends [w] to what has been written, when there is room for more than
    [w], without a compression map. *)
Definition appends (f : buffer -> nat -> result buffer) (w : list byte) : Prop :=
  forall pre n, (length w < n)%nat ->
    f (pre ++ zeros n, None) (length pre) =
      Ok ((pre ++ w) ++ zeros (n - length w), None) (length (pre ++ w)).

Lemma append_step {B} f w (k : buffer -> nat -> result B) pre n :
  appends f w -> (length w < n)%nat ->
  andThen (f (pre ++ zeros n, None) (length pre)) k =
    k ((pre ++ w) ++ zeros (n - length w), None) (length (pre ++ w)).
Proof. intros Hf Hn. by rewrite Hf. Qed.

Lemma drop_zeros k n : drop k (zeros n) = zeros (n - k).
Proof. apply drop_replicate. Qed.

Lemma length_zeros n : length (zeros n) = n.
Proof. apply length_replicate. Qed.

(** [putBytes] at the end of what has been written. *)
Lemma putBytes_zeros {B} pre n w (k : list byte -> result B) :
  (length w <= n)%nat ->
  putBytes (pre ++ zeros n) (length pre) w k = k ((pre ++ w) ++ zeros (n - length w)).
Proof.
  intros Hn. unfold putBytes. rewrite decide_True by (rewrite length_app, length_zeros; lia).
  by rewrite take_app_length, <- drop_drop, drop_app_length, drop_zeros, <- app_assoc.
Qed.

Lemma copyAt_zeros {B} pre n w (k : list byte -> result B) :
  (length w <= n)%nat ->
  copyAt (pre ++ zeros n) (length pre) w k = k ((pre ++ w) ++ zeros (n - length w)).
Proof.
  intros Hn. unfold copyAt. rewrite decide_True by (rewrite length_app; lia).
  rewrite (take_ge w) by (rewrite length_app, length_zeros; lia).
  by rewrite take_app_length, <- drop_drop, drop_app_length, drop_zeros, <- app_assoc.
Qed.

Lemma put_zeros {B} pre n b (k : list byte -> result B) :
  (0 < n)%nat -> put (pre ++ zeros n) (length pre) b k = k ((pre ++ [b]) ++ zeros (n - 1)).
Proof.
  intros Hn. destruct n as [|n]; [lia|]. unfold zeros. simpl replicate. rewrite put_middle.
  by rewrite Nat.sub_0_r, <- app_assoc.
Qed.

(** ** Reading what stands at a position *)

(** [f] reads [a] from [w], and stops behind it. *)
Definition reads {A} (f : list byte -> nat -> result A) (w : list byte) (a : A) : Prop :=
  forall msg off q, drop off msg = w ++ q -> (off <= length msg)%nat ->
    f msg off = Ok a (off + length w).

(** [f], given the end of the record, reads [a] from the rest of it. *)
Definition reads_rest {A} (f : list byte -> nat -> nat -> result A) (w : list byte) (a : A) : Prop :=
  forall msg off q stop, drop off msg = w ++ q -> (off <= length msg)%nat ->
    stop = (off + length w)%nat -> f msg off stop = Ok a stop.

Lemma at_position {A} (msg w q : list A) off :
  drop off msg = w ++ q -> (off <= length msg)%nat ->
  exists pre, msg = pre ++ w ++ q /\ off = length pre.
Proof.
  intros Hd Ho. exists (take off msg). rewrite <- Hd, take_drop, length_take. split; [done|lia].
Qed.

Lemma drop_next {A} (msg w q : list A) off :
  drop off msg = w ++ q -> drop (off + length w) msg = q.
Proof. intros H. by rewrite <- drop_drop, H, drop_app_length. Qed.

Lemma length_next {A} (msg w q : list A) off :
  drop off msg = w ++ q -> (off <= length msg)%nat -> (off + length w + length q = length msg)%nat.
Proof. intros H Ho. apply (f_equal length) in H. rewrite length_drop, length_app in H. lia. Qed.

Lemma read_step {A B} f w (a : A) (k : A -> nat -> result B) msg off q :
  reads f w a -> drop off msg = w ++ q -> (off <= length msg)%nat ->
  andThen (f msg off) k = k a (off + length w)%nat.
Proof. intros Hf Hd Ho. by rewrite (Hf msg off q). Qed.

(** ** Integers *)

Lemma packUint_appends n what i : appends (onMsg (packUint n what i)) (be n i).
Proof.
  intros pre m Hm. rewrite length_be in *. unfold onMsg, packUint. simpl fst. simpl snd.
  rewrite decide_False by (rewrite length_app, length_zeros; lia).
  rewrite putBytes_zeros by (rewrite length_be; lia). simpl. by rewrite length_be, length_app, length_be.
Qed.

Lemma unpackUint_reads n what i : in_width n i -> reads (unpackUint n what) (be n i) i.
Proof.
  intros Hi msg off q Hd Ho. destruct (at_position _ _ _ _ Hd Ho) as (pre & -> & ->).
  unfold unpackUint. rewrite length_be.
  rewrite decide_False by (rewrite !length_app, length_be; lia).
  pose proof (cut_middle pre (be n i) q (fun w => Ok (bigEndian w) (length pre + n))) as Hc.
  rewrite length_be in Hc. rewrite Hc, bigEndian_be, Z.mod_small; done.
Qed.

(** ** Names *)


Lemma text_of_bytes s : text (bytes s) = s.
Proof. apply String.string_of_list_byte_of_string. Qed.

Lemma PackDomainName_appends compress ls :
  Forall valid_label ls -> appends (PackDomainName (text (present ls)) compress) (wire ls).
Proof.
  intros Hv pre n Hn. unfold PackDomainName. rewrite bytes_text. simpl fst. simpl snd.
  rewrite packDomainName_present by (done || rewrite length_zeros; lia). simpl.
  by rewrite drop_zeros, length_app, app_assoc.
Qed.

Lemma UnpackDomainName_reads ls : valid_name ls -> reads UnpackDomainName (wire ls) (text (present ls)).
Proof.
  intros Hv msg off q Hd Ho. destruct (at_position _ _ _ _ Hd Ho) as (pre & -> & ->).
  by apply UnpackDomainName_wire.
Qed.

(** ** Addresses *)

Lemma packDataA_appends a : length a = 4%nat -> appends (onMsg (packDataA a)) a.
Proof.
  intros Ha pre n Hn. unfold onMsg, packDataA. simpl fst. simpl snd.
  rewrite decide_False by (rewrite length_app, length_zeros; lia). rewrite decide_True by auto.
  rewrite net.To4_of_4, copyAt_zeros by lia. simpl. by rewrite length_app, Ha.
Qed.

(** An address in the sixteen byte form of IPv4. *)
Lemma packDataA_appends_mapped a :
  length a = 16%nat -> length (net.To4 a) = 4%nat -> appends (onMsg (packDataA a)) (net.To4 a).
Proof.
  intros Ha H4 pre n Hn. unfold onMsg, packDataA. simpl fst. simpl snd.
  rewrite decide_False by (rewrite length_app, length_zeros; lia). rewrite decide_True by auto.
  rewrite copyAt_zeros by lia. simpl. by rewrite length_app, H4.
Qed.

Lemma unpackDataA_reads a : length a = 4%nat -> reads unpackDataA a a.
Proof.
  intros Ha msg off q Hd Ho. destruct (at_position _ _ _ _ Hd Ho) as (pre & -> & ->).
  unfold unpackDataA. rewrite decide_False by (rewrite !length_app; lia).
  pose proof (cut_middle pre a q (fun a => Ok a (length pre + 4))) as Hc. rewrite Ha in *. apply Hc.
Qed.

Lemma packDataAAAA_appends a : length a = 16%nat -> appends (onMsg (packDataAAAA a)) a.
Proof.
  intros Ha pre n Hn. unfold onMsg, packDataAAAA. simpl fst. simpl snd.
  rewrite decide_False by (rewrite length_app, length_zeros; lia). rewrite decide_True by auto.
  rewrite copyAt_zeros by lia. simpl. by rewrite length_app, Ha.
Qed.

Lemma unpackDataAAAA_reads a : length a = 16%nat -> reads unpackDataAAAA a a.
Proof.
  intros Ha msg off q Hd Ho. destruct (at_position _ _ _ _ Hd Ho) as (pre & -> & ->).
  unfold unpackDataAAAA. rewrite decide_False by (rewrite !length_app; lia).
  pose proof (cut_middle pre a q (fun a => Ok a (length pre + 16))) as Hc. rewrite Ha in *. apply Hc.
Qed.

(** ** Character strings *)

Lemma escapeTxt_cases b :
  (escapeTxt b = [b] /\ b <> "\"%byte) \/
  (escapeTxt b = ["\"%byte; b] /\ isDigit b = false) \/
  (exists d0 d1 d2, escapeTxt b = ["\"%byte; d0; d1; d2] /\
     isDigit d0 && isDigit d1 && isDigit d2 = true /\ dddToByte d0 d1 d2 = b).
Proof.
  destruct b; first [by left | by right; left | by right; right; eexists _, _, _].
Qed.

(** The bytes a string stands for: [\DDD] is a byte, [\X] is X, a backslash at
    the end is nothing. *)
Fixpoint unescape (bs : list byte) : list byte :=
  match bs with
  | [] => []
  | b :: bs =>
      if decide (b = "\"%byte) then
        match bs with
        | [] => []
        | d0 :: bs1 =>
            match bs1 with
            | d1 :: d2 :: bs3 =>
                if isDigit d0 && isDigit d1 && isDigit d2 then dddToByte d0 d1 d2 :: unescape bs3
                else d0 :: unescape bs1
            | _ => d0 :: unescape bs1
            end
        end
      else b :: unescape bs
  end.

Lemma unescape_length_ind (P : list byte -> Prop) :
  (forall bs, (forall bs', (length bs' < length bs)%nat -> P bs') -> P bs) -> forall bs, P bs.
Proof.
  intros H bs. remember (length bs) as n eqn:E. revert bs E.
  induction n as [n IH] using lt_wf_ind. intros bs ->. apply H. intros bs' Hl. by eapply IH.
Qed.

Lemma packChars_spec bs pre n :
  (length (unescape bs) < n)%nat ->
  packChars bs (pre ++ zeros n) (length pre) =
    Ok ((pre ++ unescape bs) ++ zeros (n - length (unescape bs))) (length (pre ++ unescape bs)).
Proof.
  revert pre n. induction bs as [bs IH] using unescape_length_ind. intros pre n Hn.
  assert (forall b bs', (length bs' < length bs)%nat -> unescape bs = b :: unescape bs' ->
    put (pre ++ zeros n) (length pre) b (fun msg => packChars bs' msg (S (length pre))) =
    Ok ((pre ++ unescape bs) ++ zeros (n - length (unescape bs))) (length (pre ++ unescape bs))) as Hput.
  { intros b bs' Hlt Hu. rewrite Hu in *. simpl in Hn. rewrite put_zeros by lia.
    specialize (IH bs' Hlt (pre ++ [b]) (n - 1)%nat ltac:(lia)).
    rewrite (length_app pre [b]), Nat.add_1_r in IH. rewrite IH, <- !app_assoc. simpl.
    by replace (n - 1 - length (unescape bs'))%nat with (n - S (length (unescape bs')))%nat by lia. }
  destruct bs as [|b bs]; [simpl; by rewrite app_nil_r, Nat.sub_0_r|].
  cbn [packChars]. rewrite decide_False by (rewrite length_app, length_zeros; lia).
  destruct (decide (b = "\"%byte)) as [Hb|Hb].
  - destruct bs as [|d0 bs1].
    { simpl. rewrite decide_True by done. simpl. by rewrite app_nil_r, Nat.sub_0_r. }
    destruct bs1 as [|d1 [|d2 bs3]].
    1, 2: apply Hput; [simpl; lia|]; simpl; by rewrite decide_True.
    destruct (isDigit d0 && isDigit d1 && isDigit d2) eqn:E; apply Hput; try (simpl; lia);
      cbn [unescape]; by rewrite decide_True, E.
  - apply Hput; [simpl; lia|]. cbn [unescape]. by rewrite decide_False.
Qed.

Lemma unescape_escape w : unescape (concat (escapeTxt <$> w)) = w.
Proof.
  induction w as [|b w IH]; [done|]. rewrite fmap_cons. cbn [concat].
  destruct (escapeTxt_cases b) as [[-> Hb]|[[-> Hd]|(d0 & d1 & d2 & -> & Hd & Hb)]]; cbn [unescape app].
  - by rewrite decide_False, IH.
  - rewrite decide_True by done. destruct (concat (escapeTxt <$> w)) as [|s1 [|s2 s]] eqn:E;
      rewrite ?Hd; cbn [andb]; by rewrite IH.
  - by rewrite decide_True, Hd, Hb, IH.
Qed.

Lemma unescape_raw w : "\"%byte ∉ w -> unescape w = w.
Proof.
  induction w as [|b w IH]; [done|]. rewrite not_elem_of_cons. intros [Hb Hw]. cbn [unescape].
  by rewrite decide_False, IH.
Qed.

Definition txt_wire (w : list byte) : list byte := byte_of_Z (Z.of_nat (length w)) :: w.

Lemma length_txt_wire w : length (txt_wire w) = S (length w).
Proof. done. Qed.

Arguments txt_wire : simpl never.

Lemma packTxtString_spec s pre n :
  (lenString s <= lenTmp)%nat -> (length (unescape (bytes s)) <= 255)%nat ->
  (S (length (unescape (bytes s))) < n)%nat ->
  let w := unescape (bytes s) in
  packTxtString s (pre ++ zeros n) (length pre) =
    Ok ((pre ++ txt_wire w) ++ zeros (n - length (txt_wire w))) (length (pre ++ txt_wire w)).
Proof.
  intros Ht Hw Hn w. unfold packTxtString. unfold lenString in Ht.
  rewrite decide_False by (rewrite length_app, length_zeros; lia).
  assert (S (length pre) = length (pre ++ [Byte.x00])) as -> by (rewrite length_app; simpl; lia).
  replace (pre ++ zeros n) with ((pre ++ [Byte.x00]) ++ zeros (n - 1)).
  2: { rewrite <- app_assoc. destruct n; [lia|]. simpl. by rewrite Nat.sub_0_r. }
  rewrite packChars_spec by lia. fold w in Hw, Hn |- *. cbn [andThen]. rewrite !length_app. simpl length.
  replace (length pre + 1 + length w - length pre - 1)%nat with (length w) by lia.
  rewrite decide_False by lia. rewrite <- !app_assoc. simpl app. rewrite put_middle.
  unfold txt_wire. simpl. f_equal; [|lia].
  by replace (n - 1 - length w)%nat with (n - S (length w))%nat by lia.
Qed.

(** A string that can be packed: it fits in the scratch buffer and stands for at
    most 255 bytes. *)
Definition wf_txt (s : string) : Prop :=
  (lenString s <= lenTmp)%nat /\ (length (unescape (bytes s)) <= 255)%nat.

Lemma packString_appends s :
  wf_txt s -> appends (onMsg (packString s)) (txt_wire (unescape (bytes s))).
Proof.
  intros [Hs Hw] pre n Hn. unfold onMsg, packString. simpl fst. simpl snd.
  rewrite packTxtString_spec by (rewrite length_txt_wire in Hn; lia). done.
Qed.

(** What is read back for a string that was packed. *)
Definition norm_txt (s : string) : string := text (concat (escapeTxt <$> unescape (bytes s))).

Lemma unpackTxtString_reads w :
  (length w <= 255)%nat -> reads unpackTxtString (txt_wire w) (text (concat (escapeTxt <$> w))).
Proof.
  intros Hw msg off q Hd Ho. destruct (at_position _ _ _ _ Hd Ho) as (pre & -> & ->).
  unfold unpackTxtString, txt_wire. rewrite decide_False by (rewrite length_app; simpl; lia).
  simpl app. rewrite get_middle, u8_byte_of_Z_small, Nat2Z.id by lia.
  rewrite decide_False by (rewrite length_app; simpl; rewrite length_app; lia).
  pose proof (cut_middle (pre ++ [byte_of_Z (Z.of_nat (length w))]) w q
    (fun w0 => Ok (text (concat (escapeTxt <$> w0))) (length pre + 1 + length w))) as Hc.
  rewrite length_app, <- app_assoc in Hc. simpl in Hc. rewrite Hc. f_equal. simpl. lia.
Qed.

Lemma unpackString_reads w :
  (length w <= 255)%nat -> reads unpackString (txt_wire w) (text (concat (escapeTxt <$> w))).
Proof. apply unpackTxtString_reads. Qed.

Definition txts_wire (ws : list (list byte)) : list byte := concat (txt_wire <$> ws).
Definition txts (ws : list (list byte)) : list string := (fun w => text (concat (escapeTxt <$> w))) <$> ws.
Definition unescape_all (ss : list string) : list (list byte) := (fun s => unescape (bytes s)) <$> ss.

Lemma txts_wire_cons w ws : txts_wire (w :: ws) = txt_wire w ++ txts_wire ws.
Proof. done. Qed.

Arguments txts_wire : simpl never.

Lemma packTxtStrings_spec ss pre n :
  Forall wf_txt ss -> (length (txts_wire (unescape_all ss)) < n)%nat ->
  let w := txts_wire (unescape_all ss) in
  packTxtStrings ss (pre ++ zeros n) (length pre) =
    Ok ((pre ++ w) ++ zeros (n - length w)) (length (pre ++ w)).
Proof.
  intros Hss. revert pre n. induction Hss as [|s ss [Hs Hw] _ IH]; intros pre n Hn.
  - change (txts_wire (unescape_all [])) with (@nil byte). simpl. by rewrite app_nil_r, Nat.sub_0_r.
  - change (unescape_all (s :: ss)) with (unescape (bytes s) :: unescape_all ss) in *.
    rewrite txts_wire_cons in *. rewrite length_app, length_txt_wire in Hn.
    cbn [packTxtStrings]. rewrite decide_False by (unfold lenString in Hs; lia).
    rewrite packTxtString_spec by lia. cbn [andThen]. rewrite IH by (rewrite length_txt_wire; lia).
    by rewrite <- (app_assoc pre), (length_app (txt_wire _)), Nat.sub_add_distr.
Qed.

Lemma packStringTxt_appends ss :
  Forall wf_txt ss -> appends (onMsg (packStringTxt ss)) (txts_wire (unescape_all ss)).
Proof.
  intros Hss pre n Hn. unfold onMsg, packStringTxt, packTxt. simpl fst. simpl snd.
  destruct ss as [|s ss].
  - change (txts_wire (unescape_all [])) with (@nil byte) in *. simpl in Hn |- *.
    rewrite decide_False by (rewrite length_app, length_zeros; lia). rewrite put_zeros by lia.
    simpl. rewrite app_nil_r, Nat.sub_0_r, <- app_assoc.
    destruct n; [lia|]. simpl. by rewrite Nat.sub_0_r.
  - by rewrite packTxtStrings_spec.
Qed.

Lemma unpackTxt_spec fuel ws msg off ss :
  Forall (fun w => length w <= 255)%nat ws -> drop off msg = txts_wire ws -> (off <= length msg)%nat ->
  (length ws <= fuel)%nat ->
  unpackTxt fuel msg off ss = Ok (ss ++ txts ws) (length msg).
Proof.
  intros Hws. revert fuel off ss. induction Hws as [|w ws Hw _ IH]; intros fuel off ss Hd Ho Hf.
  - apply (f_equal length) in Hd. rewrite length_drop in Hd. change (length (txts_wire [])) with 0%nat in Hd.
    assert (off = length msg) as -> by lia.
    destruct fuel; simpl; rewrite decide_False by lia; by rewrite app_nil_r.
  - rewrite txts_wire_cons in Hd. pose proof (length_next _ _ _ _ Hd Ho) as Hl.
    rewrite length_txt_wire in Hl. simpl in Hf. destruct fuel as [|fuel]; [lia|].
    cbn [unpackTxt]. rewrite decide_True by lia.
    rewrite (read_step _ _ _ _ _ _ _ (unpackTxtString_reads w Hw) Hd Ho).
    rewrite (IH fuel _ _ (drop_next _ _ _ _ Hd)); [|rewrite length_txt_wire; lia|lia].
    by rewrite <- app_assoc.
Qed.

Lemma length_txts_wire ws : (length ws <= length (txts_wire ws))%nat.
Proof.
  induction ws as [|w ws IH]; [done|]. rewrite txts_wire_cons, length_app, length_txt_wire. simpl. lia.
Qed.

(** The strings of a TXT record take the rest of it. *)
Definition reads_to_end {A} (f : list byte -> nat -> result A) (w : list byte) (a : A) : Prop :=
  forall msg off, drop off msg = w -> (off <= length msg)%nat -> f msg off = Ok a (length msg).

Lemma unpackStringTxt_reads ws :
  Forall (fun w => length w <= 255)%nat ws -> reads_to_end unpackStringTxt (txts_wire ws) (txts ws).
Proof.
  intros Hws msg off Hd Ho. unfold unpackStringTxt.
  rewrite (unpackTxt_spec _ ws _ _ [] Hws Hd Ho); [done|].
  pose proof (length_txts_wire ws). apply (f_equal length) in Hd. rewrite length_drop in Hd. lia.
Qed.

(** The value of an octet field is read back without its escapes. *)
Definition norm_octet (s : string) : string := text (unescape (bytes s)).

Lemma packStringOctet_appends s :
  (lenString s <= lenTmp)%nat -> appends (onMsg (packStringOctet s)) (unescape (bytes s)).
Proof.
  intros Hl pre n Hn. unfold onMsg, packStringOctet, packOctetString. simpl fst. simpl snd.
  unfold lenString in Hl. rewrite decide_False by (rewrite length_app, length_zeros; lia).
  by rewrite packChars_spec by lia.
Qed.

Lemma unpackStringOctet_reads w : reads_to_end unpackStringOctet w (text w).
Proof.
  intros msg off Hd Ho. rewrite <- (app_nil_r w) in Hd.
  destruct (at_position _ _ _ _ Hd Ho) as (pre & -> & ->). unfold unpackStringOctet.
  rewrite (length_app pre), app_nil_r. rewrite <- (app_nil_r w) at 1. by rewrite cut_middle.
Qed.

(** ** Encoded bytes *)

Lemma packDecoded_appends what w : appends (onMsg (packDecoded what (inl w))) w.
Proof.
  intros pre n Hn. unfold onMsg, packDecoded. simpl fst. simpl snd.
  rewrite decide_False by (rewrite length_app, length_zeros; lia).
  rewrite putBytes_zeros by lia. cbn [andThen]. by rewrite length_app.
Qed.

Lemma packStringHex_appends w : appends (onMsg (packStringHex (text (hex.EncodeToString w)))) w.
Proof. unfold packStringHex. rewrite bytes_text, hex.hex_Decode_Encode. apply packDecoded_appends. Qed.

Lemma packStringBase64_appends w : appends (onMsg (packStringBase64 (text (base64.EncodeToString w)))) w.
Proof. unfold packStringBase64. rewrite bytes_text, base64.base64_Decode_Encode. apply packDecoded_appends. Qed.

Lemma fromBase32_Encode w : fromBase32 (base32.EncodeToString w) = inl w.
Proof.
  unfold fromBase32. rewrite <- (base32.base32_Decode_Encode w). f_equal.
  rewrite <- (list_fmap_id (base32.EncodeToString w)) at 2. apply list_fmap_ext.
  intros i b Hb. simpl.
  assert ((97 <=? u8 b) && (u8 b <=? 122) = false) as ->; [|done].
  apply list_elem_of_lookup_2 in Hb. revert b Hb. apply Forall_forall, base32.Encode_Forall.
  intros j. apply digit_Forall; [done|]. apply (bool_decide_unpack _). by vm_compute.
Qed.

Lemma packStringBase32_appends w : appends (onMsg (packStringBase32 (text (base32.EncodeToString w)))) w.
Proof. unfold packStringBase32. rewrite bytes_text, fromBase32_Encode. apply packDecoded_appends. Qed.

(** A reader that cuts out the bytes up to a given end. *)
Lemma cut_reads {A} (e : list byte -> A) what w :
  reads_rest (fun msg off stop =>
    if decide (length msg < stop)%nat then Fail (length msg) (Error what)
    else cut msg off stop (fun w => Ok (e w) stop)) w (e w).
Proof.
  intros msg off q stop Hd Ho ->. destruct (at_position _ _ _ _ Hd Ho) as (pre & -> & ->).
  rewrite decide_False by (rewrite !length_app; lia). by rewrite cut_middle.
Qed.

Lemma unpackStringHex_reads w : reads_rest unpackStringHex w (text (hex.EncodeToString w)).
Proof. exact (cut_reads (fun w => text (hex.EncodeToString w)) "overflow unpacking hex" w). Qed.

Lemma unpackStringBase64_reads w : reads_rest unpackStringBase64 w (text (base64.EncodeToString w)).
Proof. exact (cut_reads (fun w => text (base64.EncodeToString w)) "overflow unpacking base64" w). Qed.

Lemma unpackStringBase32_reads w : reads_rest unpackStringBase32 w (text (base32.EncodeToString w)).
Proof. exact (cut_reads (fun w => text (base32.EncodeToString w)) "overflow unpacking base32" w). Qed.

(** ** Lists of names *)

Definition names_wire (nss : list (list (list byte))) : list byte := concat (wire <$> nss).
Definition names (nss : list (list (list byte))) : list string := (fun ls => text (present ls)) <$> nss.

Lemma names_wire_cons ls nss : names_wire (ls :: nss) = wire ls ++ names_wire nss.
Proof. done. Qed.

Arguments names_wire : simpl never.

Lemma packDataDomainNames_appends nss :
  Forall valid_name nss -> appends (packDataDomainNames (names nss)) (names_wire nss).
Proof.
  induction 1 as [|ls nss [Hls _] _ IH]; intros pre n Hn.
  - change (names_wire []) with (@nil byte). simpl. by rewrite app_nil_r, Nat.sub_0_r.
  - rewrite names_wire_cons in *. rewrite length_app in Hn. unfold names in *. rewrite fmap_cons.
    cbn [packDataDomainNames]. rewrite (PackDomainName_appends false ls Hls) by lia.
    cbn [failAt andThen]. rewrite IH by lia.
    by rewrite <- (app_assoc pre), (length_app (wire ls)), Nat.sub_add_distr.
Qed.

Lemma unpackNames_spec fuel nss msg off stop ss q :
  Forall valid_name nss -> drop off msg = names_wire nss ++ q -> (off <= length msg)%nat ->
  (length nss <= fuel)%nat -> stop = (off + length (names_wire nss))%nat ->
  unpackNames fuel msg off stop ss = Ok (ss ++ names nss) stop.
Proof.
  intros Hns. revert fuel off ss. induction Hns as [|ls nss Hls _ IH]; intros fuel off ss Hd Ho Hf Hstop.
  - change (length (names_wire [])) with 0%nat in Hstop.
    destruct fuel; simpl; rewrite decide_False by lia; rewrite app_nil_r; f_equal; lia.
  - rewrite names_wire_cons, <- app_assoc in Hd. rewrite names_wire_cons, length_app in Hstop.
    pose proof (length_next _ _ _ _ Hd Ho) as Hl.
    pose proof (length_wire ls). simpl in Hf. destruct fuel as [|fuel]; [lia|].
    cbn [unpackNames]. rewrite decide_True by lia.
    rewrite (UnpackDomainName_reads ls Hls msg off _ Hd Ho). cbn [failAt andThen].
    rewrite (IH fuel _ _ (drop_next _ _ _ _ Hd)); [|lia..]. by rewrite <- app_assoc.
Qed.

Lemma length_names_wire nss : (length nss <= length (names_wire nss))%nat.
Proof.
  induction nss as [|ls nss IH]; [done|]. rewrite names_wire_cons, length_app, length_wire. simpl. lia.
Qed.

Lemma unpackDataDomainNames_reads nss :
  Forall valid_name nss -> reads_rest unpackDataDomainNames (names_wire nss) (names nss).
Proof.
  intros Hns msg off q stop Hd Ho Hstop. unfold unpackDataDomainNames.
  pose proof (length_next _ _ _ _ Hd Ho). pose proof (length_names_wire nss).
  rewrite decide_False by lia. by rewrite (unpackNames_spec _ nss _ _ _ _ q) by (done || lia).
Qed.
