(* ===== verification/DnsBitmap.v ===== *)
(** * Bitmaps of record types

    The list of types of an NSEC, NSEC3 or CSYNC record is sent as windows of 256
    types, each with a bitmap of up to 32 bytes.  Here is what the packing writes
    for an ascending list, and that the unpacking reads the list back. *)

From Stdlib Require Import ZArith Lia NArith Ascii Strings.Byte Strings.String Sorting.Sorted.
From stdpp Require Import base numbers gmap strings list fin_maps.
From S2P Require Import Prelude GoNet Endian GoEncoding DnsRR DnsName DnsNameSpec DnsField DnsZmsg DnsSafety DnsCodec.

Open Scope Z_scope.
Open Scope dns_scope.

(** ** The bitmap of a window *)

Definition octets (k : Z) : nat := Z.to_nat (k / 8 + 1).

(** The bitmap with the bit of type [k] of the window, which no later type precedes. *)
Definition mark (bm : list byte) (k : Z) : list byte :=
  let bm := bm ++ zeros (octets k - length bm) in
  alter (fun b => byte_of_Z (Z.lor (u8 b) (Z.shiftl 1 (7 - k mod 8)))) (octets k - 1)%nat bm.

Lemma length_mark bm k : (length bm <= octets k)%nat -> length (mark bm k) = octets k.
Proof. intros H. unfold mark. rewrite length_alter, length_app, length_zeros. lia. Qed.

Definition window_wire (w : Z) (bm : list byte) : list byte :=
  byte_of_Z w :: byte_of_Z (Z.of_nat (length bm)) :: bm.

(** The windows of the types [ts], behind those of the window [w] that [bm] has. *)
Fixpoint windows_wire (w : Z) (bm : list byte) (ts : list Z) : list byte :=
  match ts with
  | [] => window_wire w bm
  | t :: ts =>
      if decide (t / 256 = w) then windows_wire w (mark bm (t mod 256)) ts
      else window_wire w bm ++ windows_wire (t / 256) (mark [] (t mod 256)) ts
  end.

Definition bitmap_wire (ts : list Z) : list byte :=
  match ts with
  | [] => []
  | t :: ts => windows_wire (t / 256) (mark [] (t mod 256)) ts
  end.

(** ** The types of a bitmap *)

Lemma windowTypes_app t u v :
  windowTypes t (u ++ v) = windowTypes t u ++ windowTypes (t + 8 * Z.of_nat (length u)) v.
Proof.
  revert t. induction u as [|b u IH]; intros t; cbn [windowTypes app length]; [f_equal; lia|].
  rewrite IH, <- app_assoc. do 3 f_equal. lia.
Qed.

Lemma windowTypes_zeros t n : windowTypes t (zeros n) = [].
Proof. revert t. induction n as [|n IH]; intros t; [done|]. cbn [zeros replicate windowTypes]. apply IH. Qed.

(** Setting a bit behind those that are set. *)
Definition bits_before (b : byte) (k : Z) : bool :=
  forallb (fun j => negb (Z.testbit (u8 b) (7 - j)) || (j <? k)) [0; 1; 2; 3; 4; 5; 6; 7].

Definition sets_last_bit (b : byte) : bool :=
  forallb (fun k => negb (bits_before b k) || bool_decide (
    bitTypes 0 (byte_of_Z (Z.lor (u8 b) (Z.shiftl 1 (7 - k)))) = bitTypes 0 b ++ [k])) [0; 1; 2; 3; 4; 5; 6; 7].

Lemma all_bytes_set_last_bit b : sets_last_bit b = true.
Proof. destruct b; vm_compute; reflexivity. Qed.

Lemma in_octet k : 0 <= k < 8 -> In k [0; 1; 2; 3; 4; 5; 6; 7].
Proof. intros. simpl. lia. Qed.

Lemma bitTypes_shift t b : bitTypes t b = (fun k => t + k) <$> bitTypes 0 b.
Proof. unfold bitTypes. rewrite <- list_fmap_compose. apply list_fmap_ext. intros. simpl. lia. Qed.

Lemma bitTypes_set t b k :
  0 <= k < 8 -> Forall (fun x => x < t + k) (bitTypes t b) ->
  bitTypes t (byte_of_Z (Z.lor (u8 b) (Z.shiftl 1 (7 - k)))) = bitTypes t b ++ [t + k].
Proof.
  intros Hk Hb. rewrite bitTypes_shift, (bitTypes_shift t b).
  pose proof (proj1 (forallb_forall _ _) (all_bytes_set_last_bit b) k (in_octet k Hk)) as H.
  apply orb_true_iff in H as [H|H].
  - apply negb_true_iff in H. assert (bits_before b k = true); [|congruence].
    apply forallb_forall. intros j Hj. destruct (Z.testbit (u8 b) (7 - j)) eqn:E; [|done]. simpl.
    apply Z.ltb_lt. rewrite Forall_forall in Hb. specialize (Hb (t + j)). enough (t + j < t + k) by lia.
    apply Hb. unfold bitTypes. apply list_elem_of_fmap. exists j. split; [done|].
    apply list_elem_of_filter. split; [done|by apply list_elem_of_In].
  - apply bool_decide_eq_true in H. by rewrite H, fmap_app.
Qed.

Lemma mark_split bm k :
  (length bm <= octets k)%nat -> 0 <= k ->
  exists u b, bm ++ zeros (octets k - length bm) = u ++ [b] /\ Z.of_nat (length u) = k / 8 /\
    mark bm k = u ++ [byte_of_Z (Z.lor (u8 b) (Z.shiftl 1 (7 - k mod 8)))].
Proof.
  intros Hl Hk. unfold mark. set (l := bm ++ _).
  assert (length l = octets k) as Hn by (unfold l; rewrite length_app, length_zeros; lia).
  assert (0 <= k / 8) by (apply Z.div_pos; lia). unfold octets in *.
  destruct (exists_last (l := l)) as (u & b & E); [intros Hnil; rewrite Hnil in Hn; simpl in Hn; lia|].
  rewrite E in *.
  rewrite length_app in Hn. simpl in Hn. exists u, b. split_and!; [done|lia|].
  replace (Z.to_nat (k / 8 + 1) - 1)%nat with (length u + 0)%nat by lia. by rewrite alter_app_r.
Qed.

Lemma windowTypes_mark t bm k :
  (length bm <= octets k)%nat -> 0 <= k -> Forall (fun x => x < t + k) (windowTypes t bm) ->
  windowTypes t (mark bm k) = windowTypes t bm ++ [t + k].
Proof.
  intros Hl Hk Hf. destruct (mark_split bm k Hl Hk) as (u & b & He & Hu & ->).
  assert (windowTypes t bm = windowTypes t u ++ bitTypes (t + 8 * Z.of_nat (length u)) b) as E.
  { transitivity (windowTypes t (bm ++ zeros (octets k - length bm))).
    - by rewrite windowTypes_app, windowTypes_zeros, app_nil_r.
    - rewrite He, windowTypes_app. cbn [windowTypes]. by rewrite app_nil_r. }
  rewrite E in *. apply Forall_app in Hf as [_ Hf]. rewrite windowTypes_app. cbn [windowTypes].
  pose proof (Z.div_mod k 8 ltac:(lia)) as Hdm. pose proof (Z.mod_pos_bound k 8 ltac:(lia)).
  rewrite app_nil_r, bitTypes_set, <- app_assoc; [do 3 f_equal; lia|lia|].
  eapply Forall_impl; [exact Hf|]. simpl. intros. lia.
Qed.

(** The bitmap of a single type. *)
Lemma windowTypes_first t : windowTypes (t / 256 * 256) (mark [] (t mod 256)) = [t].
Proof.
  pose proof (Z.div_mod t 256 ltac:(lia)). pose proof (Z.mod_pos_bound t 256 ltac:(lia)).
  rewrite windowTypes_mark; [simpl; do 2 f_equal; lia|simpl; lia|lia|constructor].
Qed.

(** ** Packing *)

Lemma mod_256_8 t : t mod 256 mod 8 = t mod 8.
Proof. apply Z.mod_mod_divide. by exists 32. Qed.

(** What a turn of the loop writes, at the start of a window. *)
Definition turn {B} (msg : list byte) (off : nat) (t : Z) (k : list byte -> result B) : result B :=
  let length_ := (t - t / 256 * 256) / 8 + 1 in
  let* msg := (put msg off (byte_of_Z (t / 256))) in
  let* msg := (put msg (off + 1) (byte_of_Z length_)) in
  let* b := (get msg (off + 1 + Z.to_nat length_)) in
  let* msg := (put msg (off + 1 + Z.to_nat length_) (byte_of_Z (Z.lor (u8 b) (Z.shiftl 1 (7 - t mod 8))))) in
  k msg.

Lemma turn_marks {B} pre b0 b1 bm n t (k : list byte -> result B) :
  let j := t mod 256 in
  (length bm <= octets j)%nat -> (octets j <= length bm + n)%nat ->
  turn (pre ++ b0 :: b1 :: bm ++ zeros n) (length pre) t k =
    k ((pre ++ window_wire (t / 256) (mark bm j)) ++ zeros (n - (octets j - length bm))).
Proof.
  intros j Hl Hn. unfold turn. pose proof (Z.mod_pos_bound t 256 ltac:(lia)) as Hj. fold j in Hj.
  replace (t - t / 256 * 256) with j by (unfold j; rewrite Z.mod_eq by lia; lia).
  replace (t mod 8) with (j mod 8) by apply mod_256_8.
  rewrite put_middle, (cons_middle _ pre), app_assoc.
  replace (length pre + 1)%nat with (length (pre ++ [byte_of_Z (t / 256)])) by (rewrite length_app; done).
  rewrite put_middle.
  destruct (mark_split bm j Hl ltac:(lia)) as (u & b & He & Hu & Hm).
  assert (bm ++ zeros n = u ++ b :: zeros (n - (octets j - length bm))) as ->.
  { change (b :: ?l) with ([b] ++ l). rewrite app_assoc, <- He, <- app_assoc. f_equal.
    unfold zeros. rewrite <- replicate_add. f_equal. lia. }
  rewrite (cons_middle _ (pre ++ _)), !app_assoc.
  replace (length (pre ++ [byte_of_Z (t / 256)]) + Z.to_nat (j / 8 + 1))%nat
    with (length (((pre ++ [byte_of_Z (t / 256)]) ++ [byte_of_Z (j / 8 + 1)]) ++ u))
    by (rewrite !length_app; simpl; lia).
  rewrite get_middle, put_middle. f_equal. unfold window_wire. rewrite length_mark by done.
  rewrite Hm, <- !app_assoc. simpl. rewrite <- app_assoc. unfold octets. do 3 f_equal.
  f_equal. lia.
Qed.

Lemma octets_mono a b : 0 <= a <= b -> (octets a <= octets b)%nat.
Proof. intros H. unfold octets. pose proof (Z.div_le_mono a b 8 ltac:(lia) ltac:(lia)). lia. Qed.

(** The place of an ascending type after the last one. *)
Lemma next_type last t :
  0 <= last < t -> last / 256 = t / 256 /\ 0 <= last mod 256 < t mod 256 \/ last / 256 < t / 256.
Proof.
  intros H. pose proof (Z.div_le_mono last t 256 ltac:(lia) ltac:(lia)).
  pose proof (Z.div_mod last 256 ltac:(lia)). pose proof (Z.div_mod t 256 ltac:(lia)).
  pose proof (Z.mod_pos_bound last 256 ltac:(lia)). lia.
Qed.

Lemma length_window_wire w bm : length (window_wire w bm) = S (S (length bm)).
Proof. done. Qed.

Lemma octets_pos k : 0 <= k -> (0 < octets k)%nat.
Proof. intros H. unfold octets. pose proof (Z.div_pos k 8 H ltac:(lia)). lia. Qed.

Lemma windows_wire_grows w bm ts :
  (length (window_wire w bm) <= length (windows_wire w bm ts))%nat.
Proof.
  revert w bm. induction ts as [|t ts IH]; intros w bm; cbn [windows_wire]; [done|]. case_decide.
  - etrans; [|apply IH]. rewrite !length_window_wire. unfold mark. rewrite length_alter, length_app. lia.
  - rewrite length_app. lia.
Qed.

(** A type of the same window, and one of a later window. *)
Lemma packWindows_same t ts w (bm msg pre : list byte) :
  t / 256 = w -> (length bm <= octets (t mod 256))%nat -> (length pre + 2 + octets (t mod 256) <= length msg)%nat ->
  packWindows (t :: ts) w (Z.of_nat (length bm)) msg (length pre) =
    turn msg (length pre) t (fun msg => packWindows ts w (Z.of_nat (octets (t mod 256))) msg (length pre)).
Proof.
  intros Hw Hl Hm. pose proof (Z.mod_pos_bound t 256 ltac:(lia)) as Hj.
  assert (t - t / 256 * 256 = t mod 256) as E by (rewrite Z.mod_eq by lia; lia).
  assert (0 <= t mod 256 / 8) by (apply Z.div_pos; lia).
  cbn [packWindows]. unfold turn. rewrite E, Hw in *. unfold octets in *.
  rewrite (bool_decide_eq_false_2 (w < w)) by lia. simpl andb. cbn iota.
  rewrite decide_False by lia. rewrite decide_False by lia.
  by replace (Z.of_nat (Z.to_nat (t mod 256 / 8 + 1))) with (t mod 256 / 8 + 1) by lia.
Qed.

Lemma packWindows_later t ts w n (msg pre : list byte) :
  w < t / 256 -> (0 < n)%nat -> (length pre + n + 2 + 2 + octets (t mod 256) <= length msg)%nat ->
  packWindows (t :: ts) w (Z.of_nat n) msg (length pre) =
    turn msg (length pre + (n + 2)) t (fun msg =>
      packWindows ts (t / 256) (Z.of_nat (octets (t mod 256))) msg (length pre + (n + 2))).
Proof.
  intros Hw Hn Hm. pose proof (Z.mod_pos_bound t 256 ltac:(lia)) as Hj.
  assert (t - t / 256 * 256 = t mod 256) as E by (rewrite Z.mod_eq by lia; lia).
  assert (0 <= t mod 256 / 8) by (apply Z.div_pos; lia).
  cbn [packWindows]. unfold turn. rewrite E in *. unfold octets in *.
  rewrite (bool_decide_eq_true_2 (w < t / 256)) by lia. rewrite (bool_decide_eq_false_2 (Z.of_nat n = 0)) by lia.
  simpl andb. cbn iota. rewrite Nat2Z.id.
  rewrite decide_False by lia. rewrite decide_False by lia.
  by replace (Z.of_nat (Z.to_nat (t mod 256 / 8 + 1))) with (t mod 256 / 8 + 1) by lia.
Qed.

Lemma zeros_two n : (2 <= n)%nat -> zeros n = Byte.x00 :: Byte.x00 :: [] ++ zeros (n - 2).
Proof. intros H. destruct n as [|[|n]]; [lia..|]. cbn. by rewrite Nat.sub_0_r. Qed.

Lemma packWindows_spec ts w bm last pre n m :
  0 <= last -> last / 256 = w -> length bm = octets (last mod 256) -> StronglySorted Z.lt (last :: ts) ->
  (length (windows_wire w bm ts) + m = length (window_wire w bm) + n)%nat ->
  packWindows ts w (Z.of_nat (length bm)) ((pre ++ window_wire w bm) ++ zeros n) (length pre) =
    Ok ((pre ++ windows_wire w bm ts) ++ zeros m) (length (pre ++ windows_wire w bm ts)).
Proof.
  revert w bm last pre n. induction ts as [|t ts IH]; intros w bm last pre n H0 Hw Hbm Hs Hn.
  { cbn [packWindows windows_wire] in *. replace n with m by lia. rewrite length_app, length_window_wire. f_equal. lia. }
  apply StronglySorted_inv in Hs as [Hs Hlast]. apply Forall_cons in Hlast as [Ht _].
  pose proof (octets_pos (last mod 256) ltac:(apply Z.mod_pos_bound; lia)) as Hpos.
  cbn [windows_wire] in *. destruct (next_type last t ltac:(lia)) as [[Hsame Hj]|Hlater].
  - rewrite decide_True in * by lia.
    assert (length bm <= octets (t mod 256))%nat as Hl by (rewrite Hbm; apply octets_mono; lia).
    pose proof (windows_wire_grows w (mark bm (t mod 256)) ts) as Hg.
    rewrite !length_window_wire in *. rewrite length_mark in * by done.
    rewrite packWindows_same; [|lia|done|rewrite !length_app, length_zeros, length_window_wire; lia].
    rewrite <- app_assoc. unfold window_wire at 1. cbn [app]. rewrite turn_marks by lia.
    rewrite <- (length_mark bm (t mod 256)) by done. replace (t / 256) with w by lia.
    apply (IH w _ t); [lia|lia|by apply length_mark|done|rewrite length_window_wire, length_mark by done; lia].
  - rewrite decide_False in * by lia. rewrite length_app in Hn.
    pose proof (windows_wire_grows (t / 256) (mark [] (t mod 256)) ts) as Hg.
    assert (length (@nil byte) <= octets (t mod 256))%nat as Hl by (simpl; lia).
    rewrite !length_window_wire in *. rewrite length_mark in * by done.
    rewrite packWindows_later; [|lia|lia|rewrite !length_app, length_zeros, length_window_wire; lia].
    replace (length pre + (length bm + 2))%nat with (length (pre ++ window_wire w bm))
      by (rewrite length_app, length_window_wire; lia).
    rewrite (zeros_two n) by lia. rewrite turn_marks by (simpl; lia).
    rewrite <- (length_mark [] (t mod 256)) by done. rewrite (app_assoc pre).
    apply (IH (t / 256) _ t); [lia|done|by apply length_mark|done|rewrite length_window_wire, length_mark by done; simpl; lia].
Qed.

Definition ascending (ts : list Z) : Prop := StronglySorted Z.lt ts /\ Forall (in_width 2) ts.

Lemma packDataNsec_appends ts : ascending ts -> appends (onMsg (packDataNsec ts)) (bitmap_wire ts).
Proof.
  intros [Hs Hw] pre n Hn. unfold onMsg. simpl fst. destruct ts as [|t ts]; [simpl; by rewrite app_nil_r, Nat.sub_0_r|].
  apply Forall_cons in Hw as [[Ht _] _]. pose proof (Z.mod_pos_bound t 256 ltac:(lia)) as Hj.
  cbn [bitmap_wire packDataNsec] in *. pose proof (windows_wire_grows (t / 256) (mark [] (t mod 256)) ts) as Hg.
  assert (length (@nil byte) <= octets (t mod 256))%nat as Hl by (simpl; lia).
  assert (t - t / 256 * 256 = t mod 256) as E by (rewrite Z.mod_eq by lia; lia).
  assert (0 <= t mod 256 / 8) by (apply Z.div_pos; lia). assert (0 <= t / 256) by (apply Z.div_pos; lia).
  rewrite !length_window_wire in *. rewrite length_mark in * by done.
  assert (packWindows (t :: ts) 0 0 (pre ++ zeros n) (length pre) =
    turn (pre ++ zeros n) (length pre) t (fun msg =>
      packWindows ts (t / 256) (Z.of_nat (octets (t mod 256))) msg (length pre))) as ->.
  { cbn [packWindows]. unfold turn. rewrite E. unfold octets in *.
    rewrite (bool_decide_eq_true_2 (0 = 0)), andb_false_r by done. cbn iota.
    rewrite decide_False by lia. rewrite decide_False by (rewrite length_app, length_zeros; lia).
    by replace (Z.of_nat (Z.to_nat (t mod 256 / 8 + 1))) with (t mod 256 / 8 + 1) by lia. }
  rewrite (zeros_two n), turn_marks by (simpl; lia).
  rewrite <- (length_mark [] (t mod 256)) by done.
  rewrite (packWindows_spec ts _ _ t pre _ (n - length (windows_wire (t / 256) (mark [] (t mod 256)) ts))); try done.
  - by apply length_mark.
  - rewrite length_window_wire, length_mark by done. simpl. lia.
Qed.

(** ** Unpacking *)

Lemma unpackWindows_step fuel msg off lastw nsec w bm q :
  drop off msg = window_wire w bm ++ q -> (off <= length msg)%nat -> lastw < w -> 0 <= w < 256 ->
  (0 < length bm <= 32)%nat ->
  unpackWindows (S fuel) msg off lastw nsec =
    unpackWindows fuel msg (off + length (window_wire w bm)) w (nsec ++ windowTypes (w * 256) bm).
Proof.
  intros Hd Ho Hw Hr Hl. destruct (at_position _ _ _ _ Hd Ho) as (pre & -> & ->). clear Hd Ho.
  cbn [unpackWindows]. rewrite !length_app, length_window_wire.
  rewrite decide_True by lia. rewrite decide_False by lia.
  unfold window_wire. cbn [app]. rewrite get_middle.
  rewrite (get_after pre _ 1 (byte_of_Z (Z.of_nat (length bm)))) by done.
  rewrite !u8_byte_of_Z_small by lia. rewrite Nat2Z.id.
  rewrite decide_False by lia. rewrite decide_False by lia. rewrite decide_False by lia. rewrite decide_False by lia.
  replace (pre ++ byte_of_Z w :: byte_of_Z (Z.of_nat (length bm)) :: bm ++ q)
    with ((pre ++ [byte_of_Z w; byte_of_Z (Z.of_nat (length bm))]) ++ bm ++ q) by (by rewrite <- app_assoc).
  replace (length pre + 2)%nat with (length (pre ++ [byte_of_Z w; byte_of_Z (Z.of_nat (length bm))]))
    by (rewrite length_app; done).
  rewrite cut_middle. f_equal. rewrite length_app. simpl. lia.
Qed.

Lemma octets_window k : 0 <= k < 256 -> (0 < octets k <= 32)%nat.
Proof.
  intros H. split; [apply octets_pos; lia|]. unfold octets.
  pose proof (Z.div_le_mono k 255 8 ltac:(lia) ltac:(lia)). change (255 / 8) with 31 in *. lia.
Qed.

Lemma window_of t : in_width 2 t -> 0 <= t / 256 < 256.
Proof.
  intros [H0 H1]. change (256 ^ Z.of_nat 2) with 65536 in H1. split; [apply Z.div_pos; lia|].
  apply Z.div_lt_upper_bound; lia.
Qed.

Lemma unpackWindows_spec ts w bm last fuel msg off lastw nsec :
  in_width 2 last -> last / 256 = w -> length bm = octets (last mod 256) -> ascending (last :: ts) ->
  Forall (fun x => x <= last) (windowTypes (w * 256) bm) -> lastw < w ->
  drop off msg = windows_wire w bm ts -> (off <= length msg)%nat -> (length msg - off <= fuel)%nat ->
  unpackWindows fuel msg off lastw nsec = Ok (nsec ++ windowTypes (w * 256) bm ++ ts) (length msg).
Proof.
  revert w bm last fuel off lastw nsec.
  induction ts as [|t ts IH]; intros w bm last fuel off lastw nsec Hlast Hw Hbm [Hs Hr] Htypes Hlw Hd Ho Hfuel.
  all: pose proof (octets_window (last mod 256) ltac:(apply Z.mod_pos_bound; lia)) as Hoct.
  all: pose proof (window_of last Hlast) as Hwin; pose proof (f_equal length Hd) as Hlen; rewrite length_drop in Hlen.
  all: cbn [windows_wire] in *.
  - rewrite length_window_wire in Hlen. destruct fuel as [|fuel]; [lia|].
    rewrite (unpackWindows_step fuel msg off lastw nsec w bm []); [|by rewrite app_nil_r|lia..].
    rewrite length_window_wire, app_nil_r. replace (off + S (S (length bm)))%nat with (length msg) by lia.
    destruct fuel; cbn [unpackWindows]; by rewrite decide_False by lia.
  - apply StronglySorted_inv in Hs as [Hs Hlt]. apply Forall_cons in Hlt as [Ht _].
    apply Forall_cons in Hr as [_ Hr]. pose proof Hr as Hr'. apply Forall_cons in Hr' as [Ht2 _].
    pose proof (Z.div_mod t 256 ltac:(lia)) as Hdm. pose proof (Z.mod_pos_bound t 256 ltac:(lia)) as Hj.
    destruct Hlast as [Hl0 Hl1]. destruct (next_type last t ltac:(lia)) as [[Hsame Hjj]|Hlater].
    + rewrite decide_True in * by lia.
      assert (length bm <= octets (t mod 256))%nat as Hl by (rewrite Hbm; apply octets_mono; lia).
      assert (windowTypes (w * 256) (mark bm (t mod 256)) = windowTypes (w * 256) bm ++ [t]) as E.
      { rewrite windowTypes_mark; [do 3 f_equal; lia|done|lia|].
        eapply Forall_impl; [exact Htypes|]. simpl. intros. lia. }
      rewrite (IH w (mark bm (t mod 256)) t); try done; [|lia|by apply length_mark|].
      * by rewrite E, <- !app_assoc.
      * rewrite E. apply Forall_app. split; [|by repeat constructor]. eapply Forall_impl; [exact Htypes|].
        simpl. intros. lia.
    + rewrite decide_False in * by lia. rewrite length_app, length_window_wire in Hlen.
      destruct fuel as [|fuel]; [lia|]. rewrite (unpackWindows_step fuel msg off lastw nsec w bm _ Hd); [|lia..].
      assert (length (@nil byte) <= octets (t mod 256))%nat as Hl by (simpl; lia).
      rewrite (IH (t / 256) (mark [] (t mod 256)) t); try done; [|by apply length_mark|..].
      * by rewrite windowTypes_first, <- !app_assoc.
      * rewrite windowTypes_first. by repeat constructor.
      * lia.
      * rewrite <- drop_drop, Hd. by rewrite drop_app_length.
      * rewrite length_window_wire. lia.
      * rewrite length_window_wire. lia.
Qed.

Lemma unpackDataNsec_reads ts : ascending ts -> reads_to_end unpackDataNsec (bitmap_wire ts) ts.
Proof.
  intros Ha msg off Hd Ho. unfold unpackDataNsec. destruct ts as [|t ts]; cbn [bitmap_wire] in Hd.
  - assert (off = length msg) as -> by (apply (f_equal length) in Hd; rewrite length_drop in Hd; simpl in Hd; lia).
    generalize (length msg) at 1. intros fuel. destruct fuel; cbn [unpackWindows]; by rewrite decide_False by lia.
  - pose proof Ha as [_ [Ht _]%Forall_cons]. pose proof (window_of t Ht).
    pose proof (Z.div_mod t 256 ltac:(lia)) as Hdm. pose proof (Z.mod_pos_bound t 256 ltac:(lia)) as Hj.
    assert (length (@nil byte) <= octets (t mod 256))%nat as Hl by (simpl; lia).
    rewrite (unpackWindows_spec ts (t / 256) (mark [] (t mod 256)) t); try done; [|by apply length_mark|..].
    + by rewrite windowTypes_first.
    + rewrite windowTypes_first. by repeat constructor.
    + lia.
    + lia.
Qed.

(** ** The length *)

(** [len] counts 33 bytes for a window, and none for a first window with the
    number 35; without the last eight types of a window this is enough. *)
Definition low_types (ts : list Z) : Prop :=
  Forall (fun t => t mod 256 < 248) ts /\ match ts with t :: _ => t / 256 <> firstWindow | [] => True end.

Lemma octets_low k : 0 <= k < 248 -> (octets k <= 31)%nat.
Proof.
  intros H. unfold octets. pose proof (Z.div_le_mono k 247 8 ltac:(lia) ltac:(lia)).
  change (247 / 8) with 30 in *. lia.
Qed.

Lemma length_windows_wire ts w bm last :
  0 <= last -> last / 256 = w -> length bm = octets (last mod 256) -> StronglySorted Z.lt (last :: ts) ->
  Forall (fun t => t mod 256 < 248) (last :: ts) ->
  (length (windows_wire w bm ts) <= 33 + lenBitMap w ts)%nat.
Proof.
  revert w bm last. induction ts as [|t ts IH]; intros w bm last H0 Hw Hbm Hs Hlow.
  all: apply Forall_cons in Hlow as [Hlast Hlow].
  all: pose proof (octets_low (last mod 256) ltac:(pose proof (Z.mod_pos_bound last 256); lia)) as Ho.
  all: cbn [windows_wire lenBitMap].
  { rewrite length_window_wire. lia. }
  apply StronglySorted_inv in Hs as [Hs Hlt]. apply Forall_cons in Hlt as [Ht _].
  assert (length (@nil byte) <= octets (t mod 256))%nat as Hl by (simpl; lia).
  destruct (next_type last t ltac:(lia)) as [[Hsame Hj]|Hlater].
  - rewrite decide_True, decide_False by lia. replace (t / 256) with w by lia. apply (IH w _ t); try done; [lia..|].
    apply length_mark. rewrite Hbm. apply octets_mono. lia.
  - rewrite decide_False, decide_True, length_app, length_window_wire by lia.
    pose proof (IH (t / 256) (mark [] (t mod 256)) t ltac:(lia) eq_refl (length_mark _ _ Hl) Hs Hlow). lia.
Qed.

Lemma length_bitmap_wire ts :
  ascending ts -> low_types ts -> (length (bitmap_wire ts) <= lenBitMap firstWindow ts)%nat.
Proof.
  intros [Hs Hr] [Hlow Hfirst]. destruct ts as [|t ts]; cbn [bitmap_wire lenBitMap]; [done|].
  apply Forall_cons in Hr as [[Ht _] _]. rewrite decide_True by done.
  apply (length_windows_wire ts _ _ t); try done. apply length_mark. simpl. lia.
Qed.

Lemma bitmap_wire_nil ts : length (bitmap_wire ts) = 0%nat -> ts = [].
Proof.
  destruct ts as [|t ts]; [done|]. cbn [bitmap_wire]. pose proof (windows_wire_grows (t / 256) (mark [] (t mod 256)) ts).
  rewrite length_window_wire in *. lia.
Qed.

(** The lists that are read back. *)
Definition wf_bitmap (ts : list Z) : Prop := ascending ts /\ low_types ts.

(** ** Packing any list *)

Lemma turn_keeps {B} (msg : list byte) off t (k : list byte -> result B) :
  (off + 2 + octets (t mod 256) <= length msg)%nat ->
  exists msg', length msg' = length msg /\ turn msg off t k = k msg'.
Proof.
  intros Hm. assert (t - t / 256 * 256 = t mod 256) as E by (rewrite Z.mod_eq by lia; lia).
  unfold turn. rewrite E. unfold octets in Hm. set (l := Z.to_nat (t mod 256 / 8 + 1)) in *.
  unfold put at 1. rewrite decide_True by lia. unfold put at 1. rewrite decide_True by (rewrite length_insert; lia).
  set (m := <[_ := _]> _). assert (length m = length msg) as Hl by (unfold m; by rewrite !length_insert).
  unfold get. destruct (lookup_lt_is_Some_2 m (off + 1 + l)) as [b ->]; [lia|].
  unfold put. rewrite decide_True by lia. eexists. split; [|done]. by rewrite length_insert.
Qed.

(** A turn of the loop fails or writes within the window, wherever it begins. *)
Lemma packWindows_turn t ts w n (msg : list byte) off :
  exists off', (off' = off /\ (t / 256 <= w \/ n = 0) \/ off' = (off + (Z.to_nat n + 2))%nat /\ w < t / 256 /\ n <> 0) /\
    ((exists o e, packWindows (t :: ts) w n msg off = Fail o e) \/
     exists msg', length msg' = length msg /\ (w <= t / 256) /\
       packWindows (t :: ts) w n msg off = packWindows ts (t / 256) (Z.of_nat (octets (t mod 256))) msg' off').
Proof.
  assert (t - t / 256 * 256 = t mod 256) as E by (rewrite Z.mod_eq by lia; lia).
  assert (0 <= t mod 256 / 8) by (apply Z.div_pos; [apply Z.mod_pos_bound|]; lia).
  set (jump := bool_decide (w < t / 256) && negb (bool_decide (n = 0))).
  exists (if jump then off + (Z.to_nat n + 2) else off)%nat. split.
  { unfold jump. repeat case_bool_decide; simpl; lia. }
  cbn [packWindows]. fold jump. rewrite E. case_decide; [left; by eexists _, _|]. case_decide; [left; by eexists _, _|].
  right. set (off' := if jump then _ else off) in *.
  destruct (turn_keeps msg off' t (fun msg => packWindows ts (t / 256) (Z.of_nat (octets (t mod 256))) msg off'))
    as (msg' & Hm & Ht); [unfold octets; lia|].
  exists msg'. split; [done|]. split; [lia|]. rewrite <- Ht. unfold turn. rewrite E. unfold octets.
  by replace (Z.of_nat (Z.to_nat (t mod 256 / 8 + 1))) with (t mod 256 / 8 + 1) by lia.
Qed.

Lemma packWindows_keeps ts w n (msg : list byte) off :
  Forall (fun t => t mod 256 < 248) ts -> 0 < n <= 31 -> (off + 33 + lenBitMap w ts <= length msg)%nat ->
  match packWindows ts w n msg off with
  | Ok msg' off' => length msg' = length msg /\ (off <= off' <= off + 33 + lenBitMap w ts)%nat
  | Fail _ _ => True
  | Crash _ | Hang => False
  end.
Proof.
  intros Hlow. revert w n msg off.
  induction Hlow as [|t ts Ht Hlow IH]; intros w n msg off Hn Hm; [simpl in *; lia|].
  destruct (packWindows_turn t ts w n msg off) as (off' & Hoff & [(o & e & ->)|(msg' & Hl & Hw & ->)]); [done|].
  pose proof (Z.mod_pos_bound t 256 ltac:(lia)).
  pose proof (octets_low (t mod 256) ltac:(lia)). pose proof (octets_pos (t mod 256) ltac:(lia)).
  cbn [lenBitMap] in *.
  specialize (IH (t / 256) (Z.of_nat (octets (t mod 256))) msg' off' ltac:(lia)).
  destruct (packWindows ts _ _ msg' off') as [m o|? ?|?|]; try done; case_decide; lia || (apply IH; lia).
Qed.

Lemma packDataNsec_keeps ts (msg : list byte) off :
  low_types ts -> (off + lenBitMap firstWindow ts <= length msg)%nat ->
  match packDataNsec ts msg off with
  | Ok msg' off' => length msg' = length msg /\ (off <= off' <= off + lenBitMap firstWindow ts)%nat
  | Fail _ _ => True
  | Crash _ | Hang => False
  end.
Proof.
  intros [Hlow Hfirst] Hm. destruct ts as [|t ts]; [simpl in *; lia|]. cbn [packDataNsec lenBitMap] in *.
  apply Forall_cons in Hlow as [Ht Hlow]. rewrite decide_True in * by done.
  destruct (packWindows_turn t ts 0 0 msg off) as (off' & Hoff & [(o & e & ->)|(msg' & Hl & Hw & ->)]); [done|].
  pose proof (Z.mod_pos_bound t 256 ltac:(lia)).
  pose proof (octets_low (t mod 256) ltac:(lia)). pose proof (octets_pos (t mod 256) ltac:(lia)).
  assert (off' = off) as -> by lia. rewrite <- Hl.
  pose proof (packWindows_keeps ts (t / 256) (Z.of_nat (octets (t mod 256))) msg' off Hlow ltac:(lia)) as H'.
  destruct (packWindows ts _ _ msg' off) as [m o|? ?|?|]; try done; lia || (apply H'; lia).
Qed.
