(* ===== verification/DnsRecord.v ===== *)
(** * Encoding and decoding records

    The rdata of every record type is packed by a chain of field writers and
    read back field by field: what one appends the other reads, up to the forms
    that packing does not keep (the escapes of strings, IPv4 addresses of
    sixteen bytes).  The room that [len] reserves is enough. *)

From Stdlib Require Import ZArith Lia NArith Ascii Strings.Byte Strings.String.
From stdpp Require Import base numbers gmap strings list fin_maps.
From S2P Require Import Prelude GoNet Endian GoEncoding DnsRR DnsName DnsNameSpec DnsField DnsZmsg DnsMsg DnsSafety DnsCodec DnsBitmap.

Open Scope Z_scope.
Open Scope dns_scope.

(** ** Packing as a chain of writers *)

Definition writer := buffer -> nat -> result buffer.

Fixpoint chain {B} (fs : list writer) (b : buffer) (off : nat) (k : buffer -> nat -> result B)
    : result B :=
  match fs with
  | [] => k b off
  | f :: fs => andThen (f b off) (fun b off => chain fs b off k)
  end.

(** A salt of ["-"] is not written. *)
Definition packSalt (Salt : string) : writer := fun b off =>
  if decide (Salt <> "-") then onMsg (packStringHex Salt) b off else Ok b off.

(** The fields of each type, in the order in which [pack] writes them. *)
Definition writers (data : rdata) (compress : bool) : list writer :=
  match data with
  | RR_A A => [onMsg (packDataA A)]
  | RR_AAAA AAAA => [onMsg (packDataAAAA AAAA)]
  | RR_AFSDB Subtype Hostname => [onMsg (packUint16 Subtype); PackDomainName Hostname compress]
  | RR_ANY => []
  | RR_AVC Txt => [onMsg (packStringTxt Txt)]
  | RR_CAA Flag Tag Value =>
      [onMsg (packUint8 Flag); onMsg (packString Tag); onMsg (packStringOctet Value)]
  | RR_CDNSKEY Flags Protocol Algorithm PublicKey =>
      [onMsg (packUint16 Flags); onMsg (packUint8 Protocol); onMsg (packUint8 Algorithm);
       onMsg (packStringBase64 PublicKey)]
  | RR_CDS KeyTag Algorithm DigestType Digest =>
      [onMsg (packUint16 KeyTag); onMsg (packUint8 Algorithm); onMsg (packUint8 DigestType);
       onMsg (packStringHex Digest)]
  | RR_CERT Type_ KeyTag Algorithm Certificate =>
      [onMsg (packUint16 Type_); onMsg (packUint16 KeyTag); onMsg (packUint8 Algorithm);
       onMsg (packStringBase64 Certificate)]
  | RR_CNAME Target => [PackDomainName Target compress]
  | RR_CSYNC Serial Flags TypeBitMap =>
      [onMsg (packUint32 Serial); onMsg (packUint16 Flags); onMsg (packDataNsec TypeBitMap)]
  | RR_DHCID Digest => [onMsg (packStringBase64 Digest)]
  | RR_DLV KeyTag Algorithm DigestType Digest =>
      [onMsg (packUint16 KeyTag); onMsg (packUint8 Algorithm); onMsg (packUint8 DigestType);
       onMsg (packStringHex Digest)]
  | RR_DNAME Target => [PackDomainName Target false]
  | RR_DNSKEY Flags Protocol Algorithm PublicKey =>
      [onMsg (packUint16 Flags); onMsg (packUint8 Protocol); onMsg (packUint8 Algorithm);
       onMsg (packStringBase64 PublicKey)]
  | RR_DS KeyTag Algorithm DigestType Digest =>
      [onMsg (packUint16 KeyTag); onMsg (packUint8 Algorithm); onMsg (packUint8 DigestType);
       onMsg (packStringHex Digest)]
  | RR_EID Endpoint => [onMsg (packStringHex Endpoint)]
  | RR_EUI48 Address => [onMsg (packUint48 Address)]
  | RR_EUI64 Address => [onMsg (packUint64 Address)]
  | RR_GID Gid => [onMsg (packUint32 Gid)]
  | RR_GPOS Longitude Latitude Altitude =>
      [onMsg (packString Longitude); onMsg (packString Latitude); onMsg (packString Altitude)]
  | RR_HINFO Cpu Os => [onMsg (packString Cpu); onMsg (packString Os)]
  | RR_HIP HitLength PublicKeyAlgorithm PublicKeyLength Hit PublicKey RendezvousServers =>
      [onMsg (packUint8 HitLength); onMsg (packUint8 PublicKeyAlgorithm);
       onMsg (packUint16 PublicKeyLength); onMsg (packStringHex Hit);
       onMsg (packStringBase64 PublicKey); packDataDomainNames RendezvousServers]
  | RR_KEY Flags Protocol Algorithm PublicKey =>
      [onMsg (packUint16 Flags); onMsg (packUint8 Protocol); onMsg (packUint8 Algorithm);
       onMsg (packStringBase64 PublicKey)]
  | RR_KX Preference Exchanger => [onMsg (packUint16 Preference); PackDomainName Exchanger false]
  | RR_L32 Preference Locator32 => [onMsg (packUint16 Preference); onMsg (packDataA Locator32)]
  | RR_L64 Preference Locator64 => [onMsg (packUint16 Preference); onMsg (packUint64 Locator64)]
  | RR_LOC Version Size HorizPre VertPre Latitude Longitude Altitude =>
      [onMsg (packUint8 Version); onMsg (packUint8 Size); onMsg (packUint8 HorizPre);
       onMsg (packUint8 VertPre); onMsg (packUint32 Latitude); onMsg (packUint32 Longitude);
       onMsg (packUint32 Altitude)]
  | RR_LP Preference Fqdn => [onMsg (packUint16 Preference); PackDomainName Fqdn false]
  | RR_MB Mb => [PackDomainName Mb compress]
  | RR_MD Md => [PackDomainName Md compress]
  | RR_MF Mf => [PackDomainName Mf compress]
  | RR_MG Mg => [PackDomainName Mg compress]
  | RR_MINFO Rmail Email => [PackDomainName Rmail compress; PackDomainName Email compress]
  | RR_MR Mr => [PackDomainName Mr compress]
  | RR_MX Preference Mx => [onMsg (packUint16 Preference); PackDomainName Mx compress]
  | RR_NAPTR Order Preference Flags Service Regexp Replacement =>
      [onMsg (packUint16 Order); onMsg (packUint16 Preference); onMsg (packString Flags);
       onMsg (packString Service); onMsg (packString Regexp); PackDomainName Replacement false]
  | RR_NID Preference NodeID => [onMsg (packUint16 Preference); onMsg (packUint64 NodeID)]
  | RR_NIMLOC Locator => [onMsg (packStringHex Locator)]
  | RR_NINFO ZSData => [onMsg (packStringTxt ZSData)]
  | RR_NS Ns => [PackDomainName Ns compress]
  | RR_NSAPPTR Ptr => [PackDomainName Ptr false]
  | RR_NSEC NextDomain TypeBitMap =>
      [PackDomainName NextDomain false; onMsg (packDataNsec TypeBitMap)]
  | RR_NSEC3 Hash Flags Iterations SaltLength Salt HashLength NextDomain TypeBitMap =>
      [onMsg (packUint8 Hash); onMsg (packUint8 Flags); onMsg (packUint16 Iterations);
       onMsg (packUint8 SaltLength); packSalt Salt; onMsg (packUint8 HashLength);
       onMsg (packStringBase32 NextDomain); onMsg (packDataNsec TypeBitMap)]
  | RR_NSEC3PARAM Hash Flags Iterations SaltLength Salt =>
      [onMsg (packUint8 Hash); onMsg (packUint8 Flags); onMsg (packUint16 Iterations);
       onMsg (packUint8 SaltLength); packSalt Salt]
  | RR_OPENPGPKEY PublicKey => [onMsg (packStringBase64 PublicKey)]
  | RR_OPT Option => [onMsg (packDataOpt Option)]
  | RR_PTR Ptr => [PackDomainName Ptr compress]
  | RR_PX Preference Map822 Mapx400 =>
      [onMsg (packUint16 Preference); PackDomainName Map822 false; PackDomainName Mapx400 false]
  | RR_RFC3597 Rdata => [onMsg (packStringHex Rdata)]
  | RR_RKEY Flags Protocol Algorithm PublicKey =>
      [onMsg (packUint16 Flags); onMsg (packUint8 Protocol); onMsg (packUint8 Algorithm);
       onMsg (packStringBase64 PublicKey)]
  | RR_RP Mbox Txt => [PackDomainName Mbox false; PackDomainName Txt false]
  | RR_RRSIG TypeCovered Algorithm Labels OrigTtl Expiration Inception KeyTag SignerName Signature =>
      [onMsg (packUint16 TypeCovered); onMsg (packUint8 Algorithm); onMsg (packUint8 Labels);
       onMsg (packUint32 OrigTtl); onMsg (packUint32 Expiration); onMsg (packUint32 Inception);
       onMsg (packUint16 KeyTag); PackDomainName SignerName false;
       onMsg (packStringBase64 Signature)]
  | RR_RT Preference Host => [onMsg (packUint16 Preference); PackDomainName Host compress]
  | RR_SIG TypeCovered Algorithm Labels OrigTtl Expiration Inception KeyTag SignerName Signature =>
      [onMsg (packUint16 TypeCovered); onMsg (packUint8 Algorithm); onMsg (packUint8 Labels);
       onMsg (packUint32 OrigTtl); onMsg (packUint32 Expiration); onMsg (packUint32 Inception);
       onMsg (packUint16 KeyTag); PackDomainName SignerName false;
       onMsg (packStringBase64 Signature)]
  | RR_SMIMEA Usage Selector MatchingType Certificate =>
      [onMsg (packUint8 Usage); onMsg (packUint8 Selector); onMsg (packUint8 MatchingType);
       onMsg (packStringHex Certificate)]
  | RR_SOA Ns Mbox Serial Refresh Retry Expire Minttl =>
      [PackDomainName Ns compress; PackDomainName Mbox compress; onMsg (packUint32 Serial);
       onMsg (packUint32 Refresh); onMsg (packUint32 Retry); onMsg (packUint32 Expire);
       onMsg (packUint32 Minttl)]
  | RR_SPF Txt => [onMsg (packStringTxt Txt)]
  | RR_SRV Priority Weight Port Target =>
      [onMsg (packUint16 Priority); onMsg (packUint16 Weight); onMsg (packUint16 Port);
       PackDomainName Target false]
  | RR_SSHFP Algorithm Type_ FingerPrint =>
      [onMsg (packUint8 Algorithm); onMsg (packUint8 Type_); onMsg (packStringHex FingerPrint)]
  | RR_TA KeyTag Algorithm DigestType Digest =>
      [onMsg (packUint16 KeyTag); onMsg (packUint8 Algorithm); onMsg (packUint8 DigestType);
       onMsg (packStringHex Digest)]
  | RR_TALINK PreviousName NextName =>
      [PackDomainName PreviousName false; PackDomainName NextName false]
  | RR_TKEY Algorithm Inception Expiration Mode Error KeySize Key OtherLen OtherData =>
      [PackDomainName Algorithm false; onMsg (packUint32 Inception);
       onMsg (packUint32 Expiration); onMsg (packUint16 Mode); onMsg (packUint16 Error);
       onMsg (packUint16 KeySize); onMsg (packStringHex Key); onMsg (packUint16 OtherLen);
       onMsg (packStringHex OtherData)]
  | RR_TLSA Usage Selector MatchingType Certificate =>
      [onMsg (packUint8 Usage); onMsg (packUint8 Selector); onMsg (packUint8 MatchingType);
       onMsg (packStringHex Certificate)]
  | RR_TSIG Algorithm TimeSigned Fudge MACSize MAC OrigId Error OtherLen OtherData =>
      [PackDomainName Algorithm false; onMsg (packUint48 TimeSigned); onMsg (packUint16 Fudge);
       onMsg (packUint16 MACSize); onMsg (packStringHex MAC); onMsg (packUint16 OrigId);
       onMsg (packUint16 Error); onMsg (packUint16 OtherLen); onMsg (packStringHex OtherData)]
  | RR_TXT Txt => [onMsg (packStringTxt Txt)]
  | RR_UID Uid => [onMsg (packUint32 Uid)]
  | RR_UINFO Uinfo => [onMsg (packString Uinfo)]
  | RR_URI Priority Weight Target =>
      [onMsg (packUint16 Priority); onMsg (packUint16 Weight); onMsg (packStringOctet Target)]
  | RR_X25 PSDNAddress => [onMsg (packString PSDNAddress)]
  end.

Lemma pack_chain rr compress b off :
  pack rr compress b off =
    let! b, headerEnd := packHeader (Hdr rr) compress b off in
    chain (writers (Data rr) compress) b headerEnd (fun b off =>
      Ok (packed (Hdr rr) (Data rr) headerEnd off, b) off).
Proof. destruct rr as [h []]; reflexivity. Qed.

Lemma chain_appends {B} fs ws (k : buffer -> nat -> result B) pre n :
  Forall2 appends fs ws -> (length (concat ws) < n)%nat ->
  chain fs (pre ++ zeros n, None) (length pre) k =
    k ((pre ++ concat ws) ++ zeros (n - length (concat ws)), None) (length (pre ++ concat ws)).
Proof.
  intros Hfs. revert pre n. induction Hfs as [|f w fs ws Hf _ IH]; intros pre n Hn.
  - simpl. by rewrite app_nil_r, Nat.sub_0_r.
  - cbn [chain concat] in *. rewrite length_app in Hn. rewrite (append_step f w) by (done || lia).
    rewrite IH by lia. by rewrite <- (app_assoc pre w), (length_app w), Nat.sub_add_distr.
Qed.

(** ** Records that can be packed *)

(** Bytes of a length that another field states. *)
Definition hex_of (n : Z) (s : string) : Prop :=
  exists w, n = Z.of_nat (length w) /\ s = text (hex.EncodeToString w).
Definition base64_of (n : Z) (s : string) : Prop :=
  exists w, n = Z.of_nat (length w) /\ s = text (base64.EncodeToString w).
Definition base32_of (n : Z) (s : string) : Prop :=
  exists w, n = Z.of_nat (length w) /\ s = text (base32.EncodeToString w).

(** An IPv4 address in four or sixteen bytes. *)
Definition wf_A (a : list byte) : Prop :=
  length a = 4%nat \/ length a = 16%nat /\ length (net.To4 a) = 4%nat.

(** The options that are read back as they were: the codes that the unpacking
    does not know are those of local options. *)
Definition known_options : list Z :=
  [EDNS0NSID; EDNS0SUBNET; EDNS0COOKIE; EDNS0UL; EDNS0LLQ; EDNS0DAU; EDNS0DHU; EDNS0N3U; EDNS0PADDING].

Definition short (w : list byte) : Prop := in_width 2 (Z.of_nat (length w)).

Definition wf_option (e : EDNS0) : Prop :=
  match e with
  | EDNS0_NSID Code s | EDNS0_COOKIE Code s =>
      Code = 0 /\ (exists w, short w /\ s = text (hex.EncodeToString w))
  | EDNS0_UL Code Lease => Code = 0 /\ in_width 4 Lease
  | EDNS0_LLQ Code Version Opcode Error Id LeaseLife =>
      Code = 0 /\ in_width 2 Version /\ in_width 2 Opcode /\ in_width 2 Error /\ in_width 8 Id /\
      in_width 4 LeaseLife
  | EDNS0_DAU Code w | EDNS0_DHU Code w | EDNS0_N3U Code w => Code = 0 /\ short w
  | EDNS0_PADDING w => short w
  | EDNS0_LOCAL Code w => in_width 2 Code /\ (Code ∉ known_options) /\ short w
  | EDNS0_SUBNET _ _ _ _ _ | EDNS0_EXPIRE _ _ | EDNS0_TCP_KEEPALIVE _ _ _ => False
  end.

Definition wf_octet (s : string) : Prop := (lenString s <= lenTmp)%nat.

(** The fields of a record: integers in their width, names as they are printed,
    strings that fit, encodings of the length stated elsewhere, types in ascending
    order ([wf_bitmap]). *)
Definition wf_data (data : rdata) : Prop :=
  match data with
  | RR_A A => wf_A A
  | RR_AAAA AAAA => length AAAA = 16%nat
  | RR_AFSDB Subtype Hostname => in_width 2 Subtype /\ is_name Hostname
  | RR_ANY => True
  | RR_AVC Txt => Forall wf_txt Txt
  | RR_CAA Flag Tag Value => in_width 1 Flag /\ wf_txt Tag /\ wf_octet Value
  | RR_CDNSKEY Flags Protocol Algorithm PublicKey =>
      in_width 2 Flags /\ in_width 1 Protocol /\ in_width 1 Algorithm /\ is_base64 PublicKey
  | RR_CDS KeyTag Algorithm DigestType Digest =>
      in_width 2 KeyTag /\ in_width 1 Algorithm /\ in_width 1 DigestType /\ is_hex Digest
  | RR_CERT Type_ KeyTag Algorithm Certificate =>
      in_width 2 Type_ /\ in_width 2 KeyTag /\ in_width 1 Algorithm /\ is_base64 Certificate
  | RR_CNAME Target => is_name Target
  | RR_CSYNC Serial Flags TypeBitMap =>
      in_width 4 Serial /\ in_width 2 Flags /\ wf_bitmap TypeBitMap
  | RR_DHCID Digest => is_base64 Digest
  | RR_DLV KeyTag Algorithm DigestType Digest =>
      in_width 2 KeyTag /\ in_width 1 Algorithm /\ in_width 1 DigestType /\ is_hex Digest
  | RR_DNAME Target => is_name Target
  | RR_DNSKEY Flags Protocol Algorithm PublicKey =>
      in_width 2 Flags /\ in_width 1 Protocol /\ in_width 1 Algorithm /\ is_base64 PublicKey
  | RR_DS KeyTag Algorithm DigestType Digest =>
      in_width 2 KeyTag /\ in_width 1 Algorithm /\ in_width 1 DigestType /\ is_hex Digest
  | RR_EID Endpoint => is_hex Endpoint
  | RR_EUI48 Address => in_width 6 Address
  | RR_EUI64 Address => in_width 8 Address
  | RR_GID Gid => in_width 4 Gid
  | RR_GPOS Longitude Latitude Altitude => wf_txt Longitude /\ wf_txt Latitude /\ wf_txt Altitude
  | RR_HINFO Cpu Os => wf_txt Cpu /\ wf_txt Os
  | RR_HIP HitLength PublicKeyAlgorithm PublicKeyLength Hit PublicKey RendezvousServers =>
      in_width 1 HitLength /\ in_width 1 PublicKeyAlgorithm /\ in_width 2 PublicKeyLength /\
      hex_of HitLength Hit /\ base64_of PublicKeyLength PublicKey /\
      Forall is_name RendezvousServers
  | RR_KEY Flags Protocol Algorithm PublicKey =>
      in_width 2 Flags /\ in_width 1 Protocol /\ in_width 1 Algorithm /\ is_base64 PublicKey
  | RR_KX Preference Exchanger => in_width 2 Preference /\ is_name Exchanger
  | RR_L32 Preference Locator32 => in_width 2 Preference /\ wf_A Locator32
  | RR_L64 Preference Locator64 => in_width 2 Preference /\ in_width 8 Locator64
  | RR_LOC Version Size HorizPre VertPre Latitude Longitude Altitude =>
      in_width 1 Version /\ in_width 1 Size /\ in_width 1 HorizPre /\ in_width 1 VertPre /\
      in_width 4 Latitude /\ in_width 4 Longitude /\ in_width 4 Altitude
  | RR_LP Preference Fqdn => in_width 2 Preference /\ is_name Fqdn
  | RR_MB Mb => is_name Mb
  | RR_MD Md => is_name Md
  | RR_MF Mf => is_name Mf
  | RR_MG Mg => is_name Mg
  | RR_MINFO Rmail Email => is_name Rmail /\ is_name Email
  | RR_MR Mr => is_name Mr
  | RR_MX Preference Mx => in_width 2 Preference /\ is_name Mx
  | RR_NAPTR Order Preference Flags Service Regexp Replacement =>
      in_width 2 Order /\ in_width 2 Preference /\ wf_txt Flags /\ wf_txt Service /\
      wf_txt Regexp /\ is_name Replacement
  | RR_NID Preference NodeID => in_width 2 Preference /\ in_width 8 NodeID
  | RR_NIMLOC Locator => is_hex Locator
  | RR_NINFO ZSData => Forall wf_txt ZSData
  | RR_NS Ns => is_name Ns
  | RR_NSAPPTR Ptr => is_name Ptr
  | RR_NSEC NextDomain TypeBitMap => is_name NextDomain /\ wf_bitmap TypeBitMap
  | RR_NSEC3 Hash Flags Iterations SaltLength Salt HashLength NextDomain TypeBitMap =>
      in_width 1 Hash /\ in_width 1 Flags /\ in_width 2 Iterations /\ in_width 1 SaltLength /\
      hex_of SaltLength Salt /\ in_width 1 HashLength /\ base32_of HashLength NextDomain /\
      wf_bitmap TypeBitMap
  | RR_NSEC3PARAM Hash Flags Iterations SaltLength Salt =>
      in_width 1 Hash /\ in_width 1 Flags /\ in_width 2 Iterations /\ in_width 1 SaltLength /\
      hex_of SaltLength Salt
  | RR_OPENPGPKEY PublicKey => is_base64 PublicKey
  | RR_OPT Option => Forall wf_option Option
  | RR_PTR Ptr => is_name Ptr
  | RR_PX Preference Map822 Mapx400 => in_width 2 Preference /\ is_name Map822 /\ is_name Mapx400
  | RR_RFC3597 Rdata => is_hex Rdata
  | RR_RKEY Flags Protocol Algorithm PublicKey =>
      in_width 2 Flags /\ in_width 1 Protocol /\ in_width 1 Algorithm /\ is_base64 PublicKey
  | RR_RP Mbox Txt => is_name Mbox /\ is_name Txt
  | RR_RRSIG TypeCovered Algorithm Labels OrigTtl Expiration Inception KeyTag SignerName Signature =>
      in_width 2 TypeCovered /\ in_width 1 Algorithm /\ in_width 1 Labels /\ in_width 4 OrigTtl /\
      in_width 4 Expiration /\ in_width 4 Inception /\ in_width 2 KeyTag /\ is_name SignerName /\
      is_base64 Signature
  | RR_RT Preference Host => in_width 2 Preference /\ is_name Host
  | RR_SIG TypeCovered Algorithm Labels OrigTtl Expiration Inception KeyTag SignerName Signature =>
      in_width 2 TypeCovered /\ in_width 1 Algorithm /\ in_width 1 Labels /\ in_width 4 OrigTtl /\
      in_width 4 Expiration /\ in_width 4 Inception /\ in_width 2 KeyTag /\ is_name SignerName /\
      is_base64 Signature
  | RR_SMIMEA Usage Selector MatchingType Certificate =>
      in_width 1 Usage /\ in_width 1 Selector /\ in_width 1 MatchingType /\ is_hex Certificate
  | RR_SOA Ns Mbox Serial Refresh Retry Expire Minttl =>
      is_name Ns /\ is_name Mbox /\ in_width 4 Serial /\ in_width 4 Refresh /\ in_width 4 Retry /\
      in_width 4 Expire /\ in_width 4 Minttl
  | RR_SPF Txt => Forall wf_txt Txt
  | RR_SRV Priority Weight Port Target =>
      in_width 2 Priority /\ in_width 2 Weight /\ in_width 2 Port /\ is_name Target
  | RR_SSHFP Algorithm Type_ FingerPrint =>
      in_width 1 Algorithm /\ in_width 1 Type_ /\ is_hex FingerPrint
  | RR_TA KeyTag Algorithm DigestType Digest =>
      in_width 2 KeyTag /\ in_width 1 Algorithm /\ in_width 1 DigestType /\ is_hex Digest
  | RR_TALINK PreviousName NextName => is_name PreviousName /\ is_name NextName
  | RR_TKEY Algorithm Inception Expiration Mode Error KeySize Key OtherLen OtherData =>
      is_name Algorithm /\ in_width 4 Inception /\ in_width 4 Expiration /\ in_width 2 Mode /\
      in_width 2 Error /\ in_width 2 KeySize /\ hex_of KeySize Key /\ in_width 2 OtherLen /\
      hex_of OtherLen OtherData
  | RR_TLSA Usage Selector MatchingType Certificate =>
      in_width 1 Usage /\ in_width 1 Selector /\ in_width 1 MatchingType /\ is_hex Certificate
  | RR_TSIG Algorithm TimeSigned Fudge MACSize MAC OrigId Error OtherLen OtherData =>
      is_name Algorithm /\ in_width 6 TimeSigned /\ in_width 2 Fudge /\ in_width 2 MACSize /\
      hex_of MACSize MAC /\ in_width 2 OrigId /\ in_width 2 Error /\ in_width 2 OtherLen /\
      hex_of OtherLen OtherData
  | RR_TXT Txt => Forall wf_txt Txt
  | RR_UID Uid => in_width 4 Uid
  | RR_UINFO Uinfo => wf_txt Uinfo
  | RR_URI Priority Weight Target => in_width 2 Priority /\ in_width 2 Weight /\ wf_octet Target
  | RR_X25 PSDNAddress => wf_txt PSDNAddress
  end.

(** The record that is read back. *)
Definition norm_data (data : rdata) : rdata :=
  match data with
  | RR_A A => RR_A (net.To4 A)
  | RR_AVC Txt => RR_AVC (norm_txt <$> Txt)
  | RR_CAA Flag Tag Value => RR_CAA Flag (norm_txt Tag) (norm_octet Value)
  | RR_GPOS Longitude Latitude Altitude =>
      RR_GPOS (norm_txt Longitude) (norm_txt Latitude) (norm_txt Altitude)
  | RR_HINFO Cpu Os => RR_HINFO (norm_txt Cpu) (norm_txt Os)
  | RR_L32 Preference Locator32 => RR_L32 Preference (net.To4 Locator32)
  | RR_NAPTR Order Preference Flags Service Regexp Replacement =>
      RR_NAPTR Order Preference (norm_txt Flags) (norm_txt Service) (norm_txt Regexp) Replacement
  | RR_NINFO ZSData => RR_NINFO (norm_txt <$> ZSData)
  | RR_SPF Txt => RR_SPF (norm_txt <$> Txt)
  | RR_TXT Txt => RR_TXT (norm_txt <$> Txt)
  | RR_UINFO Uinfo => RR_UINFO (norm_txt Uinfo)
  | RR_URI Priority Weight Target => RR_URI Priority Weight (norm_octet Target)
  | RR_X25 PSDNAddress => RR_X25 (norm_txt PSDNAddress)
  | _ => data
  end.

(** The type code of a record; a record of an unknown type has none of its own. *)
Definition type_of (data : rdata) : option Z :=
  match data with
  | RR_A _ => Some TypeA
  | RR_AAAA _ => Some TypeAAAA
  | RR_AFSDB _ _ => Some TypeAFSDB
  | RR_ANY => Some TypeANY
  | RR_AVC _ => Some TypeAVC
  | RR_CAA _ _ _ => Some TypeCAA
  | RR_CDNSKEY _ _ _ _ => Some TypeCDNSKEY
  | RR_CDS _ _ _ _ => Some TypeCDS
  | RR_CERT _ _ _ _ => Some TypeCERT
  | RR_CNAME _ => Some TypeCNAME
  | RR_CSYNC _ _ _ => Some TypeCSYNC
  | RR_DHCID _ => Some TypeDHCID
  | RR_DLV _ _ _ _ => Some TypeDLV
  | RR_DNAME _ => Some TypeDNAME
  | RR_DNSKEY _ _ _ _ => Some TypeDNSKEY
  | RR_DS _ _ _ _ => Some TypeDS
  | RR_EID _ => Some TypeEID
  | RR_EUI48 _ => Some TypeEUI48
  | RR_EUI64 _ => Some TypeEUI64
  | RR_GID _ => Some TypeGID
  | RR_GPOS _ _ _ => Some TypeGPOS
  | RR_HINFO _ _ => Some TypeHINFO
  | RR_HIP _ _ _ _ _ _ => Some TypeHIP
  | RR_KEY _ _ _ _ => Some TypeKEY
  | RR_KX _ _ => Some TypeKX
  | RR_L32 _ _ => Some TypeL32
  | RR_L64 _ _ => Some TypeL64
  | RR_LOC _ _ _ _ _ _ _ => Some TypeLOC
  | RR_LP _ _ => Some TypeLP
  | RR_MB _ => Some TypeMB
  | RR_MD _ => Some TypeMD
  | RR_MF _ => Some TypeMF
  | RR_MG _ => Some TypeMG
  | RR_MINFO _ _ => Some TypeMINFO
  | RR_MR _ => Some TypeMR
  | RR_MX _ _ => Some TypeMX
  | RR_NAPTR _ _ _ _ _ _ => Some TypeNAPTR
  | RR_NID _ _ => Some TypeNID
  | RR_NIMLOC _ => Some TypeNIMLOC
  | RR_NINFO _ => Some TypeNINFO
  | RR_NS _ => Some TypeNS
  | RR_NSAPPTR _ => Some TypeNSAPPTR
  | RR_NSEC _ _ => Some TypeNSEC
  | RR_NSEC3 _ _ _ _ _ _ _ _ => Some TypeNSEC3
  | RR_NSEC3PARAM _ _ _ _ _ => Some TypeNSEC3PARAM
  | RR_OPENPGPKEY _ => Some TypeOPENPGPKEY
  | RR_OPT _ => Some TypeOPT
  | RR_PTR _ => Some TypePTR
  | RR_PX _ _ _ => Some TypePX
  | RR_RKEY _ _ _ _ => Some TypeRKEY
  | RR_RP _ _ => Some TypeRP
  | RR_RRSIG _ _ _ _ _ _ _ _ _ => Some TypeRRSIG
  | RR_RT _ _ => Some TypeRT
  | RR_SIG _ _ _ _ _ _ _ _ _ => Some TypeSIG
  | RR_SMIMEA _ _ _ _ => Some TypeSMIMEA
  | RR_SOA _ _ _ _ _ _ _ => Some TypeSOA
  | RR_SPF _ => Some TypeSPF
  | RR_SRV _ _ _ _ => Some TypeSRV
  | RR_SSHFP _ _ _ => Some TypeSSHFP
  | RR_TA _ _ _ _ => Some TypeTA
  | RR_TALINK _ _ => Some TypeTALINK
  | RR_TKEY _ _ _ _ _ _ _ _ _ => Some TypeTKEY
  | RR_TLSA _ _ _ _ => Some TypeTLSA
  | RR_TSIG _ _ _ _ _ _ _ _ _ => Some TypeTSIG
  | RR_TXT _ => Some TypeTXT
  | RR_UID _ => Some TypeUID
  | RR_UINFO _ => Some TypeUINFO
  | RR_URI _ _ _ => Some TypeURI
  | RR_X25 _ => Some TypeX25
  | RR_RFC3597 _ => None
  end.

Definition reader_of (data : rdata) : RR_Header -> list byte -> nat -> result RR :=
  match data with
  | RR_A _ => unpackA
  | RR_AAAA _ => unpackAAAA
  | RR_AFSDB _ _ => unpackAFSDB
  | RR_ANY => unpackANY
  | RR_AVC _ => unpackAVC
  | RR_CAA _ _ _ => unpackCAA
  | RR_CDNSKEY _ _ _ _ => unpackCDNSKEY
  | RR_CDS _ _ _ _ => unpackCDS
  | RR_CERT _ _ _ _ => unpackCERT
  | RR_CNAME _ => unpackCNAME
  | RR_CSYNC _ _ _ => unpackCSYNC
  | RR_DHCID _ => unpackDHCID
  | RR_DLV _ _ _ _ => unpackDLV
  | RR_DNAME _ => unpackDNAME
  | RR_DNSKEY _ _ _ _ => unpackDNSKEY
  | RR_DS _ _ _ _ => unpackDS
  | RR_EID _ => unpackEID
  | RR_EUI48 _ => unpackEUI48
  | RR_EUI64 _ => unpackEUI64
  | RR_GID _ => unpackGID
  | RR_GPOS _ _ _ => unpackGPOS
  | RR_HINFO _ _ => unpackHINFO
  | RR_HIP _ _ _ _ _ _ => unpackHIP
  | RR_KEY _ _ _ _ => unpackKEY
  | RR_KX _ _ => unpackKX
  | RR_L32 _ _ => unpackL32
  | RR_L64 _ _ => unpackL64
  | RR_LOC _ _ _ _ _ _ _ => unpackLOC
  | RR_LP _ _ => unpackLP
  | RR_MB _ => unpackMB
  | RR_MD _ => unpackMD
  | RR_MF _ => unpackMF
  | RR_MG _ => unpackMG
  | RR_MINFO _ _ => unpackMINFO
  | RR_MR _ => unpackMR
  | RR_MX _ _ => unpackMX
  | RR_NAPTR _ _ _ _ _ _ => unpackNAPTR
  | RR_NID _ _ => unpackNID
  | RR_NIMLOC _ => unpackNIMLOC
  | RR_NINFO _ => unpackNINFO
  | RR_NS _ => unpackNS
  | RR_NSAPPTR _ => unpackNSAPPTR
  | RR_NSEC _ _ => unpackNSEC
  | RR_NSEC3 _ _ _ _ _ _ _ _ => unpackNSEC3
  | RR_NSEC3PARAM _ _ _ _ _ => unpackNSEC3PARAM
  | RR_OPENPGPKEY _ => unpackOPENPGPKEY
  | RR_OPT _ => unpackOPT
  | RR_PTR _ => unpackPTR
  | RR_PX _ _ _ => unpackPX
  | RR_RFC3597 _ => unpackRFC3597
  | RR_RKEY _ _ _ _ => unpackRKEY
  | RR_RP _ _ => unpackRP
  | RR_RRSIG _ _ _ _ _ _ _ _ _ => unpackRRSIG
  | RR_RT _ _ => unpackRT
  | RR_SIG _ _ _ _ _ _ _ _ _ => unpackSIG
  | RR_SMIMEA _ _ _ _ => unpackSMIMEA
  | RR_SOA _ _ _ _ _ _ _ => unpackSOA
  | RR_SPF _ => unpackSPF
  | RR_SRV _ _ _ _ => unpackSRV
  | RR_SSHFP _ _ _ => unpackSSHFP
  | RR_TA _ _ _ _ => unpackTA
  | RR_TALINK _ _ => unpackTALINK
  | RR_TKEY _ _ _ _ _ _ _ _ _ => unpackTKEY
  | RR_TLSA _ _ _ _ => unpackTLSA
  | RR_TSIG _ _ _ _ _ _ _ _ _ => unpackTSIG
  | RR_TXT _ => unpackTXT
  | RR_UID _ => unpackUID
  | RR_UINFO _ => unpackUINFO
  | RR_URI _ _ _ => unpackURI
  | RR_X25 _ => unpackX25
  end.

(** The entry of [typeToUnpack] for a type. *)
Definition readerFor (t : Z) : RR_Header -> list byte -> nat -> result RR :=
  match find (fun e => e.1 =? t) typeToUnpack with
  | Some e => e.2
  | None => unpackRFC3597
  end.

Definition has_type (data : rdata) (t : Z) : Prop :=
  match type_of data with
  | Some t' => t = t'
  | None => find (fun e => e.1 =? t) typeToUnpack = None
  end.

Lemma readerFor_type data t : has_type data t -> readerFor t = reader_of data.
Proof.
  unfold has_type. destruct data; simpl type_of; intros H; try (by rewrite H). 
  unfold readerFor. by rewrite H.
Qed.

(** ** The codec of a field *)

(** [f] writes [w], at most [hi] bytes, and [g] reads [a] back from them. *)
Definition codec {A} (f : writer) (g : list byte -> nat -> result A) (a : A) (w : list byte)
    (hi : nat) : Prop :=
  appends f w /\ reads g w a /\ (0 < length w <= hi)%nat.

(** The same for a field that takes the rest of the record; when it is empty the
    reader may have stopped before it, leaving [zero]. *)
Definition codec_end {A} (f : writer) (g : list byte -> nat -> result A) (a zero : A) (w : list byte)
    (hi : nat) : Prop :=
  appends f w /\ reads_to_end g w a /\ (length w <= hi)%nat /\ (length w = 0%nat -> zero = a).

Definition codec_rest {A} (f : writer) (g : list byte -> nat -> nat -> result A) (a zero : A)
    (w : list byte) (hi : nat) : Prop :=
  appends f w /\ reads_rest g w a /\ (length w <= hi)%nat /\ (length w = 0%nat -> zero = a).

Lemma in_width_codec n what i :
  in_width n i -> (0 < n)%nat -> codec (onMsg (packUint n what i)) (unpackUint n what) i (be n i) n.
Proof.
  intros Hi Hn. split_and!; [apply packUint_appends|by apply unpackUint_reads|rewrite length_be; lia..].
Qed.

Lemma length_wire_present ls : (length (wire ls) <= length (present ls) + 1)%nat.
Proof.
  rewrite length_wire. unfold present. case_decide as E; [subst; simpl; lia|].
  pose proof (length_wire_labels_printed ls). lia.
Qed.

Lemma is_name_codec s :
  is_name s -> exists w, (forall compress, codec (PackDomainName s compress) UnpackDomainName s w (lenString s + 1)).
Proof.
  intros (ls & Hls & ->). exists (wire ls). intros compress. pose proof (length_wire ls).
  pose proof (length_wire_present ls).
  split_and!; [by apply PackDomainName_appends, Hls|by apply UnpackDomainName_reads|lia|].
  unfold lenString. by rewrite bytes_text.
Qed.

Lemma length_unescape bs : (length (unescape bs) <= length bs)%nat.
Proof.
  induction bs as [bs IH] using unescape_length_ind. destruct bs as [|b bs]; [done|]. cbn [unescape].
  assert (forall bs', (length bs' <= length bs)%nat -> (length (unescape bs') <= length bs')%nat) as Hl
    by (intros; apply IH; simpl; lia).
  case_decide; [|simpl; specialize (Hl bs); lia]. destruct bs as [|d0 bs1]; [simpl; lia|].
  assert (length (d0 :: unescape bs1) <= length (b :: d0 :: bs1))%nat
    by (simpl in *; specialize (Hl bs1); lia).
  destruct bs1 as [|d1 [|d2 bs3]]; [done..|].
  case_match; [simpl in *; specialize (Hl bs3); lia|done].
Qed.

Lemma wf_txt_codec s :
  wf_txt s -> codec (onMsg (packString s)) unpackString (norm_txt s) (txt_wire (unescape (bytes s))) (lenString s + 1).
Proof.
  intros Hs. pose proof (length_unescape (bytes s)). unfold lenString.
  split_and!; [by apply packString_appends|by apply unpackString_reads, Hs|rewrite length_txt_wire; lia..].
Qed.

Lemma wf_txts_codec ss :
  Forall wf_txt ss ->
  codec_end (onMsg (packStringTxt ss)) unpackStringTxt (norm_txt <$> ss) []
    (txts_wire (unescape_all ss)) (lenStrings ss).
Proof.
  intros Hss. split_and!.
  - by apply packStringTxt_appends.
  - assert (norm_txt <$> ss = txts (unescape_all ss)) as ->.
    { unfold txts, unescape_all. by rewrite <- list_fmap_compose. }
    apply unpackStringTxt_reads, Forall_fmap. eapply Forall_impl; [done|]. by intros s [_ Hs].
  - clear Hss. induction ss as [|s ss IH]; [done|].
    change (unescape_all (s :: ss)) with (unescape (bytes s) :: unescape_all ss).
    rewrite txts_wire_cons, length_app, length_txt_wire. unfold lenStrings in *. csimpl.
    pose proof (length_unescape (bytes s)). unfold lenString in *. lia.
  - destruct ss as [|s ss]; [done|].
    change (unescape_all (s :: ss)) with (unescape (bytes s) :: unescape_all ss).
    by rewrite txts_wire_cons, length_app, length_txt_wire.
Qed.

Lemma wf_octet_codec s :
  wf_octet s ->
  codec_end (onMsg (packStringOctet s)) unpackStringOctet (norm_octet s) "" (unescape (bytes s)) (lenString s).
Proof.
  intros Hs. split_and!; [by apply packStringOctet_appends|apply unpackStringOctet_reads|apply length_unescape|].
  intros H%nil_length_inv. unfold norm_octet. by rewrite H.
Qed.

Lemma wf_A_codec a :
  wf_A a -> codec (onMsg (packDataA a)) unpackDataA (net.To4 a) (net.To4 a) 4.
Proof.
  intros [H|[H H4]].
  - rewrite net.To4_of_4 by done. split_and!; [by apply packDataA_appends|by apply unpackDataA_reads|lia..].
  - split_and!; [by apply packDataA_appends_mapped|by apply unpackDataA_reads|lia..].
Qed.

Lemma AAAA_codec a : length a = 16%nat -> codec (onMsg (packDataAAAA a)) unpackDataAAAA a a 16.
Proof.
  intros H. split_and!; [by apply packDataAAAA_appends|by apply unpackDataAAAA_reads|lia..].
Qed.

(** *** Encoded bytes *)

Lemma hex_codec w :
  let s := text (hex.EncodeToString w) in
  codec_rest (onMsg (packStringHex s)) unpackStringHex s "" w (lenString s / 2).
Proof.
  intros s. split_and!; [apply packStringHex_appends|apply unpackStringHex_reads| |].
  - unfold s, lenString. rewrite bytes_text, hex.length_Encode, Nat.mul_comm, Nat.div_mul by lia. lia.
  - unfold s. intros ->%nil_length_inv. done.
Qed.

Lemma salt_codec w :
  let s := text (hex.EncodeToString w) in
  codec_rest (packSalt s) unpackStringHex s "" w (lenString s / 2).
Proof.
  intros s. destruct (hex_codec w) as [Ha H]. split; [|done]. intros pre n Hn. unfold packSalt.
  rewrite decide_True; [by apply Ha|]. unfold s. intros E%(f_equal (length ∘ bytes)). simpl in E.
  rewrite bytes_text, hex.length_Encode in E. change (length (bytes "-")) with 1%nat in E. lia.
Qed.

Lemma base64_codec w :
  let s := text (base64.EncodeToString w) in
  codec_rest (onMsg (packStringBase64 s)) unpackStringBase64 s "" w (base64.DecodedLen (lenString s)).
Proof.
  intros s. split_and!; [apply packStringBase64_appends|apply unpackStringBase64_reads| |].
  - unfold s, lenString. rewrite bytes_text. apply base64.base64_length_Decode, base64.base64_Decode_Encode.
  - unfold s. intros ->%nil_length_inv. done.
Qed.

Lemma base32_codec w :
  let s := text (base32.EncodeToString w) in
  codec_rest (onMsg (packStringBase32 s)) unpackStringBase32 s "" w (lenString s).
Proof.
  intros s. split_and!; [apply packStringBase32_appends|apply unpackStringBase32_reads| |].
  - unfold s, lenString. rewrite bytes_text. apply base32.base32_length_Decode, base32.base32_Decode_Encode.
  - unfold s. intros ->%nil_length_inv. done.
Qed.

Lemma is_names_codec ss :
  Forall is_name ss ->
  exists w, codec_rest (packDataDomainNames ss) unpackDataDomainNames ss [] w (lenStrings ss).
Proof.
  intros Hss. assert (exists nss, Forall valid_name nss /\ ss = names nss) as (nss & Hn & ->).
  { induction Hss as [|s ss (ls & Hls & ->) _ (nss & Hn & ->)]; [by exists []|].
    exists (ls :: nss). split; [by constructor|done]. }
  exists (names_wire nss).
  split_and!; [by apply packDataDomainNames_appends|by apply unpackDataDomainNames_reads| |].
  - clear. induction nss as [|ls nss IH]; [done|]. rewrite names_wire_cons, length_app.
    unfold names, lenStrings, lenString in *. csimpl. rewrite bytes_text.
    pose proof (length_wire_present ls). lia.
  - destruct nss as [|ls nss]; [done|]. by rewrite names_wire_cons, length_app, length_wire.
Qed.

Lemma bitmap_codec ts :
  wf_bitmap ts ->
  codec_end (onMsg (packDataNsec ts)) unpackDataNsec ts [] (bitmap_wire ts) (lenBitMap firstWindow ts).
Proof.
  intros [Ha Hl]. split_and!; [by apply packDataNsec_appends|by apply unpackDataNsec_reads|by apply length_bitmap_wire|].
  intros H. by rewrite (bitmap_wire_nil ts H).
Qed.

(** *** Options *)

Arguments be : simpl never.

Lemma decode_be n v q : in_width n v -> bigEndian (take n (be n v ++ q)) = v.
Proof.
  intros Hv. rewrite <- (length_be n v) at 1. rewrite take_app_length, bigEndian_be.
  by apply Z.mod_small.
Qed.

Lemma EDNS0_LLQ_unpack_pack v o e i l :
  in_width 2 v -> in_width 2 o -> in_width 2 e -> in_width 8 i -> in_width 4 l ->
  EDNS0_LLQ_unpack (EDNS0_LLQ_pack v o e i l) = Ok (EDNS0_LLQ 0 v o e i l) 0.
Proof.
  intros Hv Ho He Hi Hl. unfold EDNS0_LLQ_unpack, EDNS0_LLQ_pack, cut.
  rewrite !length_app, !length_be. rewrite decide_False, !decide_True by lia. simpl Nat.sub.
  assert (forall n v k q, drop (n + k) (be n v ++ q) = drop k q) as Hd.
  { intros n w k q. rewrite <- drop_drop. f_equal. rewrite <- (length_be n w) at 1. apply drop_app_length. }
  rewrite drop_0.
  rewrite (Hd 2 v 0)%nat, (Hd 2 v 2)%nat, (Hd 2 o 0)%nat, (Hd 2 v 4)%nat, (Hd 2 o 2)%nat,
    (Hd 2 e 0)%nat, (Hd 2 v 12)%nat, (Hd 2 o 10)%nat, (Hd 2 e 8)%nat, (Hd 8 i 0)%nat, !drop_0.
  rewrite !decode_be by done. rewrite <- (app_nil_r (be 4 l)), decode_be by done. done.
Qed.

Ltac option_code :=
  unfold unpackOption; simpl Option;
  repeat (rewrite decide_False by done); try (rewrite decide_True by done).

Lemma unpackOption_packOption e :
  wf_option e -> exists b, packOption e = inl b /\ short b /\ in_width 2 (Option e) /\
    unpackOption (Option e) b = Ok e 0.
Proof.
  destruct e; simpl; try done.
  all: try (intros [-> (w & Hw & ->)]; exists w; rewrite bytes_text, hex.hex_Decode_Encode;
            split_and!; [done..| by option_code]).
  all: try (intros [-> Hw]; eexists; split_and!; [done..| by option_code]).
  - intros [-> Hl]. eexists. split_and!; [done|done..|]. option_code. unfold EDNS0_UL_unpack, cut.
    rewrite length_be, decide_False, decide_True by lia. simpl Nat.sub.
    by rewrite drop_0, <- (app_nil_r (be 4 _)), decode_be.
  - intros (-> & ? & ? & ? & ? & ?). eexists. split_and!; [done..|]. option_code.
    by apply EDNS0_LLQ_unpack_pack.
  - intros (Hc & Hk & Hw). eexists. split_and!; [done..|]. unfold unpackOption, known_options in *.
    rewrite !not_elem_of_cons in Hk. by rewrite !decide_False by intuition.
  - intros Hw. eexists. split_and!; [done..|]. by option_code.
Qed.

Definition option_wire (e : EDNS0) : list byte :=
  match packOption e with
  | inl b => be 2 (Option e) ++ be 2 (Z.of_nat (length b)) ++ b
  | inr _ => []
  end.

Lemma packDataOpt_appends es :
  Forall wf_option es -> appends (onMsg (packDataOpt es)) (concat (option_wire <$> es)).
Proof.
  intros Hes pre n Hn. unfold onMsg. simpl fst. simpl snd.
  enough (packDataOpt es (pre ++ zeros n) (length pre) =
    Ok ((pre ++ concat (option_wire <$> es)) ++ zeros (n - length (concat (option_wire <$> es))))
       (length (pre ++ concat (option_wire <$> es)))) as -> by done.
  revert pre n Hn. induction Hes as [|e es He _ IH]; intros pre n Hn; [simpl; by rewrite app_nil_r, Nat.sub_0_r|].
  destruct (unpackOption_packOption e He) as (b & Hb & _ & _ & _).
  cbn [packDataOpt]. rewrite fmap_cons in *. cbn [concat] in *.
  assert (option_wire e = be 2 (Option e) ++ be 2 (Z.of_nat (length b)) ++ b) as He'
    by (unfold option_wire; by rewrite Hb).
  rewrite He', Hb in *. rewrite !length_app, !length_be in Hn.
  rewrite decide_False by (rewrite length_app, length_zeros; lia).
  rewrite putBytes_zeros by (rewrite length_be; lia).
  assert (length pre + 2 = length (pre ++ be 2 (Option e)))%nat as -> by (rewrite length_app, length_be; lia).
  rewrite putBytes_zeros by (rewrite !length_be; lia).
  rewrite !length_be.
  assert (length pre + 4 = length ((pre ++ be 2 (Option e)) ++ be 2 (Z.of_nat (length b))))%nat as ->
    by (rewrite !length_app, !length_be; lia).
  rewrite decide_False by (rewrite !(length_app _ (zeros _)), length_zeros; lia).
  rewrite putBytes_zeros by lia.
  rewrite <- (length_app _ b), IH by lia.
  rewrite <- !app_assoc, !length_app, !length_be.
  by rewrite !Nat.sub_add_distr.
Qed.

Lemma unpackOptions_spec fuel es msg off es0 :
  Forall wf_option es -> es <> [] -> drop off msg = concat (option_wire <$> es) -> (off <= length msg)%nat ->
  (length es <= fuel)%nat -> unpackOptions fuel msg off es0 = Ok (es0 ++ es) (length msg).
Proof.
  intros Hes. revert fuel off es0. induction Hes as [|e es He Hes IH]; intros fuel off es0 Hne Hd Ho Hf; [done|].
  simpl in Hf. destruct fuel as [|fuel]; [lia|]. cbn [unpackOptions].
  destruct (unpackOption_packOption e He) as (b & Hb & Hs & Hc & Hu).
  rewrite fmap_cons in Hd. cbn [concat] in Hd. unfold option_wire at 1 in Hd. rewrite Hb, <- !app_assoc in Hd.
  pose proof (length_next _ _ _ _ Hd Ho) as Hl. rewrite !length_app, !length_be in Hl.
  rewrite decide_False by lia.
  unfold cut. rewrite !decide_True by lia.
  replace (off + 2 - off)%nat with 2%nat by lia. replace (off + 4 - (off + 2))%nat with 2%nat by lia.
  pose proof (drop_next _ _ _ _ Hd) as Hd2. pose proof (drop_next _ _ _ _ Hd2) as Hd4.
  rewrite !length_be in *. rewrite Hd, Hd2, !decode_be by done.
  replace (off + 2 + 2)%nat with (off + 4)%nat in * by lia. rewrite Nat2Z.id.
  rewrite decide_False, decide_True by lia.
  replace (off + 4 + length b - (off + 4))%nat with (length b) by lia.
  rewrite Hd4, take_app_length, Hu. cbn [failAt andThen].
  destruct (decide (es = [])) as [->|Hnil].
  - simpl in Hl. rewrite decide_False by lia. f_equal. lia.
  - assert (0 < length (concat (option_wire <$> es)))%nat.
    { destruct Hes as [|e' es' He' _]; [done|]. rewrite fmap_cons. cbn [concat]. unfold option_wire at 1.
      destruct (unpackOption_packOption e' He') as (b' & -> & _). rewrite !length_app, length_be. lia. }
    rewrite decide_True by lia. rewrite (IH fuel _ _ Hnil (drop_next _ _ _ _ Hd4)) by lia.
    by rewrite <- app_assoc.
Qed.

(** ** The codec of a record *)

Definition writes (data : rdata) (ws : list (list byte)) : Prop :=
  forall compress, Forall2 appends (writers data compress) ws.

(** Under a header that states the length of [w], the record is read from [w]. *)
Definition read_back (data : rdata) (w : list byte) : Prop :=
  forall h msg off, Rdlength h = Z.of_nat (length w) -> drop off msg = w -> (off <= length msg)%nat ->
    reader_of data h msg off = Ok (mkRR h (norm_data data)) (length msg).

Lemma uint8_codec i : in_width 1 i -> codec (onMsg (packUint8 i)) unpackUint8 i (be 1 i) 1.
Proof. intros H. apply in_width_codec; [done|lia]. Qed.

Lemma uint16_codec i : in_width 2 i -> codec (onMsg (packUint16 i)) unpackUint16 i (be 2 i) 2.
Proof. intros H. apply in_width_codec; [done|lia]. Qed.

Lemma uint32_codec i : in_width 4 i -> codec (onMsg (packUint32 i)) unpackUint32 i (be 4 i) 4.
Proof. intros H. apply in_width_codec; [done|lia]. Qed.

Lemma uint48_codec i : in_width 6 i -> codec (onMsg (packUint48 i)) unpackUint48 i (be 6 i) 6.
Proof. intros H. apply in_width_codec; [done|lia]. Qed.

Lemma uint64_codec i : in_width 8 i -> codec (onMsg (packUint64 i)) unpackUint64 i (be 8 i) 8.
Proof. intros H. apply in_width_codec; [done|lia]. Qed.

(** The codec of each field of a record, from what [wf_data] says of it. *)
Ltac field_codec :=
  match goal with
  | H : in_width 1 _ |- _ => apply uint8_codec in H
  | H : in_width 2 _ |- _ => apply uint16_codec in H
  | H : in_width 4 _ |- _ => apply uint32_codec in H
  | H : in_width 6 _ |- _ => apply uint48_codec in H
  | H : in_width 8 _ |- _ => apply uint64_codec in H
  | H : is_name _ |- _ =>
      let Hc := fresh in
      destruct (is_name_codec _ H) as [? Hc]; clear H;
      pose proof (fun compress => proj1 (Hc compress)); destruct (Hc false) as [_ ?]; clear Hc
  | H : Forall is_name _ |- _ => apply is_names_codec in H as [? H]
  | H : wf_A _ |- _ => apply wf_A_codec in H
  | H : length _ = 16%nat |- _ => apply AAAA_codec in H
  | H : wf_txt _ |- _ => apply wf_txt_codec in H
  | H : Forall wf_txt _ |- _ => apply wf_txts_codec in H
  | H : wf_octet _ |- _ => apply wf_octet_codec in H
  | H : is_hex _ |- _ => let w := fresh "w" in destruct H as (w & ->); pose proof (hex_codec w)
  | H : is_base64 _ |- _ => let w := fresh "w" in destruct H as (w & ->); pose proof (base64_codec w)
  | H : hex_of _ _ |- _ =>
      let w := fresh "w" in
      destruct H as (w & -> & ->); pose proof (hex_codec w); pose proof (salt_codec w)
  | H : base64_of _ _ |- _ => let w := fresh "w" in destruct H as (w & -> & ->); pose proof (base64_codec w)
  | H : base32_of _ _ |- _ => let w := fresh "w" in destruct H as (w & -> & ->); pose proof (base32_codec w)
  | H : wf_bitmap _ |- _ => apply bitmap_codec in H
  | H : _ /\ _ |- _ => destruct H
  | H : let _ := _ in _ |- _ => cbv zeta in H
  | H : codec _ _ _ _ _ |- _ => destruct H
  | H : codec_end _ _ _ _ _ _ |- _ => destruct H
  | H : codec_rest _ _ _ _ _ _ |- _ => destruct H
  end.

(** One step of a reader on the encoded fields. *)
Ltac read_field :=
  match goal with
  | |- (if noRdata ?h then _ else _) = _ => 
      unfold noRdata; destruct (Z.eqb_spec (Rdlength h) 0); [try (exfalso; lia)|]
  | |- (if atEnd ?m ?o then _ else _) = _ =>
      let E := fresh in
      destruct (atEnd m o) eqn:E; [apply bool_decide_eq_true in E; try (exfalso; lia) | clear E]
  | Hd : drop ?o ?m = ?w ++ ?q, Hr : reads ?f ?w _ |- andThen (?f ?m ?o) _ = _ =>
      rewrite (Hr m o q Hd) by lia; cbn [andThen]; apply drop_next in Hd
  | Hd : drop ?o ?m = ?w ++ ?q, Hr : reads_rest ?f ?w _ |- andThen (?f ?m ?o ?stop) _ = _ =>
      replace stop with (o + length w)%nat by lia;
      rewrite (Hr m o q _ Hd) by lia; cbn [andThen]; apply drop_next in Hd
  | Hd : drop ?o ?m = ?w ++ [], Hr : reads_to_end ?f ?w _ |- andThen (?f ?m ?o) _ = _ =>
      rewrite app_nil_r in Hd; rewrite (Hr m o Hd) by lia; cbn [andThen]
  end.

(** The end of a reader: the fields that were not read are empty. *)
Ltac read_end :=
  repeat match goal with
  | Hz : length ?w = 0%nat -> _ = _ |- _ => first [rewrite <- Hz by lia; clear Hz | clear Hz]
  end;
  first [done | f_equal; lia].

Ltac data_codec :=
  repeat field_codec;
  eexists; split_and!;
  [ intros compress; cbn [writers]; repeat (apply Forall2_cons; split; [solve [eauto 2]|]); by apply Forall2_nil
  | intros h msg off HR Hd Ho; cbn [concat reader_of norm_data] in *;
    pose proof (f_equal length Hd) as Hlen; rewrite length_drop in Hlen;
    rewrite ?length_app in *; cbn [length] in *;
    match goal with |- ?f h msg off = _ => unfold f end;
    repeat read_field; read_end
  | cbn [concat lenData]; rewrite ?length_app; cbn [length]; lia ].

Lemma OPT_codec es :
  Forall wf_option es -> exists ws, writes (RR_OPT es) ws /\ read_back (RR_OPT es) (concat ws) /\
    (length (concat ws) <= lenData (RR_OPT es))%nat.
Proof.
  intros Hes. exists [concat (option_wire <$> es)]. cbn [concat lenData]. rewrite app_nil_r. split_and!.
  - intros compress. constructor; [by apply packDataOpt_appends|constructor].
  - intros h msg off HR Hd Ho. cbn [reader_of norm_data]. unfold unpackOPT, noRdata.
    pose proof (f_equal length Hd) as Hlen. rewrite length_drop in Hlen.
    destruct es as [|e es].
    { simpl in *. rewrite HR. simpl. f_equal. lia. }
    pose proof (Forall_inv Hes) as He. destruct (unpackOption_packOption e He) as (b & Hb & _).
    assert (length (option_wire e) = 4 + length b)%nat as Hw
      by (unfold option_wire; rewrite Hb, !length_app, !length_be; lia).
    rewrite fmap_cons in *. cbn [concat] in *. rewrite length_app in *.
    destruct (Z.eqb_spec (Rdlength h) 0); [lia|]. unfold unpackDataOpt.
    rewrite (unpackOptions_spec _ (e :: es)); [done|done|done|done|lia|].
    enough (length es <= length (concat (option_wire <$> es)))%nat by (simpl; lia).
    apply Forall_inv_tail in Hes. clear -Hes. induction Hes as [|e es He _ IH]; [simpl; lia|].
    destruct (unpackOption_packOption e He) as (b & Hb & _). rewrite fmap_cons. cbn [concat].
    unfold option_wire at 1. rewrite Hb, !length_app, !length_be. simpl length. lia.
  - clear Hes. induction es as [|e es IH]; [simpl; lia|].
    assert (length (option_wire e) <= lenOption e)%nat.
    { unfold lenOption, option_wire. destruct (packOption e); rewrite ?length_app, ?length_be; simpl; lia. }
    csimpl. rewrite length_app. lia.
Qed.

(** Every record that can be packed is read back from what was packed, and takes
    no more room than [len] reserves. *)
Lemma rdata_codec data :
  wf_data data -> exists ws, writes data ws /\ read_back data (concat ws) /\
    (length (concat ws) <= lenData data)%nat.
Proof. destruct data; cbn [wf_data]; intros Hwf; first [by apply OPT_codec | solve [data_codec]]. Qed.
