(* ===== verification/DnsRoundTrip.v ===== *)
(** * Messages are read back as they were packed

    Packing a message without compression and unpacking the bytes gives the
    message again, with the lengths of its records filled in. *)

From Stdlib Require Import ZArith Lia NArith Ascii Strings.Byte Strings.String.
From stdpp Require Import base numbers gmap strings list fin_maps.
From coqutil Require Import Datatypes.RecordSetters.
From S2P Require Import Prelude GoNet Endian GoEncoding DnsRR DnsName DnsNameSpec DnsField DnsZmsg DnsMsg DnsSafety DnsCodec DnsBitmap DnsRecord.

Import RecordSetters.TriangleBracketNotations.
Open Scope Z_scope.
Open Scope dns_scope.

Arguments be : simpl never.

(** ** The header of a record *)

Definition header_wire (ls : list (list byte)) (h : RR_Header) (rdlength : Z) : list byte :=
  wire ls ++ be 2 (Rrtype h) ++ be 2 (RR_Class h) ++ be 4 (Ttl h) ++ be 2 rdlength.

Lemma length_header_wire ls h l : length (header_wire ls h l) = (length (wire ls) + 10)%nat.
Proof. unfold header_wire. rewrite !length_app, !length_be. lia. Qed.

Lemma packHeader_appends ls h compress :
  valid_name ls -> RR_Name h = text (present ls) ->
  appends (packHeader h compress) (header_wire ls h (Rdlength h)).
Proof.
  intros [Hv _] Hn pre n Hlen. unfold packHeader. simpl fst.
  rewrite decide_False by (rewrite length_app, length_zeros; rewrite length_header_wire in Hlen; lia).
  set (fs := [PackDomainName (RR_Name h) compress; onMsg (packUint16 (Rrtype h));
              onMsg (packUint16 (RR_Class h)); onMsg (packUint32 (Ttl h)); onMsg (packUint16 (Rdlength h))]).
  change (failAt (length (pre ++ zeros n)) (chain fs (pre ++ zeros n, None) (length pre) Ok) =
    Ok ((pre ++ header_wire ls h (Rdlength h)) ++ zeros (n - length (header_wire ls h (Rdlength h))), None)
      (length (pre ++ header_wire ls h (Rdlength h)))).
  assert (header_wire ls h (Rdlength h) =
    concat [wire ls; be 2 (Rrtype h); be 2 (RR_Class h); be 4 (Ttl h); be 2 (Rdlength h)]) as Hw
    by (unfold header_wire; cbn [concat]; by rewrite app_nil_r).
  rewrite Hw in *. erewrite chain_appends; [done| |done].
  repeat constructor; try apply packUint_appends. rewrite Hn. by apply PackDomainName_appends.
Qed.

(** [rawSetRdlength] finds the end of an uncompressed name. *)
Lemma skipName_wire fuel pre ls q :
  Forall valid_label ls -> (length ls < fuel)%nat ->
  skipName fuel (pre ++ wire ls ++ q) (length pre) = Ok true (length pre + length (wire ls)).
Proof.
  intros Hv. revert fuel pre. induction Hv as [|l ls Hl Hv IH]; intros fuel pre Hf.
  - destruct fuel as [|fuel]; [lia|]. cbn [skipName].
    rewrite decide_False by (rewrite !length_app, length_wire; lia).
    change (wire [] ++ q) with (Byte.x00 :: q). rewrite get_middle. change (u8 Byte.x00) with 0.
    rewrite !decide_True by done. by rewrite Nat.add_1_r.
  - destruct fuel as [|fuel]; [simpl in Hf; lia|]. simpl in Hf. unfold valid_label in Hl.
    set (n := byte_of_Z (Z.of_nat (length l))).
    assert (u8 n = Z.of_nat (length l)) as Hn by (apply u8_byte_of_Z_small; lia).
    assert (wire (l :: ls) = n :: l ++ wire ls) as Hw.
    { unfold wire, wire_labels. csimpl. by rewrite <- app_assoc. }
    rewrite Hw. cbn [skipName]. rewrite decide_False by (rewrite !length_app; simpl; lia).
    rewrite <- app_comm_cons, get_middle.
    destruct (land_C0 n) as [[-> _]|[[_ ?]|(_ & _ & ?)]]; [|lia..].
    rewrite decide_True by done. rewrite decide_False by lia. rewrite Hn, Nat2Z.id.
    rewrite decide_False by (rewrite !length_app; simpl; rewrite !length_app; lia).
    change (pre ++ n :: (l ++ wire ls) ++ q) with (pre ++ [n] ++ (l ++ wire ls) ++ q).
    rewrite (app_assoc pre [n]), <- (app_assoc l), (app_assoc _ l).
    replace (S (length pre) + length l)%nat with (length ((pre ++ [n]) ++ l)) by (rewrite !length_app; simpl; lia).
    rewrite IH by lia. f_equal. rewrite !length_app. simpl. rewrite length_app. lia.
Qed.

Lemma putBytes_middle {B} p old new t (k : list byte -> result B) :
  length old = length new -> putBytes (p ++ old ++ t) (length p) new k = k (p ++ new ++ t).
Proof.
  intros H. unfold putBytes. rewrite decide_True by (rewrite !length_app; lia).
  by rewrite take_app_length, <- drop_drop, drop_app_length, <- H, drop_app_length.
Qed.

(** The length of the rdata is filled in. *)
Lemma rawSetRdlength_record pre ls h l w q :
  valid_name ls -> short w ->
  rawSetRdlength (pre ++ (header_wire ls h l ++ w) ++ q) (length pre)
    (length (pre ++ header_wire ls h l ++ w)) =
  Ok (Some (pre ++ (header_wire ls h (Z.of_nat (length w)) ++ w) ++ q)) (length pre + length (wire ls) + 8).
Proof.
  intros [Hv _] Hw. unfold short, in_width in Hw. change (256 ^ Z.of_nat 2) with 65536 in Hw. unfold rawSetRdlength.
  assert (length ls <= length (wire ls))%nat as Hls.
  { clear. rewrite length_wire. unfold wire_labels. induction ls; csimpl; [lia|]. rewrite length_app. lia. }
  assert (forall l', pre ++ (header_wire ls h l' ++ w) ++ q =
    pre ++ wire ls ++ be 2 (Rrtype h) ++ be 2 (RR_Class h) ++ be 4 (Ttl h) ++ be 2 l' ++ w ++ q) as E
    by (intros; unfold header_wire; by rewrite <- !app_assoc).
  rewrite (E l), (E (Z.of_nat (length w))).
  rewrite skipName_wire by (done || rewrite !length_app; lia). cbn [andThen].
  rewrite decide_False by (rewrite !length_app, !length_be; lia).
  rewrite decide_False by (rewrite !length_app, length_header_wire; lia).
  replace (Z.of_nat (length (pre ++ header_wire ls h l ++ w)) -
      (Z.of_nat (length pre + length (wire ls) + (2 + 2 + 4)) + 2)) with (Z.of_nat (length w))
    by (rewrite !length_app, length_header_wire; lia).
  set (p := pre ++ wire ls ++ be 2 (Rrtype h) ++ be 2 (RR_Class h) ++ be 4 (Ttl h)).
  assert (forall t, pre ++ wire ls ++ be 2 (Rrtype h) ++ be 2 (RR_Class h) ++ be 4 (Ttl h) ++ t = p ++ t) as Hp
    by (intros; unfold p; by rewrite <- !app_assoc).
  rewrite !Hp. replace (length pre + length (wire ls) + (2 + 2 + 4))%nat with (length p)
    by (unfold p; rewrite !length_app, !length_be; lia).
  rewrite putBytes_middle by (by rewrite !length_be). f_equal.
  unfold p. rewrite !length_app, !length_be. lia.
Qed.

(** ** Records *)

Definition wf_RR (rr : RR) : Prop :=
  is_name (RR_Name (Hdr rr)) /\ in_width 2 (Rrtype (Hdr rr)) /\ in_width 2 (RR_Class (Hdr rr)) /\
  in_width 4 (Ttl (Hdr rr)) /\ has_type (Data rr) (Rrtype (Hdr rr)) /\ wf_data (Data rr) /\
  in_width 2 (Z.of_nat (lenData (Data rr))).

(** The record with its length filled in, and the record as it is read back. *)
Definition set_rdlength (rr : RR) (l : Z) : RR := mkRR (withRdlength (Hdr rr) l) (Data rr).
Definition norm_RR (rr : RR) : RR := mkRR (Hdr rr) (norm_data (Data rr)).

(** [f] appends [w] and returns [x] with the buffer. *)
Definition packs {X} (f : buffer -> nat -> result (X * buffer)) (x : X) (w : list byte) : Prop :=
  forall pre n, (length w < n)%nat ->
    f (pre ++ zeros n, None) (length pre) =
      Ok (x, ((pre ++ w) ++ zeros (n - length w), None)) (length (pre ++ w)).

Lemma PackRR_packs rr compress ls ws :
  valid_name ls -> RR_Name (Hdr rr) = text (present ls) -> writes (Data rr) ws -> short (concat ws) ->
  let l := Z.of_nat (length (concat ws)) in
  packs (PackRR rr compress) (set_rdlength rr l) (header_wire ls (Hdr rr) l ++ concat ws).
Proof.
  intros Hls Hn Hws Hs l pre n Hlen. unfold PackRR. rewrite length_app, length_header_wire in Hlen.
  set (hw := header_wire ls (Hdr rr) (Rdlength (Hdr rr))).
  assert (length hw = length (wire ls) + 10)%nat as Hhw by apply length_header_wire.
  rewrite pack_chain, (append_step _ hw) by (lia || by apply packHeader_appends).
  rewrite (chain_appends _ ws) by (lia || apply Hws). cbn [failAt andThen fst snd].
  rewrite <- (app_assoc pre hw), <- (app_assoc pre (hw ++ _)). unfold hw in *.
  rewrite rawSetRdlength_record by done.
  cbn [andThen]. unfold packed. f_equal.
  - f_equal; [|f_equal].
    + unfold set_rdlength. do 2 f_equal. unfold uint16, l, short, in_width in *.
      rewrite !length_app, Z.mod_small by (simpl in *; lia). lia.
    + fold l. by rewrite (app_assoc pre), (length_app (header_wire _ _ l)), !length_header_wire, <- Nat.sub_add_distr.
  - by rewrite !length_app, Hhw, length_header_wire.
Qed.

Lemma UnpackRR_reads rr ls w :
  valid_name ls -> RR_Name (Hdr rr) = text (present ls) -> in_width 2 (Rrtype (Hdr rr)) ->
  in_width 2 (RR_Class (Hdr rr)) -> in_width 4 (Ttl (Hdr rr)) -> has_type (Data rr) (Rrtype (Hdr rr)) ->
  read_back (Data rr) w -> short w ->
  let l := Z.of_nat (length w) in
  reads UnpackRR (header_wire ls (Hdr rr) l ++ w) (norm_RR (set_rdlength rr l)).
Proof.
  intros Hls Hn Hty Hcl Httl Hht Hrb Hs l msg off q Hd Ho. unfold UnpackRR, unpackHeader.
  pose proof (length_next _ _ _ _ Hd Ho) as Hlen. rewrite length_app, length_header_wire in Hlen.
  rewrite decide_False by lia. unfold header_wire in Hd. rewrite <- !app_assoc in Hd.
  pose proof (length_wire ls) as Hwl.
  rewrite (UnpackDomainName_reads ls Hls _ _ _ Hd Ho). cbn [failAt andThen]. apply drop_next in Hd.
  destruct (uint16_codec _ Hty) as (_ & Rty & _), (uint16_codec _ Hcl) as (_ & Rcl & _),
    (uint32_codec _ Httl) as (_ & Rttl & _), (uint16_codec _ Hs) as (_ & Rl & _).
  rewrite (Rty _ _ _ Hd) by lia. cbn [failAt andThen]. apply drop_next in Hd. rewrite length_be in *.
  rewrite (Rcl _ _ _ Hd) by lia. cbn [failAt andThen]. apply drop_next in Hd. rewrite length_be in *.
  rewrite (Rttl _ _ _ Hd) by lia. cbn [failAt andThen]. apply drop_next in Hd. rewrite length_be in *.
  rewrite (Rl _ _ _ Hd) by lia. cbn [failAt andThen]. apply drop_next in Hd. rewrite length_be in *.
  remember (off + length (wire ls) + 2 + 2 + 4 + 2)%nat as off' eqn:Eoff.
  destruct (at_position _ _ _ _ Hd ltac:(lia)) as (p & -> & Ep). rewrite Ep in *.
  unfold truncateMsgFromRdlength. rewrite Nat2Z.id, decide_False by (rewrite !length_app; lia).
  unfold cut. rewrite decide_True by (rewrite !length_app; lia).
  rewrite drop_0, Nat.sub_0_r, app_assoc, <- length_app, take_app_length. cbn [andThen failAt fst snd].
  set (h := {| RR_Name := _ |}). unfold UnpackRRWithHeader. cbn [Rdlength].
  change (match find _ typeToUnpack with Some e => e.2 | None => _ end) with (readerFor (Rrtype h)).
  rewrite (readerFor_type (Data rr)) by done.
  rewrite Hrb by (done || rewrite ?length_app, ?drop_app_length; done || lia).
  rewrite decide_False; [|rewrite length_app; unfold h; simpl; rewrite Nat2Z.id; lia].
  f_equal; [|rewrite !length_app, length_header_wire; lia].
  unfold norm_RR, set_rdlength. cbn [Hdr Data]. f_equal. unfold h, withRdlength. by rewrite Hn.
Qed.

(** A record is read back from what was packed, and takes no more than [len]. *)
Lemma RR_codec rr :
  wf_RR rr -> exists w l, (forall compress, packs (PackRR rr compress) (set_rdlength rr l) w) /\
    reads UnpackRR w (norm_RR (set_rdlength rr l)) /\ (0 < length w <= len rr)%nat.
Proof.
  intros ((ls & Hls & Hn) & Hty & Hcl & Httl & Hht & Hwf & Hlen).
  destruct (rdata_codec _ Hwf) as (ws & Hws & Hrb & Hl).
  assert (short (concat ws)) as Hs by (unfold short, in_width in *; simpl in *; lia).
  exists (header_wire ls (Hdr rr) (Z.of_nat (length (concat ws))) ++ concat ws), (Z.of_nat (length (concat ws))).
  rewrite length_app, length_header_wire.
  split_and!; [by intros; apply PackRR_packs|by apply UnpackRR_reads|lia|].
  unfold len, lenHeader, lenString. rewrite Hn, bytes_text. pose proof (length_wire_present ls). lia.
Qed.

(** *** Sections *)

Definition wf_section (rrs : list RR) : Prop := Forall wf_RR rrs /\ in_width 2 (Z.of_nat (length rrs)).

(** The same records, up to the lengths in their headers. *)
Definition same_records : list RR -> list RR -> Prop :=
  Forall2 (fun rr rr' => exists l, rr' = set_rdlength rr l).

(** A section as it is packed, and read back. *)
Definition section_wire (rrs rrs' : list RR) (w : list byte) : Prop :=
  same_records rrs rrs' /\ (forall compress, packs (packSection rrs compress) rrs' w) /\
  (forall msg off q dst, drop off msg = w ++ q -> (off <= length msg)%nat ->
     unpackRRslice (length rrs) msg off dst = Ok (dst ++ (norm_RR <$> rrs')) (off + length w)) /\
  (length rrs <= length w <= sum_list (len <$> rrs))%nat.

Lemma section_codec rrs : Forall wf_RR rrs -> exists rrs' w, section_wire rrs rrs' w.
Proof.
  induction 1 as [|rr rrs Hrr _ (rrs' & w & Hsame & Hpack & Hread & Hw)].
  - exists [], []. split_and!; [constructor| | |done..].
    + intros compress pre n Hn. simpl. by rewrite app_nil_r, Nat.sub_0_r.
    + intros msg off q dst Hd Ho. simpl. by rewrite app_nil_r, Nat.add_0_r.
  - destruct (RR_codec rr Hrr) as (v & l & Hp & Hr & Hv).
    exists (set_rdlength rr l :: rrs'), (v ++ w). split_and!; [by constructor; [exists l|]| | | |].
    + intros compress pre n Hn. cbn [packSection]. rewrite length_app in Hn. rewrite Hp by lia.
      cbn [andThen fst snd]. rewrite Hpack by lia. cbn [andThen fst snd].
      by rewrite <- (app_assoc pre v), (length_app v), Nat.sub_add_distr.
    + intros msg off q dst Hd Ho. cbn [unpackRRslice length]. rewrite <- app_assoc in Hd.
      pose proof (length_next _ _ _ _ Hd Ho) as Hlen. rewrite (Hr _ _ _ Hd Ho). cbn [failAt andThen].
      rewrite decide_False by lia. rewrite (Hread _ _ q); [|exact (drop_next _ _ _ _ Hd)|lia].
      rewrite fmap_cons, <- app_assoc, length_app. f_equal. lia.
    + simpl. rewrite length_app. lia.
    + csimpl. rewrite length_app. lia.
Qed.

(** ** Questions *)

Definition wf_question (q : Question) : Prop :=
  is_name (Q_Name q) /\ in_width 2 (Qtype q) /\ in_width 2 (Qclass q).

Lemma question_codec q :
  wf_question q -> exists w, (forall compress, appends (packQuestion q compress) w) /\
    reads unpackQuestion w q /\ (0 < length w <= lenQuestion q)%nat.
Proof.
  intros (Hn & Ht & Hc). destruct (is_name_codec _ Hn) as (w & Hw).
  destruct (uint16_codec _ Ht) as (Pt & Rt & Lt), (uint16_codec _ Hc) as (Pc & Rc & Lc).
  exists (concat [w; be 2 (Qtype q); be 2 (Qclass q)]). split_and!.
  - intros compress pre n Hlen.
    change (packQuestion q compress (pre ++ zeros n, None) (length pre)) with
      (chain [PackDomainName (Q_Name q) compress; onMsg (packUint16 (Qtype q)); onMsg (packUint16 (Qclass q))]
         (pre ++ zeros n, None) (length pre) Ok).
    erewrite chain_appends; [done| |done]. repeat constructor; [apply Hw|done..].
  - destruct (Hw false) as (_ & Rw & _). intros msg off r Hd Ho. cbn [concat] in *.
    pose proof (length_next _ _ _ _ Hd Ho) as Hlen. rewrite app_nil_r, <- !app_assoc in Hd.
    rewrite !length_app in *. cbn [length] in *. unfold unpackQuestion.
    rewrite (Rw _ _ _ Hd Ho). cbn [andThen]. apply drop_next in Hd.
    unfold atEnd. rewrite bool_decide_eq_false_2 by lia.
    rewrite (Rt _ _ _ Hd) by lia. cbn [andThen]. apply drop_next in Hd.
    rewrite bool_decide_eq_false_2 by lia. rewrite (Rc _ _ _ Hd) by lia. cbn [andThen].
    destruct q. f_equal. simpl. lia.
  - destruct (Hw false) as (_ & _ & Lw). cbn [concat]. rewrite !length_app. lia.
  - destruct (Hw false) as (_ & _ & Lw). cbn [concat]. rewrite !length_app. unfold lenQuestion. cbn [length]. lia.
Qed.

Lemma questions_codec qs :
  Forall wf_question qs -> exists w,
    (forall compress, appends (packQuestions qs compress) w) /\
    (forall msg off r done, drop off msg = w ++ r -> (off <= length msg)%nat ->
       unpackQuestions (length qs) msg off done = Ok (done ++ qs, None) (off + length w)) /\
    (length qs <= length w <= sum_list (lenQuestion <$> qs))%nat.
Proof.
  induction 1 as [|q qs Hq _ (w & Hpack & Hread & Hw)].
  - exists []. split_and!; [| |done..].
    + intros compress pre n Hn. simpl. by rewrite app_nil_r, Nat.sub_0_r.
    + intros msg off r d Hd Ho. simpl. by rewrite app_nil_r, Nat.add_0_r.
  - destruct (question_codec q Hq) as (v & Hp & Hr & Hv). exists (v ++ w). split_and!.
    + intros compress pre n Hn. cbn [packQuestions]. rewrite length_app in Hn.
      rewrite (append_step _ v) by (done || lia). rewrite Hpack by lia.
      by rewrite <- (app_assoc pre v), (length_app v), Nat.sub_add_distr.
    + intros msg off r d Hd Ho. cbn [unpackQuestions length]. rewrite <- app_assoc in Hd.
      pose proof (length_next _ _ _ _ Hd Ho) as Hlen. rewrite (Hr _ _ _ Hd Ho).
      rewrite decide_False by lia. rewrite (Hread _ _ r); [|exact (drop_next _ _ _ _ Hd)|lia].
      rewrite <- app_assoc, length_app. f_equal. lia.
    + simpl. rewrite length_app. lia.
    + csimpl. rewrite length_app. lia.
Qed.

(** ** The header of a message *)

Lemma packMsgHdr_chain dh b off :
  packMsgHdr dh b off =
    chain [onMsg (packUint16 (H_Id dh)); onMsg (packUint16 (Bits dh)); onMsg (packUint16 (Qdcount dh));
           onMsg (packUint16 (Ancount dh)); onMsg (packUint16 (Nscount dh));
           onMsg (packUint16 (Arcount dh))] b off Ok.
Proof.
  unfold packMsgHdr. cbn [chain].
  repeat (match goal with |- context [onMsg ?f ?b ?o] => destruct (onMsg f b o) end; cbn [andThen]; try done).
Qed.

Lemma msgHdr_codec dh :
  in_width 2 (H_Id dh) -> in_width 2 (Bits dh) -> in_width 2 (Qdcount dh) -> in_width 2 (Ancount dh) ->
  in_width 2 (Nscount dh) -> in_width 2 (Arcount dh) -> exists w, appends (packMsgHdr dh) w /\
    reads unpackMsgHdr w dh /\ length w = 12%nat.
Proof.
  intros [Pi Ri]%uint16_codec [Pb Rb]%uint16_codec [Pq Rq]%uint16_codec [Pa Ra]%uint16_codec
    [Pn Rn]%uint16_codec [Pe Re]%uint16_codec.
  exists (concat [be 2 (H_Id dh); be 2 (Bits dh); be 2 (Qdcount dh); be 2 (Ancount dh); be 2 (Nscount dh);
             be 2 (Arcount dh)]). split_and!.
  - intros pre n Hlen.
    rewrite packMsgHdr_chain. erewrite chain_appends; [done|repeat constructor; eassumption|done].
  - intros msg off r Hd Ho. pose proof (length_next _ _ _ _ Hd Ho) as Hlen. cbn [concat] in *.
    rewrite <- !app_assoc in Hd. rewrite !length_app, !length_be in *. cbn [length] in *.
    unfold unpackMsgHdr.
    repeat match goal with H : reads _ ?w _ /\ _, Hd : drop _ _ = ?w ++ _ |- _ =>
      rewrite (proj1 H _ _ _ Hd) by (rewrite ?length_be; lia); cbn [andThen]; apply drop_next in Hd; clear H end.
    destruct dh. rewrite !length_be. f_equal. lia.
  - cbn [concat]. by rewrite !length_app, !length_be.
Qed.

(** A message without its sections. *)
Definition bare (m : Msg) : Msg :=
  m <| Msg_Question := [] |> <| Answer := [] |> <| Msg_Ns := [] |> <| Extra := [] |>.

Definition flagged (o r : Z) (b1 b2 b3 b4 b5 b6 b7 b8 : bool) : Msg :=
  {| Id := 0; Response := b1; Opcode := o; Authoritative := b2; Truncated := b3;
     RecursionDesired := b4; RecursionAvailable := b5; Zero := b6;
     AuthenticatedData := b7; CheckingDisabled := b8; Rcode := r; Compress := false;
     Msg_Question := []; Answer := []; Msg_Ns := []; Extra := [] |}.

Definition flags (m : Msg) : list bool * Z * Z :=
  ([Response m; Authoritative m; Truncated m; RecursionDesired m; RecursionAvailable m; Zero m;
    AuthenticatedData m; CheckingDisabled m], Opcode m, Rcode m).

Definition bits_back (m : Msg) : bool :=
  bool_decide (flags (readHeader emptyMsg {| H_Id := 0; Bits := headerBits m; Qdcount := 0; Ancount := 0;
                                            Nscount := 0; Arcount := 0 |}) = flags m)
  && (0 <=? headerBits m) && (headerBits m <? 65536).

(** All 2^16 headers. *)
Lemma bits_enumerated b1 b2 b3 b4 b5 b6 b7 b8 :
  forallb (fun o => forallb (fun r => bits_back (flagged o r b1 b2 b3 b4 b5 b6 b7 b8)) (seqZ 0 16)) (seqZ 0 16)
  = true.
Proof. destruct b1, b2, b3, b4, b5, b6, b7, b8; vm_compute; reflexivity. Qed.

Lemma readHeader_headerBits m dh :
  Bits dh = headerBits m -> H_Id dh = Id m -> 0 <= Opcode m < 16 -> 0 <= Rcode m < 16 -> Compress m = false ->
  readHeader emptyMsg dh = bare m /\ in_width 2 (headerBits m).
Proof.
  intros Hb Hid Ho Hr Hc. destruct m as [id b1 o b2 b3 b4 b5 b6 b7 b8 r c q an ns ex]. simpl in *. subst c.
  pose proof (bits_enumerated b1 b2 b3 b4 b5 b6 b7 b8) as H. rewrite forallb_forall in H.
  specialize (H o ltac:(apply list_elem_of_In, elem_of_seqZ; lia)). rewrite forallb_forall in H.
  specialize (H r ltac:(apply list_elem_of_In, elem_of_seqZ; lia)). unfold bits_back in H.
  apply andb_prop in H as [[H Hlo]%andb_prop Hhi]. apply bool_decide_eq_true in H.
  change (headerBits (flagged o r b1 b2 b3 b4 b5 b6 b7 b8)) with
    (headerBits {| Id := id; Response := b1; Opcode := o; Authoritative := b2; Truncated := b3;
       RecursionDesired := b4; RecursionAvailable := b5; Zero := b6; AuthenticatedData := b7;
       CheckingDisabled := b8; Rcode := r; Compress := false; Msg_Question := q; Answer := an;
       Msg_Ns := ns; Extra := ex |}) in *.
  rewrite <- Hb in *. split; [|unfold in_width; simpl; lia].
  unfold flags, readHeader, bare in *. destruct dh as [hid hb ? ? ? ?]. simpl in *.
  unfold constant in *. simpl in *. clear Hb. by injection H as <- <- <- <- <- <- <- <- <- <-; subst.
Qed.

(** ** Messages *)

Definition wf_Msg (m : Msg) : Prop :=
  in_width 2 (Id m) /\ 0 <= Opcode m < 16 /\ 0 <= Rcode m < 16 /\ Compress m = false /\ Truncated m = false /\
  Forall wf_question (Msg_Question m) /\ in_width 2 (Z.of_nat (length (Msg_Question m))) /\
  wf_section (Answer m) /\ wf_section (Msg_Ns m) /\ wf_section (Extra m).

Definition with_sections (m : Msg) (an ns ex : list RR) : Msg :=
  m <| Answer := an |> <| Msg_Ns := ns |> <| Extra := ex |>.

(** The message as it is read back. *)
Definition norm_Msg (m : Msg) : Msg :=
  with_sections m (norm_RR <$> Answer m) (norm_RR <$> Msg_Ns m) (norm_RR <$> Extra m).

(** The same message, up to the lengths in the headers of its records. *)
Definition same_message (m m' : Msg) : Prop :=
  exists an ns ex, m' = with_sections m an ns ex /\
    same_records (Answer m) an /\ same_records (Msg_Ns m) ns /\ same_records (Extra m) ex.

Lemma same_length rrs rrs' : same_records rrs rrs' -> length rrs' = length rrs.
Proof. intros H. symmetry. by eapply Forall2_length. Qed.

Lemma uint16_small z : in_width 2 z -> uint16 z = z.
Proof. apply Z.mod_small. Qed.

Lemma unpackSection_codec (rrs rrs' : list RR) (w q : list byte) count msg off k old :
  (forall msg off q dst, drop off msg = w ++ q -> (off <= length msg)%nat ->
     unpackRRslice (length rrs) msg off dst = Ok (dst ++ rrs') (off + length w)) ->
  count = uint16 (Z.of_nat (length rrs)) -> in_width 2 (Z.of_nat (length rrs)) ->
  drop off msg = w ++ q -> (off <= length msg)%nat ->
  unpackSection count msg off None old k = k rrs' (off + length w)%nat None.
Proof.
  intros H -> Hc Hd Ho. unfold unpackSection, uint16. unfold in_width in Hc. change (256 ^ Z.of_nat 2) with (2 ^ 16) in Hc.
  by rewrite Z.mod_small, Nat2Z.id, (H _ _ _ _ Hd Ho) by lia.
Qed.

Section message.
Context (m : Msg) (Hm : wf_Msg m).
Context (wq wa wn we : list byte) (an ns ex : list RR).
Context (Hq : forall compress, appends (packQuestions (Msg_Question m) compress) wq).
Context (Rq : forall msg off r done, drop off msg = wq ++ r -> (off <= length msg)%nat ->
    unpackQuestions (length (Msg_Question m)) msg off done = Ok (done ++ Msg_Question m, None) (off + length wq)).
Context (Lq : (length (Msg_Question m) <= length wq)%nat).
Context (Ha : section_wire (Answer m) an wa) (Hn : section_wire (Msg_Ns m) ns wn)
    (He : section_wire (Extra m) ex we).
Context (wh : list byte).

Let dh : Header :=
    {| H_Id := Id m; Bits := headerBits m; Qdcount := uint16 (Z.of_nat (length (Msg_Question m)));
       Ancount := uint16 (Z.of_nat (length (Answer m))); Nscount := uint16 (Z.of_nat (length (Msg_Ns m)));
       Arcount := uint16 (Z.of_nat (length (Extra m))) |}.

Context (Ph : appends (packMsgHdr dh) wh) (Rh : reads unpackMsgHdr wh dh) (Lh : length wh = 12%nat).

Let w := wh ++ wq ++ wa ++ wn ++ we.

Lemma packPieces_packs n :
  (length w < n)%nat ->
  packPieces m (zeros n, None) =
    Ok (with_sections m an ns ex, (w ++ zeros (n - length w), None)) (length w).
Proof.
  intros Hlen. unfold w in *. rewrite !length_app in Hlen. unfold packPieces. fold dh.
  pose proof (Ph [] n ltac:(lia)) as Hh. simpl in Hh. rewrite Hh. cbn [andThen]. rewrite (append_step _ wq) by (done || lia).
  destruct Ha as (_ & Pa & _ & _), Hn as (_ & Pn & _ & _), He as (_ & Pe & _ & _).
  rewrite Pa by lia. cbn [andThen fst snd]. rewrite Pn by lia. cbn [andThen fst snd]. rewrite Pe by lia.
  cbn [andThen fst snd]. rewrite <- !app_assoc, !length_app. by rewrite <- !Nat.sub_add_distr.
Qed.

Lemma Unpack_wire : Unpack emptyMsg w = Ok (norm_Msg (with_sections m an ns ex), None) (length w).
Proof.
  destruct Hm as (Hid & Ho & Hr & Hc & Ht & _ & Hqn & [_ Han] & [_ Hnn] & [_ Hen]).
  destruct Ha as (Sa & _ & Ra & La), Hn as (Sn & _ & Rn & Ln), He as (Se & _ & Re & Le).
  destruct (readHeader_headerBits m dh eq_refl eq_refl Ho Hr Hc) as [Hbare _].
  unfold Unpack. assert (drop 0 w = wh ++ wq ++ wa ++ wn ++ we) as Hd by done.
  rewrite (Rh _ _ _ Hd) by lia. apply drop_next in Hd. rewrite Hbare, Lh in *.
  assert (length w = 12 + (length wq + (length wa + (length wn + length we))))%nat as Hlen
    by (unfold w; by rewrite !length_app, Lh).
  destruct (decide (0 + 12 = length w)%nat) as [Hend|Hend].
  - assert (length (Msg_Question m) = 0 /\ length (Answer m) = 0 /\ length (Msg_Ns m) = 0 /\
      length (Extra m) = 0)%nat as (Eq & Ea & En & Ee) by lia.
    apply nil_length_inv in Eq, Ea, En, Ee. rewrite Ea, En, Ee in *.
    apply Forall2_nil_inv_l in Sa as ->. apply Forall2_nil_inv_l in Sn as ->.
    apply Forall2_nil_inv_l in Se as ->. rewrite <- Hend. destruct m. simpl in *. by subst.
  - simpl Qdcount. rewrite uint16_small by done. rewrite Nat2Z.id, (Rq _ _ _ _ Hd) by lia. cbn [andThen fst snd].
    apply drop_next in Hd.
    rewrite (unpackSection_codec _ _ _ _ _ _ _ _ _ Ra eq_refl Han Hd) by lia. apply drop_next in Hd.
    rewrite (unpackSection_codec _ _ _ _ _ _ _ _ _ Rn eq_refl Hnn Hd) by lia. apply drop_next in Hd.
    rewrite <- (app_nil_r we) in Hd.
    rewrite (unpackSection_codec _ _ _ _ _ _ _ _ _ Re eq_refl Hen Hd) by lia.
    replace (0 + 12 + length wq + length wa + length wn + length we)%nat with (length w) by lia.
    rewrite decide_False by auto. destruct m. simpl in *. by subst.
Qed.
End message.

(** What [Pack] gives, and [Unpack] reads from it. *)
Lemma Pack_reads_back m :
  wf_Msg m -> exists b m', Pack m = Ok (b, m') (length b) /\ same_message m m' /\
    Unpack emptyMsg b = Ok (norm_Msg m', None) (length b) /\ (length b <= uncompressedLen m)%nat.
Proof.
  intros Hm. pose proof Hm as (Hid & Ho & Hr & Hc & Ht & Hqs & Hqn & [Han Lan] & [Hns Lns] & [Hex Lex]).
  destruct (questions_codec _ Hqs) as (wq & Pq & Rq & Lq).
  destruct (section_codec _ Han) as (an & wa & Ha), (section_codec _ Hns) as (ns & wn & Hn),
    (section_codec _ Hex) as (ex & we & He).
  set (dh := {| H_Id := Id m; Bits := headerBits m; Qdcount := uint16 (Z.of_nat (length (Msg_Question m)));
    Ancount := uint16 (Z.of_nat (length (Answer m))); Nscount := uint16 (Z.of_nat (length (Msg_Ns m)));
    Arcount := uint16 (Z.of_nat (length (Extra m))) |}).
  destruct (msgHdr_codec dh) as (wh & Ph & Rh & Lh); [done|..|].
  all: try (simpl; by rewrite uint16_small).
  { by apply (readHeader_headerBits m dh). }
  set (w := wh ++ wq ++ wa ++ wn ++ we).
  assert (length w <= uncompressedLen m)%nat as Hlen.
  { destruct Ha as (_ & _ & _ & La), Hn as (_ & _ & _ & Ln), He as (_ & _ & _ & Le).
    unfold w, uncompressedLen. rewrite !length_app. lia. }
  exists w, (with_sections m an ns ex). split_and!; [|by exists an, ns, ex; destruct Ha, Hn, He| |done].
  - unfold Pack, packBufferWithCompressionMap. rewrite !decide_False by lia. cbn [andThen].
    rewrite decide_True by (simpl; lia). rewrite Hc. fold (zeros (uncompressedLen m + 1)).
    rewrite (packPieces_packs m wq wa wn we an ns ex Pq (proj1 Lq) Ha Hn He wh Ph) by (fold w; lia). fold w.
    cbn [andThen fst snd]. unfold cut. rewrite decide_True by (rewrite length_app; lia).
    by rewrite drop_0, Nat.sub_0_r, take_app_length.
  - by apply (Unpack_wire m Hm); try lia.
Qed.

(** C16: A message that is not compressed or truncated, with fields that fit, is
    packed, into no more bytes than [Len] says, and unpacking the bytes gives it
    back: the header, the questions and the records of every section, with
    their lengths filled in, strings without superfluous escapes and IPv4
    addresses in four bytes. *)
Theorem Unpack_Pack m :
  wf_Msg m -> exists b m', Pack m = Ok (b, m') (length b) /\ same_message m m' /\
    Unpack emptyMsg b = Ok (norm_Msg m', None) (length b) /\ (length b <= uncompressedLen m)%nat.
Proof. exact (Pack_reads_back m). Qed.

Module RoundTripExample.
Definition header (t : Z) : RR_Header :=
  {| RR_Name := "example.com."; Rrtype := t; RR_Class := ClassINET; Ttl := 300; Rdlength := 0 |}.

(** A reply with an address of sixteen bytes, a string with a superfluous escape,
    a mail exchange, an authority and an OPT record. *)
Definition sample : Msg :=
  {| Id := 0xbeef; Response := true; Opcode := OpcodeQuery; Authoritative := true; Truncated := false;
     RecursionDesired := true; RecursionAvailable := true; Zero := false; AuthenticatedData := false;
     CheckingDisabled := true; Rcode := 0; Compress := false;
     Msg_Question := [{| Q_Name := "example.com."; Qtype := TypeANY; Qclass := ClassINET |}];
     Answer := [mkRR (header TypeA) (RR_A (net.ParseIP "93.184.216.34"));
                mkRR (header TypeTXT) (RR_TXT ["v=\spf1 -all"; ""]);
                mkRR (header TypeMX) (RR_MX 10 "example.com.")];
     Msg_Ns := [mkRR (header TypeSOA) (RR_SOA "example.com." "example.com." 1 7200 900 1209600 86400);
                mkRR (header TypeNSEC) (RR_NSEC "example.com." [1; 15; 16; 32769])];
     Extra := [mkRR {| RR_Name := "."; Rrtype := TypeOPT; RR_Class := 4096; Ttl := 0; Rdlength := 0 |}
                    (RR_OPT [EDNS0_COOKIE 0 "0102030405060708"])] |}.

Lemma name_example : is_name "example.com.".
Proof.
  exists [bytes "example"; bytes "com"]. split; [|reflexivity].
  split; [repeat constructor; vm_compute; lia|apply Nat.leb_le; reflexivity].
Qed.

Lemma name_root : is_name ".".
Proof. exists []. split; [|reflexivity]. split; [constructor|apply Nat.leb_le; reflexivity]. Qed.

Ltac concrete :=
  lazymatch goal with
  | |- is_name "." => apply name_root
  | |- is_name _ => apply name_example
  | |- wf_A _ => right; split; reflexivity
  | |- wf_txt _ => split; apply Nat.leb_le; reflexivity
  | |- in_width _ _ => split; [apply Z.leb_le|apply Z.ltb_lt]; reflexivity
  | |- wf_bitmap _ => split; split; [repeat constructor| |repeat constructor|done]
  | |- has_type _ _ => reflexivity
  | |- wf_data _ => cbn [wf_data]; split_and?
  | |- wf_RR _ => unfold wf_RR; cbn [Hdr Data RR_Name Rrtype RR_Class Ttl header]; split_and!
  | |- Forall _ [] => constructor
  | |- Forall _ (_ :: _) => constructor
  | |- wf_section _ => split
  | |- wf_question _ => split_and!
  | |- short _ => unfold short
  end.

Lemma sample_wf : wf_Msg sample.
Proof.
  split_and!; try (simpl; lia); try reflexivity; cbn [Msg_Question Answer Msg_Ns Extra sample]; repeat concrete.
  split; [reflexivity|]. exists [Byte.x01; Byte.x02; Byte.x03; Byte.x04; Byte.x05; Byte.x06; Byte.x07; Byte.x08].
  split; [repeat concrete|reflexivity].
Qed.

(** What is read back. *)
Definition sample_answers : list rdata :=
  [RR_A [byte_of_Z 93; byte_of_Z 184; byte_of_Z 216; byte_of_Z 34]; RR_TXT ["v=spf1 -all"; ""];
   RR_MX 10 "example.com."].
End RoundTripExample.

Lemma Unpack_Pack_witness :
  exists b m', Pack RoundTripExample.sample = Ok (b, m') (length b) /\
    Unpack emptyMsg b = Ok (norm_Msg m', None) (length b) /\
    Data <$> Answer (norm_Msg m') = RoundTripExample.sample_answers.
Proof.
  destruct (Unpack_Pack RoundTripExample.sample RoundTripExample.sample_wf) as (b & m' & Hp & Hs & Hu & _).
  exists b, m'. split; [exact Hp|]. split; [exact Hu|].
  destruct Hs as (an & ns & ex & -> & Ha & _ & _). simpl.
  repeat (let l := fresh in let E := fresh in apply Forall2_cons_inv_l in Ha as (? & ? & (l & E) & Ha & ->); rewrite E; clear E).
  apply Forall2_nil_inv_l in Ha as ->. reflexivity.
Defined.
