(* ===== verification/DnsPackSafety.v ===== *)
(** * When packing panics

    Every message without compression whose type bit maps leave out the last eight
    types of a window is packed or rejected with an error, whatever the strings in
    its records, unless its return code needs an OPT record and the last one holds
    other data: no write is out of range, and no name, string or list makes a loop
    run on.  The room each field takes is within what [len] reserved for it. *)

From Stdlib Require Import ZArith Lia NArith Ascii Strings.Byte Strings.String.
From stdpp Require Import base numbers gmap strings list fin_maps.
From coqutil Require Import Datatypes.RecordSetters.
From S2P Require Import Prelude GoNet Endian GoEncoding DnsRR DnsName DnsNameSpec DnsField DnsZmsg DnsMsg DnsCodec DnsBitmap DnsRecord DnsRoundTrip.

Import RecordSetters.TriangleBracketNotations.
Open Scope Z_scope.
Open Scope dns_scope.

(** [f] takes at most [hi] bytes of a buffer that has them, and keeps its size. *)
Definition safe (f : writer) (hi : nat) : Prop :=
  forall msg off, (off + hi <= length msg)%nat ->
    match f (msg, None) off with
    | Ok (msg', c) off' => length msg' = length msg /\ c = None /\ (off <= off' <= off + hi)%nat
    | Fail _ _ => True
    | Crash _ | Hang => False
    end.

(** The same for a function that only sees the bytes. *)
Definition keeps (f : list byte -> nat -> result (list byte)) (hi : nat) : Prop :=
  forall msg off, (off + hi <= length msg)%nat ->
    match f msg off with
    | Ok msg' off' => length msg' = length msg /\ (off <= off' <= off + hi)%nat
    | Fail _ _ => True
    | Crash _ | Hang => False
    end.

Lemma onMsg_safe f hi : keeps f hi -> safe (onMsg f) hi.
Proof.
  intros Hf msg off Ho. specialize (Hf msg off Ho). unfold onMsg. simpl fst.
  destruct (f msg off); simpl in *; [|done..]. split_and!; try done; lia.
Qed.

Lemma keeps_failAt f hi : keeps f hi -> keeps (fun msg off => failAt (length msg) (f msg off)) hi.
Proof. intros Hf msg off Ho. specialize (Hf msg off Ho). by destruct (f msg off). Qed.

Lemma length_written (msg : list byte) off (w : list byte) :
  (off + length w <= length msg)%nat ->
  length (take off msg ++ w ++ drop (off + length w) msg) = length msg.
Proof. intros H. rewrite !length_app, length_take, length_drop. lia. Qed.

Create HintDb packing.

Lemma packUint_keeps n what i : keeps (packUint n what i) n.
Proof.
  intros msg off Ho. unfold packUint. rewrite decide_False by lia. unfold putBytes.
  rewrite decide_True by (rewrite length_be; lia).
  rewrite length_written by (rewrite length_be; lia). lia.
Qed.

Lemma packDataA_keeps a : keeps (packDataA a) 4.
Proof.
  intros msg off Ho. unfold packDataA. rewrite decide_False by lia. case_decide as Ha.
  - unfold copyAt. rewrite decide_True by lia.
    assert (length (net.To4 a) <= 4)%nat by (destruct (net.To4_length a) as [->| ->]; simpl; lia).
    rewrite length_written by (rewrite length_take; lia). lia.
  - case_decide; [|done]. lia.
Qed.

Lemma packDataAAAA_keeps a : keeps (packDataAAAA a) 16.
Proof.
  intros msg off Ho. unfold packDataAAAA. rewrite decide_False by lia. case_decide as Ha.
  - unfold copyAt. rewrite decide_True, length_written by (rewrite ?length_take; lia). lia.
  - case_decide; [|done]. lia.
Qed.

Lemma PackDomainName_safe s compress : safe (PackDomainName s compress) (lenString s + 1).
Proof.
  intros msg off Ho. unfold PackDomainName. simpl fst. simpl snd.
  pose proof (packDomainName_safe (bytes s) msg off compress) as H.
  destruct (packDomainName _ _ _ _ _) as [[[m c] n] off'|? ?|?|]; simpl in *; try done.
  destruct H as ((m' & -> & Hm) & -> & Hoff). unfold lenString. split_and!; [done|done|lia..].
Qed.

Lemma packDataDomainNames_safe ss : safe (packDataDomainNames ss) (lenStrings ss).
Proof.
  induction ss as [|s ss IH]; intros msg off Ho; [simpl; split_and!; [done|done|lia..]|].
  unfold lenStrings in *. csimpl in *. pose proof (PackDomainName_safe s false msg off ltac:(lia)) as H.
  destruct (PackDomainName s false (msg, None) off) as [[m c] off'|? ?|?|]; simpl in *; try done.
  destruct H as (Hm & -> & Hoff). specialize (IH m off' ltac:(lia)).
  destruct (packDataDomainNames ss (m, None) off') as [[? ?] ?|? ?|?|]; try done.
  destruct IH as (? & -> & ?). split_and!; [congruence|done|lia..].
Qed.

Lemma packChars_keeps bs : keeps (packChars bs) (length bs).
Proof.
  induction bs as [bs IH] using unescape_length_ind. intros msg off Ho.
  assert (forall b bs', (length bs' < length bs)%nat -> (off < length msg)%nat ->
    match put msg off b (fun msg => packChars bs' msg (S off)) with
    | Ok msg' off' => length msg' = length msg /\ (off <= off' <= off + length bs)%nat
    | Fail _ _ => True
    | Crash _ | Hang => False
    end) as Hput.
  { intros b bs' Hl Hoff. unfold put. rewrite decide_True by lia.
    specialize (IH bs' Hl (<[off:=b]> msg) (S off)). rewrite length_insert in IH. lapply IH; [|lia].
    destruct (packChars _ _ _); try done. lia. }
  destruct bs as [|b bs]; [simpl; lia|]. cbn [packChars]. case_decide; [done|].
  case_decide; [|apply Hput; simpl; lia]. destruct bs as [|d0 bs1]; [simpl; lia|].
  destruct bs1 as [|d1 [|d2 bs3]]; [apply Hput; simpl; lia..|].
  destruct (isDigit d0 && isDigit d1 && isDigit d2); apply Hput; simpl; lia.
Qed.

Lemma packTxtString_keeps s : keeps (packTxtString s) (lenString s + 1).
Proof.
  intros msg off Ho. unfold packTxtString, lenString in *. case_decide; [done|].
  pose proof (packChars_keeps (bytes s) msg (S off) ltac:(lia)) as Hc.
  destruct (packChars _ _ _) as [m off'|? ?|?|]; simpl in *; try done. case_decide; [done|].
  unfold put. rewrite decide_True by lia. rewrite length_insert. lia.
Qed.

Lemma packString_keeps s : keeps (packString s) (lenString s + 1).
Proof. apply (keeps_failAt (packTxtString s)), packTxtString_keeps. Qed.

Lemma packTxtStrings_keeps ss : keeps (packTxtStrings ss) (lenStrings ss).
Proof.
  induction ss as [|s ss IH]; intros msg off Ho; [simpl; lia|]. cbn [packTxtStrings]. case_decide; [done|].
  unfold lenStrings in *. csimpl in *. pose proof (packTxtString_keeps s msg off ltac:(lia)) as Hs.
  destruct (packTxtString s msg off) as [m off'|? ?|?|]; simpl in *; try done.
  specialize (IH m off' ltac:(lia)). destruct (packTxtStrings ss m off'); try done. lia.
Qed.

Lemma packStringTxt_keeps ss : keeps (packStringTxt ss) (lenStrings ss).
Proof.
  apply (keeps_failAt (packTxt ss)). destruct ss as [|s ss]; [|apply packTxtStrings_keeps].
  intros msg off Ho. simpl. case_decide; [done|]. unfold put. rewrite decide_True by lia.
  rewrite length_insert. lia.
Qed.

Lemma packStringOctet_keeps s : keeps (packStringOctet s) (lenString s).
Proof.
  apply (keeps_failAt (packOctetString s)). intros msg off Ho. unfold packOctetString.
  case_decide; [done|]. by apply packChars_keeps.
Qed.

Lemma packDecoded_keeps what d n :
  (forall w, d = inl w -> (length w <= n)%nat) -> keeps (packDecoded what d) n.
Proof.
  intros Hd msg off Ho. unfold packDecoded. destruct d as [w|e]; [|done]. specialize (Hd w eq_refl).
  case_decide; [done|]. unfold putBytes. rewrite decide_True, length_written by lia. lia.
Qed.

Lemma packStringHex_keeps s : keeps (packStringHex s) (lenString s / 2).
Proof.
  apply packDecoded_keeps. intros w Hw%hex.hex_length_Decode. unfold lenString.
  rewrite Hw, Nat.mul_comm, Nat.div_mul by lia. lia.
Qed.

Lemma packSalt_safe s : safe (packSalt s) (lenString s / 2).
Proof.
  intros msg off Ho. unfold packSalt. case_decide; [by apply onMsg_safe, Ho; apply packStringHex_keeps|].
  split_and!; [done|done|lia..].
Qed.

Lemma packStringBase64_keeps s : keeps (packStringBase64 s) (base64.DecodedLen (lenString s)).
Proof. apply packDecoded_keeps. intros w Hw. by apply base64.base64_length_Decode. Qed.

Lemma packStringBase32_keeps s : keeps (packStringBase32 s) (lenString s).
Proof.
  apply packDecoded_keeps. intros w Hw%base32.base32_length_Decode. by rewrite length_fmap in Hw.
Qed.

Lemma packDataNsec_bounded ts : low_types ts -> keeps (packDataNsec ts) (lenBitMap firstWindow ts).
Proof. intros Hl msg off Ho. by apply packDataNsec_keeps. Qed.

Lemma packDataOpt_keeps es : keeps (packDataOpt es) (sum_list (lenOption <$> es)).
Proof.
  induction es as [|e es IH]; intros msg off Ho; [simpl; lia|]. cbn [packDataOpt].
  csimpl in Ho. unfold lenOption in Ho at 1. csimpl. unfold lenOption at 1.
  destruct (packOption e) as [b|?]; [|done]. rewrite decide_False by lia.
  unfold putBytes. rewrite decide_True by (rewrite length_be; lia).
  rewrite length_written by (rewrite length_be; lia).
  rewrite decide_True by (rewrite length_be; lia).
  set (m1 := take off msg ++ _).
  assert (length m1 = length msg) as Hm1 by (unfold m1; apply length_written; rewrite length_be; lia).
  set (m2 := take (off + 2) m1 ++ _).
  assert (length m2 = length msg) as Hm2
    by (unfold m2; rewrite length_written by (rewrite length_be; lia); lia).
  rewrite Hm2. rewrite decide_False, decide_True by lia.
  set (m3 := take (off + 4) m2 ++ _).
  assert (length m3 = length msg) as Hm3 by (unfold m3; rewrite length_written; lia).
  specialize (IH m3 (off + 4 + length b)%nat). lapply IH; [|lia]. rewrite Hm3.
  destruct (packDataOpt _ _ _); try done. lia.
Qed.

#[export] Hint Resolve onMsg_safe packUint_keeps packDataA_keeps packDataAAAA_keeps PackDomainName_safe
  packDataDomainNames_safe packString_keeps packStringTxt_keeps packStringOctet_keeps
  packStringHex_keeps packSalt_safe packStringBase64_keeps packStringBase32_keeps
  packDataNsec_bounded packDataOpt_keeps : packing.
#[export] Hint Unfold packUint8 packUint16 packUint32 packUint48 packUint64 : packing.

(** ** Records *)

(** A record whose type bit map takes no more than [len] says. *)
Definition bitmap_low (data : rdata) : Prop :=
  match data with
  | RR_CSYNC _ _ TypeBitMap | RR_NSEC _ TypeBitMap | RR_NSEC3 _ _ _ _ _ _ _ TypeBitMap => low_types TypeBitMap
  | _ => True
  end.

Lemma rdata_safe data compress :
  bitmap_low data -> exists his, Forall2 safe (writers data compress) his /\ (sum_list his <= lenData data)%nat.
Proof.
  destruct data; cbn [bitmap_low]; intros Hb.
  all: eexists; split; [cbn [writers]; repeat (apply Forall2_cons; split; [eauto with packing|]); by apply Forall2_nil|].
  all: cbn [lenData]; simpl; lia.
Qed.

(** The outcome of a function on a buffer of length [len], started at [off]. *)
Definition bounded {X} (len off hi : nat) (get : X -> buffer) (r : result X) : Prop :=
  match r with
  | Ok x off' => length (get x).1 = len /\ (get x).2 = None /\ (off <= off' <= off + hi)%nat
  | Fail _ _ => True
  | Crash _ | Hang => False
  end.

Lemma safe_bounded f hi msg off :
  safe f hi -> (off + hi <= length msg)%nat -> bounded (length msg) off hi id (f (msg, None) off).
Proof. intros Hf Ho. specialize (Hf msg off Ho). by destruct (f (msg, None) off) as [[? ?] ?|? ?|?|]. Qed.

Lemma bounded_safe f hi :
  (forall msg off, (off + hi <= length msg)%nat -> bounded (length msg) off hi id (f (msg, None) off)) -> safe f hi.
Proof. intros H msg off Ho. specialize (H msg off Ho). by destruct (f (msg, None) off) as [[? ?] ?|? ?|?|]. Qed.

Lemma bounded_andThen {X Y} len off hi1 hi2 (getX : X -> buffer) (getY : Y -> buffer) m k :
  bounded len off hi1 getX m ->
  (forall x off', length (getX x).1 = len -> (getX x).2 = None -> (off <= off' <= off + hi1)%nat ->
     bounded len off' hi2 getY (k x off')) ->
  bounded len off (hi1 + hi2) getY (andThen m k).
Proof.
  intros Hm Hk. destruct m as [x off'|? ?|?|]; simpl in *; try done. destruct Hm as (Hl & Hc & Ho).
  specialize (Hk x off' Hl Hc Ho). destruct (k x off'); simpl in *; try done. intuition lia.
Qed.

Lemma bounded_failAt {X} len off hi n (get : X -> buffer) r :
  bounded len off hi get r -> bounded len off hi get (failAt n r).
Proof. by destruct r. Qed.

Lemma bounded_weaken {X} len off hi hi' (get : X -> buffer) r :
  bounded len off hi get r -> (hi <= hi')%nat -> bounded len off hi' get r.
Proof. destruct r; simpl; try done. intuition lia. Qed.

Lemma chain_bounded {Y} fs his len off (k : buffer -> nat -> result Y) hi (get : Y -> buffer) msg :
  Forall2 safe fs his -> (off + sum_list his <= len)%nat -> length msg = len ->
  (forall msg off', length msg = len -> (off <= off' <= off + sum_list his)%nat ->
     bounded len off' hi get (k (msg, None) off')) ->
  bounded len off (sum_list his + hi) get (chain fs (msg, None) off k).
Proof.
  intros Hf. revert off msg. induction Hf as [|f h fs his Hs _ IH]; intros off msg Ho Hl Hk; simpl in *.
  - apply Hk; [done|lia].
  - rewrite <- Nat.add_assoc. eapply bounded_andThen; [rewrite <- Hl; by apply safe_bounded; [|lia]|].
    intros [m c] off' Hm Hc Hoff. simpl in *. subst c. apply IH; [lia|done|].
    intros m' off'' Hm' Hoff'. apply Hk; [done|lia].
Qed.

(** *** The header and the length *)

Lemma packHeader_safe h compress : safe (packHeader h compress) (lenHeader h).
Proof.
  apply bounded_safe. intros msg off Ho. unfold packHeader. simpl fst. case_decide; [simpl; split_and!; [done|done|lia..]|].
  apply bounded_failAt. unfold lenHeader.
  change (bounded (length msg) off (lenString (RR_Name h) + 1 + 10) id
    (chain [PackDomainName (RR_Name h) compress; onMsg (packUint16 (Rrtype h));
              onMsg (packUint16 (RR_Class h)); onMsg (packUint32 (Ttl h)); onMsg (packUint16 (Rdlength h))]
       (msg, None) off Ok)).
  eapply bounded_weaken; [eapply (chain_bounded _ [lenString (RR_Name h) + 1; 2; 2; 4; 2]%nat _ _ _ 0)|simpl; lia].
  - repeat (apply Forall2_cons; split; [eauto with packing|]). by apply Forall2_nil.
  - unfold lenHeader in Ho. simpl. lia.
  - done.
  - intros m off' Hm Hoff. simpl. split_and!; [done|done|lia..].
Qed.

Lemma skipName_safe fuel msg off :
  (length msg - off < fuel)%nat ->
  match skipName fuel msg off with Ok _ off' => (off <= off')%nat | Fail _ _ | Crash _ | Hang => False end.
Proof.
  revert off. induction fuel as [|fuel IH]; intros off Hf; cbn [skipName].
  - lia.
  - case_decide; [done|]. unfold get. destruct (lookup_lt_is_Some_2 msg off) as [b ->]; [lia|].
    assert (forall o, (off < o)%nat -> match skipName fuel msg o with
      Ok _ off' => (off <= off')%nat | Fail _ _ | Crash _ | Hang => False end) as Hr.
    { intros o Hlt. specialize (IH o ltac:(lia)). destruct (skipName fuel msg o); lia || done. }
    repeat case_decide; try lia; apply Hr; lia.
Qed.

Lemma rawSetRdlength_safe msg off stop :
  match rawSetRdlength msg off stop with
  | Ok (Some m) _ => length m = length msg
  | Ok None _ => True
  | Fail _ _ | Crash _ | Hang => False
  end.
Proof.
  unfold rawSetRdlength. pose proof (skipName_safe (S (length msg)) msg off ltac:(lia)) as H.
  destruct (skipName _ _ _) as [[] off'|? ?|?|]; simpl in *; try done.
  case_decide; [done|]. case_decide; [done|]. unfold putBytes.
  rewrite decide_True, length_written by (rewrite length_be; lia). done.
Qed.

Lemma PackRR_bounded rr compress msg off :
  bitmap_low (Data rr) -> (off + len rr <= length msg)%nat ->
  bounded (length msg) off (len rr) snd (PackRR rr compress (msg, None) off).
Proof.
  intros Hb Ho. unfold PackRR. rewrite pack_chain. simpl fst. unfold len in *.
  destruct (rdata_safe _ compress Hb) as (his & Hs & Hl).
  rewrite <- (Nat.add_0_r (lenHeader _ + _)).
  apply (bounded_andThen _ _ _ _ snd).
  - apply bounded_failAt. eapply bounded_andThen; [apply safe_bounded; [apply packHeader_safe|lia]|].
    intros [m c] off' Hm Hc Hoff. simpl in *. subst c.
    eapply (bounded_weaken _ _ (sum_list his + 0)); [|lia].
    apply chain_bounded; [done|lia|done|]. intros m' off'' Hm' Hoff'. simpl. split_and!; [done|done|lia..].
  - intros [r [m c]] off' Hm Hc Hoff. simpl in *. subst c.
    pose proof (rawSetRdlength_safe m off off') as H.
    destruct (rawSetRdlength m off off') as [[m'|] ?|? ?|?|]; simpl; try done.
    split_and!; [congruence|done|lia..].
Qed.

Lemma packSection_bounded rrs compress msg off :
  Forall (fun rr => bitmap_low (Data rr)) rrs -> (off + sum_list (len <$> rrs) <= length msg)%nat ->
  bounded (length msg) off (sum_list (len <$> rrs)) snd (packSection rrs compress (msg, None) off).
Proof.
  intros Hrrs. revert msg off. induction Hrrs as [|rr rrs Hrr _ IH]; intros msg off Ho; csimpl in *.
  - split_and!; [done|done|lia..].
  - eapply bounded_andThen; [apply PackRR_bounded; [done|lia]|]. intros [r [m c]] off' Hm Hc Hoff. simpl in *. subst c.
    rewrite <- (Nat.add_0_r (sum_list _)). eapply bounded_andThen; [rewrite <- Hm; apply IH; lia|].
    intros [rs [m' c']] off'' Hm' Hc' Hoff'. simpl in *. split_and!; [done|done|lia..].
Qed.

Lemma packQuestions_safe qs compress : safe (packQuestions qs compress) (sum_list (lenQuestion <$> qs)).
Proof.
  apply bounded_safe. induction qs as [|q qs IH]; intros msg off Ho; csimpl in *; [split_and!; [done|done|lia..]|].
  apply (bounded_andThen _ _ _ _ id).
  - change (packQuestion q compress (msg, None) off) with
      (chain [PackDomainName (Q_Name q) compress; onMsg (packUint16 (Qtype q)); onMsg (packUint16 (Qclass q))]
         (msg, None) off Ok).
    unfold lenQuestion in *.
    eapply bounded_weaken; [eapply (chain_bounded _ [lenString (Q_Name q) + 1; 2; 2]%nat _ _ _ 0)|simpl; lia].
    + repeat (apply Forall2_cons; split; [eauto with packing|]). by apply Forall2_nil.
    + simpl. lia.
    + done.
    + intros m off' Hm Hoff. simpl. split_and!; [done|done|lia..].
  - intros [m c] off' Hm Hc Hoff. simpl in *. subst c. rewrite <- Hm. apply IH. lia.
Qed.

Lemma packMsgHdr_safe dh : safe (packMsgHdr dh) 12.
Proof.
  apply bounded_safe. intros msg off Ho. rewrite packMsgHdr_chain.
  eapply bounded_weaken; [eapply (chain_bounded _ [2; 2; 2; 2; 2; 2]%nat _ _ _ 0)|simpl; lia].
  - repeat (apply Forall2_cons; split; [eauto with packing|]). by apply Forall2_nil.
  - simpl. lia.
  - done.
  - intros m off' Hm Hoff. simpl. split_and!; [done|done|lia..].
Qed.

(** ** Messages *)

(** The type bit maps of a message leave out the last eight types of each window. *)
Definition bitmaps_low (m : Msg) : Prop :=
  Forall (fun rr => bitmap_low (Data rr)) (Answer m ++ Msg_Ns m ++ Extra m).

(** The last record that says it is of type OPT holds the data of another type. *)
Definition mistyped_opt (rrs : list RR) : Prop :=
  exists l rr k, rrs = l ++ rr :: k /\ Rrtype (Hdr rr) = TypeOPT /\
    (forall options, Data rr <> RR_OPT options) /\ Forall (fun x => Rrtype (Hdr x) <> TypeOPT) k.

Definition packable (m : Msg) : Prop :=
  Compress m = false /\ Rcode m <= 0xF /\ bitmaps_low m.

Lemma mistyped_opt_nil : ~ mistyped_opt [].
Proof. intros (l & rr & k & E & _). by destruct l. Qed.

(** At the end of the section, where [IsEdns0] starts. *)
Lemma mistyped_opt_last rrs rr :
  mistyped_opt (rrs ++ [rr]) <->
  if decide (Rrtype (Hdr rr) = TypeOPT) then forall options, Data rr <> RR_OPT options
  else mistyped_opt rrs.
Proof.
  split.
  - intros (l & x & k & E & Hty & Hd & Hk).
    destruct k as [|y k' _] using rev_ind.
    + apply app_inj_tail in E as [-> ->]. by rewrite decide_True.
    + rewrite app_comm_cons, app_assoc in E. apply app_inj_tail in E as [-> ->].
      apply Forall_app in Hk as [Hk [Hy _]%Forall_cons]. rewrite decide_False by done. by exists l, x, k'.
  - case_decide as Hty.
    + intros Hd. by exists rrs, rr, [].
    + intros (l & x & k & -> & Hx & Hd & Hk). exists l, x, (k ++ [rr]).
      split_and!; [by rewrite <- app_assoc|done..|]. apply Forall_app. by repeat constructor.
Qed.

(** Where [IsEdns0] fails, and that the change keeps the bit maps. *)
Lemma setEdns0Rcode_outcome v rrs :
  Forall (fun rr => bitmap_low (Data rr)) rrs ->
  match setEdns0Rcode v rrs with
  | Ok (Some rrs') _ => ~ mistyped_opt (reverse rrs) /\ Forall (fun rr => bitmap_low (Data rr)) rrs'
  | Ok None _ => ~ mistyped_opt (reverse rrs)
  | Crash p => p = FailedTypeAssertion /\ mistyped_opt (reverse rrs)
  | Fail _ _ | Hang => False
  end.
Proof.
  induction rrs as [|rr rrs IH]; cbn [setEdns0Rcode]; [intros _; apply mistyped_opt_nil|].
  intros [Hb Hbs]%Forall_cons. specialize (IH Hbs). rewrite reverse_cons.
  pose proof (mistyped_opt_last (reverse rrs) rr) as Hl. case_decide as Hty.
  - destruct (Data rr) eqn:Hd; try (split; [done|]; apply (proj2 Hl); by intros ? ?).
    split; [intros H; by apply (proj1 Hl H _ eq_refl)|]. constructor; [done|done].
  - destruct (setEdns0Rcode v rrs) as [[rrs'|] ?|? ?|?|]; simpl; try tauto.
    split; [tauto|]. constructor; tauto.
Qed.

Lemma uncompressedLen_edns v rrs rrs' n :
  setEdns0Rcode v rrs = Ok (Some rrs') n -> sum_list (len <$> rrs') = sum_list (len <$> rrs).
Proof.
  revert rrs' n. induction rrs as [|rr rrs IH]; intros rrs' n; simpl; [done|]. case_decide.
  - destruct (Data rr) eqn:E; try done. intros [= <- _]. csimpl. f_equal. unfold len. simpl. rewrite E.
    unfold SetExtendedRcode. by case_decide.
  - destruct (setEdns0Rcode v rrs) as [[rs|] k|? ?|?|] eqn:E; simpl; try done.
    intros [= <- _]. csimpl. f_equal. by eapply IH.
Qed.

Lemma sum_list_app (l k : list nat) : sum_list (l ++ k) = (sum_list l + sum_list k)%nat.
Proof. induction l as [|n l IH]; simpl; lia. Qed.

Lemma Forall_app_3 {A} (P : A -> Prop) l1 l2 l3 :
  Forall P (l1 ++ l2 ++ l3) <-> Forall P l1 /\ Forall P l2 /\ Forall P l3.
Proof. by rewrite !Forall_app. Qed.

Lemma rev_reverse {A} (l : list A) : rev l = reverse l.
Proof. apply List.rev_alt. Qed.

Lemma sum_list_reverse (rrs : list RR) : sum_list (len <$> reverse rrs) = sum_list (len <$> rrs).
Proof.
  induction rrs as [|rr rrs IH]; [done|].
  rewrite reverse_cons, fmap_app, sum_list_app. csimpl. lia.
Qed.

Lemma packPieces_bounded m msg :
  bitmaps_low m ->
  (uncompressedLen m <= length msg)%nat ->
  bounded (length msg) 0 (uncompressedLen m) snd (packPieces m (msg, None)).
Proof.
  intros Hb Hl. unfold bitmaps_low in Hb. rewrite !Forall_app in Hb. destruct Hb as (Ha & Hn & He). unfold packPieces, uncompressedLen in *.
  rewrite <- !Nat.add_assoc.
  apply (bounded_andThen _ _ _ _ id); [apply safe_bounded; [apply packMsgHdr_safe|lia]|].
  intros [m1 c1] o1 H1 Hc1 Ho1. simpl in H1, Hc1. subst c1. rewrite <- H1 in *.
  apply (bounded_andThen _ _ _ _ id); [apply safe_bounded; [apply packQuestions_safe|lia]|].
  intros [m2 c2] o2 H2 Hc2 Ho2. simpl in H2, Hc2. subst c2. rewrite <- H2 in *.
  apply (bounded_andThen _ _ _ _ snd); [by apply packSection_bounded; [|lia]|].
  intros [r3 [m3 c3]] o3 H3 Hc3 Ho3. simpl in H3, Hc3. subst c3. rewrite <- H3 in *. cbn [fst snd].
  apply (bounded_andThen _ _ _ _ snd); [by apply packSection_bounded; [|lia]|].
  intros [r4 [m4 c4]] o4 H4 Hc4 Ho4. simpl in H4, Hc4. subst c4. rewrite <- H4 in *. cbn [fst snd].
  rewrite <- (Nat.add_0_r (sum_list _)).
  apply (bounded_andThen _ _ _ _ snd); [by apply packSection_bounded; [|lia]|].
  intros [r5 [m5 c5]] o5 H5 Hc5 Ho5. simpl in H5, Hc5. subst c5. simpl. split_and!; [done|done|lia..].
Qed.

Lemma pack_after_edns m :
  bitmaps_low m ->
  match
    (let packLen := (uncompressedLen m + 1)%nat in
     let msg := if decide (length (@nil byte) < packLen)%nat then replicate packLen Byte.x00 else [] in
     let! r, off := packPieces m (msg, None) in
     let* out := (cut r.2.1 0 off) in
     Ok (out, r.1) off)
  with
  | Ok (b, _) _ => (length b <= uncompressedLen m)%nat
  | Fail _ _ => True
  | Crash _ | Hang => False
  end.
Proof.
  intros Hb. cbv zeta. rewrite decide_True by (simpl; lia).
  pose proof (packPieces_bounded m (replicate (uncompressedLen m + 1) Byte.x00) Hb) as H.
  rewrite length_replicate in H. specialize (H ltac:(lia)).
  destruct (packPieces _ _) as [[r [m' c]] off|? ?|?|]; cbn [bounded andThen fst snd] in *; try done.
  destruct H as (Hl & _ & Ho). unfold cut. rewrite decide_True by lia. rewrite length_take, length_drop. lia.
Qed.

(** The outcome of [Pack] on a message that is not compressed. *)
Lemma Pack_outcomes m :
  Compress m = false -> bitmaps_low m ->
  match Pack m with
  | Ok (b, _) _ => (length b <= uncompressedLen m)%nat /\ ~ (0xF < Rcode m <= 0xFFF /\ mistyped_opt (Extra m))
  | Fail _ _ => ~ (0xF < Rcode m <= 0xFFF /\ mistyped_opt (Extra m))
  | Crash p => p = FailedTypeAssertion /\ 0xF < Rcode m <= 0xFFF /\ mistyped_opt (Extra m)
  | Hang => False
  end.
Proof.
  intros Hc Hb. unfold Pack, packBufferWithCompressionMap. rewrite Hc. case_decide as Hcode; [lia|].
  case_decide as Hr.
  2: { pose proof (pack_after_edns m Hb) as H. cbn [andThen] in *.
       destruct (andThen _ _) as [[b m'] off|? ?|?|]; try done; [split; [done|]|]; intros [? _]; lia. }
  pose proof Hb as (Ha & Hn & He)%Forall_app_3.
  pose proof (setEdns0Rcode_outcome (Z.shiftr (Rcode m) 4) (rev (Extra m))) as H1.
  rewrite !rev_reverse, Forall_reverse, reverse_involutive in H1. specialize (H1 He). rewrite rev_reverse.
  destruct (setEdns0Rcode _ _) as [[rrs|] ?|? ?|?|] eqn:E; cbn [andThen]; try done; [|tauto|].
  2: { destruct H1. split_and!; [done|lia..|done]. }
  rewrite rev_reverse.
  pose proof (pack_after_edns (m <| Extra := reverse rrs |>)) as H2.
  assert (uncompressedLen (m <| Extra := reverse rrs |>) = uncompressedLen m) as El.
  { apply uncompressedLen_edns in E. unfold uncompressedLen. destruct m. simpl in *. unfold constant.
    rewrite !sum_list_reverse, E, sum_list_reverse. done. }
  assert (bitmaps_low (m <| Extra := reverse rrs |>)) as Hb'.
  { apply Forall_app_3. destruct m. simpl in *. unfold constant. rewrite Forall_reverse. tauto. }
  specialize (H2 Hb'). cbn [andThen] in *. rewrite El in *.
  destruct (andThen _ _) as [[b m'] ?|? ?|?|]; try done; [split; [done|]|]; tauto.
Qed.

Lemma Pack_returns m :
  packable m ->
  match Pack m with
  | Ok (b, _) _ => (length b <= uncompressedLen m)%nat
  | Fail _ _ => True
  | Crash _ | Hang => False
  end.
Proof.
  intros (Hc & Hr & Hb). pose proof (Pack_outcomes m Hc Hb) as H.
  destruct (Pack m) as [[b m'] ?|? ?|?|]; [tauto|done|lia|done].
Qed.

(** C26: Packing a message that is not compressed, and whose type bit maps leave
    out the last eight types of a window, ends whatever names, strings, addresses
    and options its records hold: with bytes that fit the length computed
    beforehand, or with an error.  It panics exactly when the return code needs
    the OPT record and the last record that says it is one holds other data. *)
Theorem Pack_total m :
  Compress m = false -> bitmaps_low m ->
  (match Pack m with
   | Ok (b, _) _ => (length b <= uncompressedLen m)%nat
   | Fail _ _ => True
   | Crash p => p = FailedTypeAssertion
   | Hang => False
   end) /\
  ((exists p, Pack m = Crash p) <-> 0xF < Rcode m <= 0xFFF /\ mistyped_opt (Extra m)).
Proof.
  intros Hc Hb. pose proof (Pack_outcomes m Hc Hb) as H.
  destruct (Pack m) as [[b m'] ?|? ?|p|]; try done.
  - split; [tauto|]. split; [by intros [? ?]|tauto].
  - split; [done|]. split; [by intros [? ?]|tauto].
  - destruct H as [-> H]. split; [done|]. split; [done|by eexists].
Qed.

(** A message with an OPT record and an extended return code, and one whose OPT
    record holds an address. *)
Definition extended : Msg := RoundTripExample.sample <| Rcode := 16 |>.

Definition mistyped : Msg :=
  extended <| Extra := [mkRR {| RR_Name := "."; Rrtype := TypeOPT; RR_Class := 4096; Ttl := 0; Rdlength := 0 |} (RR_A [])] |>.

Lemma Pack_total_witness :
  (match Pack extended with Crash _ => False | _ => True end) /\ exists p, Pack mistyped = Crash p.
Proof.
  assert (bitmaps_low extended) as Hb by (repeat constructor; intros H; discriminate H).
  assert (bitmaps_low mistyped) as Hb' by (repeat constructor; intros H; discriminate H).
  split.
  - destruct (Pack_total extended eq_refl Hb) as [_ [H _]]. destruct (Pack extended) as [? ?|? ?|p|]; try exact I.
    destruct (H (ex_intro _ p eq_refl)) as (_ & l & rr & k & E & _ & Hd & _).
    destruct l as [|x [|y l]]; [|discriminate E|discriminate E]. injection E as <- _. exact (Hd _ eq_refl).
  - apply (Pack_total mistyped eq_refl Hb'). split; [split; [reflexivity|discriminate]|].
    eexists [], _, []. split_and!; [reflexivity..|discriminate|constructor].
Defined.
