(* ===== verification/DnsServer.v ===== *)
(** * The DNS server

    The part of [server.go] that the daemon runs: the loop that reads datagrams
    ([serveUDP], [readUDP]), the pool of workers ([spawnWorker], [worker]) and what
    a worker does with a datagram ([serveDNS], [WriteMsg]), for a server as
    [setupUDPDNS] makes it: over UDP, with a handler, without TSIG secrets and
    decorators.  Composed with the handler of [Dns], the wire format and the
    theorems on it, this gives what a client gets back for the bytes it sends. *)

From Stdlib Require Import ZArith Lia NArith Ascii Strings.Byte Strings.String.
From stdpp Require Import base numbers gmap strings list fin_maps.
From coqutil Require Import Datatypes.RecordSetters.
From S2P Require Import Prelude GoNet Endian Dhcp4 BridgeServices DnsRR Dns DnsName DnsNameSpec DnsField DnsZmsg DnsMsg DnsSafety DnsCodec DnsRecord DnsRoundTrip DnsPackSafety.

Import RecordSetters.TriangleBracketNotations.
Open Scope Z_scope.
Open Scope dns_scope.

(** ** Serving a datagram *)

Definition headerSize : nat := 12.
Definition MinMsgSize : nat := 512.

(** [WriteMsg]: the datagram that is handed to the socket. *)
Definition WriteMsg (m : Msg) : result (list byte) :=
  let! r, off := Pack m in
  Ok r.1 off.

Section serve.
Context {W : Type} (handler : Msg -> W -> Msg * W) (Unsafe : bool).

(** A caller that ignores the error of [WriteMsg]. *)
Definition reply (m : Msg) (wd : W) : result (list (list byte) * W) :=
  match WriteMsg m with
  | Ok data _ => Ok ([data], wd) 0
  | Fail _ _ => Ok ([], wd) 0
  | Crash p => Crash p
  | Hang => Hang
  end.

(** [serveDNS]: the datagrams sent, and the world after the handler. *)
Definition serveDNS (msg : list byte) (wd : W) : result (list (list byte) * W) :=
  let! r, _off := Unpack emptyMsg msg in
  let req := r.1 in
  match r.2 with
  | Some _ => reply (SetRcodeFormatError emptyMsg req) wd
  | None =>
      if negb Unsafe && Response req then Ok ([], wd) 0
      else
        let '(m, wd) := handler req wd in
        reply m wd
  end.
End serve.

(** ** Reading datagrams *)

(** What [ReadFromSessionUDP] returns, with the state of [srv.started] afterwards. *)
Inductive udpRead :=
  | Datagram (payload : list byte)
  | ReadError (e : error).

(** [netErr, ok := err.(net.Error); ok && netErr.Temporary()] *)
Definition Temporary (e : error) : bool :=
  match e with OpError temporary _ => temporary | _ => false end.

(** [readUDP]: the rest of a datagram that does not fit is lost. *)
Definition readUDP (UDPSize : nat) (payload : list byte) : list byte := take UDPSize payload.

(** [serveUDP] on what happens to it: the messages passed to the workers, and
    what it returns once it does. *)
Fixpoint serveUDP (UDPSize : nat) (events : list (udpRead * bool)) : list (list byte) * option (option error) :=
  match events with
  | [] => ([], None)
  | (r, started) :: events =>
      if negb started then ([], Some None)
      else match r with
           | ReadError e =>
               if Temporary e then serveUDP UDPSize events else ([], Some (Some e))
           | Datagram payload =>
               let m := readUDP UDPSize payload in
               if decide (length m < headerSize)%nat then serveUDP UDPSize events
               else let '(ms, ret) := serveUDP UDPSize events in (m :: ms, ret)
           end
  end.

(** ** Theorems *)

(** What the loop passes over, and what ends it. *)
Definition goes_on (ev : udpRead * bool) : Prop :=
  ev.2 = true /\ match ev.1 with Datagram _ => True | ReadError e => Temporary e = true end.

Definition ends_with (ev : udpRead * bool) (ret : option error) : Prop :=
  if ev.2 then exists e, ev.1 = ReadError e /\ Temporary e = false /\ ret = Some e else ret = None.

Definition payload_of (ev : udpRead * bool) : option (list byte) :=
  match ev.1 with Datagram b => Some b | ReadError _ => None end.

(** C22: The reading loop runs until the server is shut down or the socket fails
    for good, which it returns; until then it hands over every datagram of at
    least a header's length, cut at the size of the buffer, in the order of
    arrival, whatever temporary errors occur in between. *)
Theorem serveUDP_delivers UDPSize events ev ret rest :
  Forall goes_on events -> ends_with ev ret ->
  serveUDP UDPSize (events ++ ev :: rest) =
    (filter (fun m => (headerSize <= length m)%nat) (readUDP UDPSize <$> omap payload_of events), Some ret).
Proof.
  intros Hg He. induction Hg as [|[r started] events [Hs Hr] Hg IH]; simpl in *; [|subst started; simpl].
  - unfold ends_with in He. destruct ev as [r []]; simpl in *; [|by subst ret]. by destruct He as (e & -> & -> & ->).
  - destruct r as [b|e]; [|by rewrite Hr]. simpl. rewrite IH, filter_cons.
    repeat case_decide; done || lia.
Qed.

Lemma serveUDP_delivers_witness :
  serveUDP MinMsgSize [(Datagram (replicate 600 "a"%byte), true); (ReadError (OpError true "i/o timeout"), true);
                       (Datagram (replicate 11 "b"%byte), true); (Datagram (replicate 12 "c"%byte), true);
                       (Datagram (replicate 12 "d"%byte), false)] =
    ([replicate 512 "a"%byte; replicate 12 "c"%byte], Some None).
Proof.
  etransitivity; [exact (serveUDP_delivers MinMsgSize [(Datagram (replicate 600 "a"%byte), true);
    (ReadError (OpError true "i/o timeout"), true);
    (Datagram (replicate 11 "b"%byte), true); (Datagram (replicate 12 "c"%byte), true)]
    (Datagram (replicate 12 "d"%byte), false) None [] ltac:(repeat constructor) eq_refl)|].
  vm_compute. reflexivity.
Defined.

Lemma Pack_outcome m :
  packable m ->
  match Pack m with Ok _ _ | Fail _ _ => True | Crash _ | Hang => False end.
Proof. intros Hm. pose proof (Pack_returns m Hm). by destruct (Pack m). Qed.

Lemma reply_returns {W} m (wd : W) :
  packable m -> exists sent, reply m wd = Ok (sent, wd) 0 /\ (length sent <= 1)%nat.
Proof.
  intros Hm. unfold reply, WriteMsg. pose proof (Pack_outcome m Hm) as H.
  destruct (Pack m); simpl in *; try done; eexists; split; try reflexivity; simpl; lia.
Qed.

(** A message that is read back is sent, and read back. *)
Lemma reply_reads_back {W} m (wd : W) :
  wf_Msg m -> exists b m', reply m wd = Ok ([b], wd) 0 /\ same_message m m' /\
    Unpack emptyMsg b = Ok (norm_Msg m', None) (length b).
Proof.
  intros Hm. destruct (Pack_reads_back m Hm) as (b & m' & Hp & Hs & Hu & _). exists b, m'.
  unfold reply, WriteMsg. by rewrite Hp.
Qed.

Section forwarder.
Context {W Body : Type} (httpGet : string -> W -> (Body + error) * W)
        (decode : Body -> dnsResponse + error) (h : bridgeServices).

Lemma answerAll_bitmap_low qs wd :
  Forall (fun rr => bitmap_low (Data rr)) (answerAll httpGet decode h qs wd).1.
Proof.
  revert wd. induction qs as [|q qs IH]; intros wd; simpl; [constructor|].
  destruct (answerQuestion httpGet decode h q wd) as [rs wd1] eqn:E.
  specialize (IH wd1). destruct (answerAll _ _ _ _ _) as [rest wd2]. simpl in *.
  apply Forall_app. split; [|done]. unfold answerQuestion, resolve in E.
  repeat case_decide; simplify_eq; try by repeat constructor.
  destruct (httpGet (resolveURL q) wd) as [[body|e] wd'] eqn:G; simplify_eq; [|constructor].
  destruct (decode body) as [response|e]; simplify_eq; [|constructor].
  apply Forall_forall. intros rr (a & _ & Ha)%list_elem_of_omap. unfold convert in Ha.
  repeat case_decide; by simplify_eq.
Qed.

Lemma ServeDNS_packable r wd : packable (ServeDNS httpGet decode h r wd).1.
Proof.
  unfold ServeDNS. pose proof (answerAll_bitmap_low (Msg_Question r) wd) as H.
  destruct (answerAll _ _ _ _ _) as [rs wd']. simpl in *. split_and!; simpl; [done|done|].
  unfold bitmaps_low. simpl. by rewrite app_nil_r.
Qed.

(** C20: Whatever bytes arrive, serving a datagram ends without a panic and sends
    at most one reply; the outside world changes only through the handler. *)
Theorem serveDNS_total Unsafe msg wd :
  exists sent wd', serveDNS (ServeDNS httpGet decode h) Unsafe msg wd = Ok (sent, wd') 0 /\ (length sent <= 1)%nat.
Proof.
  unfold serveDNS. destruct (Unpack_returns msg) as (req & err & off & -> & Htyped & _).
  cbn [andThen fst snd]. destruct err as [e|].
  - destruct (reply_returns (SetRcodeFormatError emptyMsg req) wd) as (sent & -> & Hs).
    { split_and!; simpl; [done|done|constructor]. }
    by exists sent, wd.
  - destruct (negb Unsafe && Response req); [exists [], wd; split; [done|simpl; lia]|].
    pose proof (ServeDNS_packable req wd) as Hp. destruct (ServeDNS httpGet decode h req wd) as [m wd'].
    destruct (reply_returns m wd' Hp) as (sent & -> & Hs). by exists sent, wd'.
Qed.

Lemma unpackMsgHdr_Id msg dh off : unpackMsgHdr msg 0 = Ok dh off -> H_Id dh = bigEndian (take 2 msg).
Proof.
  unfold unpackMsgHdr, unpackUint16, unpackUint.
  repeat (case_decide; [done|]; unfold cut at 1; rewrite decide_True by lia; cbn [andThen]).
  intros [= <- _]. done.
Qed.

Lemma wf_Msg_header m :
  in_width 2 (Id m) -> 0 <= Opcode m < 16 -> 0 <= Rcode m < 16 -> Compress m = false -> Truncated m = false ->
  Msg_Question m = [] -> Answer m = [] -> Msg_Ns m = [] -> Extra m = [] -> wf_Msg m.
Proof.
  intros. unfold wf_Msg, wf_section. replace (Msg_Question m) with (@nil Question).
  replace (Answer m) with (@nil RR). replace (Msg_Ns m) with (@nil RR). replace (Extra m) with (@nil RR).
  split_and!; try done; by constructor || lia.
Qed.

Lemma unpackSection_inv count msg off err old k r off' :
  unpackSection count msg off err old k = Ok r off' -> exists rrs o e, k rrs o e = Ok r off'.
Proof.
  unfold unpackSection. destruct err as [e|]; [eauto|].
  destruct (unpackRRslice _ _ _ _); try done; eauto.
Qed.

(** The message carries the transaction of the bytes it was read from. *)
Lemma Unpack_Id msg req err off :
  Unpack emptyMsg msg = Ok (req, err) off -> (headerSize <= length msg)%nat -> Id req = bigEndian (take 2 msg).
Proof.
  unfold Unpack, headerSize. intros H Hl. pose proof (unpackMsgHdr_outcome msg) as Ho.
  destruct (unpackMsgHdr msg 0) as [dh o|? ?|?|] eqn:E; try done; [|lia].
  apply unpackMsgHdr_Id in E. rewrite <- E. case_decide; [by simplify_eq|].
  destruct (unpackQuestions _ _ _ _) as [[qs [e|]] ?|? ?|?|]; cbn [andThen fst snd] in H; try done; [by simplify_eq|].
  apply unpackSection_inv in H as (? & ? & ? & H). apply unpackSection_inv in H as (? & ? & ? & H).
  apply unpackSection_inv in H as (? & ? & ? & H). by simplify_eq.
Qed.

(** C19: A datagram that is not a message is answered with a format error: the
    reply, as the sender unpacks it, has the identifier of the first two bytes
    of the datagram, is marked as a response, and is empty. *)
Theorem serveDNS_format_error Unsafe msg wd req e off :
  Unpack emptyMsg msg = Ok (req, Some e) off -> (headerSize <= length msg)%nat ->
  exists b x, serveDNS (ServeDNS httpGet decode h) Unsafe msg wd = Ok ([b], wd) 0 /\
    Unpack emptyMsg b = Ok (x, None) (length b) /\ Id x = bigEndian (take 2 msg) /\ Response x = true /\
    Rcode x = RcodeFormatError /\ Msg_Question x = [] /\ Answer x = [] /\ Msg_Ns x = [] /\ Extra x = [].
Proof.
  intros Hu Hl. pose proof (Unpack_Id _ _ _ _ Hu Hl) as Hid.
  destruct (Unpack_returns msg) as (m & err & o & Hu' & (Hw & _) & _). rewrite Hu in Hu'. simplify_eq.
  destruct (reply_reads_back (SetRcodeFormatError emptyMsg m) wd) as (b & m' & Hr & Hs & Hb).
  { apply wf_Msg_header; try done; simpl; unfold OpcodeQuery, RcodeFormatError; lia. }
  exists b, (norm_Msg m'). unfold serveDNS. rewrite Hu. cbn [andThen fst snd]. rewrite Hr, Hb.
  destruct Hs as (an & ns & ex & -> & Ha & Hn & He). simpl in *.
  apply Forall2_nil_inv_l in Ha, Hn, He. subst. by split_and!.
Qed.

Lemma ServeDNS_wf r m wd wd' :
  ServeDNS httpGet decode h r wd = (m, wd') -> typed_Msg r -> wf_section (Answer m) -> wf_Msg m.
Proof.
  intros Hs (Hid & Hop & _ & _ & Hq & _) Ha. unfold ServeDNS in Hs.
  destruct (answerAll _ _ _ _ _) as [rs wd1]. simplify_eq. simpl in *.
  assert (wf_section []) as Hnil by (split; [constructor|done]).
  split_and!; simpl; try done; try (unfold RcodeSuccess; lia).
  - destruct (Msg_Question r) as [|q qs]; [constructor|]. apply Forall_cons in Hq as [? _]. by constructor.
  - by destruct (Msg_Question r).
Qed.

(** A query is answered with what the handler made of it: when the records
    of the reply can be packed, one datagram is sent, and unpacking it gives the
    handler's reply. *)
Theorem serveDNS_answers Unsafe msg wd req off m wd' :
  Unpack emptyMsg msg = Ok (req, None) off -> Response req = false ->
  ServeDNS httpGet decode h req wd = (m, wd') -> wf_section (Answer m) ->
  exists b m', serveDNS (ServeDNS httpGet decode h) Unsafe msg wd = Ok ([b], wd') 0 /\
    same_message m m' /\ Unpack emptyMsg b = Ok (norm_Msg m', None) (length b).
Proof.
  intros Hu Hr Hs Ha. destruct (Unpack_returns msg) as (? & ? & ? & Hu' & Ht & _).
  rewrite Hu in Hu'. simplify_eq. pose proof (ServeDNS_wf _ _ _ _ Hs Ht Ha) as Hm.
  unfold serveDNS. rewrite Hu. cbn [andThen fst snd]. rewrite Hr, andb_false_r, Hs.
  by apply reply_reads_back.
Qed.

(** The record a client gets for a local name. *)
Definition local_answer (q : Question) (rr : RR) : Prop :=
  RR_Name (Hdr rr) = Q_Name q /\ Rrtype (Hdr rr) = TypeA /\ RR_Class (Hdr rr) = ClassINET /\
  Data rr = RR_A (net.To4 (if decide (Q_Name q = name h +:+ ".") then baseIP h else net.ParseIP "8.8.8.8")).

Lemma local_record_wf q :
  wf_A (baseIP h) -> wf_question q -> wf_RR (local_record h q).
Proof.
  intros Hb (Hn & _ & _). unfold local_record.
  case_decide; split_and!; try done; by right.
Qed.

Lemma local_records_answer qs rrs :
  same_records (local_record h <$> qs) rrs -> Forall2 local_answer qs (norm_RR <$> rrs).
Proof.
  revert rrs. induction qs as [|q qs IH]; intros rrs H; simpl in H.
  - apply Forall2_nil_inv_l in H as ->. constructor.
  - apply Forall2_cons_inv_l in H as (rr & rrs' & (l & ->) & H & ->). constructor; [|by apply IH].
    unfold local_answer, norm_RR, set_rdlength, local_record. by case_decide.
Qed.

(** C18: From bytes to bytes: a datagram with a query for local names only is
    answered without a request to the outside world, and the reply, as the
    client unpacks it, has the query's identifier, its first question and one
    address record for each question: the server's own address for its name. *)
Theorem serveDNS_local Unsafe msg wd req off :
  Unpack emptyMsg msg = Ok (req, None) off -> Response req = false ->
  Forall (local_name h) (Msg_Question req) -> wf_A (baseIP h) -> (headerSize <= length msg <= MinMsgSize)%nat ->
  exists b x, serveDNS (ServeDNS httpGet decode h) Unsafe msg wd = Ok ([b], wd) 0 /\
    Unpack emptyMsg b = Ok (x, None) (length b) /\ Id x = bigEndian (take 2 msg) /\ Response x = true /\
    Rcode x = RcodeSuccess /\ Msg_Question x = take 1 (Msg_Question req) /\
    Forall2 local_answer (Msg_Question req) (Answer x).
Proof.
  intros Hu Hr Hl Hb Hlen. pose proof (Unpack_Id _ _ _ _ Hu (proj1 Hlen)) as Hid.
  destruct (Unpack_returns msg) as (? & ? & ? & Hu' & Ht & Hw). rewrite Hu in Hu'. simplify_eq.
  destruct (ServeDNS httpGet decode h x wd) as [m wd'] eqn:Hs.
  pose proof Hs as Hs'. unfold ServeDNS in Hs'. rewrite answerAll_local in Hs' by done. simplify_eq.
  set (m := {| Id := _ |}) in Hs.
  assert (wf_section (Answer m)) as Ha.
  { split; simpl.
    - apply Forall_fmap. destruct Ht as (_ & _ & _ & _ & Hq & _). eapply Forall_impl; [exact Hq|].
      intros q ?. by apply local_record_wf.
    - rewrite length_fmap. unfold weight, MinMsgSize in *. unfold in_width.
      change (256 ^ Z.of_nat 2) with 65536. lia. }
  pose proof (ServeDNS_wf _ _ _ _ Hs Ht Ha) as Hm.
  destruct (reply_reads_back m wd' Hm) as (b & m' & Hrep & Hsame & Hub).
  exists b, (norm_Msg m'). unfold serveDNS. rewrite Hu. cbn [andThen fst snd].
  rewrite Hr, andb_false_r, Hs, Hrep, Hub. destruct Hsame as (an & ns & ex & -> & Han & _ & _).
  simpl in *. split_and!; try done. by apply local_records_answer.
Qed.
End forwarder.

(** ** Runs *)

Module ServerExample.
(** What a client sends. *)
Definition query_bytes (nm : string) (t : Z) : list byte :=
  match Pack (DnsExample.query nm t) with Ok (b, _) _ => b | _ => [] end.

Definition query_of (msg : list byte) : Msg :=
  match Unpack emptyMsg msg with Ok (m, _) _ => m | _ => emptyMsg end.

Definition serve (msg : list byte) : result (list (list byte) * nat) :=
  serveDNS (ServeDNS DnsExample.get DnsExample.read Example.handler0) false msg 0%nat.

(** A question that ends in the middle of its name. *)
Definition broken : list byte := take 20 (query_bytes "example.com." TypeA).
End ServerExample.

Lemma serveDNS_format_error_witness :
  exists b x, ServerExample.serve ServerExample.broken = Ok ([b], 0%nat) 0 /\
    Unpack emptyMsg b = Ok (x, None) (length b) /\ Id x = 7 /\ Rcode x = RcodeFormatError.
Proof.
  destruct (serveDNS_format_error DnsExample.get DnsExample.read Example.handler0 false ServerExample.broken 0%nat
    (ServerExample.query_of ServerExample.broken) (match Unpack emptyMsg ServerExample.broken with
       Ok (_, Some e) _ => e | _ => ErrBuf end)
    (match Unpack emptyMsg ServerExample.broken with Ok _ off => off | _ => 0%nat end))
    as (b & x & Hs & Hu & Hid & _ & Hrc & _).
  - vm_compute. reflexivity.
  - vm_compute. lia.
  - exists b, x. exact (conj Hs (conj Hu (conj Hid Hrc))).
Defined.

Lemma serveDNS_answers_witness :
  exists b x, ServerExample.serve (ServerExample.query_bytes "example.com." TypeA) = Ok ([b], 1%nat) 0 /\
    Unpack emptyMsg b = Ok (x, None) (length b) /\ Data <$> Answer x = [RR_A (net.To4 (net.ParseIP "93.184.216.34"))].
Proof.
  destruct (serveDNS_answers DnsExample.get DnsExample.read Example.handler0 false
    (ServerExample.query_bytes "example.com." TypeA) 0%nat (DnsExample.query "example.com." TypeA)
    (length (ServerExample.query_bytes "example.com." TypeA))
    (ServeDNS DnsExample.get DnsExample.read Example.handler0 (DnsExample.query "example.com." TypeA) 0%nat).1 1%nat)
    as (b & m' & Hs & (an & ns & ex & -> & Ha & _ & _) & Hu).
  - vm_compute. reflexivity.
  - reflexivity.
  - vm_compute. reflexivity.
  - split; [|vm_compute; done]. constructor; [|constructor]. repeat RoundTripExample.concrete.
  - exists b, (norm_Msg (with_sections (ServeDNS DnsExample.get DnsExample.read Example.handler0
      (DnsExample.query "example.com." TypeA) 0%nat).1 an ns ex)).
    split; [exact Hs|]. split; [exact Hu|].
    apply Forall2_cons_inv_l in Ha as (rr & ? & (l & ->) & ->%Forall2_nil_inv_l & ->). vm_compute. reflexivity.
Defined.

Lemma serveDNS_local_witness :
  exists b x, ServerExample.serve (ServerExample.query_bytes "rnd." TypeAAAA) = Ok ([b], 0%nat) 0 /\
    Unpack emptyMsg b = Ok (x, None) (length b) /\ Id x = 7 /\
    Data <$> Answer x = [RR_A (net.To4 Example.wlan)].
Proof.
  destruct (serveDNS_local DnsExample.get DnsExample.read Example.handler0 false
    (ServerExample.query_bytes "rnd." TypeAAAA) 0%nat (DnsExample.query "rnd." TypeAAAA)
    (length (ServerExample.query_bytes "rnd." TypeAAAA))) as (b & x & Hs & Hu & Hid & _ & _ & _ & Ha).
  - vm_compute. reflexivity.
  - reflexivity.
  - apply Forall_singleton. left. reflexivity.
  - left. reflexivity.
  - vm_compute. lia.
  - exists b, x. split; [exact Hs|]. split; [exact Hu|]. split; [exact Hid|].
    apply Forall2_cons_inv_l in Ha as (rr & ? & (_ & _ & _ & Hd) & ->%Forall2_nil_inv_l & ->).
    simpl. by rewrite Hd.
Defined.
