(* ===== verification/DnsTcp.v ===== *)
(** * DNS over TCP

    The part of [server.go] that serves a TCP connection: [readTCP], which takes a
    message off the stream, [serve] for a connection, and [Write], which frames the
    replies; with a handler that writes its reply and neither closes the connection
    nor takes it over.  Deadlines only show as errors of a read; writes succeed. *)

From Stdlib Require Import ZArith Lia NArith Ascii Strings.Byte Strings.String.
From stdpp Require Import base numbers gmap strings list fin_maps.
From S2P Require Import Prelude GoNet Endian Dhcp4 BridgeServices DnsRR Dns DnsName DnsField DnsMsg DnsServer.

Open Scope Z_scope.
Open Scope dns_scope.

Definition MaxMsgSize : nat := Z.to_nat 65535.
Definition maxTCPQueries : Z := 128.
Definition ErrShortRead : error := Error "short read".

(** ** Reading *)

(** What the connection has for its next reads: some bytes, of which a read takes
    as many as fit its buffer, or an error, which stays. *)
Inductive tcpRead :=
| Chunk (b : list byte)
| ConnError (e : error).

(** What is left of a chunk. *)
Definition unread (b : list byte) (events : list tcpRead) : list tcpRead :=
  match b with [] => events | _ => Chunk b :: events end.

(** [conn.Read] into a buffer of [k] bytes; [None] while nothing arrives. *)
Definition Read (k : nat) (events : list tcpRead) : option ((list byte + error) * list tcpRead) :=
  match events with
  | [] => None
  | Chunk b :: events => Some (inl (take k b), unread (drop k b) events)
  | ConnError e :: _ => Some (inr e, events)
  end.

(** The loop that fills the rest of the buffer, [need] bytes of it. *)
Fixpoint readRest (need : nat) (m : list byte) (events : list tcpRead) : option ((list byte + error) * list tcpRead) :=
  if decide (need = 0%nat) then Some (inl m, events)
  else
    match events with
    | [] => None
    | ConnError e :: _ => Some (inr e, events)
    | Chunk b :: events' =>
        if decide (length b < need)%nat then readRest (need - length b) (m ++ b) events'
        else Some (inl (m ++ take need b), unread (drop need b) events')
    end.

Definition readTCP (events : list tcpRead) : option ((list byte + error) * list tcpRead) :=
  match Read 2 events with
  | None => None
  | Some (inr e, events) => Some (inr e, events)
  | Some (inl l, events) =>
      if decide (length l <> 2%nat) then Some (inr ErrShortRead, events)
      else
        let length_ := Z.to_nat (bigEndian l) in
        if decide (length_ = 0%nat) then Some (inr ErrShortRead, events)
        else
          match Read length_ events with
          | None => None
          | Some (inr e, events) => Some (inr e, events)
          | Some (inl m, events) =>
              if decide (length m = 0%nat) then Some (inr ErrShortRead, events)
              else readRest (length_ - length m) m events
          end
  end.

(** ** Writing *)

(** [Write] on a TCP connection *)
Definition Write (m : list byte) : list byte + error :=
  let lm := length m in
  if decide (lm < 2)%nat then inr (ErrorString "short buffer")
  else if decide (MaxMsgSize < lm)%nat then inr (Error "message too large")
  else inl (be 2 (Z.of_nat lm) ++ m).

(** What a caller that ignores the error puts on the stream. *)
Definition written (m : list byte) : list byte := match Write m with inl w => w | inr _ => [] end.

(** ** A connection *)

Section serve.
Context {W : Type} (handler : Msg -> W -> Msg * W) (Unsafe : bool).

(** The loop of [serve]: what is written before the connection is closed.  The
    second component is [false] while the loop waits for the client. *)
Fixpoint serveTCPConn (turns : nat) (q limit : Z) (events : list tcpRead) (wd : W) : result (list byte * bool * W) :=
  if decide (q < limit \/ limit = -1) then
    match turns with
    | O => Hang
    | S turns =>
        match readTCP events with
        | None => Ok ([], false, wd) 0
        | Some (inr _, _) => Ok ([], true, wd) 0
        | Some (inl msg, events) =>
            let! r, _off := serveDNS handler Unsafe msg wd in
            let! rest, _off := serveTCPConn turns (q + 1) limit events r.2 in
            Ok (concat (map written r.1) ++ rest.1.1, rest.1.2, rest.2) 0
        end
    end
  else Ok ([], true, wd) 0.

(** The bytes that are there. *)
Definition available (events : list tcpRead) : nat :=
  sum_list_with (fun r => match r with Chunk b => length b | ConnError _ => 0%nat end) events.

Definition serve (MaxTCPQueries : Z) (events : list tcpRead) (wd : W) : result (list byte * bool * W) :=
  let limit := if decide (MaxTCPQueries = 0) then maxTCPQueries else MaxTCPQueries in
  serveTCPConn (S (available events)) 0 limit events wd.
End serve.

(** ** Streams *)

(** The chunks without their first [n] bytes. *)
Fixpoint dropBytes (n : nat) (ws : list (list byte)) : list (list byte) :=
  match ws with
  | [] => []
  | w :: ws => if decide (length w <= n)%nat then dropBytes (n - length w) ws else drop n w :: ws
  end.

Definition nonempty (ws : list (list byte)) : Prop := Forall (fun w => (0 < length w)%nat) ws.

Lemma dropBytes_0 ws : nonempty ws -> dropBytes 0 ws = ws.
Proof. intros [|w ws' Hw _]; [done|]. cbn [dropBytes]. rewrite decide_False by lia. by rewrite drop_0. Qed.

Lemma dropBytes_nonempty n ws : nonempty ws -> nonempty (dropBytes n ws).
Proof.
  intros Hn. revert n. induction Hn as [|w ws Hw Hws IH]; intros n; cbn [dropBytes]; [constructor|].
  case_decide; [apply IH|]. constructor; [rewrite length_drop; lia|done].
Qed.

Lemma dropBytes_add a b ws : nonempty ws -> dropBytes (a + b) ws = dropBytes b (dropBytes a ws).
Proof.
  intros Hn. revert a. induction Hn as [|w ws Hw Hws IH]; intros a; cbn [dropBytes]; [done|].
  destruct (decide (length w <= a)%nat) as [Ha|Ha].
  - rewrite decide_True by lia. rewrite <- IH. f_equal. lia.
  - cbn [dropBytes]. rewrite length_drop. destruct (decide (length w <= a + b)%nat).
    + rewrite decide_True by lia. f_equal. lia.
    + rewrite decide_False by lia. by rewrite drop_drop.
Qed.

Lemma concat_dropBytes n ws : concat (dropBytes n ws) = drop n (concat ws).
Proof.
  revert n. induction ws as [|w ws IH]; intros n; cbn [dropBytes concat]; [by rewrite drop_nil|].
  case_decide; [by rewrite drop_app_ge, IH by lia|]. cbn [concat]. by rewrite drop_app_le by lia.
Qed.

(** The rest of a chunk is what is dropped. *)
Lemma unread_chunks k w ws fin :
  nonempty (w :: ws) -> unread (drop k w) (map Chunk ws ++ fin) = map Chunk (dropBytes (min k (length w)) (w :: ws)) ++ fin.
Proof.
  intros Hn. apply Forall_cons in Hn as [Hw Hn]. cbn [dropBytes]. destruct (decide (length w <= k)%nat) as [Hk|Hk].
  - rewrite drop_ge by done. rewrite Nat.min_r, decide_True, Nat.sub_diag, dropBytes_0 by (done || lia). done.
  - rewrite Nat.min_l, decide_False by lia. unfold unread. destruct (drop k w) eqn:E; [|done].
    apply (f_equal length) in E. rewrite length_drop in E. simpl in E. lia.
Qed.

Lemma readRest_chunks need m ws fin :
  nonempty ws -> (need <= length (concat ws))%nat ->
  readRest need m (map Chunk ws ++ fin) = Some (inl (m ++ take need (concat ws)), map Chunk (dropBytes need ws) ++ fin).
Proof.
  intros Hn. revert need m. induction Hn as [|w ws Hw Hws IH]; intros need m Hl.
  - simpl in Hl. replace need with 0%nat by lia. destruct fin; simpl; by rewrite app_nil_r.
  - cbn [map app concat] in *. rewrite length_app in Hl. cbn [readRest]. case_decide as H0.
    { subst need. rewrite take_0, app_nil_r, dropBytes_0 by (by constructor). done. }
    case_decide as Hlt.
    + rewrite IH by lia. cbn [dropBytes]. rewrite decide_True by lia. rewrite take_app_ge by lia. by rewrite <- app_assoc.
    + rewrite unread_chunks by (by constructor). rewrite Nat.min_l, take_app_le by lia. done.
Qed.

Definition frame (m : list byte) : list byte := be 2 (Z.of_nat (length m)) ++ m.

Lemma written_frame m : (2 <= length m)%nat -> Z.of_nat (length m) < 2 ^ 16 -> written m = frame m.
Proof.
  intros H2 H16. unfold written, Write. rewrite decide_False by lia. rewrite decide_False by (unfold MaxMsgSize; lia). done.
Qed.

(** A message is read off the stream however it is cut, provided that the two bytes
    of its length arrive together. *)
Lemma readTCP_frame m tail w ws fin :
  (0 < length m)%nat -> Z.of_nat (length m) < 2 ^ 16 -> (2 <= length w)%nat -> nonempty (w :: ws) ->
  concat (w :: ws) = frame m ++ tail ->
  readTCP (map Chunk (w :: ws) ++ fin) = Some (inl m, map Chunk (dropBytes (2 + length m) (w :: ws)) ++ fin).
Proof.
  intros H0 H16 H2 Hn Hc. set (all := w :: ws) in *. unfold readTCP.
  assert (take 2 w = be 2 (Z.of_nat (length m))) as Hl.
  { apply (f_equal (take 2)) in Hc. unfold all, frame in Hc. cbn [concat] in Hc. rewrite <- app_assoc in Hc.
    rewrite take_app_le in Hc by lia. rewrite Hc. apply take_app_length'. by rewrite length_be. }
  unfold all at 1. cbn [map app Read]. rewrite Hl, length_be. rewrite decide_False by lia.
  rewrite unread_chunks by done. rewrite Nat.min_l by lia. fold all.
  rewrite bigEndian_be_id by (unfold in_width; change (256 ^ Z.of_nat 2) with (2 ^ 16); lia). rewrite Nat2Z.id, decide_False by lia.
  pose proof (dropBytes_nonempty 2 all Hn) as Hn2. pose proof (concat_dropBytes 2 all) as Hc2.
  rewrite Hc in Hc2. unfold frame in Hc2. rewrite <- app_assoc, (drop_app_length' _ _ 2) in Hc2 by (by rewrite length_be).
  rewrite (dropBytes_add 2 (length m)) by done. destruct (dropBytes 2 all) as [|w2 ws2].
  { apply (f_equal length) in Hc2. rewrite length_app in Hc2. simpl in Hc2. lia. }
  pose proof (Forall_inv Hn2) as Hw2. simpl in Hw2. cbn [map app Read]. rewrite length_take. rewrite decide_False by lia.
  rewrite unread_chunks by done. set (k := min (length m) (length w2)).
  rewrite readRest_chunks.
  - rewrite concat_dropBytes, <- dropBytes_add by done. do 2 f_equal; [f_equal|].
    + assert (take (length m) w2 = take k (concat (w2 :: ws2))) as ->.
      { cbn [concat]. unfold k. rewrite take_app_le by lia. destruct (decide (length m <= length w2)%nat); [by rewrite Nat.min_l by lia|].
        rewrite Nat.min_r, !take_ge by lia. done. }
      rewrite Hc2. rewrite take_take_drop. replace (k + (length m - k))%nat with (length m) by lia. by apply take_app_length'.
    + by replace (k + (length m - k))%nat with (length m) by lia.
  - by apply dropBytes_nonempty.
  - rewrite concat_dropBytes, Hc2, length_drop, length_app. lia.
Qed.

(** The length of each message arrives in one piece. *)
Fixpoint whole_lengths (ms ws : list (list byte)) : Prop :=
  match ms with
  | [] => True
  | m :: ms => match ws with w :: _ => (2 <= length w)%nat | [] => False end /\ whole_lengths ms (dropBytes (2 + length m) ws)
  end.

Section connection.
Context {W : Type} (handler : Msg -> W -> Msg * W) (Unsafe : bool).

(** The messages one after the other, each served like a datagram. *)
Fixpoint serveAll (ms : list (list byte)) (wd : W) : result (list (list byte) * W) :=
  match ms with
  | [] => Ok ([], wd) 0
  | m :: ms =>
      let! r, _off := serveDNS handler Unsafe m wd in
      let! rest, _off := serveAll ms r.2 in
      Ok (r.1 ++ rest.1, rest.2) 0
  end.

Lemma serveTCPConn_chunks turns q limit ms ws e wd :
  Forall (fun m => (0 < length m)%nat /\ Z.of_nat (length m) < 2 ^ 16) ms ->
  nonempty ws -> concat ws = concat (map frame ms) -> whole_lengths ms ws ->
  (length ms < turns)%nat -> limit = -1 \/ q + Z.of_nat (length ms) <= limit ->
  serveTCPConn handler Unsafe turns q limit (map Chunk ws ++ [ConnError e]) wd =
    (let! r, _off := serveAll ms wd in Ok (concat (map written r.1), true, r.2) 0).
Proof.
  intros Hms. revert turns q ws wd. induction Hms as [|m ms [H0 H16] _ IH]; intros turns q ws wd Hn Hc Hw Ht Hq.
  - assert (ws = []) as ->.
    { destruct ws as [|w ws]; [done|]. apply Forall_inv in Hn. apply (f_equal length) in Hc. simpl in Hc. rewrite length_app in Hc. simpl in *. lia. }
    destruct turns as [|turns]; [simpl in Ht; lia|]. cbn [serveTCPConn]. by case_decide.
  - cbn [length] in *. destruct turns as [|turns]; [lia|]. cbn [serveTCPConn]. rewrite decide_True by lia.
    destruct Hw as [H2 Hw]. destruct ws as [|w ws]; [done|]. cbn [map concat] in Hc.
    rewrite (readTCP_frame m (concat (map frame ms)) w ws) by done. cbn [serveAll].
    destruct (serveDNS handler Unsafe m wd) as [[sent wd1] ?| | |]; cbn [andThen fst snd]; [|done..].
    rewrite IH; [|by apply dropBytes_nonempty| |done|lia|lia].
    + destruct (serveAll ms wd1) as [[rest wd2] ?| | |]; cbn [andThen fst snd]; [|done..]. by rewrite map_app, concat_app.
    + rewrite concat_dropBytes. change (concat (w :: ws)) with (w ++ concat ws). cbn [concat] in Hc. rewrite Hc.
      apply drop_app_length'. unfold frame. by rewrite length_app, length_be.
Qed.

Lemma available_chunks ws fin : available (map Chunk ws ++ fin) = (length (concat ws) + available fin)%nat.
Proof. induction ws as [|w ws IH]; [done|]. cbn [map app concat]. unfold available in *. cbn [sum_list_with]. rewrite IH, length_app. lia. Qed.

Lemma length_frames ms : (length ms <= length (concat (map frame ms)))%nat.
Proof.
  induction ms as [|m ms IH]; [done|]. cbn [map concat length]. rewrite length_app. unfold frame at 1. rewrite length_app, length_be. lia.
Qed.

(** C23: A TCP connection is served message by message: when the messages of a client
    arrive on the stream, cut into pieces in any way that keeps the two bytes of each
    length together, and the client then ends, and they are no more than the limit,
    the server answers each of them, in order, exactly as it would answer a datagram,
    writes the replies to the stream, each behind its length, and closes the
    connection. *)
Theorem serve_connection MaxTCPQueries ms ws e wd :
  Forall (fun m => (0 < length m)%nat /\ Z.of_nat (length m) < 2 ^ 16) ms ->
  nonempty ws -> concat ws = concat (map frame ms) -> whole_lengths ms ws ->
  MaxTCPQueries = -1 \/ Z.of_nat (length ms) <= (if decide (MaxTCPQueries = 0) then 128 else MaxTCPQueries) ->
  serve handler Unsafe MaxTCPQueries (map Chunk ws ++ [ConnError e]) wd =
    (let! r, _off := serveAll ms wd in Ok (concat (map written r.1), true, r.2) 0).
Proof.
  intros Hms Hn Hc Hw Hq. unfold serve. apply serveTCPConn_chunks; [done..| |].
  - rewrite available_chunks, Hc. pose proof (length_frames ms). lia.
  - unfold maxTCPQueries. destruct Hq as [->|Hq]; [by left|right]. by case_decide; lia.
Qed.

(** A length that arrives in two pieces ends the connection. *)
Lemma split_length_closes MaxTCPQueries b events wd :
  0 <= MaxTCPQueries -> serve handler Unsafe MaxTCPQueries (Chunk [b] :: events) wd = Ok ([], true, wd) 0.
Proof. intros Hm. unfold serve, maxTCPQueries. cbn [serveTCPConn]. rewrite decide_True by (case_decide; lia). done. Qed.
End connection.

(** ** A run: two queries in three pieces. *)

Module TcpExample.
Definition q1 : list byte := ServerExample.query_bytes "rnd." TypeA.
Definition q2 : list byte := ServerExample.query_bytes "example.com." TypeA.
Definition stream : list byte := frame q1 ++ frame q2.
Definition pieces : list (list byte) := [take 5 stream; take 20 (drop 5 stream); drop 25 stream].

Definition connection (events : list tcpRead) : result (list byte * bool * nat) :=
  serve (ServeDNS DnsExample.get DnsExample.read Example.handler0) false 0 events 0%nat.

Definition replies : list byte :=
  match serveAll (ServeDNS DnsExample.get DnsExample.read Example.handler0) false [q1; q2] 0%nat with
  | Ok (sent, _) _ => concat (map written sent)
  | _ => []
  end.

Lemma sizes : (length q1 = 21 /\ length q2 = 29)%nat.
Proof. split; vm_compute; reflexivity. Qed.

Lemma serve_connection_witness :
  connection (map Chunk pieces ++ [ConnError (ErrorString "EOF")]) = Ok (replies, true, 1%nat) 0 /\ replies <> [].
Proof.
  destruct sizes as [H1 H2]. split.
  - unfold connection. rewrite (serve_connection (ServeDNS DnsExample.get DnsExample.read Example.handler0) false 0 [q1; q2] pieces).
    + vm_compute. reflexivity.
    + apply Forall_cons. rewrite H1. split; [split; [lia|reflexivity]|]. apply Forall_cons. rewrite H2. split; [split; [lia|reflexivity]|done].
    + apply Forall_forall. intros w Hw. assert (length <$> pieces = [5; 20; 29]%nat) as E by (vm_compute; reflexivity).
      assert (length w ∈ length <$> pieces) as He by by apply list_elem_of_fmap_2. rewrite E in He.
      set_unfold in He. lia.
    + vm_compute. reflexivity.
    + split; [vm_compute; lia|]. split; [vm_compute; lia|exact I].
    + right. cbn [length]. rewrite decide_True by done. lia.
  - vm_compute. discriminate.
Defined.
End TcpExample.
