(* ===== verification/DnsMux.v ===== *)
(** * Labels of names, and the multiplexer

    [labels.go], [Fqdn] of [defaults.go] and the [ServeMux] of [server.go].  Names
    are byte strings; the map of the multiplexer is keyed by texts. *)

From Stdlib Require Import ZArith Lia NArith Ascii Strings.Byte Strings.String.
From stdpp Require Import base numbers gmap strings list fin_maps.
From S2P Require Import Prelude GoNet DnsRR.

Open Scope Z_scope.

Definition dot : byte := "."%byte.
Definition backslash : byte := "092"%byte.

(** ** Labels *)

(** The loop of [NextLabel] on the rest of the name at index [i]; it stops before
    the last byte. *)
Fixpoint nextLabel (w : list byte) (i : nat) (quote : bool) : nat * bool :=
  match w with
  | b :: w =>
      if decide (w = []) then (S i, true)
      else if decide (b = backslash) then nextLabel w (S i) (negb quote)
      else if decide (b = dot) then if quote then nextLabel w (S i) false else (S i, false)
      else nextLabel w (S i) false
  | [] => (S i, true)
  end.

Definition NextLabel (s : list byte) (offset : nat) : nat * bool := nextLabel (drop offset s) offset false.

(** The loop of [Split]; a turn takes at least a byte. *)
Fixpoint splitLoop (turns : nat) (s : list byte) (off : nat) (idx : list nat) : list nat :=
  match turns with
  | O => idx
  | S turns =>
      let '(off, end_) := NextLabel s off in
      if end_ then idx else splitLoop turns s off (idx ++ [off])
  end.

Definition Split (s : list byte) : list nat :=
  if decide (s = [dot]) then [] else splitLoop (S (length s)) s 0 [0%nat].

(** The loop of [CountLabel] *)
Fixpoint countLoop (turns : nat) (s : list byte) (off : nat) (labels : Z) : Z :=
  match turns with
  | O => labels
  | S turns =>
      let '(off, end_) := NextLabel s off in
      if end_ then labels + 1 else countLoop turns s off (labels + 1)
  end.

Definition CountLabel (s : list byte) : Z :=
  if decide (s = [dot]) then 0 else countLoop (S (length s)) s 0 0.

(** [s[i:j]] of a string *)
Definition substr (s : list byte) (i j : nat) : outcome (list byte) :=
  if decide (i <= j <= length s)%nat then Ret (take (j - i) (drop i s)) else Panic SliceOutOfRange.

(** The loop of [SplitDomainName] over the starts of the labels. *)
Fixpoint labelsLoop (s : list byte) (begin : nat) (idx : list nat) (labels : list (list byte)) : outcome (list (list byte) * nat) :=
  match idx with
  | [] => Ret (labels, begin)
  | end_ :: idx =>
      if decide (end_ = 0%nat) then Panic SliceOutOfRange
      else l ← substr s begin (end_ - 1); labelsLoop s end_ idx (labels ++ [l])
  end.

Definition IsFqdn (s : list byte) : bool := bool_decide (last s = Some dot).

Definition Fqdn (s : list byte) : list byte := if IsFqdn s then s else s ++ [dot].

Definition SplitDomainName (s : list byte) : outcome (list (list byte)) :=
  if decide (s = []) then Ret []
  else
    let fqdnEnd := if IsFqdn s then (length s - 1)%nat else length s in
    match Split s with
    | [] => Ret []
    | _ :: idx =>
        '(labels, begin) ← labelsLoop s 0 idx [];
        l ← substr s begin fqdnEnd;
        Ret (labels ++ [l])
    end.

(** The index and whether the start has been overshot; a negative [n] indexes past
    the labels. *)
Definition PrevLabel (s : list byte) (n : Z) : outcome (nat * bool) :=
  if decide (n = 0) then Ret (length s, false)
  else
    let lab := Split s in
    if decide (lab = []) then Ret (0%nat, true)
    else if decide (Z.of_nat (length lab) < n) then Ret (0%nat, true)
    else match lab !! Z.to_nat (Z.of_nat (length lab) - n) with
         | Some i => Ret (i, false)
         | None => Panic IndexOutOfRange
         end.

(** A byte in lower case. *)
Definition lower (b : byte) : byte :=
  if decide (65 <= u8 b <= 90) then byte_of_Z (Z.lor (u8 b) 32) else b.

Definition equal (a b : list byte) : bool := bool_decide (lower <$> a = lower <$> b).

(** The loop of [CompareDomainName]: the labels before the last, from the right;
    the starts of the labels are in reverse. *)
Fixpoint compareLoop (s1 s2 : list byte) (j1 j2 : nat) (l1 l2 : list nat) (n : Z) : outcome Z :=
  match l1, l2 with
  | i1 :: l1, i2 :: l2 =>
      a ← substr s1 i1 j1;
      b ← substr s2 i2 j2;
      if equal a b then compareLoop s1 s2 i1 i2 l1 l2 (n + 1) else Ret n
  | _, _ => Ret n
  end.

Definition CompareDomainName (s1 s2 : list byte) : outcome Z :=
  if decide (s1 = [dot] \/ s2 = [dot]) then Ret 0
  else
    match reverse (Split s1), reverse (Split s2) with
    | j1 :: l1, j2 :: l2 =>
        a ← substr s1 j1 (length s1);
        b ← substr s2 j2 (length s2);
        if equal a b then compareLoop s1 s2 j1 j2 l1 l2 1 else Ret 0
    | _, _ => Panic IndexOutOfRange
    end.

(** ** The multiplexer

    Its operations hold its lock throughout, so each is one step.  The handlers
    registered are not nil. *)

Section mux.
Context {Handler : Type}.

Record ServeMux := { mux_z : gmap string Handler }.

Definition NewServeMux : ServeMux := {| mux_z := ∅ |}.

Definition invalid_pattern : panic := PanicValue "dns: invalid pattern ".

Definition Handle (mux : ServeMux) (pattern : list byte) (handler : Handler) : outcome ServeMux :=
  if decide (pattern = []) then Panic invalid_pattern
  else Ret {| mux_z := <[text (Fqdn pattern) := handler]> (mux_z mux) |}.

Definition HandleRemove (mux : ServeMux) (pattern : list byte) : outcome ServeMux :=
  if decide (pattern = []) then Panic invalid_pattern
  else Ret {| mux_z := delete (text (Fqdn pattern)) (mux_z mux) |}.

Definition zone (mux : ServeMux) (w : list byte) : option Handler := mux_z mux !! text w.

(** The loop of [match]: the handler to return at once, or the last one found. *)
Fixpoint matchLoop (turns : nat) (mux : ServeMux) (q : list byte) (t : Z) (off : nat) (handler : option Handler) :
    Handler + option Handler :=
  match turns with
  | O => inr handler
  | S turns =>
      let found := zone mux (lower <$> drop off q) in
      match found with
      | Some h => if decide (t <> TypeDS) then inl h else
                    let '(off, end_) := NextLabel q off in
                    if end_ then inr (Some h) else matchLoop turns mux q t off (Some h)
      | None =>
          let '(off, end_) := NextLabel q off in
          if end_ then inr handler else matchLoop turns mux q t off handler
      end
  end.

Definition match_ (mux : ServeMux) (q : list byte) (t : Z) : option Handler :=
  match matchLoop (S (length q)) mux q t 0 None with
  | inl h => Some h
  | inr handler =>
      match zone mux [dot] with
      | Some h => Some h
      | None => handler
      end
  end.

(** [ServeDNS]: the handler the request goes to, [failedHandler()] if there is none. *)
Definition dispatch (mux : ServeMux) (failedHandler : Handler) (request : Msg) : Handler :=
  match Msg_Question request with
  | [] => failedHandler
  | q :: _ => default failedHandler (match_ mux (bytes (Q_Name q)) (Qtype q))
  end.
End mux.
Arguments ServeMux : clear implicits.

(** ** Names made of labels *)

(** A label with its escapes: no dot ends it early, and no escape is left open. *)
Fixpoint scanLabel (quote : bool) (w : list byte) : option bool :=
  match w with
  | [] => Some quote
  | b :: w =>
      if decide (b = backslash) then scanLabel (negb quote) w
      else if decide (b = dot) then if quote then scanLabel false w else None
      else scanLabel false w
  end.

Definition is_label (w : list byte) : Prop := w <> [] /\ scanLabel false w = Some false.

(** The name of the labels; the root has none. *)
Definition joined (ls : list (list byte)) : list byte := concat (map (fun l => l ++ [dot]) ls).
Definition nameOf (ls : list (list byte)) : list byte := match ls with [] => [dot] | _ => joined ls end.

Lemma nextLabel_scan w rest i quote :
  scanLabel quote w = Some false ->
  nextLabel (w ++ dot :: rest) i quote = (i + length w + 1, bool_decide (rest = []))%nat.
Proof.
  revert i quote. induction w as [|b w IH]; intros i quote Hs; cbn [scanLabel] in Hs.
  - injection Hs as ->. cbn [app nextLabel length]. destruct rest as [|r rest].
    + rewrite decide_True, bool_decide_true by done. f_equal. lia.
    + rewrite decide_False, decide_False, decide_True, bool_decide_false by done. f_equal. lia.
  - cbn [app nextLabel length]. rewrite (decide_False (P := w ++ dot :: rest = [])) by (by destruct w).
    case_decide; [rewrite (IH (S i)) by done; f_equal; lia|]. case_decide.
    + destruct quote; [|done]. rewrite (IH (S i)) by done. f_equal. lia.
    + rewrite (IH (S i)) by done. f_equal. lia.
Qed.

Lemma joined_nil ls : Forall is_label ls -> joined ls = [] <-> ls = [].
Proof. destruct ls as [|l ls]; [done|]. intros _. unfold joined. cbn. rewrite <- app_assoc. split; [|done]. by destruct l. Qed.

(** From the start of a label to the next. *)
Lemma NextLabel_joined pre l ls :
  is_label l -> Forall is_label ls ->
  NextLabel (pre ++ joined (l :: ls)) (length pre) = (length (pre ++ l ++ [dot]), bool_decide (ls = [])).
Proof.
  intros [_ Hl] Hls. unfold NextLabel. rewrite drop_app_length.
  change (joined (l :: ls)) with ((l ++ [dot]) ++ joined ls). rewrite <- app_assoc. cbn [app].
  rewrite nextLabel_scan by done. rewrite !length_app. cbn [length]. f_equal; [lia|].
  apply bool_decide_ext. by apply joined_nil.
Qed.

(** Where the labels start. *)
Fixpoint starts (off : nat) (ls : list (list byte)) : list nat :=
  match ls with
  | [] => []
  | l :: ls => off :: starts (off + length l + 1) ls
  end.

Lemma joined_cons l ls : joined (l :: ls) = (l ++ [dot]) ++ joined ls.
Proof. done. Qed.

Lemma splitLoop_joined turns pre l ls idx :
  is_label l -> Forall is_label ls -> (length ls < turns)%nat ->
  splitLoop turns (pre ++ joined (l :: ls)) (length pre) idx = idx ++ starts (length pre + length l + 1) ls.
Proof.
  intros Hl Hls. revert turns pre l Hl idx. induction Hls as [|l2 ls Hl2 Hls IH]; intros turns pre l Hl idx Ht; cbn [length] in Ht;
    (destruct turns as [|turns]; [lia|]); cbn [splitLoop]; rewrite NextLabel_joined by (done || by constructor).
  - rewrite bool_decide_true by done. by rewrite app_nil_r.
  - rewrite bool_decide_false by done. rewrite joined_cons, app_assoc, IH by (done || lia).
    rewrite !length_app. cbn [starts length]. rewrite <- app_assoc. cbn [app]. by rewrite !Nat.add_assoc.
Qed.

Lemma joined_not_root l ls : is_label l -> joined (l :: ls) <> [dot].
Proof.
  intros [Hne Hs] E. rewrite joined_cons in E. apply (f_equal length) in E as El. rewrite !length_app in El. cbn [length] in El.
  destruct l; [done|]. cbn [length] in El. lia.
Qed.

Lemma length_joined ls : (length ls <= length (joined ls))%nat.
Proof. induction ls as [|l ls IH]; [done|]. rewrite joined_cons, !length_app. cbn [length]. lia. Qed.

Lemma Split_nameOf ls : Forall is_label ls -> Split (nameOf ls) = starts 0 ls.
Proof.
  intros Hls. unfold Split. destruct Hls as [|l ls Hl Hls]; [by rewrite decide_True by done|]. cbn [nameOf].
  rewrite decide_False by (by apply joined_not_root). pose proof (length_joined (l :: ls)).
  by rewrite (splitLoop_joined _ [] l ls) by (done || cbn [length] in *; lia).
Qed.

Lemma substr_app a b c : substr (a ++ b ++ c) (length a) (length a + length b) = Ret b.
Proof.
  unfold substr. rewrite decide_True by (rewrite !length_app; lia).
  by rewrite drop_app_length, Nat.add_comm, Nat.add_sub, take_app_length.
Qed.

Lemma labelsLoop_starts pre l ls labels :
  labelsLoop (pre ++ joined (l :: ls)) (length pre) (starts (length pre + length l + 1) ls) labels =
    Ret (labels ++ removelast (l :: ls), length (pre ++ joined (removelast (l :: ls)))).
Proof.
  revert pre l labels. induction ls as [|l2 ls IH]; intros pre l labels; cbn [starts labelsLoop].
  - cbn [removelast]. by rewrite !app_nil_r.
  - rewrite decide_False by lia. rewrite Nat.add_sub, joined_cons, <- app_assoc, substr_app, bind_ret.
    pose proof (IH (pre ++ l ++ [dot]) l2 (labels ++ [l])) as E. rewrite !length_app in E. cbn [length] in E.
    rewrite <- !app_assoc in E. rewrite !Nat.add_assoc in E. cbn [app] in *. rewrite E. f_equal. f_equal.
    change (removelast (l :: l2 :: ls)) with (l :: removelast (l2 :: ls)). rewrite joined_cons, !length_app. cbn [length]. lia.
Qed.

Lemma joined_app ls1 ls2 : joined (ls1 ++ ls2) = joined ls1 ++ joined ls2.
Proof. unfold joined. by rewrite map_app, concat_app. Qed.

Lemma joined_snoc ls l : joined (ls ++ [l]) = joined ls ++ l ++ [dot].
Proof. rewrite joined_app. unfold joined at 2. cbn. by rewrite app_nil_r. Qed.

(** Splitting a name into its labels gives them back. *)
Lemma SplitDomainName_labels ls : Forall is_label ls -> SplitDomainName (nameOf ls) = Ret ls.
Proof.
  intros Hls. unfold SplitDomainName. rewrite Split_nameOf by done. destruct Hls as [|l ls Hl Hls]; [done|].
  rewrite decide_False by (intros E%joined_nil; [done|by constructor]).
  destruct (exists_last (l := l :: ls) ltac:(done)) as (init & lst & E).
  assert (removelast (l :: ls) = init) as Hinit by (rewrite E; apply removelast_last).
  cbn [starts]. pose proof (labelsLoop_starts [] l ls []) as Hloop. cbn [app length] in Hloop. cbn [nameOf].
  rewrite Hloop, bind_ret, Hinit. cbn [app]. rewrite E, joined_snoc.
  assert (IsFqdn (joined init ++ lst ++ [dot]) = true) as ->.
  { unfold IsFqdn. apply bool_decide_true. by rewrite app_assoc, last_snoc. }
  replace (length (joined init ++ lst ++ [dot]) - 1)%nat with (length (joined init) + length lst)%nat
    by (rewrite !length_app; cbn [length]; lia).
  by rewrite substr_app, bind_ret.
Qed.

Lemma countLoop_joined turns pre l ls n :
  is_label l -> Forall is_label ls -> (length ls < turns)%nat ->
  countLoop turns (pre ++ joined (l :: ls)) (length pre) n = n + Z.of_nat (length (l :: ls)).
Proof.
  intros Hl Hls. revert turns pre l Hl n. induction Hls as [|l2 ls Hl2 Hls IH]; intros turns pre l Hl n Ht; cbn [length] in Ht;
    (destruct turns as [|turns]; [lia|]); cbn [countLoop]; rewrite NextLabel_joined by (done || by constructor).
  - by rewrite bool_decide_true.
  - rewrite bool_decide_false by done. rewrite joined_cons, app_assoc, IH by (done || lia). cbn [length]. lia.
Qed.

Lemma CountLabel_labels ls : Forall is_label ls -> CountLabel (nameOf ls) = Z.of_nat (length ls).
Proof.
  intros Hls. unfold CountLabel. destruct Hls as [|l ls Hl Hls]; [by rewrite decide_True by done|]. cbn [nameOf].
  rewrite decide_False by (by apply joined_not_root). pose proof (length_joined (l :: ls)).
  by rewrite (countLoop_joined _ [] l ls) by (done || cbn [length] in *; lia).
Qed.

(** *** Comparing names *)

Fixpoint common (r1 r2 : list (list byte)) : Z :=
  match r1, r2 with
  | a :: r1, b :: r2 => if equal a b then 1 + common r1 r2 else 0
  | _, _ => 0
  end.

Lemma starts_snoc off ls l : starts off (ls ++ [l]) = starts off ls ++ [(off + length (joined ls))%nat].
Proof.
  revert off. induction ls as [|a ls IH]; intros off; cbn [app starts]; [by rewrite Nat.add_0_r|].
  rewrite IH, joined_cons, !length_app. cbn [length app]. do 3 f_equal. lia.
Qed.

Lemma equal_dot a b : equal (a ++ [dot]) (b ++ [dot]) = equal a b.
Proof.
  unfold equal. apply bool_decide_ext. rewrite !fmap_app. split; [by intros ?%(inj (.++ _))|by intros ->].
Qed.

Lemma compareLoop_joined ls1 ls2 rest1 rest2 n :
  compareLoop (joined ls1 ++ rest1) (joined ls2 ++ rest2) (length (joined ls1)) (length (joined ls2))
    (reverse (starts 0 ls1)) (reverse (starts 0 ls2)) n = Ret (n + common (reverse ls1) (reverse ls2)).
Proof.
  revert ls2 rest1 rest2 n. induction ls1 as [|l1 ls1 IH] using rev_ind; intros ls2 rest1 rest2 n; [cbn; f_equal; lia|].
  rewrite starts_snoc, !reverse_app. cbn [reverse rev_append app]. destruct ls2 as [|l2 ls2 _] using rev_ind; [cbn; f_equal; lia|].
  rewrite starts_snoc, !reverse_app. cbn [reverse rev_append app compareLoop common Nat.add]. rewrite !joined_snoc.
  rewrite <- !(app_assoc _ (_ ++ [dot]) _). rewrite !(length_app (joined _)). rewrite !substr_app, !bind_ret, equal_dot.
  destruct (equal l1 l2); [|f_equal; lia]. rewrite IH. f_equal. lia.
Qed.

Lemma CompareDomainName_common ls1 ls2 :
  Forall is_label ls1 -> Forall is_label ls2 ->
  CompareDomainName (nameOf ls1) (nameOf ls2) = Ret (common (reverse ls1) (reverse ls2)).
Proof.
  intros H1 H2. unfold CompareDomainName. rewrite !Split_nameOf by done.
  destruct ls1 as [|l1 ls1 _] using rev_ind; [by rewrite decide_True by (by left)|].
  destruct ls2 as [|l2 ls2 _] using rev_ind.
  { rewrite decide_True by (by right). rewrite reverse_app. cbn [reverse rev_append app common]. done. }
  assert (forall ls l, Forall is_label (ls ++ [l]) -> nameOf (ls ++ [l]) = joined ls ++ l ++ [dot] /\ nameOf (ls ++ [l]) <> [dot]) as Hn.
  { intros ls l Hls. destruct ls as [|a ls]; cbn [app nameOf].
    - split; [by rewrite joined_cons, app_nil_r|]. apply joined_not_root. by apply Forall_cons in Hls as [? _].
    - split; [by rewrite app_comm_cons, joined_snoc|]. apply joined_not_root. by apply Forall_cons in Hls as [? _]. }
  destruct (Hn ls1 l1 H1) as [E1 N1], (Hn ls2 l2 H2) as [E2 N2]. rewrite decide_False by (by intros [?|?]).
  rewrite !starts_snoc, !reverse_app. cbn [reverse rev_append app Nat.add common]. rewrite E1, E2.
  assert (forall ls l, substr (joined ls ++ l ++ [dot]) (length (joined ls)) (length (joined ls ++ l ++ [dot])) = Ret (l ++ [dot])) as Hs.
  { intros ls l. pose proof (substr_app (joined ls) (l ++ [dot]) []) as E. rewrite app_nil_r in E. by rewrite length_app. }
  rewrite !Hs, !bind_ret, equal_dot. destruct (equal l1 l2); [|done]. by rewrite compareLoop_joined.
Qed.

Lemma lookup_starts off ls i :
  (i < length ls)%nat -> starts off ls !! i = Some (off + length (joined (take i ls)))%nat.
Proof.
  revert off i. induction ls as [|l ls IH]; intros off [|i] Hi; cbn [length] in Hi; [lia..|cbn; f_equal; lia|].
  cbn [starts lookup list_lookup take]. rewrite IH, joined_cons, !length_app by lia. cbn [length]. f_equal. lia.
Qed.

Lemma length_starts off ls : length (starts off ls) = length ls.
Proof. revert off. induction ls as [|l ls IH]; intros off; cbn; auto. Qed.

(** [n] labels from the right. *)
Lemma PrevLabel_labels ls n :
  Forall is_label ls -> (0 < n <= length ls)%nat ->
  PrevLabel (nameOf ls) (Z.of_nat n) = Ret (length (joined (take (length ls - n) ls)), false).
Proof.
  intros Hls Hn. unfold PrevLabel. rewrite Split_nameOf, length_starts, decide_False by (done || lia).
  rewrite decide_False by (intros E%(f_equal length); rewrite length_starts in E; cbn in E; lia).
  rewrite decide_False by lia. replace (Z.to_nat _) with (length ls - n)%nat by lia.
  by rewrite lookup_starts by lia.
Qed.

(** ** What the multiplexer chooses *)

(** The name and its ancestors below the root, the closest first. *)
Fixpoint zones (ls : list (list byte)) : list (list (list byte)) :=
  match ls with
  | [] => []
  | _ :: rest => ls :: zones rest
  end.

Section choose.
Context {Handler : Type}.
Implicit Types (mux : ServeMux Handler) (handler : option Handler).

(** The handlers of the zones, in their order. *)
Definition registered mux (ls : list (list (list byte))) : list Handler :=
  omap (fun l => zone mux (lower <$> nameOf l)) ls.

(** What the loop ends with on the handlers it meets. *)
Definition settled (t : Z) handler (met : list Handler) : Handler + option Handler :=
  if decide (t = TypeDS) then inr (match last met with Some h => Some h | None => handler end)
  else match met with h :: _ => inl h | [] => inr handler end.

Lemma matchLoop_joined turns mux pre l ls t handler :
  is_label l -> Forall is_label ls -> (length ls < turns)%nat ->
  matchLoop turns mux (pre ++ joined (l :: ls)) t (length pre) handler = settled t handler (registered mux (zones (l :: ls))).
Proof.
  intros Hl Hls. revert turns pre l Hl handler.
  induction Hls as [|l2 ls Hl2 Hls IH]; intros turns pre l Hl handler Ht; cbn [length] in Ht;
    (destruct turns as [|turns]; [lia|]); cbn [matchLoop]; rewrite drop_app_length, NextLabel_joined by (done || by constructor).
  - rewrite bool_decide_true by done. unfold registered. cbn [zones omap list_omap nameOf].
    destruct (zone mux _); unfold settled; repeat case_decide; done.
  - rewrite bool_decide_false by done. rewrite (joined_cons l), app_assoc.
    unfold registered. cbn [zones omap list_omap nameOf]. rewrite (joined_cons l).
    change (omap _ (zones (l2 :: ls))) with (registered mux (zones (l2 :: ls))).
    destruct (zone mux _) as [h|]; [|by rewrite IH by (done || lia)].
    unfold settled. repeat case_decide; try done. rewrite IH by (done || lia). unfold settled. rewrite decide_True by done.
    rewrite last_cons. by destruct (last _).
Qed.

Lemma registered_root mux ls :
  registered mux (ls ++ [[]]) = registered mux ls ++ match zone mux [dot] with Some h => [h] | None => [] end.
Proof. unfold registered. rewrite omap_app. f_equal. Qed.

Lemma match_settled mux ls t :
  Forall is_label ls ->
  match_ mux (nameOf ls) t
  = (if decide (t = TypeDS) then last else head) (registered mux (zones ls ++ [[]])).
Proof.
  intros Hls. rewrite registered_root. unfold match_. destruct Hls as [|l ls Hl Hls].
  - cbn [nameOf length matchLoop]. change (lower <$> drop 0 [dot]) with [dot]. change (NextLabel [dot] 0) with (1%nat, true).
    destruct (zone mux [dot]); repeat case_decide; done.
  - cbn [nameOf]. pose proof (length_joined (l :: ls)).
    rewrite (matchLoop_joined _ mux [] l ls) by (done || cbn [length] in *; lia). unfold settled. case_decide.
    + destruct (zone mux [dot]); [by rewrite last_snoc|rewrite app_nil_r]. by destruct (last _).
    + destruct (registered mux _); [|done]. by destruct (zone mux [dot]).
Qed.

(** Only names in lower case are looked up. *)
Lemma lower_idempotent b : lower (lower b) = lower b.
Proof. destruct b; vm_compute; reflexivity. Qed.

Lemma lower_lower (w : list byte) : lower <$> (lower <$> w) = lower <$> w.
Proof. rewrite <- list_fmap_compose. apply list_fmap_ext. intros _ b _. apply lower_idempotent. Qed.

Lemma matchLoop_ext mux mux' turns q t off handler :
  (forall w, zone mux' (lower <$> w) = zone mux (lower <$> w)) ->
  matchLoop turns mux' q t off handler = matchLoop turns mux q t off handler.
Proof.
  intros Hz. revert off handler. induction turns as [|turns IH]; intros off handler; [done|]. cbn [matchLoop]. rewrite Hz.
  destruct (zone mux _), (NextLabel q off) as [off' []]; repeat case_decide; auto.
Qed.

Lemma match_ext mux mux' q t :
  (forall w, zone mux' (lower <$> w) = zone mux (lower <$> w)) -> match_ mux' q t = match_ mux q t.
Proof. intros Hz. unfold match_. rewrite (matchLoop_ext mux mux') by done. by rewrite (Hz [dot] : zone mux' [dot] = zone mux [dot]). Qed.

Lemma zone_Handle mux pattern h mux' w :
  Handle mux pattern h = Ret mux' -> zone mux' w = if decide (w = Fqdn pattern) then Some h else zone mux w.
Proof.
  unfold Handle. case_decide; [done|]. intros [= <-]. unfold zone. cbn [mux_z]. case_decide as E; [subst w; by rewrite lookup_insert_eq|].
  rewrite lookup_insert_ne; [done|]. intros Et. apply E. by rewrite <- (bytes_text w), <- Et, bytes_text.
Qed.

Lemma match_exact mux q t h : zone mux (lower <$> q) = Some h -> t <> TypeDS -> match_ mux q t = Some h.
Proof. intros Hz Ht. unfold match_. cbn [matchLoop]. by rewrite drop_0, Hz, decide_True by done. Qed.

(** C24: The multiplexer sends a query to the handler of the closest zone registered
    for the name of its first question, in lower case, the root last; a query for
    a DS record goes to the handler of the farthest; with none, the query goes to
    the handler that answers SERVFAIL.  However many questions follow, only the
    first decides: a query with several is not refused, although the comment of
    [ServeDNS] says it is. *)
Theorem dispatch_chooses mux failedHandler m q rest ls :
  Msg_Question m = q :: rest -> bytes (Q_Name q) = nameOf ls -> Forall is_label ls ->
  dispatch mux failedHandler m
  = default failedHandler ((if decide (Qtype q = TypeDS) then last else head) (registered mux (zones ls ++ [[]]))).
Proof. intros Hm Hq Hls. unfold dispatch. by rewrite Hm, Hq, match_settled. Qed.

(** Registering a pattern makes its handler the one for every name that in lower
    case is the pattern, DS queries aside; so registering a pattern with an upper-case
    letter changes the handler of no query at all. *)
Theorem Handle_effect mux pattern h mux' :
  Handle mux pattern h = Ret mux' ->
  (forall q t, lower <$> q = Fqdn pattern -> t <> TypeDS -> match_ mux' q t = Some h)
  /\ (lower <$> Fqdn pattern <> Fqdn pattern -> forall q t, match_ mux' q t = match_ mux q t).
Proof.
  intros Hh. split.
  - intros q t Hq Ht. apply match_exact; [|done]. rewrite (zone_Handle _ _ _ _ _ Hh). by rewrite decide_True.
  - intros Hu q t. apply match_ext. intros w. rewrite (zone_Handle _ _ _ _ _ Hh), decide_False; [done|].
    intros E. apply Hu. by rewrite <- E, lower_lower.
Qed.

Lemma zone_HandleRemove mux pattern mux' w :
  HandleRemove mux pattern = Ret mux' -> zone mux' w = if decide (w = Fqdn pattern) then None else zone mux w.
Proof.
  unfold HandleRemove. case_decide; [done|]. intros [= <-]. unfold zone. cbn [mux_z]. case_decide as E; [subst w; by rewrite lookup_delete_eq|].
  rewrite lookup_delete_ne; [done|]. intros Et. apply E. by rewrite <- (bytes_text w), <- Et, bytes_text.
Qed.
End choose.

(** C25: A name made of labels is taken apart as it was made: [SplitDomainName] gives
    the labels back, escaped dots and all, [CountLabel] their number, [PrevLabel] the
    place where the last [n] of them start, and [CompareDomainName] the number of
    labels two names have in common from the right, up to case. *)
Theorem name_labels ls :
  Forall is_label ls ->
  SplitDomainName (nameOf ls) = Ret ls
  /\ CountLabel (nameOf ls) = Z.of_nat (length ls)
  /\ (forall n, (0 < n <= length ls)%nat ->
      PrevLabel (nameOf ls) (Z.of_nat n) = Ret (length (joined (take (length ls - n) ls)), false))
  /\ (forall ls2, Forall is_label ls2 ->
      CompareDomainName (nameOf ls) (nameOf ls2) = Ret (common (reverse ls) (reverse ls2))).
Proof.
  intros Hls. split; [by apply SplitDomainName_labels|]. split; [by apply CountLabel_labels|].
  split; [intros n; by apply PrevLabel_labels|intros ls2; by apply CompareDomainName_common].
Qed.

(** ** Examples *)

Module MuxExample.
Definition labels (l : list string) : list (list byte) := bytes <$> l.
Definition www : list (list byte) := labels ["www"; "Exa\.mple"; "com"]%string.

Lemma www_labels : Forall is_label www.
Proof. repeat (apply Forall_cons; split; [split; [discriminate|reflexivity]|]). done. Qed.

Definition mux : ServeMux nat :=
  {| mux_z := list_to_map [("exa\.mple.com.", 1%nat); ("com.", 2%nat)]%string |}.

Definition question (t : Z) : Question := {| Q_Name := text (nameOf www); Qtype := t; Qclass := 1 |}.
Definition ask (t : Z) : Msg :=
  {| Id := 7; Response := false; Opcode := 0; Authoritative := false; Truncated := false; RecursionDesired := true;
     RecursionAvailable := false; Zero := false; AuthenticatedData := false; CheckingDisabled := false; Rcode := 0;
     Compress := false; Msg_Question := [question t; {| Q_Name := "org."; Qtype := 1; Qclass := 1 |}];
     Answer := []; Msg_Ns := []; Extra := [] |}.

Lemma dispatch_chooses_witness :
  dispatch mux 0%nat (ask 1) = 1%nat /\ dispatch mux 0%nat (ask TypeDS) = 2%nat.
Proof.
  split.
  - rewrite (dispatch_chooses mux 0%nat (ask 1) (question 1) _ www eq_refl (bytes_text _) www_labels). vm_compute. reflexivity.
  - rewrite (dispatch_chooses mux 0%nat (ask TypeDS) (question TypeDS) _ www eq_refl (bytes_text _) www_labels). vm_compute. reflexivity.
Defined.

Definition pattern : list byte := bytes "org".
Definition Pattern : list byte := bytes "Org".
Definition with_ (p : list byte) : ServeMux nat := {| mux_z := <[text (Fqdn p) := 3%nat]> (mux_z mux) |}.

Lemma Handle_effect_witness :
  match_ (with_ pattern) (bytes "ORG.") 1 = Some 3%nat /\ match_ (with_ Pattern) (bytes "Org.") 1 = None.
Proof.
  split.
  - apply (Handle_effect mux pattern 3%nat (with_ pattern)); [reflexivity..|discriminate].
  - rewrite (proj2 (Handle_effect mux Pattern 3%nat (with_ Pattern) eq_refl)); [|discriminate]. vm_compute. reflexivity.
Defined.

Lemma name_labels_witness :
  SplitDomainName (nameOf www) = Ret www /\ CountLabel (nameOf www) = 3
  /\ CompareDomainName (nameOf www) (bytes "mail.EXA\.MPLE.com.") = Ret 2.
Proof.
  destruct (name_labels www www_labels) as (H1 & H2 & _ & H4). split; [done|]. split; [done|].
  exact (H4 (labels ["mail"; "EXA\.MPLE"; "com"]%string) ltac:(repeat (apply Forall_cons; split; [split; [discriminate|reflexivity]|]); apply Forall_nil; exact I)).
Defined.
End MuxExample.
