(* ===== verification/DnsWorkers.v ===== *)
(** * The workers of the DNS server

    [spawnWorker] and [worker] of [server.go] as a transition system: a message
    is handed to a worker that waits on the queue, or to a new goroutine; a
    goroutine serves it, tries to join the pool, and serves what it finds on the
    queue until it has been idle for long enough or the queue is closed. *)

From Stdlib Require Import ZArith Lia Strings.String.
From stdpp Require Import base numbers strings list relations.
From S2P Require Import Prelude.

Open Scope Z_scope.

Section pool.
Context {M : Type}.

Definition maxWorkersCount : Z := 10000.

(** Where a goroutine is: in [srv.serve], for its first message or in the loop;
    before and behind [atomic.LoadInt32]; in the [select], with [inUse]. *)
Inductive worker :=
  | Serving (m : M) (inLoop : bool)
  | Counting
  | Counted (count : Z)
  | Waiting (inUse : bool).

(** [spawned] and [served] are the messages so far. *)
Record pool := {
  workers : list worker;
  workersCount : Z;
  closed : bool;
  spawned : list M;
  served : list M
}.

Definition set_workers (p : pool) (ws : list worker) (n : Z) : pool :=
  {| workers := ws; workersCount := n; closed := closed p; spawned := spawned p; served := served p |}.

Definition emptyPool : pool :=
  {| workers := []; workersCount := 0; closed := false; spawned := []; served := [] |}.

Inductive pool_step (p : pool) : pool -> Prop :=
  (* spawnWorker: a receiver is ready *)
  | spawn_queue i inUse m :
      closed p = false -> workers p !! i = Some (Waiting inUse) ->
      pool_step p {| workers := <[i := Serving m true]> (workers p); workersCount := workersCount p;
                     closed := false; spawned := m :: spawned p; served := served p |}
  (* spawnWorker: the default case; a worker may not have entered its select yet *)
  | spawn_go m :
      closed p = false ->
      pool_step p {| workers := workers p ++ [Serving m false]; workersCount := workersCount p;
                     closed := false; spawned := m :: spawned p; served := served p |}
  (* srv.serve(w) returns *)
  | serve_done i m inLoop :
      workers p !! i = Some (Serving m inLoop) ->
      pool_step p {| workers := <[i := if inLoop then Waiting true else Counting]> (workers p);
                     workersCount := workersCount p; closed := closed p;
                     spawned := spawned p; served := m :: served p |}
  | load i :
      workers p !! i = Some Counting ->
      pool_step p (set_workers p (<[i := Counted (workersCount p)]> (workers p)) (workersCount p))
  (* count > maxWorkersCount *)
  | too_many i count :
      workers p !! i = Some (Counted count) -> maxWorkersCount < count ->
      pool_step p (set_workers p (delete i (workers p)) (workersCount p))
  (* CompareAndSwapInt32 *)
  | swapped i :
      workers p !! i = Some (Counted (workersCount p)) -> workersCount p <= maxWorkersCount ->
      pool_step p (set_workers p (<[i := Waiting false]> (workers p)) (workersCount p + 1))
  | not_swapped i count :
      workers p !! i = Some (Counted count) -> count <= maxWorkersCount -> count <> workersCount p ->
      pool_step p (set_workers p (<[i := Counting]> (workers p)) (workersCount p))
  (* the timer *)
  | idle_reset i :
      workers p !! i = Some (Waiting true) ->
      pool_step p (set_workers p (<[i := Waiting false]> (workers p)) (workersCount p))
  | idle_leave i :
      workers p !! i = Some (Waiting false) ->
      pool_step p (set_workers p (delete i (workers p)) (workersCount p - 1))
  (* the queue is closed *)
  | closed_leave i inUse :
      closed p = true -> workers p !! i = Some (Waiting inUse) ->
      pool_step p (set_workers p (delete i (workers p)) (workersCount p - 1))
  | close_queue :
      closed p = false ->
      pool_step p {| workers := workers p; workersCount := workersCount p; closed := true;
                     spawned := spawned p; served := served p |}.

(** ** The invariant *)

(** The workers that are counted, and the message a worker has in hand. *)
Definition registered (w : worker) : bool :=
  match w with Serving _ inLoop => inLoop | Waiting _ => true | _ => false end.

Definition in_hand (w : worker) : option M :=
  match w with Serving m _ => Some m | _ => None end.

Definition members (ws : list worker) : nat := length (filter (fun w => registered w = true) ws).

Record pool_ok (p : pool) : Prop := {
  ok_count : workersCount p = Z.of_nat (members (workers p));
  ok_bound : workersCount p <= maxWorkersCount + 1;
  ok_served : spawned p ≡ₚ served p ++ omap in_hand (workers p)
}.

Lemma split_at (ws : list worker) i w :
  ws !! i = Some w -> exists l k, ws = l ++ w :: k /\ length l = i.
Proof.
  intros H. exists (take i ws), (drop (S i) ws). rewrite take_drop_middle by done.
  split; [done|]. apply length_take_le. apply lookup_lt_Some in H. lia.
Qed.

Lemma members_app l k : members (l ++ k) = (members l + members k)%nat.
Proof. unfold members. by rewrite filter_app, length_app. Qed.

Lemma members_cons w k : members (w :: k) = ((if registered w then 1 else 0) + members k)%nat.
Proof. unfold members. rewrite filter_cons. destruct (registered w) eqn:E; case_decide; simpl; congruence || done. Qed.

Lemma insert_here (l k : list worker) w v : <[length l := v]> (l ++ w :: k) = l ++ v :: k.
Proof. rewrite insert_app_r_alt by lia. by rewrite Nat.sub_diag. Qed.

Ltac at_worker H :=
  let l := fresh "l" in let k := fresh "k" in let E := fresh "E" in
  destruct (split_at _ _ _ H) as (l & k & E & <-); clear H; rewrite E in *;
  rewrite ?insert_here, ?delete_middle in *.

Lemma pool_step_ok p p' : pool_ok p -> pool_step p p' -> pool_ok p'.
Proof.
  intros [Hc Hb Hs] Hstep.
  destruct Hstep as [i u m Ho Hi|m Ho|i m b Hi|i Hi|i c Hi Hm|i Hi Hm|i c Hi Hm Hn|i Hi|i Hi|i u Ho Hi|Ho].
  all: try at_worker Hi.
  all: split; simpl; rewrite ?members_app, ?members_cons, ?omap_app in *; simpl in *; try lia.
  all: rewrite ?omap_app in *; simpl in *; try done.
  all: try (rewrite Hs; solve_Permutation).
  - by rewrite Nat.add_0_r.
  - by destruct b.
  - rewrite Hs. destruct b; simpl; solve_Permutation.
Qed.

Lemma emptyPool_ok : pool_ok emptyPool.
Proof. split; simpl; [done|unfold maxWorkersCount; lia|done]. Qed.

Lemma reachable_ok p : rtc pool_step emptyPool p -> pool_ok p.
Proof.
  intros H. assert (forall q q', rtc pool_step q q' -> pool_ok q -> pool_ok q') as Hind.
  { intros q q' Hr. induction Hr; eauto using pool_step_ok. }
  by apply (Hind emptyPool), emptyPool_ok.
Qed.

(** C21: In every reachable state of the pool the atomic counter is the number of
    goroutines that have joined it, at most one more than the stated maximum,
    and every message that was spawned has been served or is in the hands of
    exactly one goroutine: none is lost and none is served twice. *)
Theorem pool_invariant p :
  rtc pool_step emptyPool p ->
  workersCount p = Z.of_nat (members (workers p)) /\ 0 <= workersCount p <= maxWorkersCount + 1 /\
  spawned p ≡ₚ served p ++ omap in_hand (workers p).
Proof. intros [Hc Hb Hs]%reachable_ok. split_and!; [done|lia|done|done]. Qed.

(** ** Shutting down *)

(** From [p] the pool can get to [ws] with the queue closed. *)
Definition leads_to (p : pool) (ws : list worker) : Prop :=
  exists q, rtc pool_step p q /\ workers q = ws /\ closed q = true /\ spawned q = spawned p.

Lemma leads_to_step p q ws : pool_step p q -> spawned q = spawned p -> leads_to q ws -> leads_to p ws.
Proof.
  intros Hs He (r & Hr & Hw & Hc & Hsp). exists r. split_and!; [by eapply rtc_l|done|done|congruence].
Qed.

(** The first goroutine of a pool whose queue is closed can end, wherever it is. *)
Lemma waiting_ends p u ws : closed p = true -> workers p = Waiting u :: ws -> leads_to p ws.
Proof.
  intros Hc Hw. eapply leads_to_step; [apply (closed_leave p 0 u Hc); by rewrite Hw|done|].
  eexists. split; [reflexivity|]. simpl. by rewrite Hw.
Qed.

Lemma counted_now_ends p ws :
  closed p = true -> workers p = Counted (workersCount p) :: ws -> leads_to p ws.
Proof.
  intros Hc Hw. destruct (decide (workersCount p <= maxWorkersCount)) as [Hm|Hm].
  - eapply leads_to_step; [apply (swapped p 0); [by rewrite Hw|done]|done|].
    eapply waiting_ends; [done|]. simpl. by rewrite Hw.
  - eapply leads_to_step; [eapply (too_many p 0); [by rewrite Hw|lia]|done|].
    eexists. split; [reflexivity|]. simpl. by rewrite Hw.
Qed.

Lemma counting_ends p ws : closed p = true -> workers p = Counting :: ws -> leads_to p ws.
Proof.
  intros Hc Hw. eapply leads_to_step; [apply (load p 0); by rewrite Hw|done|].
  apply counted_now_ends; [done|]. simpl. by rewrite Hw.
Qed.

Lemma first_ends p w ws : closed p = true -> workers p = w :: ws -> leads_to p ws.
Proof.
  intros Hc Hw. destruct w as [m inLoop| |count|u].
  - eapply leads_to_step; [eapply (serve_done p 0); by rewrite Hw|done|].
    destruct inLoop; [eapply waiting_ends|apply counting_ends]; simpl; by rewrite ?Hw.
  - by apply counting_ends.
  - destruct (decide (count = workersCount p)) as [->|Hn]; [by apply counted_now_ends|].
    destruct (decide (count <= maxWorkersCount)) as [Hm|Hm].
    + eapply leads_to_step; [eapply (not_swapped p 0); [by rewrite Hw|done|done]|done|].
      apply counting_ends; [done|]. simpl. by rewrite Hw.
    + eapply leads_to_step; [eapply (too_many p 0); [by rewrite Hw|lia]|done|].
      eexists. split; [reflexivity|]. simpl. by rewrite Hw.
  - by eapply waiting_ends.
Qed.

Lemma all_end p : closed p = true -> leads_to p [].
Proof.
  intros Hc. remember (workers p) as ws eqn:Hw. revert p Hc Hw.
  induction ws as [|w ws IH]; intros p Hc Hw; [by exists p|].
  destruct (first_ends p w ws Hc (eq_sym Hw)) as (q & Hr & Hq & Hcq & Hs).
  destruct (IH q Hcq (eq_sym Hq)) as (r & Hr' & Hw' & Hc' & Hs'). exists r.
  split_and!; [by etrans|done|done|congruence].
Qed.

(** Once the queue is closed the pool can always drain: from every reachable
    state there is a run to one without goroutines, in which the counter is back
    at zero and every message that was spawned has been served. *)
Theorem pool_drains p :
  rtc pool_step emptyPool p -> closed p = true ->
  exists q, rtc pool_step p q /\ workers q = [] /\ workersCount q = 0 /\
    spawned q = spawned p /\ spawned q ≡ₚ served q.
Proof.
  intros Hp Hc. destruct (all_end p Hc) as (q & Hq & Hw & _ & Hs). exists q.
  assert (pool_ok q) as [Hcount _ Hserved] by (apply reachable_ok; by etrans).
  rewrite Hw in *. split_and!; try done. by rewrite app_nil_r in Hserved.
Qed.

(** ** The bound is reached *)

(** [n] messages, each served by a goroutine of its own that has not joined yet. *)
Lemma spawn_many (m : M) n :
  exists p, rtc pool_step emptyPool p /\ workers p = replicate n Counting /\ workersCount p = 0 /\ closed p = false.
Proof.
  induction n as [|n (p & Hp & Hw & Hn & Hc)]; [by exists emptyPool|].
  eexists. split.
  { eapply rtc_r; [eapply rtc_r; [exact Hp|apply (spawn_go p m Hc)]|].
    apply (serve_done _ n m false). simpl. rewrite Hw, lookup_app_r; rewrite length_replicate; [|lia].
    by rewrite Nat.sub_diag. }
  simpl. split_and!; [|done..]. rewrite Hw, insert_app_r_alt; rewrite length_replicate; [|lia].
  rewrite Nat.sub_diag. simpl insert.
  by rewrite <- replicate_S_end.
Qed.

Lemma join_many k j p :
  workers p = replicate j (Waiting false) ++ replicate k Counting -> workersCount p = Z.of_nat j ->
  Z.of_nat (j + k) <= maxWorkersCount + 1 ->
  exists q, rtc pool_step p q /\ workersCount q = Z.of_nat (j + k).
Proof.
  revert j p. induction k as [|k IH]; intros j p Hw Hn Hm; [exists p; by rewrite Nat.add_0_r|].
  assert (workers p !! j = Some Counting) as Hj
    by (rewrite Hw, lookup_app_r; rewrite length_replicate; [by rewrite Nat.sub_diag|lia]).
  set (p1 := set_workers p (<[j := Counted (workersCount p)]> (workers p)) (workersCount p)).
  assert (workers p1 !! j = Some (Counted (workersCount p1))) as Hj1
    by (apply list_lookup_insert_eq; by apply lookup_lt_Some in Hj).
  set (p2 := set_workers p1 (<[j := Waiting false]> (workers p1)) (workersCount p1 + 1)).
  destruct (IH (S j) p2) as (q & Hq & Hqn).
  - simpl. rewrite list_insert_insert_eq, Hw, insert_app_r_alt; rewrite length_replicate; [|lia].
    rewrite Nat.sub_diag. simpl insert. change (replicate (S j) (Waiting false) ++ replicate k Counting) with
      (Waiting false :: replicate j (Waiting false) ++ replicate k Counting).
    by rewrite cons_middle, app_assoc, <- replicate_S_end.
  - simpl. lia.
  - lia.
  - exists q. split; [|by rewrite Hqn, Nat.add_succ_r].
    eapply rtc_l; [by apply (load p j)|]. eapply rtc_l; [apply (swapped p1 j Hj1)|done]. simpl. lia.
Qed.

(** The stated maximum is exceeded: the test before the counter is incremented
    lets one more goroutine join than [maxWorkersCount]. *)
Theorem pool_exceeds_maximum (m : M) :
  exists p, rtc pool_step emptyPool p /\ workersCount p = maxWorkersCount + 1.
Proof.
  destruct (spawn_many m (Z.to_nat (maxWorkersCount + 1))) as (p & Hp & Hw & Hn & _).
  destruct (join_many (Z.to_nat (maxWorkersCount + 1)) 0 p) as (q & Hq & Hqn); [done|done|unfold maxWorkersCount; lia|].
  exists q. split; [by etrans|]. rewrite Hqn. unfold maxWorkersCount. lia.
Qed.
End pool.

(** ** Runs *)

(** A message served by a goroutine that has joined the pool, and a second one
    in its hands when the queue is closed. *)
Module PoolExample.
Definition busy : pool :=
  {| workers := [Serving "b" true]; workersCount := 1; closed := true; spawned := ["b"; "a"]; served := ["a"] |}.
End PoolExample.

Lemma busy_reachable : rtc pool_step emptyPool PoolExample.busy.
Proof.
  eapply rtc_l; [by apply (spawn_go emptyPool "a")|].
  eapply rtc_l; [apply (serve_done _ 0 "a" false); reflexivity|].
  eapply rtc_l; [apply (load _ 0); reflexivity|].
  eapply rtc_l; [apply (swapped _ 0); [reflexivity|done]|].
  eapply rtc_l; [apply (spawn_queue _ 0 false "b"); reflexivity|].
  eapply rtc_l; [apply close_queue; reflexivity|]. reflexivity.
Qed.

Lemma pool_invariant_witness :
  spawned PoolExample.busy ≡ₚ served PoolExample.busy ++ omap in_hand (workers PoolExample.busy).
Proof. exact (proj2 (proj2 (pool_invariant PoolExample.busy busy_reachable))). Defined.

Lemma pool_drains_witness :
  exists q, rtc pool_step PoolExample.busy q /\ workers q = [] /\ workersCount q = 0 /\
    spawned q = ["b"; "a"] /\ spawned q ≡ₚ served q.
Proof. exact (pool_drains PoolExample.busy busy_reachable eq_refl). Defined.
