(* ===== verification/DnsDefects.v ===== *)
(** * Messages that are not packed as they should be

    Extended return codes below 256, which are never sent; runs of the model on
    other messages the packing mishandles, and on replies of the forwarder that
    do not reach the client. *)

From Stdlib Require Import ZArith Lia NArith Ascii Strings.Byte Strings.String.
From stdpp Require Import base numbers gmap strings list fin_maps.
From coqutil Require Import Datatypes.RecordSetters.
From S2P Require Import Prelude GoNet Endian BridgeServices DnsRR Dns DnsName DnsField DnsZmsg DnsMsg DnsRoundTrip DnsPackSafety DnsServer.

Import RecordSetters.TriangleBracketNotations.

Open Scope Z_scope.

(** ** Extended return codes *)

(** The last record of type OPT has options. *)
Definition ends_with_opt (rrs : list RR) : Prop :=
  exists l rr k options, rrs = l ++ rr :: k /\ Rrtype (Hdr rr) = TypeOPT /\ Data rr = RR_OPT options /\
    Forall (fun x => Rrtype (Hdr x) <> TypeOPT) k.

(** The upper bits of the code are dropped when they are a number below 16. *)
Lemma setEdns0Rcode_ignores v rrs :
  v < RcodeBadVers -> ends_with_opt rrs -> setEdns0Rcode v (reverse rrs) = Ok (Some (reverse rrs)) 0.
Proof.
  intros Hv (l & rr & k & options & -> & Hty & Hd & Hk).
  rewrite reverse_app, reverse_cons, <- app_assoc. simpl. apply Forall_reverse in Hk.
  induction Hk as [|x k' Hx _ IH]; cbn [app setEdns0Rcode].
  - rewrite decide_True, Hd by done. unfold SetExtendedRcode. rewrite decide_True by done.
    destruct rr. simpl in *. by subst.
  - rewrite decide_False by done. cbn [andThen]. by rewrite IH.
Qed.

Lemma headerBits_rcode m r :
  Z.land (Rcode m) 0xF = Z.land r 0xF -> headerBits (m <| Rcode := r |>) = headerBits m.
Proof. intros H. destruct m. unfold headerBits. simpl in *. unfold constant. by rewrite H. Qed.

(** Only the low bits of the code are in the bytes. *)
Lemma packPieces_rcode m r b :
  Z.land (Rcode m) 0xF = Z.land r 0xF ->
  packPieces m b =
  (let! x, off := packPieces (m <| Rcode := r |>) b in Ok (x.1 <| Rcode := Rcode m |>, x.2) off).
Proof.
  intros H. apply headerBits_rcode in H. unfold packPieces. rewrite H. destruct m. cbn -[headerBits packMsgHdr
    packQuestions packSection uint16]. unfold constant.
  destruct (packMsgHdr _ _ _) as [? ?|? ?|?|]; cbn [andThen]; [|done..].
  destruct (packQuestions _ _ _ _) as [? ?|? ?|?|]; cbn [andThen]; [|done..].
  do 3 (destruct (packSection _ _ _ _) as [? ?|? ?|?|]; cbn [andThen]; [|done..]).
  done.
Qed.

Lemma Pack_rcode m :
  RcodeBadVers <= Rcode m < 256 -> ends_with_opt (Extra m) ->
  Pack m = (let! x, off := Pack (m <| Rcode := Rcode m mod 16 |>) in Ok (x.1, x.2 <| Rcode := Rcode m |>) off).
Proof.
  unfold RcodeBadVers. intros Hr Ho. pose proof (Z.mod_pos_bound (Rcode m) 16 ltac:(lia)) as Hm.
  assert (Z.land (Rcode m) 0xF = Z.land (Rcode m mod 16) 0xF) as Hl.
  { change 0xF with (Z.ones 4). rewrite !Z.land_ones by lia. by rewrite Zmod_mod. }
  pose proof (packPieces_rcode m _ (replicate (uncompressedLen m + 1) Byte.x00,
    if Compress m then Some ∅ else None) Hl) as Hp.
  assert (Z.shiftr (Rcode m) 4 < 16) by (rewrite Z.shiftr_div_pow2 by lia; apply Z.div_lt_upper_bound; lia).
  assert (m <| Extra := Extra m |> = m) as He by by destruct m.
  set (m0 := m <| Rcode := Rcode m mod 16 |>) in *.
  assert (Rcode m0 = Rcode m mod 16 /\ Compress m0 = Compress m /\ uncompressedLen m0 = uncompressedLen m)
    as (Hr0 & Hc0 & Hu0) by by destruct m.
  unfold Pack, packBufferWithCompressionMap. rewrite Hr0, Hc0.
  rewrite (decide_False (P := Rcode m < 0 \/ _)) by lia. rewrite (decide_True (P := 15 < Rcode m)) by lia.
  rewrite (decide_False (P := Rcode m mod 16 < 0 \/ _)) by lia. rewrite decide_False by lia.
  rewrite rev_reverse, setEdns0Rcode_ignores by done. cbn [andThen].
  rewrite rev_reverse, reverse_involutive, He, Hu0.
  rewrite decide_True by (simpl; lia). rewrite Hp. clearbody m0.
  destruct (packPieces m0 _) as [[m1 [b c]] off|? ?|?|]; cbn [andThen fst snd]; [|done..].
  unfold cut. by case_decide.
Qed.

(** C27: An extended return code below 256 never reaches the other side: although
    the message has an OPT record to carry its upper bits, packing gives the
    bytes of the low four bits only, so what is read back is the message with
    the code modulo 16 (BADVERS is read as success, BADKEY as FORMERR). *)
Theorem extended_rcode_lost m :
  RcodeBadVers <= Rcode m < 256 -> ends_with_opt (Extra m) -> wf_Msg (m <| Rcode := Rcode m mod 16 |>) ->
  exists b m', Pack m = Ok (b, m') (length b) /\ same_message m m' /\
    Unpack emptyMsg b = Ok (norm_Msg (m' <| Rcode := Rcode m mod 16 |>), None) (length b).
Proof.
  intros Hr Ho Hm. destruct (Pack_reads_back _ Hm) as (b & m' & Hp & (an & ns & ex & -> & Hs) & Hu & _).
  exists b, (with_sections m an ns ex). split_and!.
  - rewrite Pack_rcode, Hp by done. by destruct m.
  - exists an, ns, ex. by destruct m.
  - rewrite Hu. by destruct m.
Qed.

(** A bad version, in a message with an OPT record. *)
Lemma extended_rcode_lost_witness :
  exists b m', Pack extended = Ok (b, m') (length b) /\ same_message extended m' /\
    Unpack emptyMsg b = Ok (norm_Msg (m' <| Rcode := RcodeSuccess |>), None) (length b).
Proof.
  apply (extended_rcode_lost extended); [split; reflexivity| |exact RoundTripExample.sample_wf].
  eexists [], _, [], _. split_and!; [reflexivity..|constructor].
Defined.

Module DefectExample.
Definition header (nm : string) (t : Z) : RR_Header :=
  {| RR_Name := nm; Rrtype := t; RR_Class := ClassINET; Ttl := 0; Rdlength := 0 |}.

Definition message (compress : bool) (rcode : Z) (an ex : list RR) : Msg :=
  {| Id := 1; Response := true; Opcode := OpcodeQuery; Authoritative := false; Truncated := false;
     RecursionDesired := false; RecursionAvailable := false; Zero := false; AuthenticatedData := false;
     CheckingDisabled := false; Rcode := rcode; Compress := compress; Msg_Question := [];
     Answer := an; Msg_Ns := []; Extra := ex |}.

Definition address : rdata := RR_A (net.ParseIP "192.0.2.1").

(** What the receiver makes of a packed message. *)
Definition received (m : Msg) : option (Z * list string * list rdata) :=
  match Pack m with
  | Ok (b, _) _ =>
      match Unpack emptyMsg b with
      | Ok (x, None) _ => Some (Rcode x, (fun rr => RR_Name (Hdr rr)) <$> Answer x, Data <$> Answer x)
      | _ => None
      end
  | _ => None
  end.

(** Two windows of types, then a record that ends with a name. *)
Definition bitmaps : Msg :=
  message false 0 [mkRR (header "a." TypeNSEC) (RR_NSEC "a." [255; 511]);
                   mkRR (header "a." TypePTR) (RR_PTR "b.")] [].

Definition many_windows : Msg :=
  message false 0 [mkRR (header "a." TypeNSEC) (RR_NSEC "a." [255; 511; 767; 1023])] [].

(** An escaped byte before a suffix that looks like a name with an escaped dot. *)
Definition suffixes : Msg :=
  message true 0 [mkRR (header "a\.b." TypeA) address; mkRR (header "\@.a.b." TypeA) address] [].

(** Twelve names, each a label in front of the one before. *)
Fixpoint nested (n : nat) : list string :=
  match n with
  | O => ["a."]
  | S n => "a." :: ((fun s => "b." +:+ s) <$> nested n)
  end.

Definition chain : Msg := message true 0 ((fun s => mkRR (header s TypeA) address) <$> nested 11) [].

(** An IPv6 address in a record for IPv4. *)
Definition wrong_family : Msg := message false 0 [mkRR (header "a." TypeA) (RR_A (net.ParseIP "::1"))] [].
End DefectExample.

(** Packing panics on a message with two windows of types whose last record
    ends with a name, and refuses a lone record with four windows, since [len]
    reserves 33 bytes for a window that takes 34; with compression a name with an
    escape is sent as another name, and a chain of twelve names as one of pointers
    that the unpacking refuses; an IPv6 address in an A record is sent as 0.0.0.0. *)
Lemma Pack_defects :
  Pack DefectExample.bitmaps = Crash SliceOutOfRange /\
  (exists off e, Pack DefectExample.many_windows = Fail off e) /\
  DefectExample.received DefectExample.suffixes =
    Some (0, ["a\.b."; "\@.a\.b."], (fun _ => RR_A (net.To4 (net.ParseIP "192.0.2.1"))) <$> [0; 0]) /\
  DefectExample.received DefectExample.chain = None /\
  DefectExample.received DefectExample.wrong_family =
    Some (0, ["a."], [RR_A [Byte.x00; Byte.x00; Byte.x00; Byte.x00]]).
Proof. split_and!; [| eexists _, _| | |]; vm_compute; reflexivity. Qed.

(** An upstream answer with a string of 256 bytes. *)
Definition long_text (url : string) : dnsResponse + error :=
  inl {| DNS_Status := 0; DNS_Question := [];
         DNS_Answer := [{| DR_Name := "example.com."; DR_Type := TypeTXT; DR_TTL := 30;
                           DR_Data := text (replicate 256 "x"%byte) |}];
         DNS_Authority := []; DNS_Additional := [] |}.

(** A name that is not fully qualified. *)
Definition bare_target (url : string) : dnsResponse + error :=
  inl {| DNS_Status := 0; DNS_Question := [];
         DNS_Answer := [{| DR_Name := "example.com."; DR_Type := TypeCNAME; DR_TTL := 30;
                           DR_Data := "www.example.com" |}];
         DNS_Authority := []; DNS_Additional := [] |}.

(** When a record of the upstream answer cannot be packed (a text of more than
    255 bytes, a target without its last dot) the client gets no reply at all. *)
Theorem unpackable_reply_is_lost :
  serveDNS (ServeDNS DnsExample.get long_text Example.handler0) false
    (ServerExample.query_bytes "example.com." TypeTXT) 0%nat = Ok ([], 1%nat) 0 /\
  serveDNS (ServeDNS DnsExample.get bare_target Example.handler0) false
    (ServerExample.query_bytes "example.com." TypeA) 0%nat = Ok ([], 1%nat) 0.
Proof. split; vm_compute; reflexivity. Qed.
